(* ===== verification/_CoqProject ===== *)
-Q . S2P
Prelude.v
IpKeys.v
Msg.v
ChatMsg.v
Config.v
Session.v
IfSession.v
TcpSession.v
TcpSend.v
TcpRace.v
TcpRecv.v
ByteStream.v
IpcSession.v
UdpSession.v
LegacySession.v
Singleton.v
IoServicePool.v
TcpServer.v
ServerInv.v
ServerProps.v
ServerRace.v
Programs.v
Redis.v
HiredisTrials.v
ChatServer.v
ChatProps.v
ChatRoom.v
ChatRelay.v
ChatFaults.v
ChatClient.v
ChatMain.v
ChatSystem.v
ChatNetwork.v
NetworkInv.v
NetworkProps.v
NetworkLive.v
PartyServer.v
PartyInv.v
PartyProps.v
LegacyClient.v
LegacyProps.v
LegacyMain.v
LegacyParty.v
LegacyServer.v
WorldServer.v
