(* ===== verification/Prelude.v ===== *)
(** * torinet: a verification development

    torinet is a small C++ network library on boost::asio (src/Src) with a chat
    server (src/chat_server) and a chat client (src/chat_client) on top of it,
    and an older party server (src/server) with its client (src/client), which
    the build does not compile.
    A message is an 8-byte header and a body of at most 1024 bytes; a
    TcpSession reads such messages one after the other and writes a queue of
    them; a TcpServer accepts sessions up to a capacity and numbers them from a
    pool of ids; the chat server relays every notification to all other
    sessions and counts its length in redis.

    ** How the files correspond to the program

    - Prelude (this file): machine integers with their wrap-around, undefined
      behaviour and exceptions as outcomes of a state monad [M], triples [wp]
      and [wlp], components of a process state ([Field], [Separate]), byte and
      C-string memory, [std::map] in key order, reachability.
    - IpKeys: include/com.h, integer helpers, time, filters and tuple keys.
    - Msg: include/Msg.h, include/MsgId.h.  A [Msg] is its header fields and its
      body bytes; [bytes_of_msg] is the object in memory, [store] and [load]
      what asio does to it, [frame] what goes on the wire.
    - ChatMsg: include/ChatMsg.h, include/ChatMsgId.h; the names they use and no
      file they include declares are the class [Undeclared].
    - Config: Src/Config.h and the configuration of chat_server/main.cpp.
    - Session: Src/Session.h, the abstract class as the classes [Session] and
      [StartSession], its contract [SessionLaws], callbacks as closures.
    - IfSession, IpcSession, UdpSession: Src/IfSession.h, Src/IpcSession.h/.cpp,
      Src/IpcServer.h, Src/UdpSession.h/.cpp, sessions on local stream and
      datagram sockets.
    - TcpSession, TcpSend, TcpRecv: Src/TcpSession.h/.cpp; the record and every
      operation, then the send path and the receive path.
      [TcpSession_SessionLaws] (in TcpSend) discharges the contract.
    - ByteStream: the bytes of a connection as frames sent and frames received,
      by part of the session ([tx_part], [rx_part]).
    - TcpRace: the send path again, [send] and [handleWrite] cut into the
      statements that touch shared members, with any number of threads.
    - IoServicePool: Src/IoServicePool.h/.cpp, threads as counts.
    - TcpServer, ServerInv, ServerProps: Src/TcpServer.h/.cpp; the operations,
      the invariant that every event preserves, the theorems on reachable states.
    - ServerRace: the accesses of the server's handlers to its two tables and
      their lock, for any number of handlers on different threads, at most one
      of them an accept ([one_accept]: the next is started at its end).
    - Singleton: Src/Singleton.h, for any class and any number of threads.
    - Redis: chat_server/Redis.h/.cpp, with hiredis as the class [Hiredis].
    - HiredisTrials: test_hiredis/test.cpp and test2.cpp over [HiredisApi], with
      the live replies and contexts as state.
    - Programs: what the [main] functions share (ends, options, client names).
    - ChatServer, ChatProps, ChatRoom, ChatRelay, ChatFaults:
      chat_server/ChatServer.h/.cpp; the handlers against the [Session]
      interface, their laws on a running server, the server as an abstract room
      (its specification and the refinement), the end-to-end relay, the inputs
      that break it.
    - ChatClient: chat_client/Client.h/.cpp, Cli.h/.cpp, main.cpp (readLine).
    - ChatMain: [main] of chat_server/main.cpp and chat_client/main.cpp, and
      the client's signal handler.
    - ChatSystem: a client, the server and another client composed, from the
      line typed to the bytes in the last one's message object.
    - ChatNetwork, NetworkInv, NetworkProps, NetworkLive: a server and any number of clients
      in one state with the byte streams between them, every action a step
      ([net_exec], [net_step]); a read takes any part of what it asked for
      ([read_bytes]), and whether all were whole so far is history of the
      connection; the invariant that every step preserves; what holds of every
      reachable network, a run of one and one with a short read, and that a
      connection without short reads can be brought to have delivered everything.
    - PartyServer, PartyInv, PartyProps: server/HandleMsg.cpp (chat_server has
      the same file), Character.h/.cpp, the commented-out methods of Room.cpp,
      and what the handlers use of the disabled half of TcpServer.h/.cpp; the
      handlers, the invariant of their tables, the theorems.  What no file
      declares is a parameter: [PartyProtocol] (ids and layouts),
      [PartySessions] (session methods), [RoomOps].  The laws of the session's
      methods hold of an [asyncSend(Msg&)] that sends and of the empty one of
      TcpSession.cpp; where a reply is spoken of, [AsyncSends] is named.
    - LegacyClient, LegacyProps: client/Client.h/.cpp and Cli.cpp, against the
      same parameters, [ClientProtocol] and [ClientSessions].
    - LegacySession: the half of Src/TcpSession.cpp behind [#if 0], the session
      the party programs were written for, on the interface of IfSession.  Its
      writes are started and never complete: their handler is not in the source.
    - LegacyMain: client/main.cpp (shell, signal handler, [main]) and the table of
      client/Cli.h, and the client's handler on LegacySession.
    - LegacyParty: the party server's handlers on LegacySession.
    - LegacyServer: the constructors, the accept handler and the statistics timer,
      with its rates in double precision, of the parts of Src/TcpServer.h/.cpp
      behind [#if 0].
    - WorldServer: server/WorldServer.h/.cpp and server/main.cpp.

    An operation of the code is a command of [M W], where [W] is the state of
    the process; a component is reached through its [Field] in [W].  Objects
    behind shared pointers live in a heap indexed by [ptr], so aliasing is
    kept.  An asynchronous operation adds an entry to the outstanding
    operations of its socket; the [complete_...] commands are the service
    running the oldest completion handler, with the error code and the bytes
    the service chose; [read_completion], [write_completion] and their like say
    what the asio documentation allows it to choose.  A server execution is any
    sequence of such events ([server_step], [reach]); [running] is what holds of
    every state a listening server can reach.

    ** What the theorems show

    - Wire format: the header layout is a bijection, an encoded message is
      accepted and framed exactly, what checkHeader accepts.
    - Sessions: the send queue is a FIFO byte channel that drains; the receive
      path decodes any stream of frames if every read takes all it asked for,
      which [async_read_some] does not promise; where the code fails (failed
      writes, short reads, negative lengths, silent disconnects) the theorem
      says what happens instead.
    - Server: an invariant of all reachable states, the events that can be
      undefined, accepting, closing, stopping, restarting, running out of
      capacity, threads per accept.
    - Threads: one call at a time, the statements refine the atomic operations;
      calls excluded from overlapping keep the channel FIFO; overlapping calls
      can lose a wake-up or leave a write on a popped element; which handlers
      of the server race on its tables, and that relays race with none.
    - Network: whatever is interleaved, delayed or cut short, the server is the
      room of what its callbacks are given.  As long as no read has completed
      with fewer bytes than asked for, each side is given in order and once what
      the other has sent, every message received is a line some other client
      typed, no handler of a server whose clients are this program fails, and
      finitely many completions of a connection that has not failed deliver all
      that was typed to the server, and all that was said to the client.  One
      short read is enough for a client to be given what nobody typed.
    - Chat: the server refines a room, and so delivers to every session, in
      order and once, what the others say while it is listed (ChatRoom); lines
      typed at one client reach the others (ChatSystem); broadcast
      of one message and relay of a whole stream, read whole, through the session and server
      layers, the shape of redis commands, start-up, malformed texts and
      lengths.
    - Client: the commands produce what the server relays; received messages are
      discarded; the start loop ends exactly for thread counts below 2^15.
    - Party server: every handler keeps the tables consistent and is safe but
      for malformed texts and lengths; login, party creation, messages to a
      party, echo, disconnection, and what leaving a room really does.
    - Its client: requests decode on the server to what was meant, the echo
      command's bounds, the rate of a transmission, what [main] sets up, that a
      client on the older session follows the parties it is told of, and that a
      failed client ends the shell, after the line it waits for at the latest.
    - The older session and server: streams with refused headers, what a refused
      message's body does, that the party server never answers on it, the
      statistics timer, which logs the rate of the bytes of each minute but for
      those counted between a log and the assignments after it; the world
      server never serves.
    - IPC and UDP sessions: delivery without a header check, bounds, writes as
      transfers from a live buffer, datagram dispatch, replies sent from the
      receive buffer.
    - ChatMsg.h: with the names of Msg.h it is Msg; when encoding is undefined;
      the two limits have to agree.  The hiredis trials free what they get and
      fail only on answers without text; one object per singleton if its first
      calls do not overlap.
    - com.h: byte order, packing, time stamps, orders and hashes of the keys.

    ** Bounds and fuel

    [pump] takes the sizes its reads complete with, one per completion; the
    delivery theorems give those of [whole_reads], eight and the body's length
    for each message, and prove that all input is consumed;
    [short_read_misframes] gives it a short one.  [ipc_pump] takes a number of
    completions, twice the number of messages (that session reads with
    [async_read], whole buffers); [lg_pump] takes one per refused header and
    two per message.
    [fill_ids] recurses on a natural number that the constructor sets
    from the session limit.  [readLine], of either client, consumes its list of input lines.
    [for_int16], the loop with an [int16_t] counter, takes a number of
    iterations: [start_clients_ends] proves that the thread count is enough
    below 2^15 and that no number is from there on.  [leave_from] takes the
    count of the room, above which its loop does not go.  The exclusive
    schedules of TcpRace are lists of labels of any length.  Everything else is
    structural.

    ** What is not modelled

    Logging, option parsing and the steps of daemonising besides [fork];
    parallel execution of handlers other than the send path and the accesses to
    the server's tables (elsewhere a handler is one step);
    address reuse by the allocator (the heaps only grow); in ChatNetwork, a
    read that takes bytes and fails, which [async_read_some] does not do; what
    no file has any more of the older session and server: [startAccept],
    [setOwner], the ids and layouts of the party's messages are parameters with
    laws, and the [handleWrite] of the older session is left out, so nothing is
    said of what follows its writes.  The older [asyncSend(Msg&)] is in
    TcpSession.cpp with an empty body: LegacyParty has the party server on it,
    and the theorems that need a sending one have it as a hypothesis
    ([AsyncSends]).  The floating-point arithmetic of the older client is not
    modelled (the packet count of its [start] command is an argument), nor is
    the text that [%f] makes of the older server's rates.

    The [Incl.h] files are include lists and aliases.  Logging includes the
    macros and [initLog4cxx] of include/com.h.  Of the
    overlapping files, chat_server/HandleMsg.cpp is server/HandleMsg.cpp to the
    letter and is modelled once. *)
From stdpp Require Export base gmap strings list fin_maps sorting pretty.
From Stdlib Require Export ZArith Lia.
#[global] Open Scope Z_scope.

Declare Scope tori_scope.
Delimit Scope tori_scope with tori.
#[global] Open Scope tori_scope.

Create HintDb tori.
Create Rewrite HintDb wp.
Create Rewrite HintDb field.

(** ** Machine integers

    An integer of the program is a [Z] kept in the range of its C type; every
    assignment to a narrower type goes through one of the wraps below (the
    two's-complement conversions of the compilers the build uses). *)

Definition wrapU (w z : Z) : Z := z mod 2 ^ w.
Definition wrapS (w z : Z) : Z := (z + 2 ^ (w - 1)) mod 2 ^ w - 2 ^ (w - 1).

Abbreviation u8 := (wrapU 8).
Abbreviation u16 := (wrapU 16).
Abbreviation u32 := (wrapU 32).
Abbreviation u64 := (wrapU 64).
Abbreviation i8 := (wrapS 8).
Abbreviation i16 := (wrapS 16).
Abbreviation i32 := (wrapS 32).
(** Conversion of an [int] to [size_t] on a 64-bit target. *)
Abbreviation size_t := (wrapU 64).

Definition in_u (w z : Z) : Prop := 0 <= z < 2 ^ w.
Definition in_s (w z : Z) : Prop := - 2 ^ (w - 1) <= z < 2 ^ (w - 1).

#[export] Instance in_u_dec w z : Decision (in_u w z).
Proof. unfold in_u. apply _. Defined.
#[export] Instance in_s_dec w z : Decision (in_s w z).
Proof. unfold in_s. apply _. Defined.

Lemma pow2_split w : 0 < w → 2 ^ w = 2 * 2 ^ (w - 1).
Proof. intros. rewrite <- Z.pow_succ_r by lia. f_equal. lia. Qed.

Lemma wrapU_id w z : in_u w z → wrapU w z = z.
Proof. intros ?. apply Z.mod_small. done. Qed.

Lemma wrapU_range w z : 0 <= w → in_u w (wrapU w z).
Proof. intros. apply Z.mod_pos_bound, Z.pow_pos_nonneg; lia. Qed.

Lemma wrapU_neg w z : 0 <= w → - 2 ^ w <= z < 0 → wrapU w z = z + 2 ^ w.
Proof.
  intros. unfold wrapU. rewrite <- (Z.mod_add _ 1) by lia. rewrite Z.mul_1_l. apply Z.mod_small. lia.
Qed.

Lemma wrapS_id w z : 0 < w → in_s w z → wrapS w z = z.
Proof.
  unfold in_s, wrapS. intros Hw Hz. pose proof (pow2_split w Hw).
  rewrite Z.mod_small; lia.
Qed.

Lemma wrapS_range w z : 0 < w → in_s w (wrapS w z).
Proof.
  unfold in_s, wrapS. intros Hw. pose proof (pow2_split w Hw).
  pose proof (Z.mod_pos_bound (z + 2 ^ (w - 1)) (2 ^ w)).
  pose proof (Z.pow_pos_nonneg 2 w). lia.
Qed.

Lemma wrapS_wrapU w z : 0 < w → wrapS w (wrapU w z) = wrapS w z.
Proof.
  intros. unfold wrapS, wrapU. by rewrite Zplus_mod_idemp_l.
Qed.

Lemma wrapU_wrapS w z : 0 < w → wrapU w (wrapS w z) = wrapU w z.
Proof.
  intros. unfold wrapS, wrapU. rewrite Zminus_mod_idemp_l. f_equal. lia.
Qed.

Lemma wrapS_add_l w a b : wrapS w (wrapS w a + b) = wrapS w (a + b).
Proof.
  unfold wrapS. f_equal.
  replace ((a + 2 ^ (w - 1)) mod 2 ^ w - 2 ^ (w - 1) + b + 2 ^ (w - 1))
    with ((a + 2 ^ (w - 1)) mod 2 ^ w + b) by lia.
  rewrite Zplus_mod_idemp_l. f_equal. lia.
Qed.

#[export] Hint Resolve wrapU_range wrapS_range : tori.

(** ** Results of pure code that may have undefined behaviour *)

Inductive ub :=
  | UB_empty_deque          (* front()/pop_front() of an empty std::deque *)
  | UB_buffer_overflow      (* write past the end of an object *)
  | UB_buffer_overread      (* read past the end of an object *)
  | UB_out_of_range         (* operator[] of a std::vector out of range *)
  | UB_unterminated         (* a C string with no terminator in its buffer *)
  | UB_null                 (* a null pointer is dereferenced *)
  | UB_dangling             (* a pointer to no live object *)
  | UB_signed_overflow      (* arithmetic overflow of an int *)
  | UB_format               (* a conversion of a format string with no argument *)
  | UB_no_return.           (* the end of a function that returns a value *)

#[export] Instance ub_eq_dec : EqDecision ub.
Proof. solve_decision. Defined.

Inductive cres (A : Type) : Type :=
  | Val (a : A)
  | Bad (u : ub).
Arguments Val {A} a.
Arguments Bad {A} u.

#[export] Instance cres_ret : MRet cres := λ A a, Val a.
#[export] Instance cres_bind : MBind cres :=
  λ A B f m, match m with Val a => f a | Bad u => Bad u end.

(** ** Effectful code: state, exceptions and undefined behaviour *)

Inductive exn :=
  | bad_function_call       (* an empty std::function is called *)
  | system_error.           (* a throwing asio call fails *)

Inductive outcome (S A : Type) : Type :=
  | Ok (a : A) (s : S)
  | Throws (e : exn) (s : S)
  | Undef (u : ub).
Arguments Ok {S A} a s.
Arguments Throws {S A} e s.
Arguments Undef {S A} u.

Definition M (S A : Type) : Type := S → outcome S A.

#[export] Instance M_ret {S} : MRet (M S) := λ A a s, Ok a s.
#[export] Instance M_bind {S} : MBind (M S) := λ A B f m s,
  match m s with
  | Ok a s' => f a s'
  | Throws e s' => Throws e s'
  | Undef u => Undef u
  end.

Section Commands.
Context {S : Type}.
Definition get : M S S := λ s, Ok s s.
Definition modify (f : S → S) : M S unit := λ s, Ok tt (f s).
Definition throw {A} (e : exn) : M S A := λ s, Throws e s.
Definition undef {A} (u : ub) : M S A := λ _, Undef u.
Definition lift {A} (r : cres A) : M S A :=
  match r with Val a => mret a | Bad u => undef u end.
Definition when (b : bool) (m : M S unit) : M S unit :=
  if b then m else mret tt.
Fixpoint forM_ {A} (l : list A) (f : A → M S unit) : M S unit :=
  match l with
  | [] => mret tt
  | x :: l => f x ;; forM_ l f
  end.
End Commands.

(** ** Total-correctness triples

    [⟨ m | w ⟩ ⇓ Q]: run from [w], [m] neither throws nor hits undefined
    behaviour, and its result and final state satisfy [Q]. *)

Definition wp {S A} (m : M S A) (Q : A → S → Prop) (s : S) : Prop :=
  match m s with Ok a s' => Q a s' | _ => False end.

(** Partial correctness: [Q] holds if [m] returns. *)
Definition wlp {S A} (m : M S A) (Q : A → S → Prop) (s : S) : Prop :=
  match m s with Ok a s' => Q a s' | _ => True end.

Notation "⟨ m | w ⟩ ⇓ Q" := (wp m Q w)
  (at level 70, m at level 200, w at level 200, Q at level 69) : tori_scope.

Section Triples.
Context {S : Type}.
Implicit Types s : S.

Lemma wp_ret {A} (a : A) Q s : wp (mret a) Q s ↔ Q a s.
Proof. done. Qed.
Lemma wp_bind {A B} (m : M S A) (f : A → M S B) Q s :
  wp (m ≫= f) Q s ↔ wp m (λ a, wp (f a) Q) s.
Proof. unfold wp, mbind, M_bind. by destruct (m s). Qed.
Lemma wp_get Q s : wp get Q s ↔ Q s s.
Proof. done. Qed.
Lemma wp_modify f Q s : wp (modify f) Q s ↔ Q tt (f s).
Proof. done. Qed.
Lemma wp_mono {A} (m : M S A) (P Q : A → S → Prop) s :
  wp m P s → (∀ a s', P a s' → Q a s') → wp m Q s.
Proof. unfold wp. destruct (m s) as [a s'|e s'|u]; naive_solver. Qed.
Lemma wp_and {A} (m : M S A) (P Q : A → S → Prop) s :
  wp m P s → wp m Q s → wp m (λ a s', P a s' ∧ Q a s') s.
Proof. unfold wp. destruct (m s) as [a s'|e s'|u]; naive_solver. Qed.
Lemma wp_ok {A} (m : M S A) Q s :
  wp m Q s ↔ ∃ a s', m s = Ok a s' ∧ Q a s'.
Proof. unfold wp. destruct (m s) as [a s'|e s'|u]; naive_solver. Qed.
Lemma wlp_ret {A} (a : A) Q s : wlp (mret a) Q s ↔ Q a s.
Proof. done. Qed.
Lemma wlp_bind {A B} (m : M S A) (f : A → M S B) Q s :
  wlp (m ≫= f) Q s ↔ wlp m (λ a, wlp (f a) Q) s.
Proof. unfold wlp, mbind, M_bind. by destruct (m s). Qed.
Lemma wlp_mono {A} (m : M S A) (P Q : A → S → Prop) s :
  wlp m P s → (∀ a s', P a s' → Q a s') → wlp m Q s.
Proof. unfold wlp. destruct (m s); naive_solver. Qed.
Lemma wlp_ok {A} (m : M S A) Q s a s' : wlp m Q s → m s = Ok a s' → Q a s'.
Proof. unfold wlp. intros H E. by rewrite E in H. Qed.
Lemma wlp_intro {A} (m : M S A) (Q : A → S → Prop) s :
  (∀ a s', m s = Ok a s' → Q a s') → wlp m Q s.
Proof. unfold wlp. destruct (m s); naive_solver. Qed.
(** A loop whose body preserves an invariant indexed by what it has done. *)
Lemma wp_forM_ {A} (l : list A) f (I : list A → S → Prop) s :
  I [] s →
  (∀ done x rest s', l = done ++ x :: rest → I done s' →
     wp (f x) (λ _, I (done ++ [x])) s') →
  wp (forM_ l f) (λ _, I l) s.
Proof.
  intros H0 Hstep.
  cut (∀ rest done s', l = done ++ rest → I done s' →
         wp (forM_ rest f) (λ _, I l) s').
  { intros Hc. by apply (Hc l []). }
  induction rest as [|x rest IH]; intros done s' -> HI; cbn.
  - rewrite app_nil_r in *. done.
  - apply wp_bind. eapply wp_mono; [by eapply Hstep|].
    intros [] s'' HI'. apply (IH (done ++ [x])); [|done].
    by rewrite <- app_assoc.
Qed.
End Triples.

#[global] Hint Rewrite @wp_ret @wp_bind @wp_get @wp_modify : wp.
Ltac wp_simpl := repeat (autorewrite with wp in *; cbn beta iota in *).

(** ** Running a sequence of commands *)

Section Binds.
Context {W : Type}.
Lemma bind_ok {A B} (m : M W A) (k : A → M W B) a w w' :
  m w = Ok a w' → (m ≫= k) w = k a w'.
Proof. unfold mbind, M_bind. by intros ->. Qed.
Lemma bind_cong {A B} (m m' : M W A) (k : A → M W B) w w' :
  m w = m' w' → (m ≫= k) w = (m' ≫= k) w'.
Proof. unfold mbind, M_bind. by intros ->. Qed.
Lemma bind_ret {A B} (a : A) (k : A → M W B) w : (mret a ≫= k) w = k a w.
Proof. done. Qed.
Lemma bind_lift {A B} (r : cres A) a (k : A → M W B) w :
  r = Val a → (lift r ≫= k) w = k a w.
Proof. by intros ->. Qed.
Lemma bind_lift_bad {A B} (r : cres A) u (k : A → M W B) w :
  r = Bad u → (lift r ≫= k) w = Undef u.
Proof. by intros ->. Qed.
Lemma bind_assoc {A B C} (m : M W A) (f : A → M W B) (g : B → M W C) w :
  ((m ≫= f) ≫= g) w = (m ≫= λ a, f a ≫= g) w.
Proof. unfold mbind, M_bind. by destruct (m w). Qed.
End Binds.

(** ** Commands that preserve a property of the state *)

Section Preserves.
Context {W : Type} (I : W → Prop).
Definition preserves {A} (m : M W A) : Prop := ∀ w a w', I w → m w = Ok a w' → I w'.
Lemma preserves_ret {A} (a : A) : preserves (mret a).
Proof. intros w ? ? Hw [= _ <-]. done. Qed.
Lemma preserves_undef {A} u : preserves (undef u : M W A).
Proof. done. Qed.
Lemma preserves_lift {A} (r : cres A) : preserves (lift r : M W A).
Proof. destruct r; [apply preserves_ret|apply preserves_undef]. Qed.
Lemma preserves_bind {A B} (m : M W A) (f : A → M W B) :
  preserves m → (∀ a, preserves (f a)) → preserves (m ≫= f).
Proof.
  intros Hm Hf w b w' Hw. unfold mbind, M_bind. destruct (m w) as [a w1| |] eqn:E; [|done..].
  intros Hr. by eapply Hf; [eapply Hm|].
Qed.
Lemma preserves_forM {A} (l : list A) (f : A → M W unit) :
  (∀ x, preserves (f x)) → preserves (forM_ l f).
Proof. intros Hf. induction l; [apply preserves_ret|]. by apply preserves_bind. Qed.
End Preserves.

Create HintDb preserves.
#[export] Hint Resolve preserves_ret preserves_undef preserves_lift preserves_bind preserves_forM : preserves.

(** ** The loop [for( int16_t i=0; i<n; i++ )]

    [fuel] iterations of it from counter [i]: [true] when it ends.  [i++] is
    converted back to [int16_t]. *)
Section Loops.
Context {W : Type}.

Fixpoint for_int16 (fuel : nat) (n i : Z) (body : Z → M W unit) : M W bool :=
  if i <? n then
    match fuel with
    | O => mret false
    | S fuel => body i ;; for_int16 fuel n (i16 (i + 1)) body
    end
  else mret true.

(** [k] iterations that the loop does not end in, with an invariant. *)
Lemma for_int16_run (I : nat → W → Prop) (body : Z → M W unit) (fuel k : nat) n i w :
  in_s 16 i → (∀ j : nat, (j < k)%nat → i16 (i + Z.of_nat j) < n) → I O w →
  (∀ (j : nat) w, (j < k)%nat → I j w → ∃ w', body (i16 (i + Z.of_nat j)) w = Ok tt w' ∧ I (S j) w') →
  ∃ w', I k w' ∧ for_int16 (k + fuel) n i body w = for_int16 fuel n (i16 (i + Z.of_nat k)) body w'.
Proof.
  revert I i w. induction k as [|k IH]; intros I i w Hi Hlt H0 Hbody.
  - exists w. split; [done|]. by rewrite Z.add_0_r, wrapS_id.
  - assert (Hi0 : i16 (i + Z.of_nat 0) = i) by by rewrite Z.add_0_r, wrapS_id.
    destruct (Hbody O w) as (w1 & Hr & H1); [lia|done|]. rewrite Hi0 in Hr.
    assert (Hstep : ∀ j : nat, i16 (i16 (i + 1) + Z.of_nat j) = i16 (i + Z.of_nat (S j))).
    { intros j. rewrite wrapS_add_l. f_equal. lia. }
    destruct (IH (λ j, I (S j)) (i16 (i + 1)) w1) as (w' & Hw' & Hrun).
    + by apply wrapS_range.
    + intros j Hj. rewrite Hstep. apply Hlt. lia.
    + done.
    + intros j w2 Hj H2. rewrite Hstep. apply Hbody; [lia|done].
    + exists w'. split; [done|]. rewrite <- Hstep. cbn [Nat.add for_int16].
      specialize (Hlt O ltac:(lia)). rewrite Hi0 in Hlt.
      destruct (Z.ltb_spec i n); [|lia]. by rewrite (bind_ok _ _ _ _ _ Hr), Hrun.
Qed.

(** The whole loop, when the counter does not wrap. *)
Lemma for_int16_all (I : nat → W → Prop) (body : Z → M W unit) (fuel : nat) n w :
  n < 2 ^ 15 → (Z.to_nat n ≤ fuel)%nat → I O w →
  (∀ (j : nat) w, (j < Z.to_nat n)%nat → I j w → ∃ w', body (Z.of_nat j) w = Ok tt w' ∧ I (S j) w') →
  ∃ w', I (Z.to_nat n) w' ∧ for_int16 fuel n 0 body w = Ok true w'.
Proof.
  intros Hn Hf H0 Hbody. assert (Hid : ∀ j : nat, (j ≤ Z.to_nat n)%nat → i16 (0 + Z.of_nat j) = Z.of_nat j).
  { intros j Hj. rewrite Z.add_0_l. apply wrapS_id; [done|]. unfold in_s. cbn. lia. }
  replace fuel with (Z.to_nat n + (fuel - Z.to_nat n))%nat by lia.
  destruct (for_int16_run I body (fuel - Z.to_nat n) (Z.to_nat n) n 0 w) as (w' & Hw' & Hr); [done| |done| |].
  - intros j Hj. rewrite Hid by lia. lia.
  - intros j w1 Hj. rewrite Hid by lia. by apply Hbody.
  - exists w'. split; [done|]. rewrite Hr, Hid by lia.
    destruct (fuel - Z.to_nat n)%nat; cbn [for_int16];
      by (destruct (Z.ltb_spec (Z.of_nat (Z.to_nat n)) n); [lia|]).
Qed.
End Loops.

(** ** Components of a state

    [Field W T]: a component of type [T] inside the state [W] of a process,
    with the usual laws; [Separate f g]: two components do not overlap. *)

Class Field (W T : Type) := {
  fget : W → T;
  fset : T → W → W;
  fget_fset x w : fget (fset x w) = x;
  fset_fset x y w : fset x (fset y w) = fset x w;
  fset_fget w : fset (fget w) w = w
}.

Class Separate {W T U} (f : Field W T) (g : Field W U) := {
  fget_fset_sep x w : fget (Field := f) (fset (Field := g) x w) = fget (Field := f) w;
  fget_fset_sep' x w : fget (Field := g) (fset (Field := f) x w) = fget (Field := g) w;
  fset_fset_sep x y w :
    fset (Field := f) x (fset (Field := g) y w) =
    fset (Field := g) y (fset (Field := f) x w)
}.

#[global] Hint Rewrite @fget_fset @fset_fset @fset_fget : field.

Definition fmodify {W T} `{Field W T} (f : T → T) : M W unit :=
  modify (λ w, fset (f (fget w)) w).
Definition fread {W T} `{Field W T} : M W T := w ← get; mret (fget w).

Lemma bind_fread {W T B} `{Field W T} (k : T → M W B) w : (fread ≫= k) w = k (fget w) w.
Proof. done. Qed.
Lemma bind_fmodify {W T B} `{Field W T} (f : T → T) (k : unit → M W B) w :
  (fmodify f ≫= k) w = k tt (fset (f (fget w)) w).
Proof. done. Qed.

(** ** Bytes and memory *)

Definition byte_ok (b : Z) : Prop := 0 <= b < 256.

#[export] Instance byte_ok_dec b : Decision (byte_ok b).
Proof. unfold byte_ok. apply _. Defined.

(** The [n] little-endian bytes of [z] (x86-64, the platform of the build). *)
Fixpoint le_split (n : nat) (z : Z) : list Z :=
  match n with
  | O => []
  | S n => z mod 256 :: le_split n (z / 256)
  end.
Fixpoint le_combine (l : list Z) : Z :=
  match l with
  | [] => 0
  | b :: l => b + 256 * le_combine l
  end.

Lemma length_le_split n z : length (le_split n z) = n.
Proof. revert z. induction n; intros; cbn; auto. Qed.

Lemma le_split_bytes n z : Forall byte_ok (le_split n z).
Proof.
  revert z. induction n; intros; cbn; constructor; auto.
  apply Z.mod_pos_bound. lia.
Qed.

Lemma le_combine_split n z : le_combine (le_split n z) = z mod 2 ^ (8 * Z.of_nat n).
Proof.
  revert z. induction n as [|n IH]; intros z; cbn [le_split le_combine].
  - by rewrite Z.mod_1_r.
  - rewrite IH.
    replace (2 ^ (8 * Z.of_nat (S n))) with (256 * 2 ^ (8 * Z.of_nat n)).
    2:{ rewrite Nat2Z.inj_succ, Z.mul_succ_r, Z.pow_add_r by lia. lia. }
    rewrite Z.rem_mul_r; [lia..|]. apply Z.pow_pos_nonneg; lia.
Qed.

Lemma le_split_combine l : Forall byte_ok l → le_split (length l) (le_combine l) = l.
Proof.
  unfold byte_ok. induction 1 as [|b l Hb _ IH]; cbn; [done|].
  rewrite (Z.mul_comm 256). rewrite Z_mod_plus_full, Z.div_add by lia.
  by rewrite Z.mod_small, Z.div_small, Z.add_0_l, IH by lia.
Qed.

(** [splice off bs mem]: the bytes [bs] stored in [mem] at offset [off]. *)
Definition splice (off : nat) (bs mem : list Z) : list Z :=
  take off mem ++ bs ++ drop (off + length bs) mem.

Lemma length_splice off bs mem :
  (off + length bs ≤ length mem)%nat → length (splice off bs mem) = length mem.
Proof. intros. unfold splice. rewrite !length_app, length_take, length_drop. lia. Qed.

Lemma splice_bytes off bs mem :
  Forall byte_ok bs → Forall byte_ok mem → Forall byte_ok (splice off bs mem).
Proof. intros. unfold splice. auto using Forall_app_2, Forall_take, Forall_drop. Qed.

Lemma splice_nil off mem : splice off [] mem = mem.
Proof. unfold splice. rewrite app_nil_l, Nat.add_0_r. apply take_drop. Qed.

Lemma take_splice_0 bs mem n :
  n = length bs → take n (splice 0 bs mem) = bs.
Proof. intros ->. unfold splice. rewrite take_0, app_nil_l. apply take_app_length. Qed.

#[export] Hint Resolve le_split_bytes splice_bytes : tori.

(** ** C strings *)

(** [strlen] of the string at the start of the buffer [mem]: [None] when the
    buffer holds no terminator, so that the scan leaves the buffer. *)
Fixpoint strlen (mem : list Z) : option nat :=
  match mem with
  | [] => None
  | b :: mem => if b =? 0 then Some O else S <$> strlen mem
  end.

(** The bytes of a string (without the terminator). *)
Definition bytes_of_string (s : string) : list Z :=
  (λ a, Z.of_N (Ascii.N_of_ascii a)) <$> String.list_ascii_of_string s.

Definition no_nul (l : list Z) : Prop := Forall (λ b, b ≠ 0) l.

Lemma strlen_terminated l mem : no_nul l → strlen (l ++ 0 :: mem) = Some (length l).
Proof.
  induction 1 as [|b l Hb _ IH]; cbn; [done|].
  destruct (Z.eqb_spec b 0); [done|]. by rewrite IH.
Qed.

Lemma strlen_Some mem n :
  strlen mem = Some n → mem !! n = Some 0 ∧ no_nul (take n mem).
Proof.
  revert n. induction mem as [|b mem IH]; intros n; cbn; [done|].
  destruct (Z.eqb_spec b 0) as [->|Hb].
  - intros [= <-]. split; [done|constructor].
  - destruct (strlen mem) as [k|]; cbn; [|done]. intros [= <-]. cbn.
    destruct (IH k eq_refl) as [Hk Hn]. split; [done|]. by constructor.
Qed.

Lemma strlen_None mem : strlen mem = None ↔ no_nul mem.
Proof.
  induction mem as [|b mem IH]; cbn; [split; [constructor|done]|].
  destruct (Z.eqb_spec b 0).
  - split; [done|]. by inversion 1.
  - destruct (strlen mem); cbn; unfold no_nul in *; rewrite Forall_cons; naive_solver.
Qed.

(** The bytes of [s.c_str()] up to its terminator. *)
Definition c_str (s : string) : list Z :=
  let l := bytes_of_string s in
  match strlen l with Some n => take n l | None => l end.

Lemma bytes_of_string_ok s : Forall byte_ok (bytes_of_string s).
Proof.
  unfold bytes_of_string. apply Forall_fmap, Forall_true. intros a. unfold byte_ok. cbn.
  pose proof (Ascii.N_ascii_bounded a). lia.
Qed.
Lemma c_str_ok s : Forall byte_ok (c_str s) ∧ no_nul (c_str s).
Proof.
  unfold c_str. pose proof (bytes_of_string_ok s) as Hb.
  destruct (strlen (bytes_of_string s)) as [n|] eqn:E.
  - apply strlen_Some in E as [_ Hn]. split; [by apply Forall_take|done].
  - apply strlen_None in E. done.
Qed.

Lemma length_c_str s : (length (c_str s) ≤ String.length s)%nat.
Proof.
  assert (Hl : length (bytes_of_string s) = String.length s).
  { unfold bytes_of_string. rewrite length_fmap. by induction s; cbn; auto. }
  unfold c_str. destruct (strlen (bytes_of_string s)); [rewrite length_take|]; lia.
Qed.

(** [std::to_string(int)] *)
Definition to_string (z : Z) : string := pretty z.

(** A decimal of [k] digits and its sign. *)
Lemma length_pretty_N_go k x s :
  (x < 10 ^ N.of_nat k)%N → (String.length (pretty_N_go x s) ≤ k + String.length s)%nat.
Proof.
  revert x s. induction k as [|k IH]; intros x s Hx.
  - replace x with 0%N by (cbn in Hx; lia). by rewrite pretty_N_go_0.
  - destruct (decide (0 < x)%N).
    + rewrite pretty_N_go_step by done. etrans; [apply IH|cbn; lia].
      apply N.Div0.div_lt_upper_bound. rewrite Nat2N.inj_succ, N.pow_succ_r' in Hx. done.
    + replace x with 0%N by lia. rewrite pretty_N_go_0. lia.
Qed.
Lemma length_to_string k z :
  (0 < k)%nat → Z.abs z < 10 ^ Z.of_nat k → (String.length (to_string z) ≤ S k)%nat.
Proof.
  intros Hk Hz. assert (HN : ∀ x : N, (x < 10 ^ N.of_nat k)%N → (String.length (pretty x) ≤ k)%nat).
  { intros x Hx. unfold pretty, pretty_N. destruct (decide (x = 0)%N); [exact Hk|].
    rewrite <- (Nat.add_0_r k). exact (length_pretty_N_go k x EmptyString Hx). }
  assert (Hpow : 10 ^ Z.of_nat k = Z.of_N (10 ^ N.of_nat k)) by (rewrite N2Z.inj_pow, nat_N_Z; done).
  unfold to_string. destruct z as [|x|x]; [cbn; lia| |].
  - transitivity k; [|lia]. apply (HN (Npos x)). lia.
  - change (S (String.length (pretty (Npos x))) ≤ S k)%nat. pose proof (HN (Npos x) ltac:(lia)). lia.
Qed.

(** ** std::map with integer keys

    A [gmap]; iteration visits the keys in increasing order. *)
Definition key_le {A} (x y : Z * A) : Prop := x.1 <= y.1.
#[export] Instance key_le_dec {A} (x y : Z * A) : Decision (key_le x y).
Proof. unfold key_le. apply _. Defined.
#[export] Instance key_le_total {A} : Total (@key_le A).
Proof. intros x y. unfold key_le. lia. Qed.

Definition in_order {A} (m : gmap Z A) : list (Z * A) :=
  merge_sort key_le (map_to_list m).

Lemma elem_of_in_order {A} (m : gmap Z A) k (x : A) :
  (k, x) ∈ in_order m ↔ m !! k = Some x.
Proof. unfold in_order. rewrite merge_sort_Permutation. apply elem_of_map_to_list. Qed.

Lemma NoDup_in_order {A} (m : gmap Z A) : NoDup (in_order m).*1.
Proof. unfold in_order. rewrite merge_sort_Permutation. apply NoDup_fst_map_to_list. Qed.

Lemma in_order_sorted {A} (m : gmap Z A) : Sorted key_le (in_order m).
Proof. apply Sorted_merge_sort. apply _. Qed.

(** Entries with distinct keys, and no value under two keys. *)
Lemma NoDup_fmap_fst_inj {A B} (l : list (A * B)) :
  NoDup l.*1 → (∀ k1 k2 x, (k1, x) ∈ l → (k2, x) ∈ l → k1 = k2) → NoDup l.*2.
Proof.
  intros Hnd Hinj. apply NoDup_fmap_2_strong; [|by eapply NoDup_fmap_1].
  intros [k1 x1] [k2 x2] H1 H2 E. cbn in E. subst. by rewrite (Hinj k1 k2 x2).
Qed.

(** ** Step relations *)

Section Steps.
Context {St Ev : Type} (step : St → Ev → St → Prop).
Inductive reach (s0 : St) : St → Prop :=
  | reach_refl : reach s0 s0
  | reach_step s e s' : reach s0 s → step s e s' → reach s0 s'.
Lemma reach_inv (I : St → Prop) s0 :
  I s0 → (∀ s e s', I s → step s e s' → I s') → ∀ s, reach s0 s → I s.
Proof. intros H0 Hs s Hr. induction Hr; eauto. Qed.
Lemma reach_trans s0 s1 s2 : reach s0 s1 → reach s1 s2 → reach s0 s2.
Proof. intros H0 H1. induction H1 as [|s e s' _ IH Hs]; [done|by eapply reach_step]. Qed.
Lemma reach_first s0 e s1 s2 : step s0 e s1 → reach s1 s2 → reach s0 s2.
Proof. intros Hs. apply reach_trans. eapply reach_step; [constructor|done]. Qed.
End Steps.

(** ** Tactics *)

Ltac deex :=
  repeat match goal with
  | H : ∃ _, _ |- _ => destruct H
  | H : _ ∧ _ |- _ => destruct H
  end.
(** Case analysis on the boolean comparisons of the goal. *)
Ltac case_cmp :=
  repeat match goal with
  | |- context [?a <? ?b] => destruct (Z.ltb_spec a b)
  | |- context [?a <=? ?b] => destruct (Z.leb_spec a b)
  | |- context [?a =? ?b] => destruct (Z.eqb_spec a b)
  end.
