(* ===== verification/IpKeys.v ===== *)
(** * Integer helpers and tuple keys (include/com.h)

    The part of com.h below its log macros (switched off by [#if 0] at this
    commit): byte swapping, packing, the clock and the ERF time stamp
    conversion, the range checks and filter expressions of the configuration,
    and the address keys with their texts, comparison and hash functors; above
    it only [get_home].  Asio's [address] and [tcp::endpoint] and boost's
    [hash_combine] are parameters; their documented laws are [AsioLaws]. *)
From S2P Require Import Prelude.

(** ** Integers *)

Definition swap64 (a : Z) : Z :=
  Z.lor (Z.lor (Z.lor (Z.lor (Z.lor (Z.lor (Z.lor
    (Z.shiftr (Z.land a 0xff00000000000000) 56)
    (Z.shiftr (Z.land a 0x00ff000000000000) 40))
    (Z.shiftr (Z.land a 0x0000ff0000000000) 24))
    (Z.shiftr (Z.land a 0x000000ff00000000) 8))
    (u64 (Z.shiftl (Z.land a 0x00000000ff000000) 8)))
    (u64 (Z.shiftl (Z.land a 0x0000000000ff0000) 24)))
    (u64 (Z.shiftl (Z.land a 0x000000000000ff00) 40)))
    (u64 (Z.shiftl (Z.land a 0x00000000000000ff) 56)).
Definition htonll (a : Z) : Z := swap64 a.
Definition ntohll (a : Z) : Z := swap64 a.

Definition mask64 (a b : Z) : Z := Z.lor (u64 (Z.shiftl (u64 a) 32)) b.
Definition upper32 (k : Z) : Z := u32 (Z.shiftr k 32).
Definition lower32 (k : Z) : Z := u32 (Z.land k 0x00000000ffffffff).
Definition mask32 (a b : Z) : Z := Z.lor (u32 (Z.shiftl (u32 a) 16)) b.
Definition upper16 (k : Z) : Z := u16 (Z.shiftr k 16).
Definition lower16 (k : Z) : Z := u16 (Z.land k 0x0000ffff).

(** The bytes of an IPv4 address in host order, most significant first, as
    [ip2str] and [get_addr] both take them apart. *)
Definition ip_bytes (ip : Z) : list Z :=
  [ u8 (Z.shiftr (Z.land ip 0xff000000) 24);
    u8 (Z.shiftr (Z.land ip 0x00ff0000) 16);
    u8 (Z.shiftr (Z.land ip 0x0000ff00) 8);
    u8 (Z.land ip 0x000000ff) ].

(** The text [ip2str] leaves in its static buffer. *)
Definition ip2str (ip : Z) : string :=
  match ip_bytes ip with
  | [p1; p2; p3; p4] =>
      pretty p1 +:+ "." +:+ pretty p2 +:+ "." +:+ pretty p3 +:+ "." +:+ pretty p4
  | _ => EmptyString
  end.

(** [wui64 get_unix_time(wui64 erfts)]: an ERF time stamp (seconds in the
    upper 32 bits, a binary fraction in the lower) in microseconds. *)
Definition get_unix_time (erfts : Z) : Z :=
  let lts := erfts in
  let tv_sec := Z.shiftr lts 32 in
  let lts := u64 (u64 (Z.land lts 0xffffffff * 1000) * 1000) in
  let lts := u64 (lts + u64 (Z.shiftl (Z.land lts 0x80000000) 1)) in
  let tv_usec := Z.shiftr lts 32 in
  let (tv_usec, tv_sec) :=
    if 1000000 <=? tv_usec then (tv_usec - 1000000, tv_sec + 1) else (tv_usec, tv_sec) in
  u64 (tv_sec * 1000000 + tv_usec).

(** [wui64 get_unix_time()]: the clock [gettimeofday] read, in microseconds; the
    arithmetic is signed until the assignment. *)
Definition get_unix_time_now (tv_sec tv_usec : Z) : cres Z :=
  let ts := tv_sec * 1000000 + tv_usec in
  if decide (in_s 64 (tv_sec * 1000000)) then
    if decide (in_s 64 ts) then Val (u64 ts) else Bad UB_signed_overflow
  else Bad UB_signed_overflow.

(** The filter expressions. *)
Definition MAX_FILTER : Z := 7.
Definition FE_REQ : string := "(REQUEST_EVENT)(=|!=)(.+)".
Definition FE_HOST : string := "(HOST)(=|!=)(.+)".
Definition FE_CONT : string := "(CONTENT_TYPE)(=|!=)(.+)".
Definition FE_PROC : string := "(PROCESS_TIME)(>|<)(\d+)".
Definition FE_PROCRX : string := "(PROCESS_RX_TIME)(>|<)(\d+)".
Definition FE_SETUP : string := "(SETUP_TIME)(>|<)(\d+)".
Definition FE_BYTES : string := "(RX_BYTES)(>|<)(\d+)".

(** [wc8* get_home()]: the value of the environment variable TEST, if it is set. *)
Definition get_home (getenv : string → option string) : string :=
  default "/home/ywoh/test"%string (getenv "TEST"%string).

(** The conversion [%08x] of a [wui32]: eight digits, leading zeros included. *)
Definition hex_digit (d : Z) : Ascii.ascii :=
  if d <? 10 then Ascii.ascii_of_nat (48 + Z.to_nat d) else Ascii.ascii_of_nat (87 + Z.to_nat d).
Fixpoint hex_digits (n : nat) (i : Z) : string :=
  match n with
  | O => EmptyString
  | S n => String (hex_digit (Z.land (Z.shiftr i (4 * Z.of_nat n)) 15)) (hex_digits n i)
  end.
Definition hex08 (i : Z) : string := hex_digits 8 i.

(** The range checks (macros on [int] arguments or on a directory name). *)
Definition chk_shm_size (size : Z) : bool := (1 <=? size) && (size <=? 32).
Definition chk_erf_size (size : Z) : bool := (100 <=? size) && (size <=? 1000).
Definition chk_http_tmout (msec : Z) : bool :=
  (100 <=? msec) && (msec <=? 60000) && (Z.rem msec 100 =? 0).
Definition chk_svc_elaps (sec : Z) : bool := (10 <=? sec) && (sec <=? 3600).
Definition chk_dir (dir : string) : bool :=
  negb (String.eqb dir EmptyString) && (Z.of_nat (String.length dir) <=? 255).
Definition chk_svc_dur (dur : Z) : bool :=
  negb (dur =? 0) && (Z.rem dur 10 =? 0) && (dur <=? 100).
Definition chk_svc_vol (vol : Z) : bool := (1 <=? vol) && (vol <=? 4294967295).

(** ** Orders *)

(** [ltb] is a strict total order whose equality is [eqb], as the comparator
    of a [std::map] and the equality of a hash table must be. *)
Record strict_total {A} (eqb ltb : A → A → bool) : Prop := {
  st_eq x y : eqb x y = true ↔ x = y;
  st_irrefl x : ltb x x = false;
  st_trans x y z : ltb x y = true → ltb y z = true → ltb x z = true;
  st_total x y : x ≠ y → ltb x y = true ∨ ltb y x = true
}.

(** Comparing a first component, then the rest. *)
Lemma lex_strict_total {A B C} (f : C → A) (g : C → B) eqA ltA eqB ltB :
  strict_total eqA ltA → strict_total eqB ltB →
  (∀ x y, f x = f y → g x = g y → x = y) →
  strict_total (λ x y, eqA (f x) (f y) && eqB (g x) (g y))
    (λ x y, if negb (eqA (f x) (f y)) then ltA (f x) (f y) else ltB (g x) (g y)).
Proof.
  intros HA HB Hinj.
  assert (Hb : ∀ x y, eqA x y = false ↔ x ≠ y).
  { intros x y. rewrite <- not_true_iff_false. by rewrite (st_eq _ _ HA). }
  assert (Hr : ∀ x, eqA x x = true) by (intros; by apply (st_eq _ _ HA)).
  split.
  - intros x y. rewrite andb_true_iff, (st_eq _ _ HA), (st_eq _ _ HB). naive_solver.
  - intros x. rewrite Hr. cbn. apply (st_irrefl _ _ HB).
  - intros x y z.
    destruct (eqA (f x) (f y)) eqn:E1; destruct (eqA (f y) (f z)) eqn:E2; cbn;
      rewrite ?(st_eq _ _ HA), ?Hb in *.
    + rewrite E1, E2, Hr. apply (st_trans _ _ HB).
    + rewrite E1. apply Hb in E2 as ->. done.
    + rewrite <- E2. apply Hb in E1 as ->. done.
    + intros H1 H2. pose proof (st_trans _ _ HA _ _ _ H1 H2) as H3.
      destruct (eqA (f x) (f z)) eqn:E3; cbn; [|done].
      apply (st_eq _ _ HA) in E3. rewrite E3, (st_irrefl _ _ HA) in H3. done.
  - intros x y Hxy. destruct (eqA (f x) (f y)) eqn:E; rewrite ?(st_eq _ _ HA), ?Hb in E.
    + rewrite E, Hr. cbn. apply (st_total _ _ HB). intros E'. by apply Hxy, Hinj.
    + assert (f y ≠ f x) as E'%Hb by done. rewrite E'. cbn. by apply (st_total _ _ HA).
Qed.

Lemma Z_strict_total : strict_total Z.eqb Z.ltb.
Proof. split; intros; rewrite ?Z.eqb_eq, ?Z.ltb_lt, ?Z.ltb_irrefl in *; done || lia. Qed.

(** ** Bits *)

Lemma u64_bit z i : 0 <= i < 64 → Z.testbit (u64 z) i = Z.testbit z i.
Proof. intros. unfold wrapU. apply Z.mod_pow2_bits_low. lia. Qed.
Lemma u64_bit_high z i : 64 <= i → Z.testbit (u64 z) i = false.
Proof. intros. unfold wrapU. apply Z.mod_pow2_bits_high. lia. Qed.

Lemma testbit_high w z i : 0 <= w <= i → in_u w z → Z.testbit z i = false.
Proof.
  intros Hi Hz. unfold in_u in Hz. rewrite <- (Z.mod_small z (2 ^ w)) by done.
  apply Z.mod_pow2_bits_high. lia.
Qed.

(** A property of the bits 0..63, checked one by one. *)
Lemma below_64 (P : Z → Prop) :
  Forall P (Z.of_nat <$> seq 0 64) → ∀ i, 0 <= i < 64 → P i.
Proof.
  intros HF i Hi. rewrite Forall_forall in HF. apply HF, list_elem_of_fmap.
  exists (Z.to_nat i). split; [lia|]. apply elem_of_seq. lia.
Qed.

(** Where [swap64] takes bit [i] from. *)
Definition swapped (i : Z) : Z := 56 - 8 * (i / 8) + i mod 8.

(** Evaluates the bits of constants and the closed indices of a goal. *)
Ltac eval_const_bits :=
  repeat match goal with
  | |- context [Z.testbit (Zpos ?p) ?k] =>
      let b := eval vm_compute in (Z.testbit (Zpos p) k) in
      change (Z.testbit (Zpos p) k) with b
  | |- context [swapped ?i] =>
      let k := eval vm_compute in (swapped i) in change (swapped i) with k
  end.

Lemma below_8 (P : Z → Prop) : Forall P (Z.of_nat <$> seq 0 8) → ∀ i, 0 <= i < 8 → P i.
Proof.
  intros HF i Hi. rewrite Forall_forall in HF. apply HF, list_elem_of_fmap.
  exists (Z.to_nat i). split; [lia|]. apply elem_of_seq. lia.
Qed.

Lemma swap64_bit a i : 0 <= i < 64 → Z.testbit (swap64 a) i = Z.testbit a (swapped i).
Proof.
  revert i. apply below_64. cbn -[swap64 swapped].
  repeat apply Forall_cons_2; [..|apply Forall_nil_2].
  all: unfold swap64; rewrite !Z.lor_spec, !u64_bit by lia;
    rewrite !Z.shiftr_spec, !Z.shiftl_spec, !Z.land_spec by lia;
    eval_const_bits; rewrite ?andb_true_r, ?andb_false_r, ?orb_false_r, ?orb_false_l;
    reflexivity.
Qed.

Lemma in_u_bits w z : 0 <= w → (∀ i, w <= i → Z.testbit z i = false) → in_u w z.
Proof.
  intros Hw Hb. replace z with (wrapU w z); [by apply wrapU_range|].
  unfold wrapU. apply Z.bits_inj'. intros i Hi. destruct (Z.lt_ge_cases i w).
  - by rewrite Z.mod_pow2_bits_low.
  - by rewrite Z.mod_pow2_bits_high, Hb.
Qed.

Lemma lor_in_u w x y : 0 <= w → in_u w x → in_u w y → in_u w (Z.lor x y).
Proof.
  intros Hw Hx Hy. apply in_u_bits; [done|]. intros i Hi.
  by rewrite Z.lor_spec, !(testbit_high w) by (done || lia).
Qed.

Lemma land_mask_in_u w a m k : 0 <= w → in_u w m → 0 <= k → in_u w (Z.shiftr (Z.land a m) k).
Proof.
  intros Hw Hm Hk. apply in_u_bits; [done|]. intros i Hi.
  by rewrite Z.shiftr_spec, Z.land_spec, (testbit_high w m), andb_false_r by (done || lia).
Qed.

Lemma swap64_range a : in_u 64 (swap64 a).
Proof.
  unfold swap64.
  repeat apply lor_in_u; try lia; try (apply wrapU_range; lia);
    apply land_mask_in_u; unfold in_u; lia.
Qed.

(** Two values with the same low eight bits. *)
Lemma byte_eq x y : (∀ k, 0 <= k < 8 → Z.testbit x k = Z.testbit y k) → x mod 256 = y mod 256.
Proof.
  intros H. change 256 with (2 ^ 8). apply Z.bits_inj'. intros k Hk.
  destruct (Z.lt_ge_cases k 8).
  - rewrite !Z.mod_pow2_bits_low by done. apply H. lia.
  - by rewrite !Z.mod_pow2_bits_high by lia.
Qed.

Lemma swap64_bytes a : le_split 8 (swap64 a) = reverse (le_split 8 a).
Proof.
  assert (Hd : ∀ z, z / 256 = Z.shiftr z 8) by (intros; by rewrite Z.shiftr_div_pow2).
  cbn [le_split reverse rev_append]. rewrite !Hd.
  repeat refine (f_equal2 cons (byte_eq _ _ _) _); [..|done];
    intros k Hk; rewrite ?Z.shiftr_spec by lia;
    rewrite swap64_bit by lia; f_equal; unfold swapped;
    Z.to_euclidean_division_equations; lia.
Qed.

Lemma swap64_involutive a : in_u 64 a → swap64 (swap64 a) = a.
Proof.
  intros Ha. apply Z.bits_inj'. intros i Hi. destruct (Z.lt_ge_cases i 64).
  - assert (0 <= swapped i < 64) by (unfold swapped; Z.to_euclidean_division_equations; lia).
    rewrite !swap64_bit by lia. f_equal. unfold swapped.
    Z.to_euclidean_division_equations; lia.
  - rewrite !(testbit_high 64) by (done || lia || apply swap64_range). done.
Qed.

(** Packing two halves of [w] bits each. *)
Lemma pack_halves w a b :
  0 < w → in_u w a → in_u w b →
  Z.shiftr (Z.lor (Z.shiftl a w) b) w = a ∧
  Z.land (Z.lor (Z.shiftl a w) b) (Z.ones w) = b ∧
  in_u (2 * w) (Z.lor (Z.shiftl a w) b).
Proof.
  intros Hw Ha Hb. split_and!.
  - apply Z.bits_inj'. intros i Hi.
    rewrite Z.shiftr_spec, Z.lor_spec, Z.shiftl_spec, (testbit_high w b) by (done || lia).
    rewrite orb_false_r. f_equal. lia.
  - apply Z.bits_inj'. intros i Hi.
    rewrite Z.land_spec, Z.lor_spec, Z.shiftl_spec, Z.testbit_ones by lia.
    destruct (Z.leb_spec 0 i); [|lia]. destruct (Z.ltb_spec i w); cbn.
    + rewrite (Z.testbit_neg_r a) by lia. by rewrite andb_true_r.
    + rewrite andb_false_r. by rewrite (testbit_high w b) by (done || lia).
  - apply in_u_bits; [lia|]. intros i Hi.
    rewrite Z.lor_spec, Z.shiftl_spec, !(testbit_high w) by (done || lia). done.
Qed.

Lemma unpack_halves w k :
  0 < w → Z.lor (Z.shiftl (Z.shiftr k w) w) (Z.land k (Z.ones w)) = k.
Proof.
  intros Hw. apply Z.bits_inj'. intros i Hi.
  rewrite Z.lor_spec, Z.shiftl_spec, Z.land_spec, Z.testbit_ones by lia.
  destruct (Z.leb_spec 0 i); [|lia]. destruct (Z.ltb_spec i w); cbn.
  - by rewrite Z.testbit_neg_r, andb_true_r by lia.
  - rewrite Z.shiftr_spec, andb_false_r, orb_false_r by lia. f_equal. lia.
Qed.

Lemma shiftl_in_u w a : 0 < w → in_u w a → in_u (2 * w) (Z.shiftl a w).
Proof.
  intros Hw Ha. apply in_u_bits; [lia|]. intros i Hi.
  by rewrite Z.shiftl_spec, (testbit_high w) by (done || lia).
Qed.

Lemma in_u_mono w w' z : w <= w' → in_u w z → in_u w' z.
Proof. unfold in_u. intros ? ?. pose proof (Z.pow_le_mono_r 2 w w'). lia. Qed.

(** The bit [2^k] of a value. *)
Lemma land_pow2 x k : 0 <= k → Z.land x (2 ^ k) = (x / 2 ^ k) mod 2 * 2 ^ k.
Proof.
  intros Hk. rewrite <- Z.testbit_spec' by done. rewrite <- Z.shiftl_mul_pow2 by done.
  apply Z.bits_inj'. intros i Hi.
  rewrite Z.land_spec, Z.pow2_bits_eqb, Z.shiftl_spec by done.
  destruct (Z.eqb_spec k i) as [->|Hne].
  - rewrite Z.sub_diag, andb_true_r. by destruct (Z.testbit x i).
  - rewrite andb_false_r. destruct (Z.lt_ge_cases i k).
    + by rewrite Z.testbit_neg_r by lia.
    + destruct (Z.testbit x k); cbn [Z.b2z]; [|by rewrite Z.testbit_0_l].
      by rewrite (testbit_high 1) by (lia || (unfold in_u; lia)).
Qed.

(** ** Properties of the integer helpers *)

(** [swap64] reverses the eight bytes of its argument, and [htonll] and
    [ntohll] undo each other on every 64-bit value. *)
Theorem swap64_reverses a :
  le_split 8 (htonll a) = reverse (le_split 8 a) ∧ in_u 64 (htonll a) ∧
  (in_u 64 a → ntohll (htonll a) = a ∧ htonll (ntohll a) = a).
Proof.
  unfold htonll, ntohll. split_and!; [apply swap64_bytes|apply swap64_range|].
  intros Ha. by split; apply swap64_involutive.
Qed.

Lemma swap64_reverses_witness :
  htonll 0x0102030405060708 = 0x0807060504030201 ∧
  ntohll (htonll 0x0102030405060708) = 0x0102030405060708.
Proof.
  split; [vm_compute; reflexivity|].
  apply (proj2 (proj2 (swap64_reverses 0x0102030405060708))). vm_compute. split; congruence.
Defined.

(** the packing macros: [upper] and [lower] recover the halves [mask] packed,
    and every 64-bit (32-bit) value is the packing of its halves. *)
Theorem mask_roundtrip :
  (∀ a b, in_u 32 a → in_u 32 b →
     upper32 (mask64 a b) = a ∧ lower32 (mask64 a b) = b ∧ in_u 64 (mask64 a b)) ∧
  (∀ k, in_u 64 k → mask64 (upper32 k) (lower32 k) = k) ∧
  (∀ a b, in_u 16 a → in_u 16 b →
     upper16 (mask32 a b) = a ∧ lower16 (mask32 a b) = b ∧ in_u 32 (mask32 a b)) ∧
  (∀ k, in_u 32 k → mask32 (upper16 k) (lower16 k) = k).
Proof.
  assert (Hhi : ∀ w k, 0 < w → in_u (2 * w) k → in_u w (Z.shiftr k w)).
  { intros w k Hw Hk. apply in_u_bits; [lia|]. intros i Hi.
    rewrite Z.shiftr_spec, (testbit_high (2 * w)) by (done || lia). done. }
  assert (Hlo : ∀ w k, 0 < w → in_u w (Z.land k (Z.ones w))).
  { intros w k Hw. rewrite Z.land_ones by lia. apply wrapU_range. lia. }
  unfold upper32, lower32, mask64, upper16, lower16, mask32.
  change 0xffffffff with (Z.ones 32). change 0x0000ffff with (Z.ones 16).
  split_and!; [intros a b Ha Hb|intros k Hk|intros a b Ha Hb|intros k Hk].
  - destruct (pack_halves 32 a b) as (H1 & H2 & H3); [lia|done..|].
    rewrite (wrapU_id 64 a) by (by apply (in_u_mono 32)).
    rewrite (wrapU_id 64 (Z.shiftl a 32)) by (by apply (shiftl_in_u 32)).
    rewrite H1, H2, !wrapU_id by done. done.
  - specialize (Hhi 32 k ltac:(lia) Hk). specialize (Hlo 32 k ltac:(lia)).
    rewrite (wrapU_id 32), (wrapU_id 32 (Z.land _ _)) by done.
    rewrite (wrapU_id 64 (Z.shiftr k 32)) by (by apply (in_u_mono 32)).
    rewrite (wrapU_id 64) by (by apply (shiftl_in_u 32)). by apply unpack_halves.
  - destruct (pack_halves 16 a b) as (H1 & H2 & H3); [lia|done..|].
    rewrite (wrapU_id 32 a) by (by apply (in_u_mono 16)).
    rewrite (wrapU_id 32 (Z.shiftl a 16)) by (by apply (shiftl_in_u 16)).
    rewrite H1, H2, !wrapU_id by done. done.
  - specialize (Hhi 16 k ltac:(lia) Hk). specialize (Hlo 16 k ltac:(lia)).
    rewrite (wrapU_id 16), (wrapU_id 16 (Z.land _ _)) by done.
    rewrite (wrapU_id 32 (Z.shiftr k 16)) by (by apply (in_u_mono 16)).
    rewrite (wrapU_id 32) by (by apply (shiftl_in_u 16)). by apply unpack_halves.
Qed.

(** C39: [get_unix_time] converts every 64-bit ERF time stamp to microseconds,
    rounded half up, with no overflow of its 64-bit arithmetic. *)
Theorem unix_time_rounds erfts :
  in_u 64 erfts → get_unix_time erfts = (erfts * 1000000 + 2 ^ 31) / 2 ^ 32.
Proof.
  intros He. unfold get_unix_time. change 0xffffffff with (Z.ones 32).
  change 0x80000000 with (2 ^ 31). rewrite Z.land_ones by lia.
  rewrite !Z.shiftr_div_pow2, Z.shiftl_mul_pow2, land_pow2 by lia.
  pose proof (Z.div_mod erfts (2 ^ 32) ltac:(lia)) as Hdm.
  pose proof (Z.mod_pos_bound erfts (2 ^ 32) ltac:(lia)) as Hf.
  unfold in_u in He. set (sec := erfts / 2 ^ 32) in *. set (f := erfts mod 2 ^ 32) in *.
  assert (Hsec : 0 <= sec < 2 ^ 32) by (unfold sec; Z.to_euclidean_division_equations; lia).
  rewrite (wrapU_id 64 (f * 1000)) by (unfold in_u; lia).
  rewrite (wrapU_id 64 (f * 1000 * 1000)) by (unfold in_u; lia).
  set (g := f * 1000 * 1000). assert (Hg : 0 <= g <= (2 ^ 32 - 1) * 1000000) by (unfold g; lia).
  pose proof (Z.mod_pos_bound (g / 2 ^ 31) 2 ltac:(lia)) as Hr. set (r := (g / 2 ^ 31) mod 2) in *.
  rewrite (wrapU_id 64 (r * 2 ^ 31 * 2 ^ 1)) by (unfold in_u; lia).
  rewrite (wrapU_id 64 (g + _)) by (unfold in_u; lia).
  assert (Hu : (g + r * 2 ^ 31 * 2 ^ 1) / 2 ^ 32 = (g + 2 ^ 31) / 2 ^ 32).
  { unfold r. clear -Hg. Z.to_euclidean_division_equations; lia. }
  rewrite Hu. assert (Ht : (erfts * 1000000 + 2 ^ 31) / 2 ^ 32 = sec * 1000000 + (g + 2 ^ 31) / 2 ^ 32).
  { rewrite Hdm. replace ((2 ^ 32 * sec + f) * 1000000 + 2 ^ 31)
      with ((sec * 1000000) * 2 ^ 32 + (g + 2 ^ 31)) by (unfold g; lia).
    by rewrite Z.div_add_l by lia. }
  rewrite Ht. set (us := (g + 2 ^ 31) / 2 ^ 32).
  assert (0 <= us <= 1000000) by (unfold us; Z.to_euclidean_division_equations; lia).
  case_cmp; rewrite wrapU_id by (unfold in_u; lia); lia.
Qed.

(** The largest fraction rounds up to a full second. *)
Lemma unix_time_rounds_witness : get_unix_time 0x3ffffffff = 4000000.
Proof.
  rewrite (unix_time_rounds 0x3ffffffff) by (vm_compute; split; congruence).
  vm_compute. reflexivity.
Defined.

(** ** Asio's addresses and endpoints, boost's hash_combine *)

(** What [hash_combine] is called with. *)
Inductive hashed := H_u8 (b : Z) | H_u16 (p : Z) | H_u32 (i : Z) | H_u64 (i : Z) | H_text (s : string).

Class Asio (A E : Type) := {
  addr_any : A;                      (* address() *)
  addr_v4 : list Z → A;              (* address(address_v4(bytes)) *)
  addr_v6 : list Z → A;              (* address(address_v6(bytes)) *)
  is_v4 : A → bool;
  is_v6 : A → bool;
  v4_bytes : A → list Z;             (* to_v4().to_bytes() *)
  v6_bytes : A → list Z;             (* to_v6().to_bytes() *)
  addr_text : A → string;            (* to_string() *)
  addr_eqb : A → A → bool;
  addr_ltb : A → A → bool;
  tcp_ep : A → Z → E;                (* tcp::endpoint(address, port) *)
  tcp_ep_any : E;                    (* tcp::endpoint() *)
  tcp_address : E → A;
  tcp_port : E → Z;
  tcp_eqb : E → E → bool;
  tcp_ltb : E → E → bool;
  hash_combine : Z → hashed → Z      (* the new seed *)
}.

Class AsioLaws (A E : Type) `{Asio A E} : Prop := {
  addr_order : strict_total addr_eqb addr_ltb;
  tcp_order : strict_total (A := E) tcp_eqb tcp_ltb;
  v4_law l : length l = 4%nat → Forall byte_ok l →
    is_v4 (addr_v4 l) = true ∧ v4_bytes (addr_v4 l) = l;
  v6_law l : length l = 16%nat → Forall byte_ok l →
    is_v4 (addr_v6 l) = false ∧ is_v6 (addr_v6 l) = true ∧ v6_bytes (addr_v6 l) = l;
  version_law a : is_v4 a = false → is_v6 a = true;
  tcp_law a p : tcp_address (tcp_ep a p) = a ∧ tcp_port (tcp_ep a p) = p
}.

(** [ipc_ip] *)
Inductive app_type := NONE_APP | APP_HTTP | APP_STREAMING | APP_AFREECA.
Inductive bound_type := NONE_BOUND | IN_BOUND | OUT_BOUND.
Record ipc_ip := mkIpcIp { ipc_ip_ip : list Z (* char[48] *); ipc_ip_port : Z; ipc_ip_ver : Z }.
Definition ipc_ip_init : ipc_ip := mkIpcIp (replicate 48 0) 0 0.

Section Keys.
Context {A E : Type} `{AS : !Asio A E}.

(** The two [get_addr], from a [wui32] and from a buffer: the second reads 16
    bytes from it. *)
Definition get_addr (ip : Z) : A := addr_v4 (ip_bytes ip).
Definition get_addr6 (ip : list Z) : cres A :=
  if (length ip <? 16)%nat then Bad UB_buffer_overread else Val (addr_v6 (take 16 ip)).
Definition get_ep (ip port : Z) : E := tcp_ep (get_addr ip) port.
Definition get_ep6 (ip : list Z) (port : Z) : cres E :=
  a ← get_addr6 ip; Val (tcp_ep a port).

(** [sprintf] into a buffer of [n] characters. *)
Definition sprintf_into (n : Z) (s : string) : cres string :=
  if Z.of_nat (String.length s) <? n then Val s else Bad UB_buffer_overflow.

(** *** ip_key *)
Record ip_key := mkIpKey { ik_src : E; ik_dst : E }.

Definition ip_key_init : ip_key := mkIpKey tcp_ep_any tcp_ep_any.
Definition ip_key_set (s d sp dp : Z) : ip_key := mkIpKey (get_ep s sp) (get_ep d dp).
Definition ip_key_set6 (s d : list Z) (sp dp : Z) : cres ip_key :=
  se ← get_ep6 s sp; de ← get_ep6 d dp; Val (mkIpKey se de).
Definition ip_key_set_addr (s d : A) (sp dp : Z) : ip_key := mkIpKey (tcp_ep s sp) (tcp_ep d dp).
Definition ip_key_ltb (x y : ip_key) : bool :=
  if negb (tcp_eqb (ik_src x) (ik_src y)) then tcp_ltb (ik_src x) (ik_src y)
  else tcp_ltb (ik_dst x) (ik_dst y).
Definition ip_key_eqb (x y : ip_key) : bool :=
  tcp_eqb (ik_src x) (ik_src y) && tcp_eqb (ik_dst x) (ik_dst y).
Definition ip_key_neqb (x y : ip_key) : bool :=
  negb (tcp_eqb (ik_src x) (ik_src y)) || negb (tcp_eqb (ik_dst x) (ik_dst y)).
Definition ep_text (name : string) (e : E) : string :=
  name +:+ "=" +:+ addr_text (tcp_address e) +:+ "(" +:+ pretty (tcp_port e) +:+ ")".
Definition ip_key_to_string (k : ip_key) : cres string :=
  sprintf_into 256 (ep_text "src" (ik_src k) +:+ "," +:+ ep_text "dst" (ik_dst k)).

(** *** The hash functors

    The block each of them repeats per address, and its endpoint. *)
Definition hash_address (seed : Z) (a : A) : Z :=
  if is_v4 a then foldl (λ seed b, hash_combine seed (H_u8 b)) seed (v4_bytes a)
  else if is_v6 a then foldl (λ seed b, hash_combine seed (H_u8 b)) seed (v6_bytes a)
  else hash_combine seed (H_text (addr_text a)).
Definition hash_endpoint (seed : Z) (e : E) : Z :=
  hash_combine (hash_address seed (tcp_address e)) (H_u16 (tcp_port e)).

Definition ip_4_hash (k : ip_key) : Z :=
  let seed := 0 in
  let seed := hash_endpoint seed (ik_src k) in
  hash_endpoint seed (ik_dst k).
Definition ip_2_hash (k : E) : Z := hash_endpoint 0 k.
Definition ip_1_hash (k : A) : Z := hash_address 0 k.

(** *** sctp_frag_key *)
Record sctp_frag_key := mkSctpFragKey { sf_src : E; sf_dst : E; sf_id : Z (* wui64 *) }.

Definition sctp_frag_key_init : sctp_frag_key := mkSctpFragKey tcp_ep_any tcp_ep_any 0.
Definition sctp_frag_key_set (s d sp dp i : Z) : sctp_frag_key :=
  mkSctpFragKey (get_ep s sp) (get_ep d dp) (u64 i).
Definition sctp_frag_key_set6 (s d : list Z) (sp dp i : Z) : cres sctp_frag_key :=
  se ← get_ep6 s sp; de ← get_ep6 d dp; Val (mkSctpFragKey se de (u64 i)).
Definition sctp_frag_key_set_addr (s d : A) (sp dp i : Z) : sctp_frag_key :=
  mkSctpFragKey (tcp_ep s sp) (tcp_ep d dp) i.
Definition sctp_frag_key_set_ep (s d : E) (i : Z) : sctp_frag_key := mkSctpFragKey s d (u64 i).
Definition sctp_frag_key_ltb (x y : sctp_frag_key) : bool :=
  if negb (tcp_eqb (sf_src x) (sf_src y)) then tcp_ltb (sf_src x) (sf_src y)
  else if negb (tcp_eqb (sf_dst x) (sf_dst y)) then tcp_ltb (sf_dst x) (sf_dst y)
  else sf_id x <? sf_id y.
Definition sctp_frag_key_eqb (x y : sctp_frag_key) : bool :=
  tcp_eqb (sf_src x) (sf_src y) && (tcp_eqb (sf_dst x) (sf_dst y) && (sf_id x =? sf_id y)).
Definition sctp_frag_key_neqb (x y : sctp_frag_key) : bool :=
  negb (tcp_eqb (sf_src x) (sf_src y)) || negb (tcp_eqb (sf_dst x) (sf_dst y)) ||
  negb (sf_id x =? sf_id y).
Definition sctp_frag_key_to_string (k : sctp_frag_key) : cres string :=
  sprintf_into 256 (ep_text "src" (sf_src k) +:+ "," +:+ ep_text "dst" (sf_dst k) +:+
                    ",id(" +:+ pretty (sf_id k) +:+ ")").
Definition sctp_frag_hash (k : sctp_frag_key) : Z :=
  let seed := 0 in
  let seed := hash_endpoint seed (sf_src k) in
  let seed := hash_endpoint seed (sf_dst k) in
  hash_combine seed (H_u64 (sf_id k)).

(** *** ip_frag_key *)
Record ip_frag_key := mkIpFragKey { if_src : A; if_dst : A; if_id : Z (* wui32 *) }.

Definition ip_frag_key_init : ip_frag_key := mkIpFragKey addr_any addr_any 0.
Definition ip_frag_key_set (s d i : Z) : ip_frag_key :=
  mkIpFragKey (get_addr s) (get_addr d) (u32 i).
Definition ip_frag_key_set6 (s d : list Z) (i : Z) : cres ip_frag_key :=
  sa ← get_addr6 s; da ← get_addr6 d; Val (mkIpFragKey sa da i).
Definition ip_frag_key_set_addr (s d : A) (i : Z) : ip_frag_key := mkIpFragKey s d i.
Definition ip_frag_key_ltb (x y : ip_frag_key) : bool :=
  if negb (addr_eqb (if_src x) (if_src y)) then addr_ltb (if_src x) (if_src y)
  else if negb (addr_eqb (if_dst x) (if_dst y)) then addr_ltb (if_dst x) (if_dst y)
  else if_id x <? if_id y.
Definition ip_frag_key_eqb (x y : ip_frag_key) : bool :=
  addr_eqb (if_src x) (if_src y) && (addr_eqb (if_dst x) (if_dst y) && (if_id x =? if_id y)).
Definition ip_frag_key_to_string (k : ip_frag_key) : cres string :=
  sprintf_into 256 ("src=" +:+ addr_text (if_src k) +:+ ",dst=" +:+ addr_text (if_dst k) +:+
                    ",id=0x" +:+ hex08 (if_id k)).

(** The block of [ip_frag_hash]: everything that is not IPv4 is read as IPv6. *)
Definition hash_address_46 (seed : Z) (a : A) : Z :=
  if is_v4 a then foldl (λ seed b, hash_combine seed (H_u8 b)) seed (v4_bytes a)
  else foldl (λ seed b, hash_combine seed (H_u8 b)) seed (v6_bytes a).
Definition ip_frag_hash (k : ip_frag_key) : Z :=
  let seed := 0 in
  let seed := hash_address_46 seed (if_src k) in
  let seed := hash_address_46 seed (if_dst k) in
  hash_combine seed (H_u32 (if_id k)).
End Keys.

Arguments ip_key E : clear implicits.
Arguments sctp_frag_key E : clear implicits.
Arguments ip_frag_key A : clear implicits.

(** *** wui64_key *)
Record wui64_key := mkWui64Key { imsi : Z (* wui64 *) }.

Definition wui64_key_init : wui64_key := mkWui64Key 0.
Definition wui64_key_to_string (k : wui64_key) : cres string :=
  sprintf_into 1024 ("imsi[" +:+ pretty (imsi k) +:+ "] ").
Definition wui64_key_ltb (x y : wui64_key) : bool := imsi x <? imsi y.
Definition wui64_key_eqb (x y : wui64_key) : bool := imsi x =? imsi y.
Definition wui64_hash {A E} `{AS : !Asio A E} (k : wui64_key) : Z :=
  hash_combine 0 (H_u64 (imsi k)).

(** ** Properties of the keys *)

Lemma ip_bytes_be ip : ip_bytes ip = reverse (le_split 4 ip).
Proof.
  assert (Hd : ∀ z, z / 256 = Z.shiftr z 8) by (intros; by rewrite Z.shiftr_div_pow2).
  unfold ip_bytes, wrapU. cbn [le_split reverse rev_append]. rewrite !Hd.
  repeat refine (f_equal2 cons (byte_eq _ _ _) _); [..|done]; apply below_8;
    repeat apply Forall_cons_2; try apply Forall_nil_2; cbn -[Z.testbit];
    rewrite ?Z.shiftr_spec, ?Z.land_spec by lia; cbn -[Z.testbit];
    eval_const_bits; rewrite ?andb_true_r; reflexivity.
Qed.

(** The values a hash functor feeds to [hash_combine], in order. *)
Definition combine_all {A E} `{AS : !Asio A E} (seed : Z) (l : list hashed) : Z :=
  foldl hash_combine seed l.

Section Laws.
Context {A E : Type} `{AL : AsioLaws A E}.

Lemma combine_bytes seed l :
  foldl (λ seed b, hash_combine seed (H_u8 b)) seed l = combine_all seed (H_u8 <$> l).
Proof. revert seed. induction l as [|b l IH]; intros seed; cbn; [done|]. by rewrite IH. Qed.

Lemma combine_all_app seed l1 l2 :
  combine_all (combine_all seed l1) l2 = combine_all seed (l1 ++ l2).
Proof. unfold combine_all. by rewrite foldl_app. Qed.

Lemma ip_bytes_ok ip : length (ip_bytes ip) = 4%nat ∧ Forall byte_ok (ip_bytes ip).
Proof.
  rewrite ip_bytes_be. split; [by rewrite length_reverse, length_le_split|].
  apply Forall_reverse, le_split_bytes.
Qed.

(** Hashing an address built from a [wui32]. *)
Lemma hash_get_addr seed ip :
  hash_address seed (get_addr ip) = combine_all seed (H_u8 <$> reverse (le_split 4 ip)) ∧
  hash_address_46 seed (get_addr ip) = combine_all seed (H_u8 <$> reverse (le_split 4 ip)).
Proof.
  destruct (ip_bytes_ok ip) as [Hl Hb]. destruct (v4_law _ Hl Hb) as [H4 Hv].
  unfold hash_address, hash_address_46, get_addr. rewrite H4, Hv, combine_bytes.
  by rewrite <- ip_bytes_be.
Qed.

Lemma hash_get_ep seed ip port :
  hash_endpoint seed (get_ep ip port) =
    combine_all seed ((H_u8 <$> reverse (le_split 4 ip)) ++ [H_u16 port]).
Proof.
  unfold hash_endpoint, get_ep. destruct (tcp_law (get_addr ip) port) as [-> ->].
  rewrite (proj1 (hash_get_addr seed ip)). by rewrite <- combine_all_app.
Qed.

Lemma length_append s t : String.length (s +:+ t) = (String.length s + String.length t)%nat.
Proof. induction s as [|c s IH]; [done|]. exact (f_equal S IH). Qed.
Lemma length_hex08 i : String.length (hex08 i) = 8%nat.
Proof. done. Qed.
Example hex08_leading_zeros : hex08 0x00c0ffee = "00c0ffee"%string.
Proof. vm_compute. reflexivity. Qed.

(** The texts of the keys fit their buffers as long as those of the addresses
    have at most 90 characters (an IPv6 address has at most 45, before its scope). *)
Lemma keys_to_string_fit :
  (∀ a : A, (String.length (addr_text a) ≤ 90)%nat) → (∀ e : E, in_u 16 (tcp_port e)) →
  (∀ k : ip_key E, ∃ s, ip_key_to_string k = Val s) ∧
  (∀ k : sctp_frag_key E, in_u 64 (sf_id k) → ∃ s, sctp_frag_key_to_string k = Val s) ∧
  (∀ k : ip_frag_key A, ∃ s, ip_frag_key_to_string k = Val s).
Proof.
  intros Ha Hp.
  assert (Ht : ∀ name e, (String.length (ep_text name e) ≤ String.length name + 99)%nat).
  { intros name e. unfold ep_text. rewrite !length_append. cbn.
    pose proof (Ha (tcp_address e)). pose proof (Hp e) as Hu. unfold in_u in Hu. cbn in Hu.
    pose proof (length_to_string 5 (tcp_port e) ltac:(lia) ltac:(cbn; lia)) as Hl. unfold to_string in Hl. lia. }
  assert (Hfit : ∀ s, (String.length s < 256)%nat → ∃ s', sprintf_into 256 s = Val s').
  { intros s Hs. unfold sprintf_into. case_cmp; [by eexists|lia]. }
  split_and!; intros k.
  - apply Hfit. rewrite !length_append. cbn.
    pose proof (Ht "src"%string (ik_src k)). pose proof (Ht "dst"%string (ik_dst k)). cbn in *. lia.
  - intros Hi. apply Hfit. rewrite !length_append. cbn.
    pose proof (Ht "src"%string (sf_src k)). pose proof (Ht "dst"%string (sf_dst k)).
    unfold in_u in Hi. cbn in Hi. pose proof (length_to_string 20 (sf_id k) ltac:(lia) ltac:(cbn; lia)) as Hl.
    unfold to_string in Hl. cbn in *. lia.
  - apply Hfit. rewrite !length_append, length_hex08. cbn.
    pose proof (Ha (if_src k)). pose proof (Ha (if_dst k)). lia.
Qed.

(** the keys can be used in the standard containers.  Given that asio's own
    operators on addresses and endpoints are a strict total order and its
    equality, [operator<] of every key is a strict total order whose
    equivalence is [operator==], and [operator!=] is the negation of that. *)
Theorem keys_strict_total :
  strict_total (ip_key_eqb (A := A) (E := E)) ip_key_ltb ∧
  strict_total (sctp_frag_key_eqb (A := A) (E := E)) sctp_frag_key_ltb ∧
  strict_total (ip_frag_key_eqb (A := A) (E := E)) ip_frag_key_ltb ∧
  strict_total wui64_key_eqb wui64_key_ltb ∧
  (∀ x y : ip_key E, ip_key_neqb x y = negb (ip_key_eqb x y)) ∧
  (∀ x y : sctp_frag_key E, sctp_frag_key_neqb x y = negb (sctp_frag_key_eqb x y)).
Proof.
  assert (Hp : ∀ T U (x y : T * U), x.1 = y.1 → x.2 = y.2 → x = y)
    by (intros ? ? [] []; cbn; by intros -> ->).
  pose proof addr_order as HA. pose proof tcp_order as HE. pose proof Z_strict_total as HZ.
  split_and!.
  - apply (lex_strict_total ik_src ik_dst); [done..|]. intros [] []; cbn; by intros -> ->.
  - pose proof (lex_strict_total (C := E * Z) fst snd _ _ _ _ HE HZ (Hp _ _)) as H2.
    apply (lex_strict_total sf_src (λ k, (sf_dst k, sf_id k)) _ _ _ _ HE H2).
    intros [] []; cbn; congruence.
  - pose proof (lex_strict_total (C := A * Z) fst snd _ _ _ _ HA HZ (Hp _ _)) as H2.
    apply (lex_strict_total if_src (λ k, (if_dst k, if_id k)) _ _ _ _ HA H2).
    intros [] []; cbn; congruence.
  - unfold wui64_key_eqb, wui64_key_ltb. split; try intros [x]; try intros [y]; try intros [z]; cbn.
    + rewrite (st_eq _ _ HZ). split; [by intros ->|by intros [= ->]].
    + apply (st_irrefl _ _ HZ).
    + apply (st_trans _ _ HZ).
    + intros Hne. apply (st_total _ _ HZ). intros ->. done.
  - intros x y. unfold ip_key_neqb, ip_key_eqb. by rewrite negb_andb.
  - intros x y. unfold sctp_frag_key_neqb, sctp_frag_key_eqb. by rewrite !negb_andb, orb_assoc.
Qed.

(** what the hash functors hash.  For a key built from IPv4 addresses in host
    order, each functor feeds [hash_combine], from seed 0, the bytes of every
    address most significant first, followed by its port and by the fragment
    id where the key has them; the 4-tuple hash continues the 2-tuple hash of
    the source endpoint.  The textual form of an address is never hashed. *)
Theorem hashes_of_tuples s d sp dp i :
  let be ip := H_u8 <$> reverse (le_split 4 ip) in
  ip_1_hash (get_addr s) = combine_all 0 (be s) ∧
  ip_2_hash (get_ep s sp) = combine_all 0 (be s ++ [H_u16 sp]) ∧
  ip_4_hash (ip_key_set s d sp dp) =
    combine_all 0 (be s ++ [H_u16 sp] ++ be d ++ [H_u16 dp]) ∧
  ip_4_hash (ip_key_set s d sp dp) =
    combine_all (ip_2_hash (get_ep s sp)) (be d ++ [H_u16 dp]) ∧
  sctp_frag_hash (sctp_frag_key_set s d sp dp i) =
    combine_all 0 (be s ++ [H_u16 sp] ++ be d ++ [H_u16 dp] ++ [H_u64 (u64 i)]) ∧
  ip_frag_hash (ip_frag_key_set s d i) = combine_all 0 (be s ++ be d ++ [H_u32 (u32 i)]) ∧
  (∀ (a : A) seed, hash_address seed a = hash_address_46 seed a).
Proof.
  intros be. unfold ip_1_hash, ip_2_hash, ip_4_hash, sctp_frag_hash, ip_frag_hash.
  cbn [ik_src ik_dst ip_key_set sf_src sf_dst sf_id sctp_frag_key_set if_src if_dst if_id ip_frag_key_set].
  rewrite !hash_get_ep, (proj1 (hash_get_addr _ s)), !(proj2 (hash_get_addr _ _)).
  rewrite !combine_all_app. split_and!; try done.
  intros a seed. unfold hash_address, hash_address_46. destruct (is_v4 a) eqn:E4; [done|].
  by rewrite (version_law a E4).
Qed.
End Laws.

(** ** An instance of asio's interface

    Addresses as their byte lists, ordered through their codes: used to
    instantiate the theorems at concrete inputs. *)

Definition code_ltb {T} `{Countable T} (x y : T) : bool := (encode x <? encode y)%positive.

Lemma code_strict_total T `{Countable T} :
  strict_total (λ x y : T, bool_decide (x = y)) code_ltb.
Proof.
  unfold code_ltb. split; intros *; rewrite ?bool_decide_eq_true, ?Pos.ltb_lt.
  - done.
  - apply Pos.ltb_irrefl.
  - apply Pos.lt_trans.
  - intros Hne. destruct (Pos.lt_total (encode x) (encode y)) as [|[E|]]; [by left| |by right].
    by apply (inj encode) in E.
Qed.

Definition demo_asio : Asio (list Z) (list Z * Z) := {|
  addr_any := [0; 0; 0; 0]; addr_v4 l := l; addr_v6 l := l;
  is_v4 a := (length a =? 4)%nat; is_v6 a := negb (length a =? 4)%nat;
  v4_bytes a := a; v6_bytes a := a; addr_text a := EmptyString;
  addr_eqb x y := bool_decide (x = y); addr_ltb := code_ltb;
  tcp_ep a p := (a, p); tcp_ep_any := ([0; 0; 0; 0], 0); tcp_address := fst; tcp_port := snd;
  tcp_eqb x y := bool_decide (x = y); tcp_ltb := code_ltb;
  hash_combine seed v :=
    u64 (seed * 31 + match v with H_u8 x | H_u16 x | H_u32 x | H_u64 x => x | H_text _ => 0 end)
|}.

Lemma demo_asio_laws : @AsioLaws (list Z) (list Z * Z) demo_asio.
Proof.
  split; cbn.
  - apply code_strict_total.
  - apply code_strict_total.
  - intros l -> _. done.
  - intros l -> _. done.
  - intros a. by destruct (length a =? 4)%nat.
  - done.
Qed.

Lemma keys_strict_total_witness :
  strict_total (@ip_key_eqb (list Z) _ demo_asio) (@ip_key_ltb (list Z) _ demo_asio) ∧
  @ip_key_eqb _ _ demo_asio (@ip_key_set _ _ demo_asio 0x0a000001 0x0a000002 80 81)
    (@ip_key_set _ _ demo_asio 0x0a000001 0x0a000002 80 82) = false.
Proof.
  split; [exact (proj1 (@keys_strict_total _ _ demo_asio demo_asio_laws))|].
  vm_compute. reflexivity.
Defined.

Lemma hashes_of_tuples_witness :
  @ip_1_hash _ _ demo_asio (@get_addr _ _ demo_asio 0x0a000001) =
  @combine_all _ _ demo_asio 0 [H_u8 10; H_u8 0; H_u8 0; H_u8 1].
Proof. exact (proj1 (@hashes_of_tuples _ _ demo_asio demo_asio_laws 0x0a000001 0 0 0 0)). Defined.
