(* ===== verification/Msg.v ===== *)
(** * The chat wire format (include/MsgId.h, include/Msg.h)

    The packed [cpMsg_t] (an 8-byte header and a 1024-byte body), the [Msg]
    class around it with every accessor, and the body structures.  The layout
    is the one of the build's platform (x86-64, little endian): [version] at
    offset 0, [result] at 1, [bodyLength] at 2, [msgId] at 4, the body at 8. *)
From S2P Require Import Prelude.

(** ** MsgId.h *)

Inductive MsgId_t :=
  | NONE_MSG_ID | RQ_CREATE_USER | RS_CREATE_USER | NF_MESSAGE | MAX_MSG_ID.

Definition MsgId_val (i : MsgId_t) : Z :=
  match i with
  | NONE_MSG_ID => 0 | RQ_CREATE_USER => 1 | RS_CREATE_USER => 2
  | NF_MESSAGE => 3 | MAX_MSG_ID => 4
  end.

Inductive ResponseCode_t :=
  | NONE_CODE
  | CHARACTER | CREATE_USER_SUCCESS | LOGIN_SUCCESS | CREATE_PARTY_SUCCESS
  | JOIN_USER_SUCCESS | NOTIFY_MESSAGE
  | ERROR | CREATE_USER_FAIL | LOGIN_FAIL | CREATE_PARTY_FAIL | JOIN_USER_FAIL
  | INVALID_MSG
  | END_RES_CODE.

Definition ResponseCode_val (r : ResponseCode_t) : Z :=
  match r with
  | NONE_CODE => 0x0000
  | CHARACTER => 0x1000 | CREATE_USER_SUCCESS => 0x1001 | LOGIN_SUCCESS => 0x1002
  | CREATE_PARTY_SUCCESS => 0x1003 | JOIN_USER_SUCCESS => 0x1004
  | NOTIFY_MESSAGE => 0x1005
  | ERROR => 0x2000 | CREATE_USER_FAIL => 0x2001 | LOGIN_FAIL => 0x2002
  | CREATE_PARTY_FAIL => 0x2003 | JOIN_USER_FAIL => 0x2004
  | INVALID_MSG => 0x2005
  | END_RES_CODE => 0xFFFF
  end.

#[export] Instance MsgId_eq_dec : EqDecision MsgId_t.
Proof. solve_decision. Defined.
#[export] Instance ResponseCode_eq_dec : EqDecision ResponseCode_t.
Proof. solve_decision. Defined.

(** ** cpMsgHeader_t, cpMsgBody_t, cpMsg_t *)

Definition SERVER_TCP_PORT : Z := 40000.
Definition CLIENT_TCP_PORT : Z := 40001.
Definition MAX_CP_MSG_DATA : Z := 1024.

Record cpMsgHeader_t := mkHdr {
  hdr_version : Z;      (* int8_t *)
  hdr_result : Z;       (* int8_t *)
  hdr_bodyLength : Z;   (* int16_t *)
  hdr_msgId : Z         (* uint32_t *)
}.

(** [cpMsg_t], the only field of class [Msg]: the body is [MAX_CP_MSG_DATA]
    bytes. *)
Record Msg := mkMsg { msg_hdr : cpMsgHeader_t; msg_body : list Z }.

#[export] Instance cpMsgHeader_eq_dec : EqDecision cpMsgHeader_t.
Proof. solve_decision. Defined.
#[export] Instance Msg_eq_dec : EqDecision Msg.
Proof. solve_decision. Defined.

Definition hdr_ok (h : cpMsgHeader_t) : Prop :=
  in_s 8 (hdr_version h) ∧ in_s 8 (hdr_result h) ∧
  in_s 16 (hdr_bodyLength h) ∧ in_u 32 (hdr_msgId h).

Definition body_ok (b : list Z) : Prop :=
  length b = Z.to_nat MAX_CP_MSG_DATA ∧ Forall byte_ok b.

(** The representation invariant of a [Msg] object. *)
Definition msg_ok (m : Msg) : Prop := hdr_ok (msg_hdr m) ∧ body_ok (msg_body m).

#[export] Instance hdr_ok_dec h : Decision (hdr_ok h).
Proof. unfold hdr_ok. apply _. Defined.
#[export] Instance body_ok_dec b : Decision (body_ok b).
Proof. unfold body_ok. apply _. Defined.
#[export] Instance msg_ok_dec m : Decision (msg_ok m).
Proof. unfold msg_ok. apply _. Defined.

(** ** The object representation *)

Definition hdrLength : Z := 8.          (* sizeof(cpMsgHeader_t) *)
Definition msgIdLength : Z := 4.        (* sizeof(int) *)
Definition version : Z := 1.

Definition bytes_of_hdr (h : cpMsgHeader_t) : list Z :=
  le_split 1 (hdr_version h) ++ le_split 1 (hdr_result h) ++
  le_split 2 (hdr_bodyLength h) ++ le_split 4 (hdr_msgId h).

Definition hdr_of_bytes (l : list Z) : cpMsgHeader_t :=
  mkHdr (i8 (le_combine (take 1 l)))
        (i8 (le_combine (take 1 (drop 1 l))))
        (i16 (le_combine (take 2 (drop 2 l))))
        (le_combine (take 4 (drop 4 l))).

Definition bytes_of_msg (m : Msg) : list Z := bytes_of_hdr (msg_hdr m) ++ msg_body m.
Definition msg_of_bytes (l : list Z) : Msg := mkMsg (hdr_of_bytes (take 8 l)) (drop 8 l).

#[global] Arguments bytes_of_hdr : simpl never.
#[global] Arguments hdr_of_bytes : simpl never.
#[global] Arguments bytes_of_msg : simpl never.
#[global] Arguments msg_of_bytes : simpl never.

(** sizeof(cpMsg_t) *)
Definition sizeof_Msg : Z := hdrLength + MAX_CP_MSG_DATA.

(** Bytes stored by the kernel into the object at an offset: undefined when
    they do not fit. *)
Definition store (off : Z) (bs : list Z) (m : Msg) : cres Msg :=
  if off + Z.of_nat (length bs) <=? sizeof_Msg
  then Val (msg_of_bytes (splice (Z.to_nat off) bs (bytes_of_msg m)))
  else Bad UB_buffer_overflow.

(** Bytes read by the kernel from the start of the object. *)
Definition load (n : Z) (m : Msg) : cres (list Z) :=
  if n <=? sizeof_Msg then Val (take (Z.to_nat n) (bytes_of_msg m))
  else Bad UB_buffer_overread.

(** ** class Msg *)

(** [int length() const] *)
Definition msg_length (m : Msg) : Z := hdrLength + hdr_bodyLength (msg_hdr m).

(** [int bodyLength() const] *)
Definition bodyLength (m : Msg) : Z := hdr_bodyLength (msg_hdr m).

(** [int msgId() const]: the [uint32_t] converted to [int]. *)
Definition msgId (m : Msg) : Z := i32 (hdr_msgId (msg_hdr m)).

Definition hdr_set_bodyLength (v : Z) (h : cpMsgHeader_t) : cpMsgHeader_t :=
  mkHdr (hdr_version h) (hdr_result h) v (hdr_msgId h).

Definition setBodyLength (length : Z) (m : Msg) : Msg :=
  let bl := i16 length in
  let bl := if MAX_CP_MSG_DATA <? bl then MAX_CP_MSG_DATA else bl in
  mkMsg (hdr_set_bodyLength bl (msg_hdr m)) (msg_body m).

Definition checkHeader (m : Msg) : bool :=
  if negb (hdr_version (msg_hdr m) =? version) then false
  else if MAX_CP_MSG_DATA <? hdr_bodyLength (msg_hdr m) then false
  else if ResponseCode_val ERROR <? hdr_result (msg_hdr m) then false
  else true.

(** [memcpy(dst, src, n)] with [n] a [size_t]: undefined when either object is
    shorter than [n]. *)
Definition memcpy (dst src : list Z) (n : Z) : cres (list Z) :=
  if Z.of_nat (length src) <? n then Bad UB_buffer_overread
  else if Z.of_nat (length dst) <? n then Bad UB_buffer_overflow
  else Val (splice 0 (take (Z.to_nat n) src) dst).

(** [encodeMsg(msgId, result, data, dataLength)]; [data] is [None] for a null
    pointer, otherwise the object it points to. *)
Definition encodeMsg_result (id : MsgId_t) (result : ResponseCode_t)
    (data : option (list Z)) (dataLength : Z) (m : Msg) : cres Msg :=
  let h := mkHdr version (i8 (ResponseCode_val result)) (i16 dataLength)
                 (u32 (MsgId_val id)) in
  match data with
  | Some src =>
      if 0 <? hdr_bodyLength h
      then b ← memcpy (msg_body m) src (size_t dataLength); Val (mkMsg h b)
      else Val (mkMsg h (msg_body m))
  | None => Val (mkMsg h (msg_body m))
  end.

(** [encodeMsg(msgId, data, dataLength)] *)
Definition encodeMsg (id : MsgId_t) (data : option (list Z)) (dataLength : Z)
    (m : Msg) : cres Msg :=
  let h := mkHdr version (i8 (ResponseCode_val NONE_CODE)) (i16 dataLength)
                 (u32 (MsgId_val id)) in
  match data with
  | Some src =>
      if 0 <? hdr_bodyLength h
      then b ← memcpy (msg_body m) src (size_t dataLength); Val (mkMsg h b)
      else Val (mkMsg h (msg_body m))
  | None => Val (mkMsg h (msg_body m))
  end.

(** ** Body structures *)

Record RqCreateUser := mkRqCreateUser { rq_id : list Z (* char[36] *) }.
Definition RqCreateUser_init : RqCreateUser := mkRqCreateUser (replicate 36 0).

Inductive RsCreateUser_ErrorCode := ERROR_NONE.
Record RsCreateUser := mkRsCreateUser { rs_errorCode : RsCreateUser_ErrorCode }.
Definition RsCreateUser_init : RsCreateUser := mkRsCreateUser ERROR_NONE.

Record NfMessage := mkNfMessage { nf_message : list Z (* char[256] *) }.
Definition NfMessage_init : NfMessage := mkNfMessage (replicate 256 0).

(** What the peer receives when the whole object [m] is written by length. *)
Definition frame (m : Msg) : list Z := take (Z.to_nat (msg_length m)) (bytes_of_msg m).

(** ** Lemmas: the object representation *)

Lemma length_bytes_of_hdr h : length (bytes_of_hdr h) = 8%nat.
Proof. unfold bytes_of_hdr. by rewrite !length_app, !length_le_split. Qed.

Lemma length_bytes_of_msg m :
  body_ok (msg_body m) → length (bytes_of_msg m) = Z.to_nat sizeof_Msg.
Proof.
  intros [Hl _]. unfold bytes_of_msg. rewrite length_app, length_bytes_of_hdr, Hl.
  unfold sizeof_Msg, hdrLength, MAX_CP_MSG_DATA. lia.
Qed.

Lemma bytes_of_hdr_bytes h : Forall byte_ok (bytes_of_hdr h).
Proof. unfold bytes_of_hdr. auto using Forall_app_2, le_split_bytes. Qed.

Lemma bytes_of_msg_bytes m : body_ok (msg_body m) → Forall byte_ok (bytes_of_msg m).
Proof.
  intros [_ Hb]. unfold bytes_of_msg. auto using Forall_app_2, bytes_of_hdr_bytes.
Qed.

Lemma le_split_signed n w v :
  w = 8 * Z.of_nat n → 0 < w → in_s w v → wrapS w (le_combine (le_split n v)) = v.
Proof.
  intros -> Hw Hv. rewrite le_combine_split. fold (wrapU (8 * Z.of_nat n) v).
  rewrite wrapS_wrapU by done. by apply wrapS_id.
Qed.

Lemma hdr_of_bytes_of_hdr h : hdr_ok h → hdr_of_bytes (bytes_of_hdr h) = h.
Proof.
  destruct h as [v r b i]. intros (Hv & Hr & Hb & Hi).
  cbn [hdr_version hdr_result hdr_bodyLength hdr_msgId] in *.
  change (mkHdr (i8 (le_combine (le_split 1 v))) (i8 (le_combine (le_split 1 r)))
            (i16 (le_combine (le_split 2 b))) (le_combine (le_split 4 i)) =
          mkHdr v r b i).
  rewrite !le_split_signed by (lia || done).
  f_equal. rewrite le_combine_split. by apply wrapU_id.
Qed.

Lemma le_combine_bound l :
  Forall byte_ok l → 0 <= le_combine l < 2 ^ (8 * Z.of_nat (length l)).
Proof.
  intros Hl. rewrite <- (le_split_combine l Hl) at 1 2. rewrite le_combine_split.
  apply Z.mod_pos_bound, Z.pow_pos_nonneg; lia.
Qed.

Lemma hdr_of_bytes_ok l : Forall byte_ok l → hdr_ok (hdr_of_bytes l).
Proof.
  intros Hl. unfold hdr_of_bytes, hdr_ok.
  cbn [hdr_version hdr_result hdr_bodyLength hdr_msgId].
  split_and!; try by apply wrapS_range.
  assert (Hb : Forall byte_ok (take 4 (drop 4 l))) by auto using Forall_take, Forall_drop.
  pose proof (le_combine_bound _ Hb) as Hle. unfold in_u.
  enough (2 ^ (8 * Z.of_nat (length (take 4 (drop 4 l)))) <= 2 ^ 32) by lia.
  apply Z.pow_le_mono_r; [lia|]. rewrite length_take. lia.
Qed.

Lemma le_split_combine_at l n i :
  Forall byte_ok l → (i + n ≤ length l)%nat →
  le_split n (le_combine (take n (drop i l))) = take n (drop i l).
Proof.
  intros Hl Hlen. set (k := take n (drop i l)).
  assert (Hk : length k = n).
  { unfold k. rewrite length_take, length_drop. lia. }
  rewrite <- Hk at 1. apply le_split_combine. unfold k. auto using Forall_take, Forall_drop.
Qed.

Lemma le_split_wrapU n z : le_split n (wrapU (8 * Z.of_nat n) z) = le_split n z.
Proof.
  rewrite <- (le_split_combine (le_split n z)) by apply le_split_bytes.
  rewrite length_le_split, le_combine_split. done.
Qed.

Lemma le_split_wrapS n w z : w = 8 * Z.of_nat n → 0 < w → le_split n (wrapS w z) = le_split n z.
Proof.
  intros -> Hw. rewrite <- (le_split_wrapU n (wrapS _ _)), wrapU_wrapS by done.
  apply le_split_wrapU.
Qed.

Lemma bytes_of_hdr_of_bytes l :
  Forall byte_ok l → length l = 8%nat → bytes_of_hdr (hdr_of_bytes l) = l.
Proof.
  intros Hl Hlen. unfold bytes_of_hdr, hdr_of_bytes.
  cbn [hdr_version hdr_result hdr_bodyLength hdr_msgId].
  rewrite !(le_split_wrapS _ _ _) by (done || lia).
  rewrite <- (drop_0 l) at 1. rewrite !le_split_combine_at by (done || lia).
  do 8 (destruct l as [|? l]; [done|]). destruct l; done.
Qed.

Lemma msg_of_bytes_of_msg m : hdr_ok (msg_hdr m) → msg_of_bytes (bytes_of_msg m) = m.
Proof.
  intros Hh. unfold msg_of_bytes, bytes_of_msg.
  rewrite take_app_length', drop_app_length' by (by rewrite length_bytes_of_hdr).
  rewrite hdr_of_bytes_of_hdr by done. by destruct m.
Qed.

(** The header read: eight bytes stored at offset 0. *)
Lemma store_header bs m :
  body_ok (msg_body m) → length bs = 8%nat →
  store 0 bs m = Val (mkMsg (hdr_of_bytes bs) (msg_body m)).
Proof.
  intros Hb Hlen. unfold store. case_cmp.
  2:{ unfold sizeof_Msg, hdrLength, MAX_CP_MSG_DATA in *. lia. }
  do 2 f_equal. change (Z.to_nat 0) with 0%nat. unfold splice, bytes_of_msg.
  rewrite take_0, app_nil_l, Nat.add_0_l, Hlen.
  rewrite drop_app_length' by (by rewrite length_bytes_of_hdr).
  unfold msg_of_bytes. rewrite take_app_length', drop_app_length' by done. done.
Qed.

(** A header read that returned fewer bytes: they replace a prefix of the old
    header. *)
Lemma store_header_short bs m :
  body_ok (msg_body m) → (length bs ≤ 8)%nat →
  store 0 bs m =
    Val (mkMsg (hdr_of_bytes (bs ++ drop (length bs) (bytes_of_hdr (msg_hdr m)))) (msg_body m)).
Proof.
  intros Hb Hlen. unfold store. case_cmp.
  2:{ unfold sizeof_Msg, hdrLength, MAX_CP_MSG_DATA in *. lia. }
  do 2 f_equal. change (Z.to_nat 0) with 0%nat. unfold splice, bytes_of_msg.
  rewrite take_0, app_nil_l, Nat.add_0_l.
  rewrite drop_app_le by (rewrite length_bytes_of_hdr; done). rewrite app_assoc.
  unfold msg_of_bytes. rewrite take_app_length', drop_app_length'; [done|..];
    rewrite length_app, length_drop, length_bytes_of_hdr; lia.
Qed.

(** The body read: bytes stored from offset 8 on. *)
Lemma store_body bs m :
  hdr_ok (msg_hdr m) → (length bs ≤ Z.to_nat MAX_CP_MSG_DATA)%nat →
  store 8 bs m = Val (mkMsg (msg_hdr m) (splice 0 bs (msg_body m))).
Proof.
  intros Hh Hlen. unfold store. case_cmp.
  2:{ unfold sizeof_Msg, hdrLength, MAX_CP_MSG_DATA in *. lia. }
  do 2 f_equal. change (Z.to_nat 8) with 8%nat. unfold splice, bytes_of_msg, msg_of_bytes.
  rewrite (take_app_length' (bytes_of_hdr _)) by (by rewrite length_bytes_of_hdr).
  rewrite (take_app_length' (bytes_of_hdr _)) by (by rewrite length_bytes_of_hdr).
  rewrite (drop_app_length' (bytes_of_hdr _)) by (by rewrite length_bytes_of_hdr).
  rewrite hdr_of_bytes_of_hdr by done. rewrite take_0, app_nil_l, Nat.add_0_l.
  rewrite <- drop_drop, drop_app_length' by (by rewrite length_bytes_of_hdr). done.
Qed.

Lemma msg_of_bytes_ok l :
  Forall byte_ok l → length l = Z.to_nat sizeof_Msg → msg_ok (msg_of_bytes l).
Proof.
  intros Hl Hlen. split; [apply hdr_of_bytes_ok, Forall_take; done|].
  unfold msg_of_bytes; split; cbn [msg_body].
  - rewrite length_drop, Hlen. unfold sizeof_Msg, hdrLength, MAX_CP_MSG_DATA. lia.
  - by apply Forall_drop.
Qed.

Lemma store_ok off bs m m' :
  0 <= off → msg_ok m → Forall byte_ok bs → store off bs m = Val m' → msg_ok m'.
Proof.
  intros Ho [Hh Hb] Hbs. unfold store. case_cmp; [|done]. intros [= <-].
  apply msg_of_bytes_ok.
  - apply splice_bytes; auto using bytes_of_msg_bytes.
  - rewrite length_splice; rewrite length_bytes_of_msg by done; [done|]. lia.
Qed.

(** A message whose body length is in the buffer is written as its header
    followed by that many bytes of body. *)
Lemma frame_split m :
  0 <= bodyLength m →
  frame m = bytes_of_hdr (msg_hdr m) ++ take (Z.to_nat (bodyLength m)) (msg_body m).
Proof.
  intros Hl. unfold frame, bytes_of_msg, msg_length, hdrLength. fold (bodyLength m).
  rewrite take_app, length_bytes_of_hdr, take_ge by (rewrite length_bytes_of_hdr; lia).
  do 2 f_equal. lia.
Qed.

Definition sendable (m : Msg) : Prop := msg_ok m ∧ 0 <= bodyLength m <= MAX_CP_MSG_DATA.

#[export] Instance sendable_dec m : Decision (sendable m).
Proof. unfold sendable. apply _. Defined.

Lemma length_frame m : sendable m → length (frame m) = Z.to_nat (msg_length m).
Proof.
  intros [[_ Hb] Hl]. unfold frame. rewrite length_take, length_bytes_of_msg by done.
  unfold msg_length, sizeof_Msg, hdrLength, bodyLength, MAX_CP_MSG_DATA in *. lia.
Qed.

Lemma memcpy_Val dst src n :
  0 <= n <= Z.of_nat (length src) → n <= Z.of_nat (length dst) →
  memcpy dst src n = Val (take (Z.to_nat n) src ++ drop (Z.to_nat n) dst).
Proof.
  intros. unfold memcpy. case_cmp; try lia. unfold splice.
  rewrite take_0, app_nil_l, length_take. do 3 f_equal. lia.
Qed.

Lemma memcpy_Bad dst src n :
  Z.of_nat (length src) < n ∨ Z.of_nat (length dst) < n → ∃ u, memcpy dst src n = Bad u.
Proof. intros. unfold memcpy. case_cmp; eauto; lia. Qed.

#[export] Hint Resolve length_bytes_of_hdr length_bytes_of_msg hdr_of_bytes_ok : tori.

Lemma checkHeader_accepts m :
  msg_ok m → checkHeader m = true ↔
    hdr_version (msg_hdr m) = version ∧ bodyLength m <= MAX_CP_MSG_DATA.
Proof.
  intros [(Hv & Hr & Hb & Hi) _]. unfold checkHeader, bodyLength, in_s in *.
  cbn [ResponseCode_val]. case_cmp; cbn [negb]; split; intros; deex; try done; lia.
Qed.

(** ** Streams of frames

    What a sequence of messages puts on the wire, and the message object after
    a frame has been read into it. *)

Definition wire (ms : list Msg) : list Z := concat (frame <$> ms).

(** The message object after the frame of [m] has been read into [old]. *)
Definition received (m old : Msg) : Msg :=
  mkMsg (msg_hdr m) (splice 0 (take (Z.to_nat (bodyLength m)) (msg_body m)) (msg_body old)).

Lemma wire_app ms1 ms2 : wire (ms1 ++ ms2) = wire ms1 ++ wire ms2.
Proof. unfold wire. by rewrite fmap_app, concat_app. Qed.

Lemma length_wire_cons m ms :
  sendable m → Z.of_nat (length (wire (m :: ms))) = msg_length m + Z.of_nat (length (wire ms)).
Proof.
  intros Hm. unfold wire. cbn. rewrite length_app, length_frame by done.
  destruct Hm as [_ Hm]. unfold msg_length, hdrLength, bodyLength in *. lia.
Qed.

Lemma length_take_body m : sendable m →
  length (take (Z.to_nat (bodyLength m)) (msg_body m)) = Z.to_nat (bodyLength m).
Proof. intros [[_ [Hl _]] Hb]. rewrite length_take, Hl. lia. Qed.

Lemma frame_received m old : sendable m → frame (received m old) = frame m.
Proof.
  intros Hm. rewrite !frame_split by apply Hm. f_equal. unfold received. cbn [msg_body].
  change (bodyLength (mkMsg _ _)) with (bodyLength m). apply take_splice_0.
  by rewrite length_take_body.
Qed.

Lemma received_ok m old : sendable m → msg_ok old → msg_ok (received m old).
Proof.
  intros [[Hh [Hl Hb]] Hn] [_ [Hol Hob]].
  split; [done|]. split; unfold received; cbn [msg_body].
  - rewrite length_splice; [done|]. rewrite length_take, Hl, Hol. lia.
  - auto using splice_bytes, Forall_take.
Qed.

Lemma sendable_received m old : sendable m → msg_ok old → sendable (received m old).
Proof. intros Hm Hold. split; [by apply received_ok|apply Hm]. Qed.

(** ** Properties *)

(** C30: the packed header layout is a bijection between the field values its C
    types allow and the 8-byte strings: what one host writes is what the other
    reads, and every 8 bytes received are some header. *)
Theorem header_layout_bijection :
  (∀ h, hdr_ok h →
     length (bytes_of_hdr h) = Z.to_nat hdrLength ∧ hdr_of_bytes (bytes_of_hdr h) = h) ∧
  (∀ l, Forall byte_ok l → length l = Z.to_nat hdrLength →
     hdr_ok (hdr_of_bytes l) ∧ bytes_of_hdr (hdr_of_bytes l) = l).
Proof.
  split.
  - intros h Hh. split; [apply length_bytes_of_hdr | by apply hdr_of_bytes_of_hdr].
  - intros l Hl Hlen. split; [by apply hdr_of_bytes_ok | by apply bytes_of_hdr_of_bytes].
Qed.

Lemma header_layout_bijection_witness :
  hdr_of_bytes (bytes_of_hdr (mkHdr 1 0 (-5) 4000000000)) = mkHdr 1 0 (-5) 4000000000.
Proof. refine (proj2 (proj1 header_layout_bijection _ _)). vm_compute. intuition congruence. Defined.

(** [checkHeader] accepts exactly the headers of version 1 whose
    [bodyLength] is at most [MAX_CP_MSG_DATA], the negative lengths included:
    the test of the [result] byte against [ERROR] (0x2000) never rejects. *)
Theorem checkHeader_spec m :
  msg_ok m →
  checkHeader m = true ↔
    hdr_version (msg_hdr m) = version ∧ bodyLength m <= MAX_CP_MSG_DATA.
Proof. apply checkHeader_accepts. Qed.

Definition zero_body : list Z := replicate (Z.to_nat MAX_CP_MSG_DATA) 0.

Lemma checkHeader_spec_witness :
  checkHeader (mkMsg (mkHdr 1 127 (-3) 7) zero_body) = true.
Proof.
  apply checkHeader_spec; [apply (bool_decide_unpack _); vm_compute; exact I|].
  split; vm_compute; congruence.
Defined.

(** [encodeMsg] on a non-null buffer: it is undefined exactly when the
    16-bit length it stores is positive and the [int] length does not fit the
    body or the source; otherwise the header carries version 1, the truncated
    result and length, and the body starts with the bytes copied. *)
Theorem encodeMsg_result_spec id r src n m :
  body_ok (msg_body m) → in_s 32 n →
  let bad := 0 < i16 n ∧ (n < 0 ∨ MAX_CP_MSG_DATA < n ∨ Z.of_nat (length src) < n) in
  (bad → ∃ u, encodeMsg_result id r (Some src) n m = Bad u) ∧
  (¬ bad → ∃ b,
     encodeMsg_result id r (Some src) n m =
       Val (mkMsg (mkHdr version (i8 (ResponseCode_val r)) (i16 n) (MsgId_val id)) b) ∧
     b = (if 0 <? i16 n then take (Z.to_nat n) src ++ drop (Z.to_nat n) (msg_body m)
          else msg_body m)).
Proof.
  intros [Hl _] Hn. cbn zeta. unfold encodeMsg_result. cbn [hdr_bodyLength].
  assert (Hid : u32 (MsgId_val id) = MsgId_val id) by (by destruct id).
  assert (Hbl : Z.of_nat (length (msg_body m)) = MAX_CP_MSG_DATA) by (rewrite Hl; done).
  assert (Hsz : n < 0 → MAX_CP_MSG_DATA < size_t n).
  { intros. unfold wrapU, in_s, MAX_CP_MSG_DATA in *.
    rewrite <- (Z_mod_plus_full n 1), Z.mod_small; lia. }
  rewrite Hid. split.
  - intros [Hpos Hbad]. destruct (Z.ltb_spec 0 (i16 n)); [|lia].
    assert (∃ u, memcpy (msg_body m) src (size_t n) = Bad u) as [u ->]; [|by exists u].
    apply memcpy_Bad. rewrite Hbl. destruct (decide (n < 0)); [lia|].
    rewrite wrapU_id by (unfold in_u, in_s in *; lia). lia.
  - intros Hok. destruct (Z.ltb_spec 0 (i16 n)); [|eauto].
    rewrite wrapU_id by (unfold in_u, in_s in *; lia).
    rewrite memcpy_Val by lia. eauto.
Qed.

Lemma encodeMsg_result_spec_witness :
  ∃ u, encodeMsg_result RQ_CREATE_USER CREATE_USER_SUCCESS (Some []) 65541
         (mkMsg (mkHdr 0 0 0 0) zero_body) = Bad u.
Proof.
  refine (proj1 (encodeMsg_result_spec RQ_CREATE_USER CREATE_USER_SUCCESS [] 65541 _ _ _) _).
  - apply (bool_decide_unpack _). vm_compute. exact I.
  - vm_compute. split; congruence.
  - vm_compute. split; [done|]. right; left. done.
Defined.

Lemma encodeMsg_Val id src n m :
  body_ok (msg_body m) → 0 <= n <= MAX_CP_MSG_DATA → n <= Z.of_nat (length src) →
  encodeMsg id (Some src) n m =
    Val (mkMsg (mkHdr version 0 n (MsgId_val id))
               (take (Z.to_nat n) src ++ drop (Z.to_nat n) (msg_body m))).
Proof.
  intros [Hl _] Hn Hsrc. unfold encodeMsg. cbn [hdr_bodyLength ResponseCode_val].
  unfold MAX_CP_MSG_DATA in *.
  rewrite wrapS_id by (unfold in_s; lia).
  change (i8 0x0000) with 0.
  replace (u32 (MsgId_val id)) with (MsgId_val id) by (by destruct id).
  case_cmp.
  - rewrite wrapU_id by (unfold in_u; lia). rewrite memcpy_Val by lia. done.
  - replace n with 0 by lia. done.
Qed.

Lemma encoded_body_ok src n b :
  body_ok b → Forall byte_ok src → 0 <= n <= MAX_CP_MSG_DATA → n <= Z.of_nat (length src) →
  body_ok (take (Z.to_nat n) src ++ drop (Z.to_nat n) b).
Proof.
  intros [Hl Hb] Hs Hn Hsrc. split; [|by apply Forall_app_2; auto using Forall_take, Forall_drop].
  rewrite length_app, length_take, length_drop, Hl. lia.
Qed.

Lemma encoded_hdr_ok id n :
  0 <= n <= MAX_CP_MSG_DATA → hdr_ok (mkHdr version 0 n (MsgId_val id)).
Proof.
  unfold hdr_ok, in_s, in_u, version, MAX_CP_MSG_DATA. cbn.
  intros. destruct id; cbn; lia.
Qed.

(** C31: a message encoded from a buffer that fits is sendable, passes the
    receiver's header check, and its frame on the wire is the header followed
    by exactly the encoded bytes, whatever the object held before. *)
Theorem encodeMsg_frame id src n m :
  body_ok (msg_body m) → Forall byte_ok src →
  0 <= n <= MAX_CP_MSG_DATA → n <= Z.of_nat (length src) →
  ∃ m', encodeMsg id (Some src) n m = Val m' ∧ sendable m' ∧ checkHeader m' = true ∧
    frame m' = bytes_of_hdr (mkHdr version 0 n (MsgId_val id)) ++ take (Z.to_nat n) src.
Proof.
  intros Hb Hs Hn Hsrc. rewrite encodeMsg_Val by done. eexists. split; [done|].
  split; [|split].
  - split; [split; [by apply encoded_hdr_ok | by apply encoded_body_ok] | done].
  - unfold checkHeader. cbn. case_cmp; try done; lia.
  - rewrite frame_split by (unfold bodyLength; cbn; lia). cbn. f_equal.
    rewrite take_app_length' by (rewrite length_take; lia). done.
Qed.

Lemma encodeMsg_frame_witness :
  ∃ m', encodeMsg NF_MESSAGE (Some [104; 105; 0]) 3 (mkMsg (mkHdr 9 9 9 9) zero_body) = Val m'
    ∧ sendable m' ∧ checkHeader m' = true
    ∧ frame m' = [1; 0; 3; 0; 3; 0; 0; 0] ++ [104; 105; 0].
Proof.
  refine (encodeMsg_frame NF_MESSAGE [104; 105; 0] 3 (mkMsg (mkHdr 9 9 9 9) zero_body) _ _ _ _);
    (apply (bool_decide_unpack _); vm_compute; exact I) || (vm_compute; split; congruence)
    || (vm_compute; congruence).
Defined.

(** the [result] byte keeps only the low byte of a response code, so no
    non-zero code survives encoding and every failure code is sent as the byte
    of the success code at the same place of the enumeration. *)
Theorem result_byte_collision r :
  (ResponseCode_val r ≠ 0 → i8 (ResponseCode_val r) ≠ ResponseCode_val r) ∧
  (∀ id d n m,
     encodeMsg_result id CREATE_USER_FAIL d n m = encodeMsg_result id CREATE_USER_SUCCESS d n m ∧
     encodeMsg_result id LOGIN_FAIL d n m = encodeMsg_result id LOGIN_SUCCESS d n m ∧
     encodeMsg_result id CREATE_PARTY_FAIL d n m = encodeMsg_result id CREATE_PARTY_SUCCESS d n m ∧
     encodeMsg_result id JOIN_USER_FAIL d n m = encodeMsg_result id JOIN_USER_SUCCESS d n m ∧
     encodeMsg_result id ERROR d n m = encodeMsg_result id NONE_CODE d n m).
Proof. split; [by destruct r | intros; split_and!; reflexivity]. Qed.

Lemma result_byte_collision_witness :
  i8 (ResponseCode_val LOGIN_FAIL) ≠ ResponseCode_val LOGIN_FAIL.
Proof. apply (proj1 (result_byte_collision LOGIN_FAIL)). vm_compute. congruence. Defined.

(** [setBodyLength] stores the length truncated to 16 bits and clamped from
    above: the result never exceeds [MAX_CP_MSG_DATA], lengths in range are
    kept, larger 15-bit lengths are clamped, and the other header fields and
    the body are untouched.  It is not clamped from below: 40000 becomes
    -25536. *)
Theorem setBodyLength_spec len m :
  bodyLength (setBodyLength len m) <= MAX_CP_MSG_DATA ∧
  in_s 16 (bodyLength (setBodyLength len m)) ∧
  (0 <= len <= MAX_CP_MSG_DATA → bodyLength (setBodyLength len m) = len) ∧
  (MAX_CP_MSG_DATA < len < 2 ^ 15 → bodyLength (setBodyLength len m) = MAX_CP_MSG_DATA) ∧
  (len = 40000 → bodyLength (setBodyLength len m) = -25536) ∧
  msg_body (setBodyLength len m) = msg_body m ∧
  msgId (setBodyLength len m) = msgId m ∧
  hdr_version (msg_hdr (setBodyLength len m)) = hdr_version (msg_hdr m) ∧
  hdr_result (msg_hdr (setBodyLength len m)) = hdr_result (msg_hdr m).
Proof.
  pose proof (wrapS_range 16 len ltac:(lia)) as Hr.
  unfold setBodyLength, bodyLength, msgId. cbn [msg_hdr msg_body hdr_bodyLength hdr_set_bodyLength hdr_msgId hdr_version hdr_result].
  unfold in_s, MAX_CP_MSG_DATA in *.
  split_and!; try done; case_cmp; intros; try (lia || done);
    rewrite ?wrapS_id in * by (unfold in_s; lia); try lia.
  all: subst; vm_compute in *; congruence.
Qed.

Lemma memcpy_ok dst src n b :
  body_ok dst → Forall byte_ok src → memcpy dst src n = Val b → body_ok b.
Proof.
  unfold memcpy. intros [Hl Hb] Hs. case_cmp; try done. intros [= <-]. split.
  - rewrite length_splice; [done|]. rewrite length_take. lia.
  - by apply splice_bytes; [apply Forall_take|].
Qed.
