(* ===== verification/ChatMsg.v ===== *)
(** * The second message class (include/ChatMsg.h, include/ChatMsgId.h)

    A message class beside that of Msg.h, with structures of its own.  It takes
    from Msg.h's vocabulary names that neither it nor what it includes declares:
    they are the parameters [Undeclared].  [head()] and [body()] return the
    addresses of the members as [cpMsgHeader_t*] and [cpMsgBody_t*], so these
    two types are read as [MessageHeader] and [MessageBody]. *)
From S2P Require Import Prelude Msg.

(** ** ChatMsgId.h *)

Module MsgIds.
Inductive MsgId :=
  | NONE_MSG_ID | rqCreateUser | rsCreateUser | rqMessage | rsMessage | END_MSG_ID.

Definition MsgId_int (i : MsgId) : Z :=
  match i with
  | NONE_MSG_ID => 0 | rqCreateUser => 1 | rsCreateUser => 2
  | rqMessage => 3 | rsMessage => 4 | END_MSG_ID => 5
  end.
End MsgIds.

(** ** The structures *)

Definition MAX_MSG_LENGTH : Z := 1024.

Record MessageHeader := mkMessageHeader {
  mh_version : Z;      (* int8_t *)
  mh_result : Z;       (* int8_t *)
  mh_bodyLength : Z;   (* int16_t *)
  mh_msgId : Z         (* uint32_t *)
}.
Record MessageBody := mkMessageBody { mb_data : list Z (* unsigned char[MAX_MSG_LENGTH] *) }.
Record Message := mkMessage { m_hdr : MessageHeader; m_body : MessageBody }.

Definition Message_ok (m : Message) : Prop :=
  (in_s 8 (mh_version (m_hdr m)) ∧ in_s 8 (mh_result (m_hdr m)) ∧
   in_s 16 (mh_bodyLength (m_hdr m)) ∧ in_u 32 (mh_msgId (m_hdr m))) ∧
  length (mb_data (m_body m)) = Z.to_nat MAX_MSG_LENGTH ∧ Forall byte_ok (mb_data (m_body m)).

(** What the header uses and no file it includes declares: two enumerations
    with their values, three constants, and the [id] whose size the constructor
    of [RqMessage] asks for. *)
Class Undeclared := {
  u_MsgId_t : Type;
  u_MsgId_val : u_MsgId_t → Z;
  u_ResponseCode_t : Type;
  u_ResponseCode_val : u_ResponseCode_t → Z;
  u_ERROR : u_ResponseCode_t;
  u_NONE_CODE : u_ResponseCode_t;
  u_MAX_CP_MSG_DATA : Z;
  u_sizeof_id : nat
}.

(** ** class MessageManager *)

Section Operations.
Context `{U : Undeclared}.

(** The object is its only member, [msg_]. *)
Definition MessageManager_hdrLength : Z := 8.          (* sizeof(cpMsgHeader_t) *)
Definition MessageManager_msgIdLength : Z := 4.        (* sizeof(int) *)
Definition MessageManager_version : Z := 1.

Definition MessageManager_head (m : Message) : MessageHeader := m_hdr m.
Definition MessageManager_body (m : Message) : MessageBody := m_body m.
Definition MessageManager_length (m : Message) : Z := MessageManager_hdrLength + mh_bodyLength (MessageManager_head m).
Definition MessageManager_bodyLength (m : Message) : Z := mh_bodyLength (MessageManager_head m).
(** the [uint32_t] as an [int] *)
Definition MessageManager_msgId (m : Message) : Z := i32 (mh_msgId (MessageManager_head m)).

Definition MessageManager_put_bodyLength (v : Z) (m : Message) : Message :=
  mkMessage (mkMessageHeader (mh_version (m_hdr m)) (mh_result (m_hdr m)) (i16 v) (mh_msgId (m_hdr m)))
    (m_body m).

(** [void setBodyLength(int length)] *)
Definition MessageManager_setBodyLength (length : Z) (m : Message) : Message :=
  let m := MessageManager_put_bodyLength length m in
  if u_MAX_CP_MSG_DATA <? mh_bodyLength (m_hdr m) then MessageManager_put_bodyLength u_MAX_CP_MSG_DATA m else m.

(** [bool checkHeader()] *)
Definition MessageManager_checkHeader (m : Message) : bool :=
  if negb (mh_version (m_hdr m) =? MessageManager_version) then false
  else if u_MAX_CP_MSG_DATA <? mh_bodyLength (m_hdr m) then false
  else if u_ResponseCode_val u_ERROR <? mh_result (m_hdr m) then false
  else true.

(** [void encodeMsg(const MsgId_t&, const ResponseCode_t&, const unsigned char*,
    const int&)]; a null pointer is [None], any other the object it points to. *)
Definition MessageManager_encodeMsg_result (id : u_MsgId_t) (result : u_ResponseCode_t)
    (data : option (list Z)) (dataLength : Z) (m : Message) : cres Message :=
  let h := mkMessageHeader MessageManager_version (i8 (u_ResponseCode_val result)) (i16 dataLength)
             (u32 (u_MsgId_val id)) in
  match data with
  | Some src =>
      if 0 <? mh_bodyLength h
      then b ← memcpy (mb_data (m_body m)) src (size_t dataLength); Val (mkMessage h (mkMessageBody b))
      else Val (mkMessage h (m_body m))
  | None => Val (mkMessage h (m_body m))
  end.

(** [void encodeMsg(const MsgId_t&, const unsigned char*, const int&)] *)
Definition MessageManager_encodeMsg (id : u_MsgId_t) (data : option (list Z)) (dataLength : Z)
    (m : Message) : cres Message :=
  let h := mkMessageHeader MessageManager_version (i8 (u_ResponseCode_val u_NONE_CODE)) (i16 dataLength)
             (u32 (u_MsgId_val id)) in
  match data with
  | Some src =>
      if 0 <? mh_bodyLength h
      then b ← memcpy (mb_data (m_body m)) src (size_t dataLength); Val (mkMessage h (mkMessageBody b))
      else Val (mkMessage h (m_body m))
  | None => Val (mkMessage h (m_body m))
  end.
End Operations.

(** ** Body structures *)

Section Bodies.
Context `{U : Undeclared}.

(** [memset(buf, 0x00, n)] *)
Definition memset0 (buf : list Z) (n : nat) : cres (list Z) :=
  if (length buf <? n)%nat then Bad UB_buffer_overflow else Val (splice 0 (replicate n 0) buf).

(** [RqCreateUser]: [char id[36]]; its constructor clears what the memory held. *)
Record ChatMsg_RqCreateUser := mkRqCreateUser { rq_id : list Z }.
Definition ChatMsg_RqCreateUser_new (uninit : list Z) : cres ChatMsg_RqCreateUser :=
  id ← memset0 uninit 36; Val (mkRqCreateUser id).

Inductive ChatMsg_RsCreateUser_ErrorCode := ERROR_NONE | ERROR_ALREADY_USE.
Record ChatMsg_RsCreateUser := mkRsCreateUser { rs_errorCode : ChatMsg_RsCreateUser_ErrorCode; rs_id : list Z }.
Definition ChatMsg_RsCreateUser_new (uninit : list Z) : cres ChatMsg_RsCreateUser :=
  id ← memset0 uninit 36; Val (mkRsCreateUser ERROR_NONE id).

(** [RqMessage]: a length and [char message[128]]; the constructor clears as
    many bytes as the undeclared [id] has. *)
Record ChatMsg_RqMessage := mkRqMessage { rq_length : Z; rq_message : list Z }.
Definition ChatMsg_RqMessage_new (uninit : list Z) : cres ChatMsg_RqMessage :=
  message ← memset0 uninit u_sizeof_id; Val (mkRqMessage 0 message).

Inductive ChatMsg_RsMessage_ErrorCode := RsMessage_ERROR_NONE | ERROR_SEND.
Record ChatMsg_RsMessage := mkRsMessage { rm_errorCode : ChatMsg_RsMessage_ErrorCode }.
Definition ChatMsg_RsMessage_new : ChatMsg_RsMessage := mkRsMessage RsMessage_ERROR_NONE.
End Bodies.

(** ** Lemmas *)

Section Properties.
Context `{U : Undeclared}.
Implicit Types (m : Message) (src : list Z) (len : Z).

Lemma put_bodyLength_ok v m : Message_ok m → Message_ok (MessageManager_put_bodyLength v m).
Proof. intros [(Hv & Hr & _ & Hi) Hb]. split; [|done]. split_and!; try done. by apply wrapS_range. Qed.

Lemma encode_ok id r len m b :
  Message_ok m → length b = length (mb_data (m_body m)) → Forall byte_ok b →
  Message_ok (mkMessage (mkMessageHeader MessageManager_version (i8 r) (i16 len) (u32 id)) (mkMessageBody b)).
Proof.
  intros [_ [Hl _]] Hb Hf. split; [|split; [by etrans|done]].
  split_and!; [by split|by apply wrapS_range|by apply wrapS_range|by apply wrapU_range].
Qed.

(** The copy of [encodeMsg] is defined exactly when both objects hold the
    bytes. *)
Lemma memcpy_defined dst src len :
  Z.of_nat (length dst) < 2 ^ 63 → Z.of_nat (length src) < 2 ^ 63 → in_s 32 len →
  (∃ b, memcpy dst src (size_t len) = Val b) ↔
  0 <= len ∧ len <= Z.of_nat (length src) ∧ len <= Z.of_nat (length dst).
Proof.
  intros Hd Hs Hlen. unfold in_s in Hlen. change (2 ^ (32 - 1)) with 2147483648 in Hlen.
  assert (E : size_t len = if len <? 0 then len + 2 ^ 64 else len).
  { case_cmp; [apply wrapU_neg|apply wrapU_id; unfold in_u]; lia. }
  split.
  - intros [b Hb]. revert Hb. unfold memcpy. rewrite E. case_cmp; done || lia.
  - intros (H0 & H1 & H2). rewrite E. case_cmp; [lia|]. eexists. by apply memcpy_Val.
Qed.

(** [encodeMsg] of a typed message and an object of bytes gives a typed message
    with the header's fields converted to their types, or is undefined; it is
    undefined exactly if the converted length is positive and the [int] itself
    is negative, more than the object has, or more than [MAX_MSG_LENGTH]. *)
Theorem encode_defined id src len m :
  Message_ok m → Forall byte_ok src → Z.of_nat (length src) < 2 ^ 63 → in_s 32 len →
  (∀ m', MessageManager_encodeMsg id (Some src) len m = Val m' →
     Message_ok m' ∧ MessageManager_bodyLength m' = i16 len ∧ mh_msgId (m_hdr m') = u32 (u_MsgId_val id)) ∧
  ((∃ u, MessageManager_encodeMsg id (Some src) len m = Bad u) ↔
   0 < i16 len ∧ (len < 0 ∨ Z.of_nat (length src) < len ∨ MAX_MSG_LENGTH < len)).
Proof.
  intros Hm Hsrc Hls Hlen. pose proof Hm as (_ & Hl & Hb).
  pose proof (memcpy_defined (mb_data (m_body m)) src len) as Hd. rewrite Hl in Hd.
  change (Z.of_nat (Z.to_nat MAX_MSG_LENGTH)) with MAX_MSG_LENGTH in Hd. unfold MAX_MSG_LENGTH in *.
  specialize (Hd ltac:(lia) Hls Hlen).
  unfold MessageManager_encodeMsg. cbn [mh_bodyLength].
  destruct (Z.ltb_spec 0 (i16 len)) as [Hpos|Hpos].
  - destruct (memcpy _ _ _) as [b|u] eqn:E; cbn.
    + destruct (memcpy_ok _ _ _ _ (conj Hl Hb) Hsrc E) as [Hlb Hbb]. split.
      * intros m' [= <-]. split; [|done]. apply (encode_ok _ _ _ m); [done|by rewrite Hl|done].
      * split; [by intros []|]. intros [_ H]. destruct (proj1 Hd (ex_intro _ b eq_refl)). lia.
    + split; [done|]. split; [|by exists u]. intros _. split; [done|].
      destruct (decide (0 <= len ∧ len <= Z.of_nat (length src) ∧ len <= 1024)) as [H|H]; [|lia].
      by destruct (proj2 Hd H).
  - split; [|split; [by intros []|lia]]. intros m' [= <-]. split; [|done].
    pose proof (encode_ok (u_MsgId_val id) (u_ResponseCode_val u_NONE_CODE) len m _ Hm eq_refl Hb) as H.
    by destruct (m_body m).
Qed.

(** the two sizes have to agree: whatever the undeclared names are, the
    accepted headers announce no more than the object holds exactly if the
    undeclared limit is at most [MAX_MSG_LENGTH]. *)
Theorem accepted_fits :
  0 <= u_ResponseCode_val u_ERROR →
  (∀ m, Message_ok m → MessageManager_checkHeader m = true → MessageManager_bodyLength m <= MAX_MSG_LENGTH) ↔
  u_MAX_CP_MSG_DATA <= MAX_MSG_LENGTH.
Proof.
  intros He. unfold MessageManager_checkHeader, MessageManager_bodyLength, MessageManager_head. split.
  - intros H. unfold MAX_MSG_LENGTH in *. destruct (Z.le_gt_cases u_MAX_CP_MSG_DATA 1024) as [|Hgt]; [done|exfalso].
    set (m := mkMessage (mkMessageHeader 1 0 1025 0) (mkMessageBody (replicate 1024 0))).
    enough (1025 <= 1024) by lia. apply (H m).
    + split; [|split; [done|]]; [cbn; unfold in_s, in_u; lia|by apply Forall_replicate].
    + cbn. case_cmp; done || lia.
  - intros Hmax m _. case_cmp; done || lia.
Qed.

(** the constructor of [RqMessage] clears its 128 bytes as far as the size of
    the undeclared [id] goes: past them it is undefined, before them the rest
    stays as it was. *)
Theorem rqMessage_cleared (uninit : list Z) :
  length uninit = 128%nat →
  if (128 <? u_sizeof_id)%nat then ChatMsg_RqMessage_new uninit = Bad UB_buffer_overflow
  else ChatMsg_RqMessage_new uninit =
    Val (mkRqMessage 0 (replicate u_sizeof_id 0 ++ drop u_sizeof_id uninit)).
Proof.
  intros Hl. unfold ChatMsg_RqMessage_new, memset0. rewrite Hl.
  destruct (128 <? u_sizeof_id)%nat eqn:E; [done|]. cbn. unfold splice. by rewrite length_replicate.
Qed.
End Properties.

(** ** Msg.h under its own names *)

#[export] Instance Msg_names : Undeclared := {|
  u_MsgId_t := MsgId_t; u_MsgId_val := MsgId_val;
  u_ResponseCode_t := ResponseCode_t; u_ResponseCode_val := ResponseCode_val;
  u_ERROR := ERROR; u_NONE_CODE := NONE_CODE;
  u_MAX_CP_MSG_DATA := MAX_CP_MSG_DATA; u_sizeof_id := 36
|}.

(** The same bytes in the two classes. *)
Definition of_Msg (m : Msg) : Message :=
  mkMessage (mkMessageHeader (hdr_version (msg_hdr m)) (hdr_result (msg_hdr m))
    (hdr_bodyLength (msg_hdr m)) (hdr_msgId (msg_hdr m))) (mkMessageBody (msg_body m)).
Definition result_of_Msg (r : cres Msg) : cres Message := m ← r; Val (of_Msg m).

(** the second class is the first.  With the names of Msg.h the two classes
    hold the same objects, and every operation of the one is the operation of
    the other, undefined behaviour included. *)
Theorem chatmsg_is_msg (m : Msg) :
  (Message_ok (of_Msg m) ↔ msg_ok m) ∧
  MessageManager_length (of_Msg m) = msg_length m ∧
  MessageManager_bodyLength (of_Msg m) = bodyLength m ∧
  MessageManager_msgId (of_Msg m) = msgId m ∧
  MessageManager_checkHeader (of_Msg m) = checkHeader m ∧
  (∀ len, MessageManager_setBodyLength len (of_Msg m) = of_Msg (setBodyLength len m)) ∧
  (∀ id data len, MessageManager_encodeMsg id data len (of_Msg m) = result_of_Msg (encodeMsg id data len m)) ∧
  (∀ id result data len, MessageManager_encodeMsg_result id result data len (of_Msg m) =
     result_of_Msg (encodeMsg_result id result data len m)).
Proof.
  split_and!; try done.
  - intros len. unfold MessageManager_setBodyLength, setBodyLength, MessageManager_put_bodyLength, of_Msg. cbn.
    by case_cmp.
  - intros id [src|] len; [|done]. unfold MessageManager_encodeMsg, encodeMsg. cbn. case_cmp; [|done].
    by destruct (memcpy _ _ _).
  - intros id result [src|] len; [|done]. unfold MessageManager_encodeMsg_result, encodeMsg_result. cbn.
    case_cmp; [|done]. by destruct (memcpy _ _ _).
Qed.

(** ** Instances at concrete inputs *)

Definition zero_Msg : Message := mkMessage (mkMessageHeader 0 0 0 0) (mkMessageBody (replicate 1024 0)).

Lemma encode_defined_witness :
  (∃ u, MessageManager_encodeMsg NF_MESSAGE (Some [1; 2; 3]) 4 zero_Msg = Bad u) ∧
  MessageManager_encodeMsg NF_MESSAGE (Some [1; 2; 3]) (-4) zero_Msg ≠ Bad UB_buffer_overread.
Proof.
  assert (Hz : Message_ok zero_Msg).
  { split; [cbn; unfold in_s, in_u; lia|split; [done|by apply Forall_replicate]]. }
  assert (Hb : Forall byte_ok [1; 2; 3]) by (repeat constructor; done).
  split.
  - apply (encode_defined (U := Msg_names) NF_MESSAGE [1; 2; 3] 4 zero_Msg Hz Hb); [done|split; done|].
    split; [done|]. right. by left.
  - intros E. destruct (proj2 (encode_defined (U := Msg_names) NF_MESSAGE [1; 2; 3] (-4) zero_Msg Hz Hb
      ltac:(done) ltac:(split; done))) as [H _].
    destruct (H (ex_intro _ _ E)). done.
Defined.

Lemma accepted_fits_witness : ∀ m : Message,
  Message_ok m → MessageManager_checkHeader m = true → MessageManager_bodyLength m <= MAX_MSG_LENGTH.
Proof. apply (accepted_fits (U := Msg_names)); done. Defined.

(** With the 36 bytes of the other [id], 92 bytes of the text stay as they were. *)
Lemma rqMessage_cleared_witness :
  ChatMsg_RqMessage_new (replicate 128 7) =
    Val (mkRqMessage 0 (replicate 36 0 ++ replicate 92 7)).
Proof. exact (rqMessage_cleared (U := Msg_names) (replicate 128 7) eq_refl). Defined.
