(* ===== verification/Config.v ===== *)
(** * Configuration records (Src/Config.h) *)
From S2P Require Import Prelude.

Record ServerConfig := mkServerConfig {
  sc_threadCount : Z;              (* size_t *)
  sc_maxSession : Z;               (* size_t *)
  sc_noDelay : bool;
  sc_minReceive : Z;               (* size_t *)
  sc_maxReceiveBufferSize : Z      (* size_t *)
}.

Record ClientConfig := mkClientConfig {
  cc_noDelay : bool;
  cc_minReceive : Z;
  cc_maxReceiveBufferSize : Z
}.

(** [numeric_limits<size_t>::max()] *)
Definition size_max : Z := 2 ^ 64 - 1.

(** The default constructors. *)
Definition ServerConfig_default : ServerConfig :=
  mkServerConfig 1 1024 true (1024 * 4) size_max.
Definition ClientConfig_default : ClientConfig :=
  mkClientConfig true (1024 * 4) size_max.

(** The assignment of [runServer] (chat_server/main.cpp). *)
Definition set_threadCount (n : Z) (c : ServerConfig) : ServerConfig :=
  mkServerConfig n (sc_maxSession c) (sc_noDelay c) (sc_minReceive c)
    (sc_maxReceiveBufferSize c).
