(* ===== verification/Session.v ===== *)
(** * The session interface (Src/Session.h)

    What the servers and the applications know of a session: an object behind
    a pointer with an id, a received message, an outgoing queue and the
    callbacks to run when it opens, closes or receives.  [Session] is the
    abstract class of the source, [SessionLaws] the contract its client code
    (the chat server) is verified against; TcpSession.v discharges it. *)
From S2P Require Import Prelude Msg.

(** Object identity of a [shared_ptr]. *)
Abbreviation ptr := nat.

Inductive CloseReason := ActiveClose | Disconnected | Timeout.

#[export] Instance CloseReason_eq_dec : EqDecision CloseReason.
Proof. solve_decision. Defined.

(** [boost::system::error_code] as the sources test it: [Success] converts to
    [false], and two values are compared by name. *)
Inductive error_code :=
  | Success
  | Error_eof                  (* asio::error::eof *)
  | Error_operation_aborted    (* asio::error::operation_aborted *)
  | Error_other (n : Z).

#[export] Instance error_code_eq_dec : EqDecision error_code.
Proof. solve_decision. Defined.

Definition is_error (ec : error_code) : bool :=
  match ec with Success => false | _ => true end.

(** An asio endpoint; the opaque address is represented by its text. *)
Record endpoint := mkEndpoint { ep_address : string; ep_port : Z }.

(** The [std::function] values the programs install, one per lambda: the
    closure [startAccept] gives each session (TcpServer.cpp), the three of
    [ChatServer::start] and the three of [Client::registerHandler]. *)
Inductive handler :=
  | TcpServer_handleClose
  | ChatServer_opened | ChatServer_closed | ChatServer_message
  | Client_opened | Client_closed | Client_message.

#[export] Instance handler_eq_dec : EqDecision handler.
Proof. solve_decision. Defined.

(** The code behind each of them, for the process with state [W]. *)
Class Callbacks (W : Type) := {
  run_opened : handler → ptr → M W unit;
  run_closed : handler → ptr → CloseReason → M W unit;
  run_message : handler → ptr → M W unit
}.

(** Calling a [std::function]: an empty one throws. *)
Definition call {W} (f : option handler) (k : handler → M W unit) : M W unit :=
  match f with
  | Some h => k h
  | None => throw bad_function_call
  end.

(** The abstract class [Session], in two parts: [start] is the only method that
    runs callbacks, and the callbacks are written against the other ones. *)
Class Session (W : Type) := {
  getID : ptr → M W Z;
  getRemoteEndpoint : ptr → M W (option (string * Z));
  send : ptr → Msg → M W unit;
  read : ptr → Z → M W unit;
  close : ptr → M W unit;
  isOpen : ptr → M W bool;
  getMsg : ptr → M W Msg
}.

Class StartSession (W : Type) := { start : ptr → M W unit }.

(** What a client of the interface may observe of a session. *)
Record session_view := mkView {
  view_id : Z;
  view_msg : Msg;
  view_outbox : list Msg
}.

Definition view_push (m : Msg) (v : session_view) : session_view :=
  mkView (view_id v) (view_msg v) (view_outbox v ++ [m]).

(** The contract: reading a session changes nothing; [send] appends a copy of
    the message to the session's outgoing queue, and changes no other session
    and no other component of the process. *)
Class SessionLaws (W H : Type) `{!Session W, !Field W H} := {
  view : W → ptr → option session_view;
  view_frame {U} (g : Field W U) x w p :
    Separate g (_ : Field W H) → view (fset (Field := g) x w) p = view w p;
  getID_law p v w : view w p = Some v → getID p w = Ok (view_id v) w;
  getMsg_law p v w : view w p = Some v → getMsg p w = Ok (view_msg v) w;
  send_law p v m w : view w p = Some v →
    ∃ h, send p m w = Ok tt (fset h w) ∧
      view (fset h w) p = Some (view_push m v) ∧
      ∀ q, q ≠ p → view (fset h w) q = view w q
}.
