(* ===== verification/IfSession.v ===== *)
(** * The handler interface of the IPC and UDP sessions (Src/IfSession.h)

    The abstract class [SessionHandler], the weak and shared pointers the
    sessions pass to it, the timer both sessions own, and the heap of objects
    of one class: reading and assigning the members of [this]. *)
From S2P Require Import Prelude Msg Session.

(** ** SessionHandler

    [sess] is the calling session and [owner] the [VoidWeakPtr] it was given
    ([None]: never set).  The id and the length that [read] takes by reference
    are passed as values: they refer to copies in a bound handler (IPC), or to
    the header in the session's message object (UDP), which an implementation
    reaches through the session as well. *)
Class SessionHandler (W : Type) := {
  sh_read : ptr → Z → Z → ptr → option ptr → M W bool;
  sh_error : ptr → error_code → ptr → option ptr → M W bool;
  sh_connect : ptr → ptr → option ptr → M W bool
}.

(** A virtual call through the [SessionHandlerPtr] a session holds. *)
Definition virtual_call {W A} (handler : option ptr) (k : ptr → M W A) : M W A :=
  match handler with Some h => k h | None => undef UB_null end.

(** ** Objects of one class *)

Section Objects.
Context {W T : Type} `{FO : !Field W (gmap ptr T)}.

(** Dereference of [this]. *)
Definition obj_get (this : ptr) : M W T :=
  h ← fread (T := gmap ptr T);
  match h !! this with Some s => mret s | None => undef UB_dangling end.
(** An assignment to members of [this]. *)
Definition obj_set (this : ptr) (f : T → T) : M W unit :=
  fmodify (T := gmap ptr T) (alter f this).

Implicit Types (w : W) (s : T) (p q : ptr).

Definition objs w : gmap ptr T := fget w.
Definition obj_upd p s w : W := fset (<[p := s]> (objs w)) w.

Lemma lookup_obj_upd p s w : objs (obj_upd p s w) !! p = Some s.
Proof. unfold objs, obj_upd. by rewrite fget_fset, lookup_insert_eq. Qed.
Lemma lookup_obj_upd_ne p q s w : p ≠ q → objs (obj_upd p s w) !! q = objs w !! q.
Proof. intros. unfold objs, obj_upd. by rewrite fget_fset, lookup_insert_ne. Qed.
Lemma obj_upd_upd p s s' w : obj_upd p s' (obj_upd p s w) = obj_upd p s' w.
Proof. unfold obj_upd, objs. by rewrite fget_fset, fset_fset, insert_insert_eq. Qed.
Lemma obj_upd_id p s w : objs w !! p = Some s → obj_upd p s w = w.
Proof. intros. unfold obj_upd, objs in *. rewrite insert_id by done. apply fset_fget. Qed.

Lemma obj_get_ok p s w : objs w !! p = Some s → obj_get p w = Ok s w.
Proof.
  unfold objs. intros Hs. unfold obj_get, fread, mbind, M_bind, get. cbn. by rewrite Hs.
Qed.
Lemma obj_set_ok p s f w :
  objs w !! p = Some s → obj_set p f w = Ok tt (obj_upd p (f s) w).
Proof.
  unfold objs. intros Hs. unfold obj_set, fmodify, modify, obj_upd, objs. do 2 f_equal.
  apply map_eq. intros q. destruct (decide (p = q)) as [->|].
  - by rewrite lookup_alter_eq, lookup_insert_eq, Hs.
  - by rewrite lookup_alter_ne, lookup_insert_ne.
Qed.
Lemma bind_obj_get {B} p s (k : T → M W B) w :
  objs w !! p = Some s → (obj_get p ≫= k) w = k s w.
Proof. intros. by apply bind_ok, obj_get_ok. Qed.
Lemma bind_obj_set {B} p s f (k : unit → M W B) w :
  objs w !! p = Some s → (obj_set p f ≫= k) w = k tt (obj_upd p (f s) w).
Proof. intros. by apply bind_ok, obj_set_ok. Qed.
End Objects.

#[global] Arguments obj_get : simpl never.
#[global] Arguments obj_set : simpl never.

Ltac obj_side := first [apply lookup_obj_upd | eassumption].
(** Executes the reads and assignments of a known object. *)
Ltac obj_run :=
  repeat first
    [ erewrite bind_obj_get by obj_side
    | erewrite bind_obj_set by obj_side
    | erewrite obj_set_ok by obj_side
    | erewrite obj_get_ok by obj_side
    | rewrite bind_ret
    | rewrite bind_assoc
    | rewrite obj_upd_upd ].

(** ** Bytes of a message object by position

    [n] bytes read by the kernel from offset [off] on. *)
Definition load_at (off n : Z) (m : Msg) : cres (list Z) :=
  if off + n <=? sizeof_Msg
  then Val (take (Z.to_nat n) (drop (Z.to_nat off) (bytes_of_msg m)))
  else Bad UB_buffer_overread.

Lemma load_at_app a b m :
  0 <= a → 0 <= b → a + b <= sizeof_Msg →
  take (Z.to_nat a) (bytes_of_msg m) ++ take (Z.to_nat b) (drop (Z.to_nat a) (bytes_of_msg m)) =
  take (Z.to_nat (a + b)) (bytes_of_msg m).
Proof. intros. rewrite Z2Nat.inj_add by lia. by rewrite take_take_drop. Qed.

(** A prefix of the object written over it: what a datagram shorter than the
    object leaves. *)
Definition overlay (bs : list Z) (m : Msg) : Msg :=
  msg_of_bytes (splice 0 bs (bytes_of_msg m)).

Lemma store_0 bs m :
  Z.of_nat (length bs) <= sizeof_Msg → store 0 bs m = Val (overlay bs m).
Proof. intros. unfold store. case_cmp; [done|lia]. Qed.

Lemma overlay_ok bs m : msg_ok m → Forall byte_ok bs → Z.of_nat (length bs) <= sizeof_Msg →
  msg_ok (overlay bs m).
Proof. intros Hm Hb Hl. eapply (store_ok 0 bs m); [lia|done..|]. by apply store_0. Qed.

(** A received message of full header length determines the header. *)
Lemma overlay_hdr bs m : (8 ≤ length bs)%nat → msg_hdr (overlay bs m) = hdr_of_bytes (take 8 bs).
Proof.
  intros Hl. unfold overlay, msg_of_bytes, splice. cbn [msg_hdr].
  rewrite take_0, app_nil_l. by rewrite take_app_le by done.
Qed.

Lemma bytes_of_msg_of_bytes l :
  Forall byte_ok l → (8 ≤ length l)%nat → bytes_of_msg (msg_of_bytes l) = l.
Proof.
  intros Hl Hlen. unfold bytes_of_msg, msg_of_bytes. cbn [msg_hdr msg_body].
  rewrite bytes_of_hdr_of_bytes by (by apply Forall_take || (rewrite length_take; lia)).
  apply take_drop.
Qed.

Lemma take_overlay n bs m :
  msg_ok m → Forall byte_ok bs → Z.of_nat (length bs) <= sizeof_Msg → (n ≤ length bs)%nat →
  take n (bytes_of_msg (overlay bs m)) = take n bs.
Proof.
  intros [Hh Hb] Hbs Hl Hn. pose proof (length_bytes_of_msg m Hb) as Hm.
  unfold sizeof_Msg, hdrLength, MAX_CP_MSG_DATA in *. unfold overlay.
  rewrite bytes_of_msg_of_bytes.
  - unfold splice. rewrite take_0, app_nil_l. by rewrite take_app_le.
  - apply splice_bytes; [done|by apply bytes_of_msg_bytes].
  - rewrite length_splice; lia.
Qed.
