(* ===== verification/TcpSession.v ===== *)
(** * TcpSession (Src/TcpSession.h, Src/TcpSession.cpp)

    One connection: the state record, every operation and completion handler
    as a command of the process state, the completions the asio service
    delivers, and the lemmas that run the operations on a known session.  The
    theorems on the two data paths are in TcpSend.v and TcpRecv.v. *)
From S2P Require Import Prelude Config Msg Session.

(** ** State *)

Inductive State := Ready | Opening | Opened | Closed.

#[export] Instance State_eq_dec : EqDecision State.
Proof. solve_decision. Defined.

(** The buffer an outstanding [async_read_some] fills, which also tells its
    completion lambda: [_msg.head()] (in [read]) or [_msg.body()] (in
    [handleReadHeader]). *)
Inductive rd_target := RdHeader | RdBody.

#[export] Instance rd_target_eq_dec : EqDecision rd_target.
Proof. solve_decision. Defined.

Definition rd_offset (t : rd_target) : Z :=
  match t with RdHeader => 0 | RdBody => hdrLength end.

(** The socket: whether it is open, the options set, the operations started
    and not completed (oldest first, with the [size_t] sizes of their
    buffers), and the bytes handed to the network so far.  A write's buffer
    starts at the front of the send queue. *)
Record socket := mkSocket {
  sk_open : bool;
  sk_reuse_address : bool;
  sk_no_delay : bool;
  sk_connects : nat;
  sk_reads : list (rd_target * Z);
  sk_writes : list Z;
  sk_out : list Z
}.

Definition socket_new : socket := mkSocket true false false 0 [] [] [].

Record TcpSession := mkTcpSession {
  ts_socket : socket;
  ts_id : Z;                           (* int *)
  ts_state : State;
  ts_remoteEndpoint : endpoint;
  ts_msg : Msg;
  ts_sendQue : list Msg;               (* deque<Msg> *)
  ts_minReceive : Z;
  ts_maxReceiveBufferSize : Z;
  ts_tx : Z;                           (* uint64_t *)
  ts_rx : Z;                           (* uint64_t *)
  ts_openedHandler : option handler;
  ts_closedHandler : option handler;
  ts_messageHandler : option handler
}.

Section Setters.
Implicit Types s : TcpSession.
Definition set_socket f s := mkTcpSession (f (ts_socket s)) (ts_id s) (ts_state s)
  (ts_remoteEndpoint s) (ts_msg s) (ts_sendQue s) (ts_minReceive s)
  (ts_maxReceiveBufferSize s) (ts_tx s) (ts_rx s) (ts_openedHandler s)
  (ts_closedHandler s) (ts_messageHandler s).
Definition set_state x s := mkTcpSession (ts_socket s) (ts_id s) x
  (ts_remoteEndpoint s) (ts_msg s) (ts_sendQue s) (ts_minReceive s)
  (ts_maxReceiveBufferSize s) (ts_tx s) (ts_rx s) (ts_openedHandler s)
  (ts_closedHandler s) (ts_messageHandler s).
Definition set_msg x s := mkTcpSession (ts_socket s) (ts_id s) (ts_state s)
  (ts_remoteEndpoint s) x (ts_sendQue s) (ts_minReceive s)
  (ts_maxReceiveBufferSize s) (ts_tx s) (ts_rx s) (ts_openedHandler s)
  (ts_closedHandler s) (ts_messageHandler s).
Definition set_sendQue f s := mkTcpSession (ts_socket s) (ts_id s) (ts_state s)
  (ts_remoteEndpoint s) (ts_msg s) (f (ts_sendQue s)) (ts_minReceive s)
  (ts_maxReceiveBufferSize s) (ts_tx s) (ts_rx s) (ts_openedHandler s)
  (ts_closedHandler s) (ts_messageHandler s).
Definition set_tx f s := mkTcpSession (ts_socket s) (ts_id s) (ts_state s)
  (ts_remoteEndpoint s) (ts_msg s) (ts_sendQue s) (ts_minReceive s)
  (ts_maxReceiveBufferSize s) (f (ts_tx s)) (ts_rx s) (ts_openedHandler s)
  (ts_closedHandler s) (ts_messageHandler s).
Definition set_rx f s := mkTcpSession (ts_socket s) (ts_id s) (ts_state s)
  (ts_remoteEndpoint s) (ts_msg s) (ts_sendQue s) (ts_minReceive s)
  (ts_maxReceiveBufferSize s) (ts_tx s) (f (ts_rx s)) (ts_openedHandler s)
  (ts_closedHandler s) (ts_messageHandler s).
Definition set_handlers o c m s := mkTcpSession (ts_socket s) (ts_id s) (ts_state s)
  (ts_remoteEndpoint s) (ts_msg s) (ts_sendQue s) (ts_minReceive s)
  (ts_maxReceiveBufferSize s) (ts_tx s) (ts_rx s) o c m.
Implicit Types k : socket.
Definition sk_close k := mkSocket false (sk_reuse_address k) (sk_no_delay k)
  (sk_connects k) (sk_reads k) (sk_writes k) (sk_out k).
Definition sk_set_options reuse nodelay k := mkSocket (sk_open k) reuse nodelay
  (sk_connects k) (sk_reads k) (sk_writes k) (sk_out k).
Definition sk_set_connects f k := mkSocket (sk_open k) (sk_reuse_address k)
  (sk_no_delay k) (f (sk_connects k)) (sk_reads k) (sk_writes k) (sk_out k).
Definition sk_set_reads f k := mkSocket (sk_open k) (sk_reuse_address k)
  (sk_no_delay k) (sk_connects k) (f (sk_reads k)) (sk_writes k) (sk_out k).
Definition sk_set_writes f k := mkSocket (sk_open k) (sk_reuse_address k)
  (sk_no_delay k) (sk_connects k) (sk_reads k) (f (sk_writes k)) (sk_out k).
Definition sk_set_out f k := mkSocket (sk_open k) (sk_reuse_address k)
  (sk_no_delay k) (sk_connects k) (sk_reads k) (sk_writes k) (f (sk_out k)).
End Setters.

(** The constructors.  [_tx], [_rx] and the message object are not
    initialised by either of them: their first values are arguments.  The
    server one asks the socket for its peer ([None]: [remote_endpoint] throws,
    the peer is gone already). *)
Definition TcpSession_server (sock : socket) (peer : option endpoint) (id : Z)
    (config : ServerConfig) (uninit : Msg * Z * Z) : exn + TcpSession :=
  match peer with
  | None => inl system_error
  | Some ep => inr
      (mkTcpSession (sk_set_options true (sc_noDelay config) sock) id Ready ep
         uninit.1.1 [] (sc_minReceive config) (sc_maxReceiveBufferSize config)
         uninit.1.2 uninit.2 None None None)
  end.

Definition TcpSession_client (sock : socket) (config : ClientConfig) (ep : endpoint)
    (uninit : Msg * Z * Z) : TcpSession :=
  mkTcpSession sock 0 Ready ep uninit.1.1 [] (cc_minReceive config)
    (cc_maxReceiveBufferSize config) uninit.1.2 uninit.2 None None None.

(** All sessions of a process, by object identity. *)
Abbreviation heap := (gmap ptr TcpSession).
Abbreviation hp w := (fget (T := heap) w).

(** ** Operations *)

Section Operations.
Context {W : Type} `{FH : !Field W heap} `{CB : !Callbacks W}.

(** Dereference of [this]. *)
Definition deref (this : ptr) : M W TcpSession :=
  h ← fread (T := heap);
  match h !! this with Some s => mret s | None => undef UB_dangling end.
(** An assignment to members of [this]. *)
Definition assign (this : ptr) (f : TcpSession → TcpSession) : M W unit :=
  fmodify (T := heap) (alter f this).

(** [int getID() const] *)
Definition TcpSession_getID (this : ptr) : M W Z :=
  s ← deref this; mret (ts_id s).

(** [bool getRemoteEndpoint(string&, uint16_t&) const]: [None] for [false]. *)
Definition TcpSession_getRemoteEndpoint (this : ptr) : M W (option (string * Z)) :=
  s ← deref this;
  if bool_decide (ts_state s = Closed) then mret None
  else mret (Some (ep_address (ts_remoteEndpoint s), ep_port (ts_remoteEndpoint s))).

(** [Msg& getMsg()] *)
Definition TcpSession_getMsg (this : ptr) : M W Msg :=
  s ← deref this; mret (ts_msg s).

(** [bool isOpen() const] *)
Definition TcpSession_isOpen (this : ptr) : M W bool :=
  s ← deref this;
  if negb (bool_decide (ts_state s = Opened)) then mret false else mret true.

(** [_socket->async_read_some(buffer(target, size), lambda)] *)
Definition async_read_some (this : ptr) (t : rd_target) (size : Z) : M W unit :=
  assign this (set_socket (sk_set_reads (λ l, l ++ [(t, size)]))).

(** [void read(size_t size)] *)
Definition TcpSession_read (this : ptr) (size : Z) : M W unit :=
  async_read_some this RdHeader size.

(** [void start()] *)
Definition TcpSession_start (this : ptr) : M W unit :=
  assign this (set_state Opening) ;;
  assign this (set_state Opened) ;;
  s ← deref this;
  call (ts_openedHandler s) (λ h, run_opened h this) ;;
  TcpSession_read this hdrLength.

(** [void connect()] *)
Definition TcpSession_connect (this : ptr) : M W unit :=
  assign this (set_socket (sk_set_connects S)).

(** [void handleError(const error_code&)]: logs. *)
Definition handleError (this : ptr) (ec : error_code) : M W unit := mret tt.

Definition close_reason (ec : error_code) : CloseReason :=
  if bool_decide (ec = Error_eof) || bool_decide (ec = Error_operation_aborted)
  then Disconnected else ActiveClose.

(** The branch three handlers share:
    [handleError(ec); _closedHandler(shared_from_this(), reason)]. *)
Definition close_on_error (this : ptr) (ec : error_code) : M W unit :=
  handleError this ec ;;
  s ← deref this;
  call (ts_closedHandler s) (λ h, run_closed h this (close_reason ec)).

(** [void handleReadHeader(const error_code&)] *)
Definition handleReadHeader (this : ptr) (error : error_code) : M W unit :=
  if is_error error then close_on_error this error
  else
    s ← deref this;
    if negb (checkHeader (ts_msg s)) then TcpSession_read this hdrLength
    else async_read_some this RdBody (size_t (bodyLength (ts_msg s))).

(** [void handleReadBody(uint32_t&, int16_t&, const error_code&)]: the two
    references are only logged. *)
Definition handleReadBody (this : ptr) (ec : error_code) : M W unit :=
  if is_error ec then close_on_error this ec
  else
    s ← deref this;
    assign this (set_rx (λ rx, u64 (rx + msg_length (ts_msg s)))) ;;
    call (ts_messageHandler s) (λ h, run_message h this) ;;
    TcpSession_read this hdrLength.

(** [async_write( *_socket, buffer(&_sendQue.front(), _sendQue.front().length()), ...)] *)
Definition async_write_front (this : ptr) : M W unit :=
  s ← deref this;
  match ts_sendQue s with
  | [] => undef UB_empty_deque
  | m :: _ =>
      assign this (set_socket (sk_set_writes (λ l, l ++ [size_t (msg_length m)])))
  end.

(** [void send(const Msg&)] *)
Definition TcpSession_send_const (this : ptr) (msg : Msg) : M W unit :=
  s ← deref this;
  let progress := negb (bool_decide (ts_sendQue s = [])) in
  assign this (set_sendQue (λ q, q ++ [msg])) ;;
  when (negb progress) (async_write_front this).

(** [void send(Msg&)] *)
Definition TcpSession_send (this : ptr) (msg : Msg) : M W unit :=
  s ← deref this;
  let progress := negb (bool_decide (ts_sendQue s = [])) in
  assign this (set_sendQue (λ q, q ++ [msg])) ;;
  when (negb progress) (async_write_front this).

(** [void send(const uint8_t*, size_t)]: not implemented in the source. *)
Definition TcpSession_send_raw (this : ptr) (data : list Z) (size : Z) : M W unit :=
  mret tt.

(** [void handleWrite(const error_code&)] *)
Definition handleWrite (this : ptr) (ec : error_code) : M W unit :=
  if is_error ec then close_on_error this ec
  else
    s ← deref this;
    match ts_sendQue s with
    | [] => undef UB_empty_deque
    | m :: q =>
        assign this (set_tx (λ tx, u64 (tx + msg_length m))) ;;
        assign this (set_sendQue (λ q, tail q)) ;;
        when (negb (bool_decide (q = []))) (async_write_front this)
    end.

(** [void close()]: the state is left as it is. *)
Definition TcpSession_close (this : ptr) : M W unit :=
  assign this (set_socket sk_close).

(** *** Completions

    The service runs the lambda of the oldest outstanding operation.  A
    completed read has stored the received bytes in its buffer; a completed
    write has sent the first [n] bytes from the front of the queue. *)

(** The lambda of [read]: an error is only logged. *)
Definition on_read_header (this : ptr) (ec : error_code) : M W unit :=
  if negb (is_error ec) then handleReadHeader this ec else mret tt.
(** The lambda of [handleReadHeader]. *)
Definition on_read_body (this : ptr) (ec : error_code) : M W unit :=
  handleReadBody this ec.

Definition complete_read (this : ptr) (ec : error_code) (bs : list Z) : M W unit :=
  s ← deref this;
  match sk_reads (ts_socket s) with
  | [] => mret tt
  | (t, _) :: rest =>
      m ← lift (store (rd_offset t) bs (ts_msg s));
      assign this (λ s, set_msg m (set_socket (sk_set_reads tail) s)) ;;
      match t with
      | RdHeader => on_read_header this ec
      | RdBody => on_read_body this ec
      end
  end.

Definition complete_write (this : ptr) (ec : error_code) (n : Z) : M W unit :=
  s ← deref this;
  match sk_writes (ts_socket s) with
  | [] => mret tt
  | _ :: rest =>
      match ts_sendQue s with
      | [] => undef UB_dangling
      | m :: _ =>
          bs ← lift (load n m);
          assign this (set_socket (λ k, sk_set_out (λ o, o ++ bs) (sk_set_writes tail k))) ;;
          handleWrite this ec
      end
  end.

Definition complete_connect (this : ptr) (ec : error_code) : M W unit :=
  s ← deref this;
  match sk_connects (ts_socket s) with
  | O => mret tt
  | S _ =>
      assign this (set_socket (sk_set_connects Nat.pred)) ;;
      if negb (is_error ec) then
        assign this (set_socket (sk_set_options true true)) ;;
        TcpSession_start this
      else mret tt
  end.

(** [TcpSession] implements the abstract class. *)
#[export] Instance TcpSession_Session : Session W := {
  getID := TcpSession_getID;
  getRemoteEndpoint := TcpSession_getRemoteEndpoint;
  send := TcpSession_send;
  read := TcpSession_read;
  close := TcpSession_close;
  isOpen := TcpSession_isOpen;
  getMsg := TcpSession_getMsg
}.
#[export] Instance TcpSession_StartSession : StartSession W := { start := TcpSession_start }.
End Operations.

(** What the asio documentation promises of a completion of the oldest
    operation of socket [k]: [async_read_some] transfers at most the size of
    its buffer, nothing on error, and at least one byte on success into a
    non-empty buffer; [async_write] transfers its whole buffer on success and
    at most that on error. *)
Definition read_completion (k : socket) (ec : error_code) (bs : list Z) : Prop :=
  ∃ t size rest, sk_reads k = (t, size) :: rest ∧ Forall byte_ok bs ∧
    Z.of_nat (length bs) <= size ∧
    (is_error ec = true → bs = []) ∧
    (is_error ec = false → 0 < size → bs ≠ []).

Definition write_completion (k : socket) (ec : error_code) (n : Z) : Prop :=
  ∃ size rest, sk_writes k = size :: rest ∧ 0 <= n <= size ∧
    (is_error ec = false → n = size).

#[global] Arguments deref : simpl never.
#[global] Arguments assign : simpl never.
#[global] Arguments set_socket f !s /.
#[global] Arguments set_state x !s /.
#[global] Arguments set_msg x !s /.
#[global] Arguments set_sendQue f !s /.
#[global] Arguments set_tx f !s /.
#[global] Arguments set_rx f !s /.

(** ** Running operations on a known session *)

Section Run.
Context {W : Type} `{FH : !Field W heap}.
Implicit Types (w : W) (s : TcpSession) (p q : ptr).

(** The process state with session [p] replaced. *)
Definition upd p s w : W := fset (<[p := s]> (hp w)) w.

Lemma lookup_upd p s w : hp (upd p s w) !! p = Some s.
Proof. unfold upd. by rewrite fget_fset, lookup_insert_eq. Qed.
Lemma lookup_upd_ne p q s w : p ≠ q → hp (upd p s w) !! q = hp w !! q.
Proof. intros. unfold upd. by rewrite fget_fset, lookup_insert_ne. Qed.
Lemma upd_upd p s s' w : upd p s' (upd p s w) = upd p s' w.
Proof. unfold upd. by rewrite fget_fset, fset_fset, insert_insert_eq. Qed.
Lemma upd_id p s w : hp w !! p = Some s → upd p s w = w.
Proof. intros. unfold upd. rewrite insert_id by done. apply fset_fget. Qed.
Lemma upd_sep {U} (g : Field W U) `{!Separate g FH} p s w :
  fget (Field := g) (upd p s w) = fget (Field := g) w.
Proof. unfold upd. apply fget_fset_sep. Qed.

Lemma deref_ok p s w : hp w !! p = Some s → deref p w = Ok s w.
Proof. intros Hs. unfold deref, fread, mbind, M_bind, get. cbn. by rewrite Hs. Qed.
Lemma assign_ok p s f w :
  hp w !! p = Some s → assign p f w = Ok tt (upd p (f s) w).
Proof.
  intros Hs. unfold assign, fmodify, modify, upd. do 2 f_equal.
  apply map_eq. intros q. destruct (decide (p = q)) as [->|].
  - by rewrite lookup_alter_eq, lookup_insert_eq, Hs.
  - by rewrite lookup_alter_ne, lookup_insert_ne.
Qed.
Lemma bind_deref {B} p s (k : TcpSession → M W B) w :
  hp w !! p = Some s → (deref p ≫= k) w = k s w.
Proof. intros. by apply bind_ok, deref_ok. Qed.
Lemma bind_assign {B} p s f (k : unit → M W B) w :
  hp w !! p = Some s → (assign p f ≫= k) w = k tt (upd p (f s) w).
Proof. intros. by apply bind_ok, assign_ok. Qed.
End Run.

Ltac sess_side := first [apply lookup_upd | eassumption].
(** Executes the reads and assignments of a known session. *)
Ltac sess_run :=
  repeat first
    [ erewrite bind_deref by sess_side
    | erewrite bind_assign by sess_side
    | erewrite assign_ok by sess_side
    | erewrite deref_ok by sess_side
    | rewrite bind_ret
    | rewrite bind_assoc
    | rewrite upd_upd ].

(** ** The smallest process: sessions and nothing else

    Used to instantiate the theorems at concrete inputs. *)

#[program] Definition heap_self : Field heap heap :=
  {| fget w := w; fset x _ := x |}.
Solve All Obligations with done.

Definition quiet : Callbacks heap :=
  {| run_opened _ _ := mret tt; run_closed _ _ _ := mret tt; run_message _ _ := mret tt |}.

Definition demo_msg (n : Z) (text : list Z) : Msg :=
  mkMsg (mkHdr 1 0 n 3) (text ++ replicate (Z.to_nat MAX_CP_MSG_DATA - length text) 0).

Definition demo_session (k : socket) (q : list Msg) : TcpSession :=
  mkTcpSession k 7 Opened (mkEndpoint "10.0.0.1" 5000) (demo_msg 0 []) q 4096 size_max
    0 0 (Some ChatServer_opened) (Some TcpServer_handleClose) (Some ChatServer_message).
