(* ===== verification/TcpSend.v ===== *)
(** * The send path of TcpSession

    The send queue and its one outstanding [async_write] as an abstract FIFO
    channel: [push_send] and [pop_write] are the effects of [send] and of a
    completed write on a session, and the theorems relate every interleaving
    of the two to the byte stream the peer receives. *)
From S2P Require Import Prelude Msg Session TcpSession.

(** ** Effects on the session *)

(** What [send] does to the session: the message goes to the back of the
    queue, and a write is started when none was. *)
Definition push_send (m : Msg) (s : TcpSession) : TcpSession :=
  let s' := set_sendQue (λ q, q ++ [m]) s in
  if bool_decide (ts_sendQue s = [])
  then set_socket (sk_set_writes (λ l, l ++ [size_t (msg_length m)])) s'
  else s'.

(** What a successful completion does to it. *)
Definition pop_write (s : TcpSession) : TcpSession :=
  match ts_sendQue s with
  | [] => s
  | m :: q =>
      set_sendQue (λ _, q)
        (set_tx (λ tx, u64 (tx + msg_length m))
          (set_socket (λ k, sk_set_out (λ o, o ++ frame m)
             (sk_set_writes (λ l,
                tail l ++ match q with [] => [] | m' :: _ => [size_t (msg_length m')] end) k)) s))
  end.

(** What a failed write of which [bs] was sent does to it. *)
Definition write_failed (bs : list Z) (s : TcpSession) : TcpSession :=
  set_socket (λ k, sk_set_out (λ o, o ++ bs) (sk_set_writes tail k)) s.

Section Send.
Context {W : Type} `{FH : !Field W heap} `{CB : !Callbacks W}.
Implicit Types (w : W) (s : TcpSession) (p q : ptr).

Lemma send_ok p m s w :
  hp w !! p = Some s → TcpSession_send p m w = Ok tt (upd p (push_send m s) w).
Proof.
  intros Hs. unfold TcpSession_send, push_send. sess_run.
  destruct s as [k i st ep msg q mr mb tx rx oh ch mh]; cbn in *.
  destruct q; cbn; [|done]. unfold async_write_front. sess_run. cbn. by sess_run.
Qed.

Lemma send_const_ok p m w : TcpSession_send_const p m w = TcpSession_send p m w.
Proof. done. Qed.

Lemma complete_write_ok p s m rest w :
  hp w !! p = Some s →
  sendable m → ts_sendQue s = m :: rest →
  sk_writes (ts_socket s) = [size_t (msg_length m)] →
  complete_write p Success (msg_length m) w = Ok tt (upd p (pop_write s) w).
Proof.
  intros Hs Hm Hq Hw. unfold complete_write. sess_run. rewrite Hw, Hq.
  rewrite (bind_lift _ (frame m)).
  2:{ unfold load. destruct Hm as [_ Hm]. case_cmp; [done|].
      unfold sizeof_Msg, msg_length, bodyLength, hdrLength, MAX_CP_MSG_DATA in *. lia. }
  sess_run. unfold handleWrite. cbn [is_error].
  destruct s as [k i st ep msg q mr mb tx rx oh ch mh]; cbn in *. subst q.
  sess_run. cbn. sess_run. cbn.
  unfold pop_write. cbn. destruct k as [? ? ? ? ? ws ?]; cbn in *. subst ws.
  destruct rest as [|m' rest]; cbn; [done|].
  unfold async_write_front. sess_run. cbn. by sess_run.
Qed.

Lemma complete_write_error p s m rest size writes n bs ec w :
  hp w !! p = Some s → ts_sendQue s = m :: rest →
  sk_writes (ts_socket s) = size :: writes → load n m = Val bs → is_error ec = true →
  complete_write p ec n w =
    call (ts_closedHandler s) (λ h, run_closed h p (close_reason ec)) (upd p (write_failed bs s) w).
Proof.
  intros Hs Hq Hw Hl He. unfold complete_write. sess_run. rewrite Hw, Hq.
  rewrite (bind_lift _ bs) by done. sess_run. unfold handleWrite. rewrite He.
  unfold close_on_error, handleError. sess_run. by destruct s.
Qed.
End Send.

Lemma load_sendable n m :
  sendable m → 0 <= n <= msg_length m → load n m = Val (take (Z.to_nat n) (bytes_of_msg m)).
Proof.
  intros [_ Hm] Hn. unfold load. case_cmp; [done|].
  unfold sizeof_Msg, msg_length, bodyLength, hdrLength, MAX_CP_MSG_DATA in *. lia.
Qed.

(** *** The queue and the outstanding write *)

(** One write is outstanding exactly when the queue is not empty, and it is the
    write of the front message. *)
Definition tx_ok (s : TcpSession) : Prop :=
  sk_writes (ts_socket s) =
    match ts_sendQue s with [] => [] | m :: _ => [size_t (msg_length m)] end.

Lemma size_t_length m : sendable m → size_t (msg_length m) = msg_length m.
Proof.
  intros [_ Hm]. apply wrapU_id. unfold in_u, msg_length, bodyLength, hdrLength, MAX_CP_MSG_DATA in *.
  lia.
Qed.

Lemma push_send_tx_ok m s : tx_ok s → tx_ok (push_send m s).
Proof.
  unfold tx_ok, push_send. destruct s as [k i st ep msg q ? ? ? ? ? ? ?]; cbn. intros Hw.
  destruct q; cbn; [|done]. destruct k; cbn in *. by rewrite Hw.
Qed.

Lemma pop_write_tx_ok s : tx_ok s → tx_ok (pop_write s).
Proof.
  unfold tx_ok, pop_write. destruct s as [k i st ep msg q ? ? ? ? ? ? ?]; cbn. intros Hw.
  destruct q as [|m q]; cbn; [done|]. destruct k; cbn in *. rewrite Hw. by destruct q.
Qed.

Lemma push_send_out m s : sk_out (ts_socket (push_send m s)) = sk_out (ts_socket s).
Proof. unfold push_send. destruct s as [k ?]; cbn. case_bool_decide; by destruct k. Qed.
Lemma push_send_queue m s : ts_sendQue (push_send m s) = ts_sendQue s ++ [m].
Proof. unfold push_send. destruct s; cbn. by case_bool_decide. Qed.
Lemma push_send_reads m s : sk_reads (ts_socket (push_send m s)) = sk_reads (ts_socket s).
Proof. unfold push_send. destruct s as [k ?]; cbn. case_bool_decide; by destruct k. Qed.
Lemma push_send_id m s : ts_id (push_send m s) = ts_id s.
Proof. unfold push_send. destruct s; cbn. by case_bool_decide. Qed.
Lemma push_send_msg m s : ts_msg (push_send m s) = ts_msg s.
Proof. unfold push_send. destruct s; cbn. by case_bool_decide. Qed.
Lemma push_send_state m s : ts_state (push_send m s) = ts_state s.
Proof. unfold push_send. destruct s; cbn. by case_bool_decide. Qed.
Lemma push_send_tx m s : ts_tx (push_send m s) = ts_tx s.
Proof. unfold push_send. destruct s; cbn. by case_bool_decide. Qed.
Lemma push_send_rx m s : ts_rx (push_send m s) = ts_rx s.
Proof. unfold push_send. destruct s; cbn. by case_bool_decide. Qed.
Lemma push_send_handlers m s :
  ts_openedHandler (push_send m s) = ts_openedHandler s ∧
  ts_closedHandler (push_send m s) = ts_closedHandler s ∧
  ts_messageHandler (push_send m s) = ts_messageHandler s.
Proof. unfold push_send. destruct s; cbn. by case_bool_decide. Qed.

(** Several sends. *)
Definition pushes (ms : list Msg) (s : TcpSession) : TcpSession :=
  foldl (λ s m, push_send m s) s ms.

(** A projection that [send] leaves alone, several sends leave alone. *)
Lemma pushes_proj {A} (f : TcpSession → A) ms s :
  (∀ m s, f (push_send m s) = f s) → f (pushes ms s) = f s.
Proof. 
  intros Hf. revert s. induction ms as [|m ms IH]; intros s; [done|].
  change (pushes (m :: ms) s) with (pushes ms (push_send m s)). by rewrite IH, Hf.
Qed.

Lemma pushes_queue ms s : ts_sendQue (pushes ms s) = ts_sendQue s ++ ms.
Proof.
  revert s. induction ms as [|m ms IH]; intros s; [cbn; by rewrite app_nil_r|].
  change (pushes (m :: ms) s) with (pushes ms (push_send m s)).
  by rewrite IH, push_send_queue, <- app_assoc.
Qed.

Lemma pushes_writes ms s :
  ts_sendQue s ≠ [] → sk_writes (ts_socket (pushes ms s)) = sk_writes (ts_socket s).
Proof.
  revert s. induction ms as [|m ms IH]; intros s Hq; [done|].
  change (pushes (m :: ms) s) with (pushes ms (push_send m s)).
  rewrite IH by (rewrite push_send_queue; by destruct (ts_sendQue s)).
  unfold push_send. rewrite bool_decide_eq_false_2 by done. by destruct s.
Qed.

Lemma pushes_app ms1 ms2 s : pushes (ms1 ++ ms2) s = pushes ms2 (pushes ms1 s).
Proof. apply foldl_app. Qed.

Create Rewrite HintDb session.
#[global] Hint Rewrite push_send_out push_send_queue push_send_reads push_send_id
  push_send_msg push_send_state push_send_tx push_send_rx : session.

(** ** The contract of the session interface *)

Definition session_view_of (s : TcpSession) : session_view :=
  mkView (ts_id s) (ts_msg s) (ts_sendQue s).

(** [TcpSession] keeps what [Session.v] promises of a session. *)
#[export, refine] Instance TcpSession_SessionLaws {W} `{FH : !Field W heap} :
    SessionLaws W heap := {| view w p := session_view_of <$> hp w !! p |}.
Proof.
  - intros U g x w p Hsep. by rewrite (fget_fset_sep' (Separate := Hsep)).
  - intros p v w Hv. destruct (hp w !! p) as [s|] eqn:Hs; [|done]. injection Hv as <-.
    cbn. unfold TcpSession_getID. by sess_run.
  - intros p v w Hv. destruct (hp w !! p) as [s|] eqn:Hs; [|done]. injection Hv as <-.
    cbn. unfold TcpSession_getMsg. by sess_run.
  - intros p v m w Hv. destruct (hp w !! p) as [s|] eqn:Hs; [|done]. injection Hv as <-.
    exists (<[p := push_send m s]> (hp w)). split_and!.
    + cbn. by rewrite (send_ok p m s w Hs).
    + rewrite fget_fset, lookup_insert_eq. cbn. unfold session_view_of, view_push. cbn.
      by rewrite push_send_id, push_send_msg, push_send_queue.
    + intros q Hq. by rewrite fget_fset, lookup_insert_ne.
Defined.

(** Interleavings of sends with completions of the outstanding write. *)
Inductive tx_event := Tx_send (m : Msg) | Tx_done.

Definition tx_sends (evs : list tx_event) : list Msg :=
  omap (λ e, match e with Tx_send m => Some m | Tx_done => None end) evs.

Definition tx_exec {W} `{FH : !Field W heap, CB : !Callbacks W} (p : ptr) (e : tx_event) : M W unit :=
  match e with
  | Tx_send m => TcpSession_send p m
  | Tx_done =>
      s ← deref p;
      match sk_writes (ts_socket s) with
      | [] => mret tt
      | size :: _ => complete_write p Success size
      end
  end.

Definition tx_step (s : TcpSession) (e : tx_event) : TcpSession :=
  match e with Tx_send m => push_send m s | Tx_done => pop_write s end.

Definition queue_ok (s : TcpSession) : Prop := tx_ok s ∧ Forall sendable (ts_sendQue s).

Lemma pop_write_empty s : ts_sendQue s = [] → pop_write s = s.
Proof. unfold pop_write. by intros ->. Qed.

Lemma tx_step_queue_ok s e :
  queue_ok s → (∀ m, e = Tx_send m → sendable m) → queue_ok (tx_step s e).
Proof.
  intros [Htx Hq] He. destruct e as [m|]; cbn.
  - split; [by apply push_send_tx_ok|]. rewrite push_send_queue.
    apply Forall_app_2; [done|]. constructor; [by apply He|constructor].
  - split; [by apply pop_write_tx_ok|].
    unfold pop_write. destruct s as [k i st ep msg [|m q] ? ? ? ? ? ? ?]; cbn in *; [done|].
    by inversion Hq.
Qed.

Section Fifo.
Context {W : Type} `{FH : !Field W heap} `{CB : !Callbacks W}.
Implicit Types (w : W) (s : TcpSession) (p : ptr).

Lemma tx_exec_ok p e s w :
  hp w !! p = Some s → queue_ok s → (∀ m, e = Tx_send m → sendable m) →
  tx_exec p e w = Ok tt (upd p (tx_step s e) w).
Proof.
  intros Hs [Htx Hq] He. destruct e as [m|]; cbn; [by apply send_ok|].
  sess_run. unfold tx_ok in Htx. rewrite Htx.
  destruct (ts_sendQue s) as [|m q] eqn:Eq.
  - by rewrite pop_write_empty, upd_id.
  - inversion_clear Hq. rewrite size_t_length by done.
    eapply complete_write_ok; eauto.
Qed.

Lemma tx_run_ok p evs s w :
  hp w !! p = Some s → queue_ok s → Forall sendable (tx_sends evs) →
  forM_ evs (tx_exec p) w = Ok tt (upd p (foldl tx_step s evs) w).
Proof.
  revert s w. induction evs as [|e evs IH]; intros s w Hs Hq He; cbn.
  - by rewrite upd_id.
  - assert (He1 : ∀ m, e = Tx_send m → sendable m).
    { intros m ->. cbn in He. by inversion He. }
    erewrite bind_ok by (by apply tx_exec_ok).
    rewrite (IH (tx_step s e)); [by rewrite upd_upd|apply lookup_upd| |].
    + by apply tx_step_queue_ok.
    + destruct e; cbn in He; [by inversion He|done].
Qed.
End Fifo.


Lemma pop_write_wire s :
  sk_out (ts_socket (pop_write s)) ++ wire (ts_sendQue (pop_write s)) =
  sk_out (ts_socket s) ++ wire (ts_sendQue s).
Proof.
  unfold pop_write, wire. destruct s as [k i st ep msg [|m q] ? ? ? ? ? ? ?]; cbn; [done|].
  destruct k; cbn. by rewrite <- app_assoc.
Qed.


Lemma tx_steps_wire s evs :
  let s' := foldl tx_step s evs in
  sk_out (ts_socket s') ++ wire (ts_sendQue s') =
  sk_out (ts_socket s) ++ wire (ts_sendQue s) ++ wire (tx_sends evs).
Proof.
  revert s. induction evs as [|e evs IH]; intros s; cbn.
  - by rewrite app_nil_r.
  - cbn in IH. rewrite IH. destruct e as [m|]; cbn.
    + autorewrite with session. rewrite wire_app. unfold wire at 2. cbn.
      unfold wire. cbn. by rewrite app_nil_r, <- !app_assoc.
    + rewrite !app_assoc. f_equal. apply pop_write_wire.
Qed.

Lemma tx_steps_queue_ok s evs :
  queue_ok s → Forall sendable (tx_sends evs) → queue_ok (foldl tx_step s evs).
Proof.
  revert s. induction evs as [|e evs IH]; intros s Hq He; cbn; [done|].
  apply IH.
  - apply tx_step_queue_ok; [done|]. intros m ->. cbn in He. by inversion He.
  - destruct e; cbn in He; [by inversion He|done].
Qed.

(** The transmit counter counts the bytes handed to the network, modulo 2^64. *)
Lemma tx_step_counter s e :
  queue_ok s →
  ts_tx s = u64 (ts_tx s) →
  ts_tx (tx_step s e) =
    u64 (ts_tx s + (Z.of_nat (length (sk_out (ts_socket (tx_step s e)))) -
                    Z.of_nat (length (sk_out (ts_socket s))))).
Proof.
  intros [_ Hq] Htx. destruct e as [m|]; cbn.
  - autorewrite with session. by rewrite Z.sub_diag, Z.add_0_r.
  - unfold pop_write. destruct s as [k i st ep msg [|m q] ? ? tx ? ? ? ?]; cbn in *.
    + by rewrite Z.sub_diag, Z.add_0_r.
    + inversion_clear Hq. destruct k; cbn. rewrite length_app, length_frame by done.
      f_equal. unfold msg_length, hdrLength, sendable, bodyLength in *. lia.
Qed.

Lemma tx_steps_counter s evs :
  queue_ok s → Forall sendable (tx_sends evs) → ts_tx s = u64 (ts_tx s) →
  let s' := foldl tx_step s evs in
  ts_tx s' = u64 (ts_tx s + (Z.of_nat (length (sk_out (ts_socket s'))) -
                             Z.of_nat (length (sk_out (ts_socket s))))).
Proof.
  revert s. induction evs as [|e evs IH]; intros s Hq He Htx; cbn.
  - by rewrite Z.sub_diag, Z.add_0_r.
  - assert (He1 : ∀ m, e = Tx_send m → sendable m).
    { intros m ->. cbn in He. by inversion He. }
    pose proof (tx_step_counter s e Hq Htx) as Hc. cbn in IH.
    rewrite IH.
    + rewrite Hc. unfold wrapU. rewrite Zplus_mod_idemp_l. f_equal. lia.
    + by apply tx_step_queue_ok.
    + destruct e; cbn in He; [by inversion He|done].
    + rewrite Hc. unfold wrapU. by rewrite Z.mod_mod.
Qed.

(** Completions alone drain the queue. *)
Lemma drain_steps s n :
  (length (ts_sendQue s) ≤ n)%nat →
  ts_sendQue (foldl tx_step s (replicate n Tx_done)) = [].
Proof.
  revert s. induction n as [|n IH]; intros s Hn; cbn.
  - by destruct (ts_sendQue s); cbn in *; [|lia].
  - apply IH. unfold pop_write. destruct s as [? ? ? ? ? [|m q] ? ? ? ? ? ? ?]; cbn in *; lia.
Qed.

Lemma tx_sends_app evs1 evs2 : tx_sends (evs1 ++ evs2) = tx_sends evs1 ++ tx_sends evs2.
Proof. apply omap_app. Qed.
Lemma tx_sends_done n : tx_sends (replicate n Tx_done) = [].
Proof. induction n; cbn; done. Qed.

(** ** Properties *)

Section Theorems.
Context {W : Type} `{FH : !Field W heap} `{CB : !Callbacks W}.

(** C12: the send queue implements a FIFO byte channel.  From a session whose
    queue and outstanding write agree, every interleaving of [send]s of
    sendable messages with completions of the outstanding write runs without
    exception or undefined behaviour, touches no other session and no other
    component, keeps at most one write outstanding (that of the front message),
    and keeps "bytes sent, then frames of the queue" equal to what it was
    followed by the frames of the sent messages in order; the [_tx] counter
    advances by the bytes sent, modulo 2^64. *)
Theorem send_queue_fifo p evs s w :
  hp w !! p = Some s → queue_ok s → ts_tx s = u64 (ts_tx s) →
  Forall sendable (tx_sends evs) →
  ∃ s', forM_ evs (tx_exec p) w = Ok tt (upd p s' w) ∧ queue_ok s' ∧
    sk_out (ts_socket s') ++ wire (ts_sendQue s') =
      sk_out (ts_socket s) ++ wire (ts_sendQue s) ++ wire (tx_sends evs) ∧
    ts_tx s' = u64 (ts_tx s + (Z.of_nat (length (sk_out (ts_socket s'))) -
                               Z.of_nat (length (sk_out (ts_socket s))))).
Proof.
  intros Hs Hq Htx He. exists (foldl tx_step s evs). split_and!.
  - by apply tx_run_ok.
  - by apply tx_steps_queue_ok.
  - apply tx_steps_wire.
  - by apply tx_steps_counter.
Qed.

(** C20: nothing sent is lost or stuck: whatever was interleaved before, as many
    further completions as there are queued messages empty the queue, and the
    bytes on the wire are then exactly the frames of all the messages sent. *)
Theorem send_queue_drains p evs n s w :
  hp w !! p = Some s → queue_ok s → Forall sendable (tx_sends evs) →
  (length (ts_sendQue (foldl tx_step s evs)) ≤ n)%nat →
  ∃ s', forM_ (evs ++ replicate n Tx_done) (tx_exec p) w = Ok tt (upd p s' w) ∧
    ts_sendQue s' = [] ∧ sk_writes (ts_socket s') = [] ∧
    sk_out (ts_socket s') =
      sk_out (ts_socket s) ++ wire (ts_sendQue s) ++ wire (tx_sends evs).
Proof.
  intros Hs Hq He Hn. set (evs' := evs ++ replicate n Tx_done).
  assert (He' : Forall sendable (tx_sends evs')).
  { unfold evs'. by rewrite tx_sends_app, tx_sends_done, app_nil_r. }
  exists (foldl tx_step s evs').
  assert (Hdr : ts_sendQue (foldl tx_step s evs') = []).
  { unfold evs'. rewrite foldl_app. by apply drain_steps. }
  split_and!; [by apply tx_run_ok|done| |].
  - destruct (tx_steps_queue_ok s evs' Hq He') as [Htx _].
    unfold tx_ok in Htx. by rewrite Hdr in Htx.
  - pose proof (tx_steps_wire s evs') as Hw. cbn zeta in Hw. rewrite Hdr in Hw.
    unfold wire at 1 in Hw. cbn in Hw. rewrite app_nil_r in Hw. rewrite Hw.
    unfold evs'. by rewrite tx_sends_app, tx_sends_done, app_nil_r.
Qed.

(** Sends behind a queued message only lengthen the queue. *)
Lemma sends_behind_front p m q msgs s w :
  hp w !! p = Some s → ts_sendQue s = m :: q →
  ∃ w' s', forM_ msgs (TcpSession_send p) w = Ok tt w' ∧ hp w' !! p = Some s' ∧
    s' = set_sendQue (λ q, q ++ msgs) s.
Proof.
  revert s w q. induction msgs as [|x msgs IH]; intros s w q Hs Hq.
  - exists w, s. cbn. split_and!; [done..|]. destruct s; cbn. by rewrite app_nil_r.
  - cbn [forM_]. erewrite bind_ok by (by apply send_ok).
    assert (Hx : push_send x s = set_sendQue (λ q, q ++ [x]) s).
    { unfold push_send. by rewrite Hq. }
    destruct (IH (push_send x s) (upd p (push_send x s) w) (q ++ [x]))
      as (w' & s' & Hr & Hl & ->); [apply lookup_upd|by rewrite push_send_queue, Hq|].
    exists w', (set_sendQue (λ q, q ++ x :: msgs) s). split_and!; try done.
    rewrite Hl, Hx. destruct s; cbn. by rewrite <- app_assoc.
Qed.

(** a failed write ends the session's sending for good: the front message
    stays in the queue with no write outstanding, so every later [send] only
    appends to the queue and starts no write (provided the close callback does
    not touch the session itself, as the server's does not). *)
Theorem failed_write_stalls p s m q h ec n bs msgs w :
  hp w !! p = Some s → ts_sendQue s = m :: q →
  sk_writes (ts_socket s) = [size_t (msg_length m)] →
  ts_closedHandler s = Some h → is_error ec = true → load n m = Val bs →
  (∀ s' w', ∃ w'', run_closed h p (close_reason ec) (upd p s' w') = Ok tt w'' ∧
     hp w'' !! p = Some s') →
  ∃ w' s', (complete_write p ec n ;; forM_ msgs (TcpSession_send p)) w = Ok tt w' ∧
    hp w' !! p = Some s' ∧
    ts_sendQue s' = ts_sendQue s ++ msgs ∧
    sk_writes (ts_socket s') = [] ∧
    sk_out (ts_socket s') = sk_out (ts_socket s) ++ bs.
Proof.
  intros Hs Hq Hw Hh He Hload Hcb.
  set (s1 := write_failed bs s).
  destruct (Hcb s1 w) as (w1 & Hrun & Hs1).
  assert (Hcw : complete_write p ec n w = Ok tt w1).
  { erewrite complete_write_error by done. by rewrite Hh. }
  assert (Hq1 : ts_sendQue s1 = m :: q) by (unfold s1; by destruct s).
  destruct (sends_behind_front p m q msgs s1 w1 Hs1 Hq1) as (w' & s' & Hr & Hl & -> ).
  exists w', (set_sendQue (λ q, q ++ msgs) s1). erewrite bind_ok by exact Hcw.
  split_and!; [done|done| | |]; unfold s1; destruct s as [[] ? ? ? ? ? ? ? ? ? ? ? ?];
    cbn in *; [done|by rewrite Hw|done].
Qed.

End Theorems.

(** ** Instances at concrete inputs *)

Definition hello : Msg := demo_msg 3 [104; 105; 0].
Definition bye : Msg := demo_msg 2 [98; 0].

Lemma hello_sendable : sendable hello.
Proof. apply (bool_decide_unpack _). vm_compute. exact I. Qed.
Lemma bye_sendable : sendable bye.
Proof. apply (bool_decide_unpack _). vm_compute. exact I. Qed.

Lemma send_queue_fifo_witness :
  ∃ s', @forM_ heap _ [Tx_send hello; Tx_send bye; Tx_done]
          (@tx_exec heap heap_self quiet 1%nat) {[1%nat := demo_session socket_new []]} =
        Ok tt (@upd heap heap_self 1%nat s' {[1%nat := demo_session socket_new []]}).
Proof.
  destruct (@send_queue_fifo heap heap_self quiet 1%nat [Tx_send hello; Tx_send bye; Tx_done]
    (demo_session socket_new []) {[1%nat := demo_session socket_new []]}) as (s' & Hr & _).
  - reflexivity.
  - split; [reflexivity | constructor].
  - reflexivity.
  - exact (Forall_cons_2 _ _ _ hello_sendable (Forall_cons_2 _ _ _ bye_sendable (Forall_nil_2 _))).
  - exists s'. exact Hr.
Defined.

Lemma send_queue_drains_witness :
  ∃ s', @forM_ heap _ ([Tx_send hello; Tx_send bye; Tx_done] ++ replicate 1 Tx_done)
          (@tx_exec heap heap_self quiet 1%nat) {[1%nat := demo_session socket_new []]} =
        Ok tt (@upd heap heap_self 1%nat s' {[1%nat := demo_session socket_new []]}) ∧
        ts_sendQue s' = [] ∧
        sk_out (ts_socket s') = [1; 0; 3; 0; 3; 0; 0; 0; 104; 105; 0; 1; 0; 2; 0; 3; 0; 0; 0; 98; 0].
Proof.
  destruct (@send_queue_drains heap heap_self quiet 1%nat [Tx_send hello; Tx_send bye; Tx_done] 1
    (demo_session socket_new []) {[1%nat := demo_session socket_new []]})
    as (s' & Hr & Hq & _ & Ho).
  - reflexivity.
  - split; [reflexivity | constructor].
  - exact (Forall_cons_2 _ _ _ hello_sendable (Forall_cons_2 _ _ _ bye_sendable (Forall_nil_2 _))).
  - reflexivity.
  - exists s'. split; [exact Hr|]. split; [exact Hq|]. rewrite Ho. vm_compute. reflexivity.
Defined.

Definition writing_session : TcpSession :=
  demo_session (mkSocket true true true 0 [] [11] []) [hello].

Lemma failed_write_stalls_witness :
  ∃ w' s', (@complete_write heap heap_self quiet 1%nat Error_eof 0 ;;
            forM_ [bye] (@TcpSession_send heap heap_self 1%nat)) {[1%nat := writing_session]} =
           Ok tt w' ∧ @fget heap heap heap_self w' !! 1%nat = Some s' ∧
           ts_sendQue s' = [hello; bye] ∧ sk_writes (ts_socket s') = [] ∧
           sk_out (ts_socket s') = [].
Proof.
  refine (@failed_write_stalls heap heap_self quiet 1%nat writing_session hello []
    TcpServer_handleClose Error_eof 0 [] [bye] {[1%nat := writing_session]} _ _ _ _ _ _ _);
    try reflexivity.
  intros s' w'. eexists. split; [reflexivity|]. apply (@lookup_upd heap heap_self).
Defined.
