(* ===== verification/TcpRace.v ===== *)
(** * The send path of TcpSession statement by statement

    TcpSession.cpp takes no lock and wraps no handler in a strand, and a relay
    calls [send] from the thread of another session.  Here [send] and
    [handleWrite] are cut into the statements that read or write the shared
    members, threads execute them in any order, and asio reads the buffer of an
    outstanding write whenever it likes.  The theorems say which interleavings
    are right and what the others do. *)
From S2P Require Import Prelude Msg Session TcpSession TcpSend.

(** ** State *)

(** The members [send] and [handleWrite] share.  The elements of the deque
    carry a number: a write keeps a pointer to one of them, which dangles once
    that element is popped.  An outstanding write is (element, size, whether
    its bytes have been taken). *)
Record tx_shared := mkShared {
  r_queue : list (nat * Msg);
  r_next : nat;
  r_writes : list (nat * Z * bool);
  r_out : list Z;
  r_tx : Z
}.

(** Where a thread is: before the statement named. *)
Inductive pc :=
  | Send_test (m : Msg)                     (* bool progress = !_sendQue.empty(); *)
  | Send_push (m : Msg) (progress : bool)   (* _sendQue.push_back(msg); *)
  | Send_start (progress : bool)            (* if( !progress ) async_write(...) *)
  | Write_count                             (* _tx += _sendQue.front().length(); *)
  | Write_pop                               (* _sendQue.pop_front(); *)
  | Write_start.                            (* if( !_sendQue.empty() ) async_write(...) *)

(** The threads in some order, and the messages pushed so far (a ghost: the
    order of the pushes is the order the peer should see). *)
Record race := mkRace { rc_shared : tx_shared; rc_threads : list pc; rc_log : list Msg }.

(** ** Statements *)

(** [async_write( *_socket, buffer(&_sendQue.front(), length), handleWrite)] *)
Definition start_write (s : tx_shared) : cres tx_shared :=
  match r_queue s with
  | [] => Bad UB_empty_deque
  | (i, m) :: _ =>
      Val (mkShared (r_queue s) (r_next s) (r_writes s ++ [(i, size_t (msg_length m), false)])
             (r_out s) (r_tx s))
  end.

(** One statement of a thread: the thread afterwards ([None]: it returned). *)
Definition statement (p : pc) (s : tx_shared) : cres (option pc * tx_shared) :=
  match p with
  | Send_test m => Val (Some (Send_push m (negb (bool_decide (r_queue s = [])))), s)
  | Send_push m progress =>
      Val (Some (Send_start progress),
           mkShared (r_queue s ++ [(r_next s, m)]) (S (r_next s)) (r_writes s) (r_out s) (r_tx s))
  | Send_start progress =>
      if negb progress then s' ← start_write s; Val (None, s') else Val (None, s)
  | Write_count =>
      match r_queue s with
      | [] => Bad UB_empty_deque
      | (_, m) :: _ =>
          Val (Some Write_pop,
               mkShared (r_queue s) (r_next s) (r_writes s) (r_out s) (u64 (r_tx s + msg_length m)))
      end
  | Write_pop =>
      match r_queue s with
      | [] => Bad UB_empty_deque
      | _ :: q => Val (Some Write_start, mkShared q (r_next s) (r_writes s) (r_out s) (r_tx s))
      end
  | Write_start =>
      if negb (bool_decide (r_queue s = [])) then s' ← start_write s; Val (None, s')
      else Val (None, s)
  end.

(** What a statement pushes. *)
Definition pushes_now (p : pc) : list Msg :=
  match p with Send_push m _ => [m] | _ => [] end.

(** ** Schedules *)

Inductive label :=
  | L_call (m : Msg)      (* a thread calls send(m) *)
  | L_run (i : nat)       (* thread i executes its next statement *)
  | L_take (j : nat)      (* asio takes the bytes of write j *)
  | L_done (j : nat).     (* write j completes, its handler starts on a thread *)

(** The element a write points to. *)
Fixpoint element (i : nat) (q : list (nat * Msg)) : option Msg :=
  match q with
  | [] => None
  | (k, m) :: q => if Nat.eqb k i then Some m else element i q
  end.

Definition exec (l : label) (c : race) : cres race :=
  let s := rc_shared c in
  match l with
  | L_call m => Val (mkRace s (rc_threads c ++ [Send_test m]) (rc_log c))
  | L_run i =>
      match rc_threads c !! i with
      | None => Val c
      | Some p =>
          '(p', s') ← statement p s;
          Val (mkRace s' (option_list p' ++ delete i (rc_threads c)) (rc_log c ++ pushes_now p))
      end
  | L_take j =>
      match r_writes s !! j with
      | Some (i, size, false) =>
          match element i (r_queue s) with
          | None => Bad UB_dangling
          | Some m =>
              bs ← load size m;
              Val (mkRace (mkShared (r_queue s) (r_next s) (<[j := (i, size, true)]> (r_writes s))
                             (r_out s ++ bs) (r_tx s)) (rc_threads c) (rc_log c))
          end
      | _ => Val c
      end
  | L_done j =>
      match r_writes s !! j with
      | Some (_, _, true) =>
          Val (mkRace (mkShared (r_queue s) (r_next s) (delete j (r_writes s)) (r_out s) (r_tx s))
                 (rc_threads c ++ [Write_count]) (rc_log c))
      | _ => Val c
      end
  end.

Fixpoint run (ls : list label) (c : race) : cres race :=
  match ls with
  | [] => Val c
  | l :: ls => c' ← exec l c; run ls c'
  end.

Definition calls (ls : list label) : list Msg :=
  omap (λ l, match l with L_call m => Some m | _ => None end) ls.

(** An idle session: nothing queued, nothing running. *)
Definition idle (out : list Z) (tx : Z) : race := mkRace (mkShared [] 0 [] out tx) [] [].

(** ** Exclusive schedules

    A thread is between two statements of the same call. *)
Definition midway (p : pc) : bool :=
  match p with Send_test _ | Write_count => false | _ => true end.

(** No thread executes a statement while another one is midway, as when
    there is one thread for all handlers, or a lock around both functions.
    asio may take bytes and complete writes at any time. *)
Fixpoint exclusive (ls : list label) (c : race) : bool :=
  match ls with
  | [] => true
  | l :: ls =>
      match l with
      | L_run i => forallb (λ p, negb (midway p)) (delete i (rc_threads c))
      | _ => true
      end && match exec l c with Val c' => exclusive ls c' | Bad _ => true end
  end.

(** ** The invariant of exclusive schedules *)

#[export] Instance pc_eq_dec : EqDecision pc.
Proof. solve_decision. Defined.

(** Handlers that have been called and have not started. *)
Definition waiting (l : list pc) : nat := length (filter (λ p, p = Write_count) l).

#[global] Arguments waiting : simpl never.

(** The messages threads have not pushed yet. *)
Definition pending (p : pc) : list Msg :=
  match p with Send_test m | Send_push m _ => [m] | _ => [] end.

Definition numbered (k : nat) (l : list Msg) : list (nat * Msg) := zip (seq k (length l)) l.

Lemma numbered_cons k m l : numbered k (m :: l) = (k, m) :: numbered (S k) l.
Proof. done. Qed.
Lemma numbered_snoc k l m : numbered k (l ++ [m]) = numbered k l ++ [((k + length l)%nat, m)].
Proof.
  revert k. induction l as [|x l IH]; intros k; [cbn; by rewrite Nat.add_0_r|].
  cbn [app length]. rewrite !numbered_cons, IH. by rewrite Nat.add_succ_r.
Qed.
Lemma numbered_nil k l : numbered k l = [] ↔ l = [].
Proof. by destruct l. Qed.

(** One token exists while the queue is not empty: the write of the front
    element, before or after its bytes are taken, or the handler of its
    completion. *)
Inductive token (o : list Z) (popped : list Msg) : list Msg → list (nat * Z * bool) → nat → list Z → Prop :=
  | tok_none : token o popped [] [] 0 (o ++ wire popped)
  | tok_write m q :
      token o popped (m :: q) [(length popped, size_t (msg_length m), false)] 0 (o ++ wire popped)
  | tok_taken m q :
      token o popped (m :: q) [(length popped, size_t (msg_length m), true)] 0
        (o ++ wire popped ++ frame m)
  | tok_handler m q : token o popped (m :: q) [] 1 (o ++ wire popped ++ frame m).

(** What holds while thread [cur] is midway. *)
Definition phase (o : list Z) (cur : option pc) (popped rest : list Msg)
    (writes : list (nat * Z * bool)) (w0 : nat) (out : list Z) : Prop :=
  match cur with
  | None => token o popped rest writes w0 out
  | Some (Send_push _ progress) =>
      token o popped rest writes w0 out ∧ progress = negb (bool_decide (rest = []))
  | Some (Send_start true) => token o popped rest writes w0 out ∧ rest ≠ []
  | Some (Send_start false) =>
      ∃ m, rest = [m] ∧ writes = [] ∧ w0 = 0%nat ∧ out = o ++ wire popped
  | Some Write_pop =>
      ∃ m q, rest = m :: q ∧ writes = [] ∧ w0 = 0%nat ∧ out = o ++ wire popped ++ frame m
  | Some Write_start => writes = [] ∧ w0 = 0%nat ∧ out = o ++ wire popped
  | Some _ => False
  end.

(** The thread that is midway, if any, is the first one. *)
Definition split_midway (l : list pc) : option pc * list pc :=
  match l with
  | p :: l' => if midway p then (Some p, l') else (None, l)
  | [] => (None, [])
  end.

Record race_inv (o : list Z) (called : list Msg) (c : race) (popped rest : list Msg) : Prop := {
  ri_queue : r_queue (rc_shared c) = numbered (length popped) rest;
  ri_next : r_next (rc_shared c) = length (rc_log c);
  ri_log : rc_log c = popped ++ rest;
  ri_called : Forall sendable called;
  ri_sent : rc_log c ++ concat (pending <$> rc_threads c) ≡ₚ called;
  ri_first : Forall (λ p, midway p = false) (split_midway (rc_threads c)).2;
  ri_phase : phase o (split_midway (rc_threads c)).1 popped rest (r_writes (rc_shared c))
    (waiting (split_midway (rc_threads c)).2) (r_out (rc_shared c))
}.

Lemma waiting_perm l1 l2 : l1 ≡ₚ l2 → waiting l1 = waiting l2.
Proof. intros H. unfold waiting. by rewrite H. Qed.
Lemma waiting_snoc l p : waiting (l ++ [p]) = (waiting l + if decide (p = Write_count) then 1 else 0)%nat.
Proof.
  unfold waiting. rewrite filter_app, length_app. f_equal. rewrite filter_cons, filter_nil.
  by case_decide.
Qed.
Lemma waiting_cons p l : waiting (p :: l) = ((if decide (p = Write_count) then 1 else 0) + waiting l)%nat.
Proof. unfold waiting. rewrite filter_cons. by case_decide. Qed.

(** Adding a thread that has not started. *)
Lemma split_midway_snoc l p : midway p = false →
  split_midway (l ++ [p]) = ((split_midway l).1, (split_midway l).2 ++ [p]).
Proof. intros Hp. destruct l as [|q l]; cbn; [by rewrite Hp|]. by destruct (midway q). Qed.

Lemma split_midway_none l : Forall (λ p, midway p = false) l → split_midway l = (None, l).
Proof. destruct l as [|p l]; [done|]. intros [Hp _]%Forall_cons. cbn. by rewrite Hp. Qed.

Lemma pending_perm (l1 l2 : list pc) :
  l1 ≡ₚ l2 → concat (pending <$> l1) ≡ₚ concat (pending <$> l2).
Proof.
  induction 1 as [|p l1 l2 _ IH|p q l|l1 l2 l3 _ IH1 _ IH2]; cbn; [done|by rewrite IH| |by etrans].
  rewrite !app_assoc. by rewrite (Permutation_app_comm (pending q)).
Qed.

Lemma wire_snoc l m : wire (l ++ [m]) = wire l ++ frame m.
Proof. rewrite wire_app. unfold wire at 2. cbn. by rewrite app_nil_r. Qed.

Lemma token_push o popped rest writes w0 out m :
  token o popped rest writes w0 out → rest ≠ [] → token o popped (rest ++ [m]) writes w0 out.
Proof.
  inversion 1; subst; [done|..]; intros _; cbn; [apply tok_write|apply tok_taken|apply tok_handler].
Qed.

(** A statement of the only thread that is midway, or of a thread that starts
    while none is. *)
Lemma statement_phase o p s popped rest w0 :
  r_queue s = numbered (length popped) rest → r_next s = length (popped ++ rest) →
  phase o (if midway p then Some p else None) popped rest (r_writes s)
    ((if decide (p = Write_count) then 1 else 0) + w0) (r_out s) →
  ∃ p' s' popped' rest', statement p s = Val (p', s') ∧
    r_queue s' = numbered (length popped') rest' ∧ r_next s' = length (popped' ++ rest') ∧
    popped' ++ rest' = (popped ++ rest) ++ pushes_now p ∧
    phase o p' popped' rest' (r_writes s') w0 (r_out s') ∧
    Forall (λ q, midway q = true) (option_list p') ∧
    concat (pending <$> option_list p') ++ pushes_now p = pending p.
Proof.
  intros Hq Hn Hp. destruct s as [queue next writes out tx]; cbn in *. subst queue next.
  destruct p as [m|m pr|[]| | |]; rewrite ?decide_False, ?decide_True in Hp by done; cbn in *.
  - eexists _, _, popped, rest. rewrite app_nil_r. split_and!; try done; [|by constructor].
    cbn. split; [done|]. do 2 f_equal. apply bool_decide_ext. by rewrite numbered_nil.
  - destruct Hp as [Ht ->]. eexists _, _, popped, (rest ++ [m]).
    rewrite numbered_snoc, <- length_app, <- app_assoc. split_and!; try done.
    + cbn. rewrite !length_app. cbn. lia.
    + case_bool_decide as Hne; cbn.
      * subst. inversion Ht; subst. by exists m.
      * split; [by apply token_push|by destruct rest].
    + by constructor.
  - destruct Hp as [Ht Hne]. eexists _, _, popped, rest. rewrite app_nil_r. by split_and!.
  - destruct Hp as (m & -> & -> & -> & ->). cbn. eexists _, _, popped, [m].
    rewrite app_nil_r. split_and!; try done. cbn. constructor.
  - inversion Hp; subst; cbn. eexists _, _, popped, (m :: q). rewrite app_nil_r.
    split_and!; try done; [|by constructor]. cbn. by exists m, q.
  - destruct Hp as (m & q & -> & -> & -> & ->). cbn. eexists _, _, (popped ++ [m]), q.
    assert (Hl : length (popped ++ [m]) = S (length popped)) by (rewrite length_app; cbn; lia).
    rewrite app_nil_r, Hl, <- app_assoc. split_and!; try done.
    + cbn. rewrite wire_snoc. done.
    + by constructor.
  - destruct Hp as (-> & -> & ->). destruct rest as [|m q]; cbn.
    + eexists _, _, popped, []. rewrite !app_nil_r. split_and!; try done. cbn. constructor.
    + eexists _, _, popped, (m :: q). rewrite app_nil_r. split_and!; try done. cbn. constructor.
Qed.

(** asio's moves on the outstanding write. *)
Lemma phase_take o cur popped rest writes w0 out j i size :
  phase o cur popped rest writes w0 out → writes !! j = Some (i, size, false) →
  ∃ m q, rest = m :: q ∧ i = length popped ∧ size = size_t (msg_length m) ∧
    phase o cur popped rest (<[j := (i, size, true)]> writes) w0 (out ++ frame m).
Proof.
  assert (Ht : token o popped rest writes w0 out → writes !! j = Some (i, size, false) →
    ∃ m q, rest = m :: q ∧ i = length popped ∧ size = size_t (msg_length m) ∧
      token o popped rest (<[j := (i, size, true)]> writes) w0 (out ++ frame m)).
  { intros Ht Hj. inversion Ht; subst; try (by destruct j); destruct j as [|[]]; try done.
    cbn in *. simplify_eq. eexists _, _. split_and!; try done.
    rewrite <- app_assoc. constructor. }
  destruct cur as [[]|]; cbn; try done.
  - intros [Hp ?] Hj. destruct (Ht Hp Hj) as (m' & q & ? & ? & ? & ?). eauto 10.
  - destruct progress.
    + intros [Hp ?] Hj. destruct (Ht Hp Hj) as (m' & q & ? & ? & ? & ?). eauto 10.
    + intros (m & ? & -> & _) ?. by destruct j.
  - intros (m & q & ? & -> & _) ?. by destruct j.
  - intros (-> & _) ?. by destruct j.
Qed.

Lemma phase_done o cur popped rest writes w0 out j i size :
  phase o cur popped rest writes w0 out → writes !! j = Some (i, size, true) →
  phase o cur popped rest (delete j writes) (w0 + 1) out.
Proof.
  assert (Ht : token o popped rest writes w0 out → writes !! j = Some (i, size, true) →
    token o popped rest (delete j writes) (w0 + 1) out).
  { intros Ht Hj. inversion Ht; subst; try (by destruct j); destruct j as [|[]]; try done.
    constructor. }
  destruct cur as [[]|]; cbn; try done.
  - intros [Hp ?] Hj. auto.
  - destruct progress.
    + intros [Hp ?] Hj. auto.
    + intros (m & ? & -> & _) ?. by destruct j.
  - intros (m & q & ? & -> & _) ?. by destruct j.
  - intros (-> & _) ?. by destruct j.
Qed.

Lemma element_front k m q : element k ((k, m) :: q) = Some m.
Proof. cbn. by rewrite Nat.eqb_refl. Qed.

Lemma load_frame m : sendable m → load (size_t (msg_length m)) m = Val (frame m).
Proof.
  intros Hm. rewrite size_t_length by done. rewrite load_sendable; [done..|].
  destruct Hm as [_ Hm]. unfold msg_length, hdrLength, bodyLength in *. lia.
Qed.

Lemma not_midway l : forallb (λ p, negb (midway p)) l → Forall (λ p, midway p = false) l.
Proof.
  rewrite forallb_True. intros H. eapply Forall_impl; [exact H|]. intros p. cbn. by destruct (midway p).
Qed.

Lemma exec_inv o called c popped rest l :
  race_inv o called c popped rest → Forall sendable (calls [l]) →
  exclusive [l] c →
  ∃ c' popped' rest', exec l c = Val c' ∧ race_inv o (called ++ calls [l]) c' popped' rest'.
Proof.
  intros [Hq Hn Hlog Hc Hs Hf Hp] Hl Hx. destruct c as [s th log]; cbn in *.
  destruct l as [m|i|j|j]; cbn in *.
  - eexists _, popped, rest. split; [done|]. split; cbn; try done.
    + by apply Forall_app.
    + rewrite fmap_app, concat_app. cbn. by rewrite app_assoc, Hs.
    + rewrite split_midway_snoc by done. apply Forall_app. by repeat constructor.
    + rewrite split_midway_snoc by done. cbn. by rewrite waiting_snoc, decide_False, Nat.add_0_r.
  - rewrite app_nil_r. apply andb_True in Hx as [Hx%not_midway _]. destruct (th !! i) as [p|] eqn:Hi.
    2:{ eexists _, popped, rest. split; [done|]. by split. }
    pose proof (delete_Permutation th i p Hi) as Hperm.
    destruct (statement_phase o p s popped rest (waiting (delete i th))) as
      (p' & s' & popped' & rest' & Hst & Hq' & Hn' & Hl' & Hp' & Hm' & Hpe); [done|by rewrite Hn, Hlog| |].
    { destruct (midway p) eqn:Hm.
      - assert (i = 0%nat) as ->.
        { destruct i; [done|]. destruct th as [|p0 th]; [done|]. cbn in *.
          apply Forall_cons in Hx as [Hp0 Hx]. rewrite Hp0 in Hf. cbn in Hf.
          apply Forall_cons in Hf as [_ Hf]. rewrite Forall_forall in Hf.
          rewrite (Hf p) in Hm; [done|]. by eapply list_elem_of_lookup_2. }
        destruct th as [|p0 th]; [done|]. cbn in *. simplify_eq. rewrite Hm in Hp.
        rewrite decide_False by (by intros ->). done.
      - rewrite split_midway_none in Hp.
        + cbn in *. rewrite (waiting_perm _ _ Hperm), waiting_cons in Hp. done.
        + rewrite Hperm. by constructor. }
    rewrite Hst. eexists _, popped', rest'. split; [done|].
    assert (Hsp : split_midway (option_list p' ++ delete i th) = (p', delete i th)).
    { destruct p' as [p'|]; cbn in *; [by apply Forall_cons in Hm' as [-> _]|].
      by apply split_midway_none. }
    split; cbn; rewrite ?Hsp; cbn; try done.
    + rewrite Hn', Hl', Hlog. done.
    + by rewrite Hlog, Hl'.
    + rewrite <- Hs, fmap_app, concat_app. rewrite (pending_perm _ _ Hperm). cbn.
      rewrite <- Hpe, <- !app_assoc. f_equiv.
      rewrite (app_assoc (pushes_now p)), (Permutation_app_comm (pushes_now p)). by rewrite <- app_assoc.
  - rewrite app_nil_r. destruct (r_writes s !! j) as [[[i size] []]|] eqn:Hj;
      [by eexists _, popped, rest; split; [done|split]| |by eexists _, popped, rest; split; [done|split]].
    destruct (phase_take _ _ _ _ _ _ _ _ _ _ Hp Hj) as (m & q & -> & -> & -> & Hp').
    rewrite Hq, numbered_cons, element_front.
    assert (Hm : sendable m).
    { rewrite Hlog in Hs. rewrite Forall_forall in Hc. apply Hc. rewrite <- Hs.
      apply elem_of_app; left. apply elem_of_app; right. by left. }
    rewrite load_frame by done. cbn. eexists _, popped, (m :: q). split; [done|]. by split.
  - rewrite app_nil_r. destruct (r_writes s !! j) as [[[i size] []]|] eqn:Hj;
      [|by eexists _, popped, rest; split; [done|split]..].
    eexists _, popped, rest. split; [done|]. split; cbn; try done.
    + rewrite fmap_app, concat_app. cbn. by rewrite app_nil_r.
    + rewrite split_midway_snoc by done. apply Forall_app. by repeat constructor.
    + rewrite split_midway_snoc by done. cbn. rewrite waiting_snoc, decide_True by done.
      by eapply phase_done.
Qed.

Lemma run_app ls1 ls2 c : run (ls1 ++ ls2) c = (c' ← run ls1 c; run ls2 c').
Proof.
  revert c. induction ls1 as [|l ls1 IH]; intros c; cbn; [done|].
  destruct (exec l c); cbn; [apply IH|done].
Qed.

Lemma run_inv o called ls c popped rest :
  race_inv o called c popped rest → Forall sendable (calls ls) → exclusive ls c →
  ∃ c' popped' rest', run ls c = Val c' ∧ race_inv o (called ++ calls ls) c' popped' rest'.
Proof.
  revert called c popped rest. induction ls as [|l ls IH]; intros called c popped rest Hi Hs Hx.
  { exists c, popped, rest. by rewrite app_nil_r. }
  apply andb_True in Hx as [Hx1 Hx2]. change (l :: ls) with ([l] ++ ls) in *.
  unfold calls in *. rewrite omap_app in *. apply Forall_app in Hs as [Hs1 Hs2].
  destruct (exec_inv o called c popped rest l Hi Hs1) as (c1 & p1 & r1 & He & Hi1).
  { cbn. apply andb_True. split; [done|]. by destruct (exec l c). }
  rewrite He in Hx2. destruct (IH _ _ _ _ Hi1 Hs2 Hx2) as (c' & p' & r' & Hr & Hi').
  exists c', p', r'. split; [cbn; by rewrite He|]. by rewrite app_assoc.
Qed.

(** ** The atomic operations

    Each event of the atomic model as the statements of one thread. *)
Definition block (e : tx_event) : list label :=
  match e with
  | Tx_send m => [L_call m; L_run 0; L_run 0; L_run 0]
  | Tx_done => [L_take 0; L_done 0; L_run 0; L_run 0; L_run 0]
  end.

(** The shared members of session [s], no thread running. *)
Definition matches (c : race) (s : TcpSession) : Prop :=
  ∃ k, rc_threads c = [] ∧
    r_queue (rc_shared c) = numbered k (ts_sendQue s) ∧
    r_next (rc_shared c) = (k + length (ts_sendQue s))%nat ∧
    r_writes (rc_shared c) =
      match ts_sendQue s with [] => [] | m :: _ => [(k, size_t (msg_length m), false)] end ∧
    r_out (rc_shared c) = sk_out (ts_socket s) ∧ r_tx (rc_shared c) = ts_tx s.

Lemma block_refines e c s :
  matches c s → queue_ok s → (∀ m, e = Tx_send m → sendable m) →
  ∃ c', run (block e) c = Val c' ∧ matches c' (tx_step s e).
Proof.
  intros (k & Ht & Hq & Hn & Hw & Ho & Hx) [Htx Hok] He.
  destruct c as [[queue next writes out tx] th log]; cbn in *; subst.
  destruct e as [m|]; cbn.
  - destruct (ts_sendQue s) as [|m0 q] eqn:Eq; cbn; eexists; (split; [reflexivity|]); exists k; cbn;
      rewrite push_send_queue, push_send_out, push_send_tx, Eq.
    + rewrite Nat.add_0_r. split_and!; try done. cbn. by rewrite Nat.add_1_r.
    + split_and!; try done.
      * by rewrite numbered_snoc.
      * rewrite length_app. cbn. lia.
  - unfold pop_write. destruct (ts_sendQue s) as [|m q] eqn:Eq; cbn.
    + eexists. split; [reflexivity|]. exists k. cbn. by rewrite Eq.
    + apply Forall_cons in Hok as [Hm Hok].
      rewrite Nat.eqb_refl, load_frame by done. cbn.
      destruct q as [|m' q]; cbn; eexists; (split; [reflexivity|]); exists (S k);
        destruct s as [[] ? ? ? ? ? ? ? ? ? ? ? ?]; cbn in *; subst;
        split_and!; try done; lia.
Qed.

(** ** Properties *)

(** C19: the statements of [send] and [handleWrite] refine the atomic operations.
    When every thread finishes its call before another one starts, any sequence
    of sends and completed writes runs statement by statement without undefined
    behaviour, and ends with the queue, the outstanding write, the bytes sent
    and the counter of the atomic model. *)
Theorem statements_refine_atomic evs c s :
  matches c s → queue_ok s → Forall sendable (tx_sends evs) →
  ∃ c', run (concat (block <$> evs)) c = Val c' ∧ matches c' (foldl tx_step s evs).
Proof.
  revert c s. induction evs as [|e evs IH]; intros c s Hm Hq Hs; [by exists c|].
  assert (He : ∀ m, e = Tx_send m → sendable m).
  { intros m ->. cbn in Hs. by apply Forall_cons in Hs as [? _]. }
  destruct (block_refines e c s Hm Hq He) as (c1 & Hr & Hm1).
  destruct (IH c1 (tx_step s e) Hm1) as (c' & Hr' & Hm').
  - by apply tx_step_queue_ok.
  - destruct e; cbn in Hs; [by apply Forall_cons in Hs as [_ ?]|done].
  - exists c'. split; [|done]. cbn [fmap list_fmap concat]. by rewrite run_app, Hr.
Qed.

(** C13: mutual exclusion is enough for the send path.  From an idle session, take
    any number of threads that call [send], asio taking bytes and completing
    writes at any time, and any order of their statements in which a thread is
    never between two statements while another one executes: no statement is
    undefined, at most one write is outstanding, and the peer has received the
    frames of the first messages pushed, in the order of the pushes.  Once no
    thread and no write is left the queue is empty and the messages received
    are all the messages sent, each once. *)
Theorem exclusive_sends_fifo ls out tx :
  Forall sendable (calls ls) → exclusive ls (idle out tx) →
  ∃ c' received rest, run ls (idle out tx) = Val c' ∧
    rc_log c' = received ++ rest ∧ r_out (rc_shared c') = out ++ wire received ∧
    rc_log c' ++ concat (pending <$> rc_threads c') ≡ₚ calls ls ∧
    (length (r_writes (rc_shared c')) ≤ 1)%nat ∧
    (rc_threads c' = [] → r_writes (rc_shared c') = [] →
     r_queue (rc_shared c') = [] ∧ rest = [] ∧ received ≡ₚ calls ls).
Proof.
  intros Hs Hx. destruct (run_inv out [] ls (idle out tx) [] []) as (c' & popped & rest & Hr & Hi).
  { split; cbn; try done. rewrite <- (app_nil_r out) at 2. apply (tok_none out []). }
  1,2: done.
  destruct Hi as [Hq Hn Hl Hc Hp Hf Hph]. cbn in Hp.
  destruct c' as [[queue next writes out' tx'] th log]; cbn in *. subst queue next.
  assert (Hcase : (out' = out ++ wire popped ∧ (length writes ≤ 1)%nat ∧
                    (th = [] → writes = [] → rest = [])) ∨
                  (∃ m q, rest = m :: q ∧ out' = out ++ wire popped ++ frame m ∧
                    (length writes ≤ 1)%nat ∧ (th = [] → writes ≠ []))).
  { destruct (split_midway th) as [cur th'] eqn:Esp. cbn in *.
    assert (Htok : ∀ w, token out popped rest writes w out' → (th = [] → w = 0%nat) →
      (out' = out ++ wire popped ∧ (length writes ≤ 1)%nat ∧ (th = [] → writes = [] → rest = [])) ∨
      (∃ m q, rest = m :: q ∧ out' = out ++ wire popped ++ frame m ∧
        (length writes ≤ 1)%nat ∧ (th = [] → writes ≠ []))).
    { intros w Ht Hth. inversion Ht; subst; cbn; [left|left|right|right].
      1,2: by split_and!; [|lia|].
      all: eexists _, _; split_and!; try done; try lia. intros E. by specialize (Hth E). }
    destruct cur as [[]|]; cbn in Hph; try done.
    - destruct Hph as [Ht _]. apply (Htok _ Ht). intros ->. done.
    - destruct progress; [destruct Hph as [Ht _]; apply (Htok _ Ht); intros ->; done|].
      destruct Hph as (m & -> & -> & _ & ->). left. cbn. split_and!; [done|lia|]. by intros ->.
    - destruct Hph as (m & q & -> & -> & _ & ->). right. exists m, q. cbn.
      split_and!; [done..|lia|]. by intros ->.
    - destruct Hph as (-> & _ & ->). left. cbn. split_and!; [done|lia|]. by intros ->.
    - apply (Htok _ Hph). intros ->. cbn in Esp. by injection Esp as <-. }
  destruct Hcase as [(-> & Hw & Hfin)|(m & q & -> & -> & Hw & Hfin)].
  - exists (mkRace (mkShared (numbered (length popped) rest) (length log) writes (out ++ wire popped) tx') th log), popped, rest.
    cbn. split_and!; try done. intros -> ->. rewrite (Hfin eq_refl eq_refl) in *. split_and!; try done.
    cbn in Hp. rewrite app_nil_r in *. by subst.
  - exists (mkRace (mkShared (numbered (length popped) (m :: q)) (length log) writes
      (out ++ wire popped ++ frame m) tx') th log), (popped ++ [m]), q.
    cbn. rewrite wire_snoc, <- app_assoc. split_and!; try done. intros E1 E2. by specialize (Hfin E1).
Qed.

(** ** Unrestricted schedules *)

(** Every thread has seen a queue that was not empty. *)
Definition deferred (p : pc) : bool :=
  match p with Send_test _ | Send_push _ true | Send_start true => true | _ => false end.

(** A message is queued and nobody will start its write. *)
Definition stalled (k : nat) (m : Msg) (out : list Z) (c : race) : Prop :=
  (∃ q, r_queue (rc_shared c) = (k, m) :: q) ∧ r_writes (rc_shared c) = [] ∧
  r_out (rc_shared c) = out ∧ Forall deferred (rc_threads c).

Lemma exec_stalled k m out l c :
  stalled k m out c → ∃ c', exec l c = Val c' ∧ stalled k m out c'.
Proof.
  destruct c as [[queue next writes out' tx] th log]. intros ((q & Hq) & Hw & Ho & Ht); cbn in *; subst.
  destruct l as [m'|i|j|j]; cbn.
  - eexists. split; [done|]. split_and!; cbn; eauto. apply Forall_app. by repeat constructor.
  - destruct (th !! i) as [p|] eqn:Hi; [|by eexists; split; [done|split_and!; cbn; eauto]].
    assert (Hp : deferred p) by (rewrite Forall_lookup in Ht; eauto).
    assert (Hd : Forall deferred (delete i th)) by by apply Forall_delete.
    destruct p as [m'|m' []|[]| | |]; try done; cbn;
      (eexists; split; [reflexivity|split_and!; cbn; eauto]); by constructor.
  - eexists. split; [done|]. split_and!; cbn; eauto.
  - eexists. split; [done|]. split_and!; cbn; eauto.
Qed.

Lemma run_stalled k m out ls c :
  stalled k m out c → ∃ c', run ls c = Val c' ∧ stalled k m out c'.
Proof.
  revert c. induction ls as [|l ls IH]; intros c Hc; [by exists c|].
  destruct (exec_stalled _ _ _ l _ Hc) as (c1 & He & Hc1). cbn. rewrite He. cbn. by apply IH.
Qed.

(** Two schedules of two calls. *)
Definition lost_wakeup (m1 m2 : Msg) : list label :=
  [L_call m1; L_run 0; L_run 0; L_run 0; L_call m2; L_run 0; L_take 0; L_done 0;
   L_run 1; L_run 0; L_run 0; L_run 0; L_run 0].

Definition double_start (m1 m2 : Msg) : list label :=
  [L_call m1; L_call m2; L_run 0; L_run 1; L_run 1; L_run 1; L_run 0; L_run 0;
   L_take 0; L_take 1; L_done 0; L_run 0; L_run 0; L_run 0; L_done 0; L_run 0; L_run 0; L_run 0].

(** C33: without exclusion a wake-up is lost.  A second [send] that tests the queue
    before the completed write is popped, and pushes after the handler found
    the queue empty, starts no write, and neither does anything later: the
    message stays at the front and, whatever is sent afterwards, the peer
    receives no further byte and no statement is undefined. *)
Theorem send_lost_wakeup m1 m2 out tx : sendable m1 →
  ∃ c, run (lost_wakeup m1 m2) (idle out tx) = Val c ∧ rc_threads c = [] ∧
    rc_log c = [m1; m2] ∧
    ∀ later, ∃ c', run later c = Val c' ∧ r_out (rc_shared c') = out ++ frame m1 ∧
      r_writes (rc_shared c') = [] ∧ head (r_queue (rc_shared c')) = Some (1%nat, m2).
Proof.
  intros Hm. eexists. split; [|split; [|split]].
  { cbn. cbn. rewrite load_frame by done. cbn. reflexivity. }
  1,2: reflexivity.
  intros later. edestruct (run_stalled 1 m2 (out ++ frame m1) later) as
    (c' & Hr & (q & Hq) & Hw & Ho & _); [|exists c'; split; [exact Hr|]].
  { split_and!; cbn; [by exists []|done|done|by constructor]. }
  by rewrite Hq.
Qed.

(** without exclusion two writes of one element can be outstanding.  Two [send]s
    that both test the empty queue before either pushes both start a write of
    the front element: the peer receives the first message twice, the second
    one is popped without having been sent, and the last write to be started
    reads an element that has been popped. *)
Theorem concurrent_sends_dangling m1 m2 out tx : sendable m1 →
  ∃ c, run (double_start m1 m2) (idle out tx) = Val c ∧ rc_threads c = [] ∧
    rc_log c = [m1; m2] ∧ r_queue (rc_shared c) = [] ∧
    r_out (rc_shared c) = out ++ frame m1 ++ frame m1 ∧
    exec (L_take 0) c = Bad UB_dangling.
Proof.
  intros Hm. eexists. split.
  { cbn. repeat (rewrite load_frame by done; cbn). reflexivity. }
  cbn. by rewrite app_assoc.
Qed.

(** ** Instances at concrete inputs *)

Lemma statements_refine_atomic_witness :
  ∃ c', run (concat (block <$> [Tx_send hello; Tx_send bye; Tx_done])) (idle [] 0) = Val c' ∧
    matches c' (foldl tx_step (demo_session socket_new []) [Tx_send hello; Tx_send bye; Tx_done]) ∧
    r_out (rc_shared c') = frame hello.
Proof.
  destruct (statements_refine_atomic [Tx_send hello; Tx_send bye; Tx_done] (idle [] 0)
    (demo_session socket_new [])) as (c' & Hr & Hm).
  - exists 0%nat. by split_and!.
  - by split.
  - exact (Forall_cons_2 _ _ _ hello_sendable (Forall_cons_2 _ _ _ bye_sendable (Forall_nil_2 _))).
  - exists c'. split; [exact Hr|]. split; [exact Hm|].
    destruct Hm as (k & _ & _ & _ & _ & Ho & _). rewrite Ho. vm_compute. reflexivity.
Defined.

(** Two threads call [send], the second one while the handler of the first
    write waits; then everything completes. *)
Definition demo_schedule : list label :=
  [L_call hello; L_call bye; L_run 0; L_run 0; L_run 0; L_take 0; L_done 0;
   L_run 0; L_run 0; L_run 0; L_run 0; L_run 0; L_run 0;
   L_take 0; L_done 0; L_run 0; L_run 0; L_run 0].

Lemma demo_schedule_ends :
  match run demo_schedule (idle [] 0) with
  | Val c => rc_threads c = [] ∧ r_writes (rc_shared c) = []
  | Bad _ => False
  end.
Proof. vm_compute. by split. Qed.

Lemma exclusive_sends_fifo_witness :
  ∃ c' received, run demo_schedule (idle [] 0) = Val c' ∧
    received ≡ₚ [hello; bye] ∧ r_out (rc_shared c') = wire received ∧
    r_queue (rc_shared c') = [].
Proof.
  pose proof demo_schedule_ends as Hends.
  destruct (exclusive_sends_fifo demo_schedule [] 0)
    as (c' & received & rest & Hr & _ & Ho & _ & _ & Hfin).
  - exact (Forall_cons_2 _ _ _ hello_sendable (Forall_cons_2 _ _ _ bye_sendable (Forall_nil_2 _))).
  - vm_compute. exact I.
  - rewrite Hr in Hends. destruct Hends as [H1 H2].
    destruct (Hfin H1 H2) as (Hq & _ & Hp).
    exists c', received. split; [exact Hr|]. split; [exact Hp|]. split; [exact Ho|exact Hq].
Defined.

Lemma send_lost_wakeup_witness :
  ∃ c, run (lost_wakeup hello bye) (idle [] 0) = Val c ∧
    ∃ c', run [L_call hello; L_run 0; L_run 0; L_run 0; L_take 0; L_done 0] c = Val c' ∧
      r_out (rc_shared c') = frame hello.
Proof.
  destruct (send_lost_wakeup hello bye [] 0 hello_sendable) as (c & Hr & _ & _ & Hl).
  exists c. split; [exact Hr|].
  destruct (Hl [L_call hello; L_run 0; L_run 0; L_run 0; L_take 0; L_done 0]) as (c' & Hr' & Ho & _).
  exists c'. split; [exact Hr'|exact Ho].
Defined.

Lemma concurrent_sends_dangling_witness :
  ∃ c, run (double_start hello bye) (idle [] 0) = Val c ∧
    r_out (rc_shared c) = frame hello ++ frame hello ∧ exec (L_take 0) c = Bad UB_dangling.
Proof.
  destruct (concurrent_sends_dangling hello bye [] 0 hello_sendable) as (c & Hr & _ & _ & _ & Ho & Hb).
  exists c. split; [exact Hr|]. split; [exact Ho|exact Hb].
Defined.
