(* ===== verification/TcpRecv.v ===== *)
(** * The receive path of TcpSession

    Header reads, header checks, body reads and the delivery of a message to
    its callback: what one completed read does, what a whole stream of frames
    delivers, and what happens on short reads, negative lengths and errors. *)
From S2P Require Import Prelude Msg Session TcpSession TcpSend.

(** ** Effects on the session *)

(** The session waits for a header, for a body. *)
Definition waiting_header (s : TcpSession) : Prop :=
  sk_reads (ts_socket s) = [(RdHeader, hdrLength)].
Definition waiting_body (s : TcpSession) : Prop :=
  sk_reads (ts_socket s) = [(RdBody, size_t (bodyLength (ts_msg s)))].

(** The oldest read is removed and its bytes are in the message object. *)
Definition took_read (m : Msg) (s : TcpSession) : TcpSession :=
  set_msg m (set_socket (sk_set_reads tail) s).

(** A read is started. *)
Definition add_read (r : rd_target * Z) (s : TcpSession) : TcpSession :=
  set_socket (sk_set_reads (λ l, l ++ [r])) s.

(** What [handleReadHeader] starts for the header now in the object. *)
Definition next_read (m : Msg) : rd_target * Z :=
  if checkHeader m then (RdBody, size_t (bodyLength m)) else (RdHeader, hdrLength).

Section Complete.
Context {W : Type} `{FH : !Field W heap} `{CB : !Callbacks W}.
Implicit Types (w : W) (s : TcpSession) (p : ptr) (m : Msg).

Lemma complete_header_ok p s bs m size rest w :
  hp w !! p = Some s → sk_reads (ts_socket s) = (RdHeader, size) :: rest →
  store 0 bs (ts_msg s) = Val m →
  complete_read p Success bs w = Ok tt (upd p (add_read (next_read m) (took_read m s)) w).
Proof.
  intros Hs Hr Hst. unfold complete_read. sess_run. rewrite Hr. cbn [rd_offset].
  rewrite (bind_lift _ m) by done. sess_run.
  unfold on_read_header, handleReadHeader. cbn [is_error negb]. sess_run.
  unfold next_read, add_read, took_read. destruct s; cbn.
  destruct (checkHeader m); cbn; unfold TcpSession_read, async_read_some; by sess_run.
Qed.

Lemma complete_body_ok p s bs m size rest w :
  hp w !! p = Some s → sk_reads (ts_socket s) = (RdBody, size) :: rest →
  store 8 bs (ts_msg s) = Val m →
  complete_read p Success bs w =
    (call (ts_messageHandler s) (λ h, run_message h p) ;; TcpSession_read p hdrLength)
      (upd p (set_rx (λ rx, u64 (rx + msg_length m)) (took_read m s)) w).
Proof.
  intros Hs Hr Hst. unfold complete_read. sess_run. rewrite Hr. cbn [rd_offset].
  rewrite (bind_lift _ m) by done. sess_run.
  unfold on_read_body, handleReadBody. cbn [is_error]. sess_run.
  unfold took_read. by destruct s.
Qed.

(** An error while a header is awaited: the lambda of [read] only logs. *)
Lemma header_error_ok p s ec size rest w :
  hp w !! p = Some s → msg_ok (ts_msg s) →
  sk_reads (ts_socket s) = (RdHeader, size) :: rest → is_error ec = true →
  complete_read p ec [] w = Ok tt (upd p (took_read (ts_msg s) s) w).
Proof.
  intros Hs [Hh Hb] Hr He. unfold complete_read. sess_run. rewrite Hr. cbn [rd_offset].
  assert (Hst : store 0 [] (ts_msg s) = Val (ts_msg s)).
  { unfold store. case_cmp; [|unfold sizeof_Msg, hdrLength, MAX_CP_MSG_DATA in *; cbn in *; lia].
    by rewrite splice_nil, msg_of_bytes_of_msg. }
  rewrite (bind_lift _ (ts_msg s)) by done. sess_run.
  unfold on_read_header. rewrite He. cbn. by destruct s.
Qed.

Lemma body_error_ok p s ec size rest w :
  hp w !! p = Some s → msg_ok (ts_msg s) →
  sk_reads (ts_socket s) = (RdBody, size) :: rest → is_error ec = true →
  complete_read p ec [] w =
    call (ts_closedHandler s) (λ h, run_closed h p (close_reason ec))
      (upd p (took_read (ts_msg s) s) w).
Proof.
  intros Hs [Hh Hb] Hr He. unfold complete_read. sess_run. rewrite Hr. cbn [rd_offset].
  assert (Hst : store hdrLength [] (ts_msg s) = Val (ts_msg s)).
  { change hdrLength with 8. rewrite store_body by (done || cbn; lia).
    rewrite splice_nil. by destruct (ts_msg s). }
  rewrite (bind_lift _ (ts_msg s)) by done. sess_run.
  unfold on_read_body, handleReadBody. rewrite He. unfold close_on_error, handleError. sess_run.
  by destruct s.
Qed.
End Complete.

(** ** A stream that has arrived

    A read for [size] bytes may complete with [k] of the [avail] bytes that have
    arrived: [async_read_some] takes at most what it is asked for, and at least
    one byte unless its buffer is empty. *)
Definition may_take (size : Z) (k avail : nat) : bool :=
  (k <=? avail)%nat && (Z.of_nat k <=? size) && ((0 <? k)%nat || (size =? 0)).

(** The bytes [input] have all arrived; the reads complete, one after another,
    with [ks] bytes each, for as long as they may.  The result is the rest. *)
Fixpoint pump {W} `{FH : !Field W heap, CB : !Callbacks W} (ks : list nat) (p : ptr) (input : list Z) :
    M W (list Z) :=
  match ks with
  | [] => mret input
  | k :: ks =>
      s ← deref p;
      match sk_reads (ts_socket s) with
      | [] => mret input
      | (_, size) :: _ =>
          if may_take size k (length input) then
            complete_read p Success (take k input) ;;
            pump ks p (drop k input)
          else mret input
      end
  end.

(** The reads of a stream of frames when each takes all that it asked for: a
    header and a body for every message. *)
Definition whole_reads (ms : list Msg) : list nat :=
  concat ((λ m, [8; Z.to_nat (bodyLength m)]%nat) <$> ms).

(** The session right before the message callback: header and body are in the
    object, no read is outstanding, the bytes are counted. *)
Definition delivered (m : Msg) (s : TcpSession) : TcpSession :=
  set_rx (λ rx, u64 (rx + msg_length m))
    (set_msg (received m (ts_msg s)) (set_socket (sk_set_reads (λ _, [])) s)).

Section Stream.
Context {W : Type} `{FH : !Field W heap} `{CB : !Callbacks W}.
Implicit Types (w : W) (s : TcpSession) (p : ptr) (m : Msg).

(** One completion that takes what it may, and one that finds all it asks for. *)
Lemma pump_take p s t size reads bs rest ks w :
  hp w !! p = Some s → sk_reads (ts_socket s) = (t, size) :: reads →
  (length bs = 0%nat → size = 0) → Z.of_nat (length bs) <= size →
  pump (length bs :: ks) p (bs ++ rest) w = (complete_read p Success bs ;; pump ks p rest) w.
Proof.
  intros Hs Hr Hz Hle. cbn [pump]. sess_run. rewrite Hr.
  replace (may_take _ _ _) with true; [by rewrite take_app_length, drop_app_length|].
  symmetry. unfold may_take. rewrite !andb_true_iff, orb_true_iff, Nat.leb_le, Z.leb_le, Nat.ltb_lt, Z.eqb_eq, length_app.
  lia.
Qed.

Lemma pump_step p s t reads bs rest ks w :
  hp w !! p = Some s → sk_reads (ts_socket s) = (t, Z.of_nat (length bs)) :: reads →
  pump (length bs :: ks) p (bs ++ rest) w = (complete_read p Success bs ;; pump ks p rest) w.
Proof. intros Hs Hr. eapply pump_take; [done|exact Hr|lia|lia]. Qed.

(** The two completions that read a frame lead to the message callback. *)
Lemma pump_frame p m s rest ks w :
  hp w !! p = Some s → waiting_header s → msg_ok (ts_msg s) →
  sendable m → checkHeader m = true →
  pump (8 :: Z.to_nat (bodyLength m) :: ks)%nat p (frame m ++ rest) w =
    ((call (ts_messageHandler s) (λ h, run_message h p) ;; TcpSession_read p hdrLength) ≫=
     λ _, pump ks p rest) (upd p (delivered m s) w).
Proof.
  intros Hs Hwh Hok Hm Hc. set (body := take (Z.to_nat (bodyLength m)) (msg_body m)).
  assert (Hbl : Z.of_nat (length body) = bodyLength m).
  { unfold body. rewrite length_take_body by done. destruct Hm. lia. }
  set (m1 := mkMsg (msg_hdr m) (msg_body (ts_msg s))).
  assert (Hn : next_read m1 = (RdBody, Z.of_nat (length body))).
  { unfold next_read. change (checkHeader m1) with (checkHeader m). rewrite Hc, Hbl. f_equal.
    destruct Hm as [_ Hm]. apply wrapU_id. unfold in_u, MAX_CP_MSG_DATA in *. lia. }
  rewrite frame_split, <- app_assoc by apply Hm. fold body.
  rewrite <- (length_bytes_of_hdr (msg_hdr m)) at 1. rewrite <- Hbl, Nat2Z.id.
  erewrite pump_step; [|done|by rewrite length_bytes_of_hdr].
  erewrite bind_ok.
  2:{ eapply complete_header_ok; [done|exact Hwh|]. apply store_header; [apply Hok|].
      apply length_bytes_of_hdr. }
  rewrite hdr_of_bytes_of_hdr by apply Hm. fold m1. rewrite Hn.
  unfold waiting_header in Hwh.
  destruct s as [[] ? ? ? old ? ? ? ? ? ? ? mh]; cbn in Hs, Hwh, Hok; subst.
  erewrite pump_step; [|apply lookup_upd|reflexivity].
  apply bind_cong. erewrite complete_body_ok; [|apply lookup_upd|reflexivity|].
  2:{ apply store_body; [apply Hm|]. destruct Hm as [_ Hm]. lia. }
  by rewrite upd_upd.
Qed.
End Stream.

Definition acceptable (m : Msg) : Prop := sendable m ∧ checkHeader m = true.

#[export] Instance acceptable_dec m : Decision (acceptable m).
Proof. unfold acceptable. apply _. Defined.


(** The session after the callback has queued [q] on it and the next header
    read has been started. *)
Lemma delivered_next m q s :
  sendable m → msg_ok (ts_msg s) →
  let s' := add_read (RdHeader, hdrLength) (pushes q (delivered m s)) in
  waiting_header s' ∧ msg_ok (ts_msg s') ∧ ts_messageHandler s' = ts_messageHandler s ∧
  ts_rx s' = u64 (ts_rx s + msg_length m) ∧ ts_msg s' = received m (ts_msg s).
Proof.
  intros Hm Hok. cbn zeta. unfold waiting_header, add_read.
  pose proof (pushes_proj (λ s, sk_reads (ts_socket s)) q (delivered m s) push_send_reads) as Hr.
  pose proof (pushes_proj ts_msg q (delivered m s) push_send_msg) as Hmsg.
  pose proof (pushes_proj ts_messageHandler q (delivered m s)
    (λ m s, proj2 (proj2 (push_send_handlers m s)))) as Hh.
  pose proof (pushes_proj ts_rx q (delivered m s) push_send_rx) as Hrx.
  destruct (pushes q (delivered m s)) as [[] ? ? ? ? ? ? ? ? ? ? ? ?]; cbn in *.
  destruct s as [[] ? ? ? ? ? ? ? ? ? ? ? ?]; cbn in *. subst.
  split_and!; try done. by apply received_ok.
Qed.

(** The receive loop over a stream of frames, with [I done w] what holds once
    the messages [done] have been delivered. *)
Section Deliver.
Context {W : Type} `{FH : !Field W heap} `{CB : !Callbacks W}.
Context (I : list Msg → W → Prop) (p : ptr) (h : handler) (all : list Msg).
Context (I_deliver : ∀ done m rest old s w,
  all = done ++ m :: rest → I done w → hp w !! p = Some s → msg_ok old →
  ts_msg s = received m old → ts_messageHandler s = Some h →
  ∃ w' q, run_message h p w = Ok tt w' ∧ I (done ++ [m]) w' ∧ hp w' !! p = Some (pushes q s)).
Context (I_upd : ∀ done s s' w,
  I done w → hp w !! p = Some s → ts_id s' = ts_id s → I done (upd p s' w)).

Lemma pump_delivers ms done s w :
  all = done ++ ms → I done w →
  hp w !! p = Some s → waiting_header s → msg_ok (ts_msg s) →
  ts_messageHandler s = Some h → ts_rx s = u64 (ts_rx s) → Forall acceptable ms →
  ∃ w' s', pump (whole_reads ms) p (wire ms) w = Ok [] w' ∧ I all w' ∧
    hp w' !! p = Some s' ∧ waiting_header s' ∧
    ts_rx s' = u64 (ts_rx s + Z.of_nat (length (wire ms))) ∧
    ts_msg s' = foldl (λ old m, received m old) (ts_msg s) ms.
Proof.
  revert done s w. induction ms as [|m ms IH]; intros done s w Hall HI Hs Hwh Hok Hh Hrx Hms.
  - exists w, s. cbn. rewrite Z.add_0_r, Hall, app_nil_r. done.
  - apply Forall_cons in Hms as [[Hm Hc] Hms].
    assert (Hd : ts_msg (delivered m s) = received m (ts_msg s) ∧
                 ts_messageHandler (delivered m s) = Some h ∧ ts_id (delivered m s) = ts_id s)
      by (by destruct s as [[] ? ? ? ? ? ? ? ? ? ? ? ?]).
    destruct Hd as (Hd1 & Hd2 & Hd3).
    destruct (I_deliver done m ms (ts_msg s) (delivered m s) (upd p (delivered m s) w))
      as (w1 & q & Hrun & HI1 & Hs1); [done|by eapply I_upd|apply lookup_upd|done..|].
    destruct (delivered_next m q s Hm Hok) as (Hwh' & Hok' & Hh' & Hrx' & Hmsg').
    set (s2 := add_read (RdHeader, hdrLength) (pushes q (delivered m s))) in *.
    destruct (IH (done ++ [m]) s2 (upd p s2 w1)) as (w' & s' & Hp & Ho & Hl & Hw & Hr & Hlast);
      [by rewrite <- app_assoc|by eapply I_upd|apply lookup_upd|done|done|by rewrite Hh'
      |by rewrite Hrx'; unfold wrapU; rewrite Z.mod_mod|done|].
    exists w', s'. split_and!; try done.
    + change (whole_reads (m :: ms)) with (8 :: Z.to_nat (bodyLength m) :: whole_reads ms)%nat.
      change (wire (m :: ms)) with (frame m ++ wire ms).
      rewrite (pump_frame p m s) by done. rewrite Hh. cbn [call]. rewrite bind_assoc.
      erewrite bind_ok by exact Hrun.
      erewrite bind_ok; [exact Hp|].
      unfold TcpSession_read, async_read_some. by erewrite assign_ok by exact Hs1.
    + rewrite Hr, Hrx', length_wire_cons by done. unfold wrapU.
      rewrite Zplus_mod_idemp_l. f_equal. lia.
    + by rewrite Hlast, Hmsg'.
Qed.
End Deliver.

(** ** Properties *)

Section Theorems.
Context {W : Type} `{FH : !Field W heap} `{CB : !Callbacks W}.

(** C11: the receive path decodes the stream when every read takes all that it
    asked for ([async_read_some] does not promise it: [short_header_read] is what
    happens otherwise).  When the bytes of a sequence of acceptable messages have
    arrived at a session waiting for a header, and its reads complete with eight
    bytes and with the body's length in turn, they consume all of them; the
    message callback runs once per message, in order, each time with exactly that
    message's frame in the object; the session then waits for the next header,
    and [_rx] has advanced by the bytes read, modulo 2^64.  The callback may
    send on the session; [obs] is whatever it records of the frames. *)
Theorem stream_delivery (obs : W → list (list Z)) p h ms s w :
  (∀ s w, hp w !! p = Some s → ∃ w' q, run_message h p w = Ok tt w' ∧
     hp w' !! p = Some (pushes q s) ∧ obs w' = obs w ++ [frame (ts_msg s)]) →
  (∀ s w, obs (upd p s w) = obs w) →
  hp w !! p = Some s → waiting_header s → msg_ok (ts_msg s) →
  ts_messageHandler s = Some h → ts_rx s = u64 (ts_rx s) →
  Forall acceptable ms →
  ∃ w' s', pump (whole_reads ms) p (wire ms) w = Ok [] w' ∧
    obs w' = obs w ++ (frame <$> ms) ∧
    hp w' !! p = Some s' ∧ waiting_header s' ∧
    ts_rx s' = u64 (ts_rx s + Z.of_nat (length (wire ms))).
Proof.
  intros Hcb Hobs Hs Hwh Hok Hh Hrx Hms.
  destruct (pump_delivers (λ done w', obs w' = obs w ++ (frame <$> done)) p h ms) with
    (ms := ms) (done := @nil Msg) (s := s) (w := w) as (w' & s' & Hp & Ho & Hs' & Hwh' & Hrx' & _);
    try done; [..|by rewrite app_nil_r|by exists w', s'].
  - intros done m rest old s1 w1 Hall Ho Hs1 Hold Hm _.
    destruct (Hcb s1 w1 Hs1) as (w2 & q & Hrun & Hs2 & Ho2). exists w2, q. split_and!; try done.
    assert (Hacc : acceptable m).
    { eapply (proj1 (Forall_forall _ ms)); [done|]. rewrite Hall. apply elem_of_app. right. by left. }
    rewrite Ho2, Ho, Hm, frame_received by apply Hacc. by rewrite fmap_app, <- app_assoc.
  - intros done s1 s1' w1 Ho _ _. by rewrite Hobs.
Qed.

(** a peer that disconnects between messages is never reported.  When the
    outstanding read is the header read and it fails with any error, the
    handler only logs: neither the close callback nor any other code runs, the
    only change is that the session has no read outstanding any more. *)
Theorem header_error_not_reported p s ec w :
  hp w !! p = Some s → waiting_header s → msg_ok (ts_msg s) → is_error ec = true →
  complete_read p ec [] w =
    Ok tt (upd p (set_socket (sk_set_reads (λ _, [])) s) w).
Proof.
  intros Hs Hwh Hok He. erewrite header_error_ok by done. do 2 f_equal.
  unfold took_read, waiting_header in *. destruct s as [[] ? ? ? ? ? ? ? ? ? ? ? ?]; cbn in *.
  by subst.
Qed.

(** an error while a body is awaited runs the close callback once, with
    [Disconnected] exactly for end-of-file and aborted operations, and starts
    no further read. *)
Theorem body_error_closes p s ec h w :
  hp w !! p = Some s → waiting_body s → msg_ok (ts_msg s) → is_error ec = true →
  ts_closedHandler s = Some h →
  complete_read p ec [] w =
    run_closed h p (if decide (ec = Error_eof ∨ ec = Error_operation_aborted)
                    then Disconnected else ActiveClose)
      (upd p (set_socket (sk_set_reads (λ _, [])) s) w).
Proof.
  intros Hs Hwb Hok He Hh. erewrite body_error_ok by done. rewrite Hh. cbn [call].
  unfold took_read, waiting_body in *. destruct s as [[] ? ? ? ? ? ? ? ? ? ? ? ?]; cbn in *.
  subst. by destruct ec.
Qed.

(** C32: the size of the body read is safe exactly for non-negative lengths.
    After a complete accepted header the session asks for [bodyLength] bytes
    converted to [size_t]: at most the 1024 of the body when the length is not
    negative, and then every completion asio may deliver is in bounds; more
    than 2^63 when it is negative, and then the peer can make asio store past
    the end of the session's message object. *)
Theorem body_read_bounds p s hb w :
  hp w !! p = Some s → waiting_header s → msg_ok (ts_msg s) →
  Forall byte_ok hb → length hb = 8%nat → checkHeader (mkMsg (hdr_of_bytes hb) (msg_body (ts_msg s))) = true →
  let n := hdr_bodyLength (hdr_of_bytes hb) in
  ∃ s', complete_read p Success hb w = Ok tt (upd p s' w) ∧
    sk_reads (ts_socket s') = [(RdBody, size_t n)] ∧
    (0 <= n → size_t n <= MAX_CP_MSG_DATA ∧
       ∀ bs, Z.of_nat (length bs) <= size_t n → ∃ m, store (rd_offset RdBody) bs (ts_msg s') = Val m) ∧
    (n < 0 → 2 ^ 63 < size_t n ∧
       ∃ bs, read_completion (ts_socket s') Success bs ∧
         complete_read p Success bs (upd p s' w) = Undef UB_buffer_overflow).
Proof.
  intros Hs Hwh Hok Hhb Hlen Hc n.
  set (m1 := mkMsg (hdr_of_bytes hb) (msg_body (ts_msg s))) in *.
  assert (Hm1 : msg_ok m1) by (split; [by apply hdr_of_bytes_ok | apply Hok]).
  assert (Hn : in_s 16 n) by (destruct Hm1 as [(_ & _ & Hn & _) _]; exact Hn).
  assert (Hmax : n <= MAX_CP_MSG_DATA) by (by apply (checkHeader_accepts m1)).
  set (s1 := add_read (next_read m1) (took_read m1 s)).
  assert (Hr : sk_reads (ts_socket s1) = [(RdBody, size_t n)]).
  { unfold s1, next_read. rewrite Hc. unfold waiting_header in Hwh.
    destruct s as [[] ? ? ? ? ? ? ? ? ? ? ? ?]; cbn in *. by subst. }
  assert (Hmsg : ts_msg s1 = m1) by (unfold s1; by destruct s).
  exists s1. split_and!; [|done| |].
  - eapply complete_header_ok; [done|exact Hwh|]. by apply store_header; [apply Hok|].
  - unfold in_s, MAX_CP_MSG_DATA in *. intros Hsign.
    rewrite wrapU_id by (unfold in_u; lia). split; [done|]. intros bs Hbs.
    rewrite Hmsg. eexists. apply store_body; [apply Hm1|]. unfold MAX_CP_MSG_DATA. lia.
  - unfold in_s in *. intros Hsign. assert (2 ^ 63 < size_t n).
    { unfold wrapU. rewrite <- (Z_mod_plus_full n 1), Z.mod_small; lia. }
    split; [done|]. exists (replicate 1025 0). split.
    + exists RdBody, (size_t n), []. rewrite Hr. split_and!; [done| | |done|done].
      * apply Forall_replicate. unfold byte_ok. lia.
      * rewrite length_replicate. lia.
    + unfold complete_read. sess_run. rewrite Hr, Hmsg. cbn [rd_offset]. unfold store.
      by rewrite length_replicate.
Qed.

(** the byte count of a header read is ignored.  [async_read_some] may
    return fewer than the eight bytes asked for; the handler then takes the
    received bytes completed by the bytes of the previous header as a whole
    header, and goes on with the body (or skips it) accordingly. *)
Theorem short_header_read p s bs w :
  hp w !! p = Some s → waiting_header s → msg_ok (ts_msg s) →
  (0 < length bs < 8)%nat →
  let mixed := bs ++ drop (length bs) (bytes_of_hdr (msg_hdr (ts_msg s))) in
  ∃ s', complete_read p Success bs w = Ok tt (upd p s' w) ∧
    ts_msg s' = mkMsg (hdr_of_bytes mixed) (msg_body (ts_msg s)) ∧
    sk_reads (ts_socket s') =
      [if checkHeader (ts_msg s') then (RdBody, size_t (bodyLength (ts_msg s')))
       else (RdHeader, hdrLength)].
Proof.
  intros Hs Hwh Hok Hlen mixed. set (m1 := mkMsg (hdr_of_bytes mixed) (msg_body (ts_msg s))).
  exists (add_read (next_read m1) (took_read m1 s)).
  assert (Hmsg : ts_msg (add_read (next_read m1) (took_read m1 s)) = m1) by (by destruct s).
  rewrite Hmsg. split_and!; [|done|].
  - eapply complete_header_ok; [done|exact Hwh|]. apply store_header_short; [apply Hok|lia].
  - unfold waiting_header in Hwh. unfold next_read.
    destruct s as [[] ? ? ? ? ? ? ? ? ? ? ? ?]; cbn in *. by subst.
Qed.

(** The first half of one header completed by the second half of another. *)
Lemma mixed_header h h' :
  hdr_ok h → hdr_ok h' →
  hdr_of_bytes (take 4 (bytes_of_hdr h) ++ drop 4 (bytes_of_hdr h')) =
    mkHdr (hdr_version h) (hdr_result h) (hdr_bodyLength h) (hdr_msgId h').
Proof.
  intros (? & ? & ? & _) (_ & _ & _ & ?). rewrite <- (hdr_of_bytes_of_hdr (mkHdr _ _ _ _)) by by split_and!.
  reflexivity.
Qed.

(** C23: what one short read does to the stream.  When the first read of a frame takes
    four of the eight header bytes ([async_read_some] may), the session takes
    them for a whole header, completed by the message id of the frame before;
    the body read that follows takes the four bytes of the new id for the
    beginning of the text, and the message callback is given that message.  The
    last four bytes of the frame stay in the stream, where the next header is
    looked for. *)
Theorem short_read_misframes p m s rest w :
  hp w !! p = Some s → waiting_header s → msg_ok (ts_msg s) → acceptable m → 4 <= bodyLength m →
  let mixed := mkHdr (hdr_version (msg_hdr m)) (hdr_result (msg_hdr m)) (bodyLength m) (hdr_msgId (msg_hdr (ts_msg s))) in
  let len := Z.to_nat (bodyLength m) in
  ∃ s1, ts_msg s1 = mkMsg mixed (splice 0 (take len (drop 4 (frame m))) (msg_body (ts_msg s))) ∧
    sk_reads (ts_socket s1) = [] ∧
    pump [4; len]%nat p (frame m ++ rest) w =
      ((call (ts_messageHandler s) (λ h, run_message h p) ;; TcpSession_read p hdrLength) ;;
       mret (drop (4 + len) (frame m) ++ rest)) (upd p s1 w).
Proof.
  intros Hs Hwh Hok [Hm Hc] H4 mixed len. pose proof Hm as [[Hh Hb] Hl]. pose proof Hok as [Hoh Hob].
  set (b4 := take 4 (frame m)). set (bl := take len (drop 4 (frame m))).
  assert (Hlf : length (frame m) = (8 + len)%nat).
  { rewrite frame_split, length_app, length_bytes_of_hdr, length_take_body by (done || lia). done. }
  assert (H4l : length b4 = 4%nat) by (unfold b4; rewrite length_take; lia).
  assert (Hbl : length bl = len) by (unfold bl; rewrite length_take, length_drop; lia).
  assert (Eb : frame m ++ rest = b4 ++ bl ++ drop (4 + len) (frame m) ++ rest).
  { unfold b4, bl. by rewrite <- drop_drop, !app_assoc, <- (app_assoc (take 4 _)), !take_drop. }
  assert (E4 : hdr_of_bytes (b4 ++ drop 4 (bytes_of_hdr (msg_hdr (ts_msg s)))) = mixed).
  { unfold b4. rewrite frame_split, take_app_le by (rewrite ?length_bytes_of_hdr; lia). by apply mixed_header. }
  set (m1 := mkMsg mixed (msg_body (ts_msg s))).
  assert (Hn : next_read m1 = (RdBody, Z.of_nat (length bl))).
  { unfold next_read. change (checkHeader m1) with (checkHeader m). rewrite Hc, Hbl. f_equal.
    change (bodyLength m1) with (bodyLength m). unfold len. rewrite Z2Nat.id by lia. apply wrapU_id. unfold in_u, MAX_CP_MSG_DATA in *. lia. }
  exists (set_rx (λ rx, u64 (rx + msg_length (mkMsg mixed (splice 0 bl (msg_body (ts_msg s))))))
    (set_msg (mkMsg mixed (splice 0 bl (msg_body (ts_msg s)))) (set_socket (sk_set_reads (λ _, [])) s))).
  split; [by destruct s as [[] ? ? ? ? ? ? ? ? ? ? ? ?]|]. split; [by destruct s as [[] ? ? ? ? ? ? ? ? ? ? ? ?]|].
  rewrite Eb. rewrite <- H4l at 1. rewrite <- Hbl at 1.
  erewrite pump_take; [|done|exact Hwh|lia|unfold hdrLength; lia].
  erewrite bind_ok.
  2:{ eapply complete_header_ok; [done|exact Hwh|]. rewrite store_header_short by (apply Hob || lia). by rewrite H4l, E4. }
  fold m1. rewrite Hn. unfold waiting_header in Hwh.
  destruct s as [[] ? ? ? old ? ? ? ? ? ? ? mh]; cbn in Hwh, Hoh, Hob; subst sk_reads.
  erewrite pump_step; [|apply lookup_upd|reflexivity].
  apply bind_cong. erewrite complete_body_ok; [|apply lookup_upd|reflexivity|].
  2:{ apply store_body; [by split_and!; [apply Hh..|apply Hoh]|lia]. }
  by rewrite upd_upd.
Qed.

End Theorems.

(** ** Instances at concrete inputs *)

Definition waiting (m : Msg) : TcpSession :=
  set_msg m (demo_session (mkSocket true true true 0 [(RdHeader, 8)] [] []) []).
Definition waiting_for_body : TcpSession :=
  set_msg hello (demo_session (mkSocket true true true 0 [(RdBody, 3)] [] []) []).

Lemma demo_msg_ok : msg_ok (demo_msg 0 []).
Proof. apply (bool_decide_unpack _). vm_compute. exact I. Qed.
Lemma hello_acceptable : acceptable hello.
Proof. apply (bool_decide_unpack _). vm_compute. exact I. Qed.
Lemma bye_acceptable : acceptable bye.
Proof. apply (bool_decide_unpack _). vm_compute. exact I. Qed.

(** A process that records the frames its message callback is given. *)
Definition recorder : Type := heap * list (list Z).
#[program] Definition recorder_heap : Field recorder heap :=
  {| fget w := w.1; fset x w := (x, w.2) |}.
Solve All Obligations with (try by intros; destruct w).
Definition record_frame (p : ptr) : M recorder unit :=
  modify (λ w, match w.1 !! p with Some s => (w.1, w.2 ++ [frame (ts_msg s)]) | None => w end).
Definition recorder_callbacks : Callbacks recorder :=
  {| run_opened _ _ := mret tt; run_closed _ _ _ := mret tt; run_message _ p := record_frame p |}.

Lemma stream_delivery_witness :
  ∃ w', @pump recorder recorder_heap recorder_callbacks [8; 3; 8; 2]%nat 1%nat (wire [hello; bye])
          ({[1%nat := waiting (demo_msg 0 [])]}, []) = Ok [] w' ∧
        w'.2 = [[1; 0; 3; 0; 3; 0; 0; 0; 104; 105; 0]; [1; 0; 2; 0; 3; 0; 0; 0; 98; 0]].
Proof.
  destruct (@stream_delivery recorder recorder_heap recorder_callbacks snd 1%nat
    ChatServer_message [hello; bye] (waiting (demo_msg 0 []))
    ({[1%nat := waiting (demo_msg 0 [])]}, [])) as (w' & s' & Hp & Ho & _).
  - intros s w Hs. exists (w.1, w.2 ++ [frame (ts_msg s)]), []. cbn in *.
    unfold record_frame, modify. rewrite Hs. split_and!; reflexivity.
  - reflexivity.
  - reflexivity.
  - reflexivity.
  - exact demo_msg_ok.
  - reflexivity.
  - reflexivity.
  - exact (Forall_cons_2 _ _ _ hello_acceptable (Forall_cons_2 _ _ _ bye_acceptable (Forall_nil_2 _))).
  - exists w'. split; [exact Hp|]. rewrite Ho. vm_compute. reflexivity.
Defined.

Lemma header_error_not_reported_witness :
  @complete_read heap heap_self quiet 1%nat Error_eof [] {[1%nat := waiting (demo_msg 0 [])]} =
  Ok tt (@upd heap heap_self 1%nat
    (set_socket (sk_set_reads (λ _, [])) (waiting (demo_msg 0 []))) {[1%nat := waiting (demo_msg 0 [])]}).
Proof.
  apply (@header_error_not_reported heap heap_self quiet); try reflexivity. exact demo_msg_ok.
Defined.

Lemma body_error_closes_witness :
  @complete_read heap heap_self quiet 1%nat Error_eof [] {[1%nat := waiting_for_body]} =
  @run_closed heap quiet TcpServer_handleClose 1%nat Disconnected
    (@upd heap heap_self 1%nat (set_socket (sk_set_reads (λ _, [])) waiting_for_body)
       {[1%nat := waiting_for_body]}).
Proof.
  apply (@body_error_closes heap heap_self quiet 1%nat waiting_for_body Error_eof TcpServer_handleClose);
    try reflexivity. exact (proj1 (proj1 hello_acceptable)).
Defined.

Lemma body_read_bounds_witness :
  ∃ s' bs, @complete_read heap heap_self quiet 1%nat Success [1; 0; 255; 255; 3; 0; 0; 0]
          {[1%nat := waiting (demo_msg 0 [])]} =
        Ok tt (@upd heap heap_self 1%nat s' {[1%nat := waiting (demo_msg 0 [])]}) ∧
    read_completion (ts_socket s') Success bs ∧
    @complete_read heap heap_self quiet 1%nat Success bs
      (@upd heap heap_self 1%nat s' {[1%nat := waiting (demo_msg 0 [])]}) = Undef UB_buffer_overflow.
Proof.
  destruct (@body_read_bounds heap heap_self quiet 1%nat (waiting (demo_msg 0 []))
    [1; 0; 255; 255; 3; 0; 0; 0] {[1%nat := waiting (demo_msg 0 [])]}) as (s' & Hr & _ & _ & Hneg).
  - reflexivity.
  - reflexivity.
  - exact demo_msg_ok.
  - apply (bool_decide_unpack _). vm_compute. exact I.
  - reflexivity.
  - reflexivity.
  - destruct Hneg as (_ & bs & Hc & Hu); [vm_compute; reflexivity|]. exists s', bs. auto.
Defined.

(** The second frame of [hello] arrives split after its first byte: the session
    asks for a three-byte body although seven header bytes are still to come. *)
Lemma short_header_read_witness :
  ∃ s', @complete_read heap heap_self quiet 1%nat Success [1] {[1%nat := waiting hello]} =
        Ok tt (@upd heap heap_self 1%nat s' {[1%nat := waiting hello]}) ∧
        sk_reads (ts_socket s') = [(RdBody, 3)].
Proof.
  destruct (@short_header_read heap heap_self quiet 1%nat (waiting hello) [1]
    {[1%nat := waiting hello]}) as (s' & Hr & Hm & Hrd).
  - reflexivity.
  - reflexivity.
  - exact (proj1 (proj1 hello_acceptable)).
  - cbn; lia.
  - exists s'. split; [exact Hr|]. rewrite Hrd, Hm. vm_compute. reflexivity.
Defined.

(** A message with id 7 and five body bytes after [hello], which had id 3. *)
Definition seven : Msg := mkMsg (mkHdr 1 0 5 7) ([104; 101; 121; 33; 0] ++ replicate 1019 0).

Lemma short_read_misframes_witness :
  ∃ s1, frame (ts_msg s1) = [1; 0; 5; 0; 3; 0; 0; 0; 7; 0; 0; 0; 104] ∧
    @pump recorder recorder_heap recorder_callbacks [4; 5]%nat 1%nat (frame seven) ({[1%nat := waiting hello]}, []) =
      ((record_frame 1%nat ;; @TcpSession_read recorder recorder_heap 1%nat hdrLength) ;; mret [101; 121; 33; 0])
        (@upd recorder recorder_heap 1%nat s1 ({[1%nat := waiting hello]}, [])).
Proof.
  destruct (@short_read_misframes recorder recorder_heap recorder_callbacks 1%nat seven (waiting hello) []
    ({[1%nat := waiting hello]}, [])) as (s1 & Hm & _ & Hp).
  - reflexivity.
  - reflexivity.
  - exact (proj1 (proj1 hello_acceptable)).
  - apply (bool_decide_unpack _). vm_compute. exact I.
  - vm_compute. discriminate.
  - exists s1. rewrite Hm. split; [vm_compute; reflexivity|]. rewrite app_nil_r in Hp. exact Hp.
Defined.
