(* ===== verification/ByteStream.v ===== *)
(** * Sessions at the two ends of a byte stream

    What a session that sends and a session that receives have to do with the
    messages that travel between them, whatever the completions of their reads
    and writes are interleaved with: [out_sync] for the sending end, [in_sync]
    for the receiving end, and that every completion keeps them, in any process
    whose callbacks do nothing but send ([Endpoint]). *)
From S2P Require Import Prelude Msg Session TcpSession TcpSend TcpRecv.

(** The members the two paths use (and the id, which no path changes). *)
Definition tx_part (s : TcpSession) : list Msg * list Z * list Z * Z :=
  (ts_sendQue s, sk_writes (ts_socket s), sk_out (ts_socket s), ts_id s).
Definition rx_part (s : TcpSession) : list (rd_target * Z) * Msg * nat :=
  (sk_reads (ts_socket s), ts_msg s, sk_connects (ts_socket s)).

Lemma push_send_rx_part m s : rx_part (push_send m s) = rx_part s.
Proof. unfold rx_part, push_send. destruct s as [[] ? ? ? ? ? ? ? ? ? ? ? ?]; cbn. by case_bool_decide. Qed.
Lemma pushes_rx_part ms s : rx_part (pushes ms s) = rx_part s.
Proof. apply (pushes_proj rx_part), push_send_rx_part. Qed.

(** Members that agree before several sends agree after them. *)
Lemma pushes_tx_part ms s s' : tx_part s = tx_part s' → tx_part (pushes ms s) = tx_part (pushes ms s').
Proof.
  revert s s'. induction ms as [|m ms IH]; intros s s' E; [done|].
  apply (IH (push_send m s)). unfold tx_part in *. injection E as Eq Ew Eo Ei.
  unfold push_send. destruct s as [[] ? ? ? ? ? ? ? ? ? ? ? ?], s' as [[] ? ? ? ? ? ? ? ? ? ? ? ?]; cbn in *.
  subst. by case_bool_decide.
Qed.

(** ** The sending end

    [all]: the messages ever queued.  Either the session is in order and has
    handed complete frames to the network, or a write has failed: the front
    message was sent in part and nothing more will be. *)
Definition out_sync (all : list Msg) (s : TcpSession) : Prop :=
  ∃ sent, all = sent ++ ts_sendQue s ∧
    (tx_ok s ∧ sk_out (ts_socket s) = wire sent ∨
     sk_writes (ts_socket s) = [] ∧ ∃ m q n,
       ts_sendQue s = m :: q ∧ sk_out (ts_socket s) = wire sent ++ take n (frame m)).

Lemma out_sync_part all s s' : tx_part s = tx_part s' → out_sync all s → out_sync all s'.
Proof.
  unfold tx_part, out_sync, tx_ok. intros [= Eq Ew Eo _]. by rewrite Eq, Ew, Eo.
Qed.

Lemma out_sync_prefix all s : out_sync all s → sk_out (ts_socket s) `prefix_of` wire all.
Proof.
  intros (sent & -> & [[_ ->]|(_ & m & q & n & -> & ->)]); rewrite wire_app.
  - by apply prefix_app_r.
  - apply prefix_app. apply prefix_app_r. apply prefix_take.
Qed.

Lemma out_sync_push all m s : out_sync all s → out_sync (all ++ [m]) (push_send m s).
Proof.
  intros (sent & -> & H). exists sent. rewrite push_send_queue, push_send_out, app_assoc. split; [done|].
  destruct H as [[Htx ->]|(Hw & m' & q & n & Hq & Ho)].
  - left. split; [by apply push_send_tx_ok|done].
  - right. split.
    + unfold push_send. rewrite bool_decide_eq_false_2 by by rewrite Hq. by destruct s.
    + exists m', (q ++ [m]), n. by rewrite Hq.
Qed.

Lemma out_sync_pushes all ms s : out_sync all s → out_sync (all ++ ms) (pushes ms s).
Proof.
  revert all s. induction ms as [|m ms IH]; intros all s H; [by rewrite app_nil_r|].
  rewrite (cons_middle m all ms), app_assoc. by apply (IH (all ++ [m]) (push_send m s)), out_sync_push.
Qed.

Lemma out_sync_written all s :
  out_sync all s → sk_writes (ts_socket s) ≠ [] → out_sync all (pop_write s).
Proof.
  intros (sent & -> & [[Htx Ho]|[Hw _]]) Hne; [|done].
  assert (Htx' : tx_ok (pop_write s)) by by apply pop_write_tx_ok.
  unfold out_sync. revert Htx'. unfold tx_ok in Htx. unfold pop_write.
  destruct s as [[] ? ? ? ? [|m q] ? ? ? ? ? ? ?]; cbn in *; [by subst|]. intros Htx'.
  exists (sent ++ [m]). rewrite <- app_assoc. split; [done|]. left. split; [done|].
  rewrite Ho, wire_app. unfold wire at 3. cbn. by rewrite app_nil_r.
Qed.

Lemma out_sync_failed all s m q n :
  out_sync all s → ts_sendQue s = m :: q → sk_writes (ts_socket s) ≠ [] →
  out_sync all (write_failed (take n (frame m)) s).
Proof.
  intros (sent & -> & [[Htx Ho]|[Hw _]]) Hq Hne; [|done].
  exists sent. unfold tx_ok in Htx. rewrite Hq in *.
  destruct s as [[] ? ? ? ? ? ? ? ? ? ? ? ?]; cbn in *. subst. split; [done|]. right. split; [done|].
  by exists m, q, n.
Qed.

Lemma wire_bytes all : Forall sendable all → Forall byte_ok (wire all).
Proof.
  intros Hall. apply Forall_concat, Forall_fmap. eapply Forall_impl; [exact Hall|]. intros m [[_ Hb] _]. cbn.
  by apply Forall_take, bytes_of_msg_bytes.
Qed.

Lemma out_sync_bytes all s : out_sync all s → Forall sendable all → Forall byte_ok (sk_out (ts_socket s)).
Proof.
  intros [t E]%out_sync_prefix Hall%wire_bytes. rewrite E in Hall. by apply Forall_app in Hall as [? _].
Qed.

(** ** The receiving end *)

(** The message object [g] the callback was given when [m] had been read: the
    frame of [m] over what the object held before. *)
Definition arrived (g m : Msg) : Prop := ∃ old, msg_ok old ∧ g = received m old.

Lemma arrived_frame g m : sendable m → arrived g m → frame g = frame m ∧ msg_hdr g = msg_hdr m.
Proof. intros Hm (old & _ & ->). by rewrite frame_received. Qed.
Lemma arrived_acceptable g m : acceptable m → arrived g m → acceptable g.
Proof. intros [Hm Hc] (old & Hold & ->). split; [by apply sendable_received|exact Hc]. Qed.
Lemma arrived_all gs ms : Forall acceptable ms → Forall2 arrived gs ms → Forall acceptable gs.
Proof.
  intros Hms Ha. induction Ha as [|g m gs ms Hg _ IH]; [done|]. apply Forall_cons in Hms as [Hm Hms].
  constructor; [by eapply arrived_acceptable|by apply IH].
Qed.
Lemma arrived_elem g gs ms : Forall2 arrived gs ms → g ∈ gs → ∃ m, m ∈ ms ∧ arrived g m.
Proof.
  intros Ha [i Hi]%list_elem_of_lookup. destruct (Forall2_lookup_l _ _ _ _ _ Ha Hi) as (m & Hm & H).
  exists m. split; [by eapply list_elem_of_lookup_2|done].
Qed.

(** *** The state of the session

    [all]: the messages on their way; [k]: how many of their bytes have been
    read; [got]: what the message callback has been given.  The session is
    between two frames, or between a header and its body, or will read nothing
    (any more, or before it is connected). *)
Definition in_sync (all : list Msg) (k : nat) (got : list Msg) (s : TcpSession) : Prop :=
  msg_ok (ts_msg s) ∧
  (sk_connects (ts_socket s) = 0%nat ∨
   sk_connects (ts_socket s) = 1%nat ∧ sk_reads (ts_socket s) = [] ∧ k = 0%nat ∧ got = []) ∧
  ∃ past rest, all = past ++ rest ∧ Forall2 arrived got past ∧
    (waiting_header s ∧ k = length (wire past) ∨
     (∃ m rest', rest = m :: rest' ∧ sk_reads (ts_socket s) = [(RdBody, bodyLength m)] ∧
        msg_hdr (ts_msg s) = msg_hdr m ∧ k = (length (wire past) + 8)%nat) ∨
     sk_reads (ts_socket s) = []).

Lemma in_sync_part all k got s s' : rx_part s = rx_part s' → in_sync all k got s → in_sync all k got s'.
Proof. unfold rx_part, in_sync, waiting_header. intros [= Er Em Ec]. by rewrite Er, Em, Ec. Qed.

Lemma in_sync_more all ms k got s : in_sync all k got s → in_sync (all ++ ms) k got s.
Proof.
  intros (Hm & Hc & past & rest & -> & Hg & H). split_and!; [done..|]. exists past, (rest ++ ms).
  rewrite app_assoc. split_and!; [done..|].
  destruct H as [?|[(m & rest' & -> & ?)|?]]; [by left| |by right; right].
  right; left. by exists m, (rest' ++ ms).
Qed.

Lemma in_sync_got all k got s :
  in_sync all k got s → ∃ past rest, all = past ++ rest ∧ Forall2 arrived got past.
Proof. intros (_ & _ & past & rest & -> & Hg & _). by exists past, rest. Qed.

(** The bytes the oldest read takes when all it asked for has arrived. *)
Definition arriving (stream : list Z) (k : nat) (s : TcpSession) : option (list Z) :=
  match sk_reads (ts_socket s) with
  | [] => None
  | (_, size) :: _ =>
      let bs := take (Z.to_nat size) (drop k stream) in
      if Z.of_nat (length bs) =? size then Some bs else None
  end.

(** What a completed read gives the message callback. *)
Definition message_of (s : TcpSession) (ec : error_code) (bs : list Z) : list Msg :=
  match sk_reads (ts_socket s) with
  | (RdBody, _) :: _ =>
      if is_error ec then []
      else match store hdrLength bs (ts_msg s) with Val m => [m] | Bad _ => [] end
  | _ => []
  end.

(** The stream's next bytes are those of the messages that are still to come. *)
Lemma take_prefix_drop (l l' : list Z) k n :
  l `prefix_of` l' → (n ≤ length (drop k l))%nat → take n (drop k l) = take n (drop k l').
Proof.
  intros [t ->] Hn. rewrite length_drop in Hn. destruct (decide (n = 0%nat)) as [->|]; [done|].
  rewrite drop_app_le by lia. rewrite take_app_le; [done|]. rewrite length_drop. lia.
Qed.

Lemma arriving_spec stream all k s t size rest bs :
  stream `prefix_of` wire all → sk_reads (ts_socket s) = (t, size) :: rest → 0 <= size →
  arriving stream k s = Some bs →
  bs = take (Z.to_nat size) (drop k (wire all)) ∧ Z.of_nat (length bs) = size.
Proof.
  intros Hp Hr Hs. unfold arriving. rewrite Hr.
  destruct (Z.eqb_spec (Z.of_nat (length (take (Z.to_nat size) (drop k stream)))) size) as [E|]; [|done].
  intros [= <-]. rewrite length_take in E. assert (Hn : (Z.to_nat size ≤ length (drop k stream))%nat) by lia.
  split; [by apply take_prefix_drop|rewrite length_take; lia].
Qed.

(** A header read in order: its bytes are the header of the next message. *)
Lemma header_arrives stream all k got s bs :
  in_sync all k got s → Forall acceptable all → stream `prefix_of` wire all →
  waiting_header s → arriving stream k s = Some bs →
  ∃ m, store 0 bs (ts_msg s) = Val m ∧ Forall byte_ok bs ∧ length bs = 8%nat ∧
    in_sync all (k + length bs) got (add_read (next_read m) (took_read m s)).
Proof.
  intros (Hok & Hc & past & rest & Hall & Hg & H) Hacc Hp Hwh Harr.
  destruct (arriving_spec stream all k s RdHeader hdrLength [] bs Hp Hwh ltac:(done) Harr) as [Hbs Hl].
  assert (Hk' : k = length (wire past)).
  { unfold waiting_header in Hwh. destruct H as [[_ ->]|[(m & ? & _ & Hr & _)|Hr]]; [done|..]; by rewrite Hwh in Hr. }
  assert (Hlen : length bs = 8%nat) by (unfold hdrLength in Hl; lia).
  rewrite Hk', Hall, wire_app, drop_app_length in Hbs. destruct rest as [|m rest].
  { change (wire []) with (@nil Z) in Hbs. rewrite take_nil in Hbs. by rewrite Hbs in Hlen. }
  assert (Hm : acceptable m) by (rewrite Hall in Hacc; apply Forall_app in Hacc as [_ Hacc]; by inversion Hacc).
  destruct Hm as [Hm Hch]. pose proof Hm as [[Hh _] Hb].
  assert (Ebs : bs = bytes_of_hdr (msg_hdr m)).
  { rewrite Hbs. change (wire (m :: rest)) with (frame m ++ wire rest).
    rewrite frame_split, <- app_assoc by lia. apply take_app_length'. by rewrite length_bytes_of_hdr. }
  exists (mkMsg (msg_hdr m) (msg_body (ts_msg s))). split_and!; [|rewrite Ebs; apply bytes_of_hdr_bytes|done|].
  { rewrite Ebs. rewrite store_header by (apply Hok || apply length_bytes_of_hdr). by rewrite hdr_of_bytes_of_hdr. }
  unfold waiting_header in Hwh. unfold in_sync, add_read, took_read.
  destruct s as [[] ? ? ? old ? ? ? ? ? ? ? ?]; cbn in *. subst sk_reads. cbn. split_and!.
  - split; [done|apply Hok].
  - destruct Hc as [?|(_ & [=] & _)]. by left.
  - exists past, (m :: rest). split_and!; [done..|]. right; left. exists m, rest. split_and!; [done| |done|lia].
    unfold next_read. change (checkHeader (mkMsg _ _)) with (checkHeader m). rewrite Hch.
    change (bodyLength (mkMsg _ _)) with (bodyLength m). do 2 f_equal.
    apply wrapU_id. unfold in_u, MAX_CP_MSG_DATA in *. lia.
Qed.

(** A body read in order: the message is complete. *)
Lemma body_arrives stream all k got s size reads bs :
  in_sync all k got s → Forall acceptable all → stream `prefix_of` wire all →
  sk_reads (ts_socket s) = (RdBody, size) :: reads → arriving stream k s = Some bs →
  ∃ m0 m, m0 ∈ all ∧ m = received m0 (ts_msg s) ∧
    store hdrLength bs (ts_msg s) = Val m ∧ Forall byte_ok bs ∧
    ∀ s', rx_part s' = ([(RdHeader, hdrLength)], m, sk_connects (ts_socket s)) →
      in_sync all (k + length bs) (got ++ [m]) s'.
Proof.
  intros (Hok & Hc & past & rest & Hall & Hg & H) Hacc Hp Hr Harr.
  destruct H as [[Hwh _]|[(m0 & rest' & -> & Hr' & Hhdr & Hk)|Hr']]; [unfold waiting_header in Hwh; by rewrite Hwh in Hr| |by rewrite Hr' in Hr].
  rewrite Hr' in Hr. injection Hr as <- <-.
  assert (Hm : acceptable m0) by (rewrite Hall in Hacc; apply Forall_app in Hacc as [_ Hacc]; by inversion Hacc).
  destruct Hm as [Hm _]. pose proof Hm as [_ Hb].
  destruct (arriving_spec stream all k s RdBody (bodyLength m0) [] bs Hp Hr' ltac:(lia) Harr) as [Hbs Hl].
  assert (Ebs : bs = take (Z.to_nat (bodyLength m0)) (msg_body m0)).
  { rewrite Hbs, Hk, Hall, wire_app, drop_app, drop_ge, app_nil_l by lia.
    replace (length (wire past) + 8 - length (wire past))%nat with 8%nat by lia.
    change (wire (m0 :: rest')) with (frame m0 ++ wire rest').
    rewrite frame_split, <- app_assoc by lia. rewrite drop_app_length' by by rewrite length_bytes_of_hdr.
    apply take_app_length'. by rewrite length_take_body. }
  exists m0, (received m0 (ts_msg s)). split_and!.
  - rewrite Hall. apply elem_of_app. right. by left.
  - done.
  - change hdrLength with 8. rewrite store_body by (apply Hok || (rewrite Ebs, length_take_body; [lia|done])).
    unfold received. by rewrite Ebs, Hhdr.
  - rewrite Ebs. apply Forall_take, Hm.
  - intros s' E. unfold rx_part in E. injection E as E1 E2 E3. split_and!.
    + rewrite E2. by apply received_ok.
    + left. rewrite E3. destruct Hc as [?|(_ & Hc & _)]; [done|]. by rewrite Hc in Hr'.
    + exists (past ++ [m0]), rest'. rewrite <- app_assoc. split_and!; [done| |].
      { apply Forall2_app; [done|]. constructor; [by exists (ts_msg s)|constructor]. }
      left. split; [by unfold waiting_header|].
      rewrite Hk, Ebs, wire_app, length_app, length_take_body by done.
      pose proof (length_wire_cons m0 [] Hm) as Hlw. unfold wire in Hlw at 2. cbn [fmap list_fmap concat length] in Hlw.
      unfold msg_length, hdrLength in Hlw. unfold bodyLength in *. lia.
Qed.

(** A read that failed: nothing more will be read. *)
Lemma read_fails all k got s s' :
  in_sync all k got s → sk_reads (ts_socket s) ≠ [] → rx_part s' = ([], ts_msg s, sk_connects (ts_socket s)) →
  in_sync all k got s'.
Proof.
  intros (Hok & Hc & past & rest & Hall & Hg & _) Hne E. unfold rx_part in E. injection E as E1 E2 E3.
  split_and!; [by rewrite E2|left; rewrite E3; by destruct Hc as [?|(_ & ? & _)]|].
  exists past, rest. auto.
Qed.

(** ** Processes that only send

    What the callbacks of the chat server and of its client have in common: they
    may queue messages (only those with [may_send]), and leave the sessions
    alone otherwise. *)
Definition only_pushes {W} `{FH : !Field W heap} (may_send : Msg → Prop) (w w' : W) : Prop :=
  ∀ q, ∃ ms, Forall may_send ms ∧ hp w' !! q = pushes ms <$> hp w !! q.

Class Endpoint (W : Type) `{FH : !Field W heap} (CB : Callbacks W) (may_send : Msg → Prop) : Prop := {
  opened_quiet h p w w' : run_opened h p w = Ok tt w' → hp w' = hp w;
  closed_quiet h p r w w' : run_closed h p r w = Ok tt w' → hp w' = hp w;
  message_pushes h p w w' : run_message h p w = Ok tt w' → only_pushes may_send w w'
}.

(** An event of session [p] came between the two states: any session may have
    been sent messages, and only [p] has read. *)
Definition moved {W} `{FH : !Field W heap} (may_send : Msg → Prop) (p : ptr) (w w' : W) : Prop :=
  dom (hp w') = dom (hp w) ∧
  ∀ q s s', hp w !! q = Some s → hp w' !! q = Some s' →
    (∃ ms, Forall may_send ms ∧ tx_part s' = tx_part (pushes ms s)) ∧ (q ≠ p → rx_part s' = rx_part s).

Section Endpoints.
Context {W : Type} `{FH : !Field W heap} `{CB : !Callbacks W}.
Context (may_send : Msg → Prop) `{EP : !Endpoint W CB may_send}.
Implicit Types (w : W) (s : TcpSession) (p q : ptr).

Lemma hp_upd p s w : hp (upd p s w) = <[p := s]> (hp w).
Proof. apply fget_fset. Qed.
Lemma dom_upd p s s' w : hp w !! p = Some s → dom (hp (upd p s' w)) = dom (hp w).
Proof. intros Hs. rewrite hp_upd. apply dom_insert_lookup_L. by eexists. Qed.

Lemma moved_upd p s s' w :
  hp w !! p = Some s → tx_part s' = tx_part s → moved may_send p w (upd p s' w).
Proof.
  intros Hs E. split; [by eapply dom_upd|]. intros q s0 s1 H0 H1.
  destruct (decide (p = q)) as [<-|Hne].
  - rewrite lookup_upd in H1. split; [|done]. exists []. split; [done|]. cbn. congruence.
  - rewrite lookup_upd_ne in H1 by done. replace s1 with s0 by congruence. split; [exists []; by split|done].
Qed.

Lemma moved_pushes p w w1 w' :
  moved may_send p w w1 → only_pushes may_send w1 w' → moved may_send p w w'.
Proof.
  intros [Hd Hm] Ho. split.
  - rewrite <- Hd. apply set_eq. intros q. rewrite !elem_of_dom. destruct (Ho q) as (ms & _ & ->).
    by destruct (hp w1 !! q).
  - intros q s s' Hs Hs'. destruct (Ho q) as (ms & Hms & E). rewrite Hs' in E.
    destruct (hp w1 !! q) as [s1|] eqn:E1; [|done]. injection E as ->.
    destruct (Hm q s s1 Hs E1) as [(ms1 & Hms1 & Ht) Hr]. split.
    + exists (ms1 ++ ms). split; [by apply Forall_app|]. by rewrite pushes_app, (pushes_tx_part ms _ _ Ht).
    + intros Hne. by rewrite pushes_rx_part, Hr.
Qed.

Lemma moved_same p w w1 w' : moved may_send p w w1 → hp w' = hp w1 → moved may_send p w w'.
Proof. unfold moved. by intros ? ->. Qed.

(** The buffer of the read a session in order is waiting for. *)
Lemma in_sync_reads all k got s t size reads :
  in_sync all k got s → Forall acceptable all → sk_reads (ts_socket s) = (t, size) :: reads →
  reads = [] ∧ 0 <= size ∧ (t = RdHeader → waiting_header s).
Proof.
  intros (_ & _ & past & rest & Hall & _ & H) Hacc Hr.
  destruct H as [[H _]|[(m & ? & -> & H & _)|H]]; unfold waiting_header in *; rewrite Hr in H; [| |done].
  - injection H as -> -> ->. done.
  - injection H as -> -> ->. rewrite Hall in Hacc. apply Forall_app in Hacc as [_ Hacc].
    apply Forall_cons in Hacc as [[[_ ?] _] _]. by split_and!; [|lia|].
Qed.

(** A completed read: on error, of a header, of a body. *)
Lemma endpoint_read_error all k got p s ec w w' :
  hp w !! p = Some s → in_sync all k got s → Forall acceptable all → sk_reads (ts_socket s) ≠ [] →
  is_error ec = true → complete_read p ec [] w = Ok tt w' →
  moved may_send p w w' ∧ read_completion (ts_socket s) ec [] ∧
  ∃ s', hp w' !! p = Some s' ∧ in_sync all k got s'.
Proof.
  intros Hs Hin Hacc Hne He Hrun. pose proof Hin as (Hok & _).
  destruct (sk_reads (ts_socket s)) as [|[t size] reads] eqn:Hr; [done|]. clear Hne.
  destruct (in_sync_reads _ _ _ _ _ _ _ Hin Hacc Hr) as (-> & Hsz & _).
  set (s1 := took_read (ts_msg s) s).
  assert (E1 : rx_part s1 = ([], ts_msg s, sk_connects (ts_socket s)) ∧ tx_part s1 = tx_part s).
  { unfold s1, took_read, rx_part, tx_part. by destruct s as [[] ? ? ? ? ? ? ? ? ? ? ? ?]; cbn in *; subst. }
  assert (Hsame : hp w' = hp (upd p s1 w)).
  { destruct t.
    - erewrite header_error_ok in Hrun by done. by injection Hrun as <-.
    - erewrite body_error_ok in Hrun by done. fold s1 in Hrun.
      destruct (ts_closedHandler s); [|done]. by eapply closed_quiet. }
  split; [|split].
  - eapply moved_same; [|done]. by eapply moved_upd.
  - exists t, size, []. split_and!; try done. congruence.
  - exists s1. rewrite Hsame, lookup_upd. split; [done|].
    eapply read_fails; [done|by rewrite Hr|apply E1].
Qed.

Lemma endpoint_read_header stream all k got p s bs w w' :
  hp w !! p = Some s → in_sync all k got s → Forall acceptable all → stream `prefix_of` wire all →
  waiting_header s → arriving stream k s = Some bs → complete_read p Success bs w = Ok tt w' →
  moved may_send p w w' ∧ read_completion (ts_socket s) Success bs ∧
  ∃ s', hp w' !! p = Some s' ∧ in_sync all (k + length bs) got s'.
Proof.
  intros Hs Hin Hacc Hp Hwh Hbs Hrun.
  destruct (header_arrives stream all k got s bs Hin Hacc Hp Hwh Hbs) as (m & Hst & Hb & Hl & Hin').
  erewrite complete_header_ok in Hrun by done. injection Hrun as <-. split_and!.
  - apply (moved_upd p s); [done|]. unfold add_read, took_read, tx_part. by destruct s as [[] ? ? ? ? ? ? ? ? ? ? ? ?].
  - exists RdHeader, hdrLength, []. split_and!; try done; [by rewrite Hl|]. by intros _ _ ->.
  - eexists. rewrite lookup_upd. split; [done|exact Hin'].
Qed.

(** The callback between a body and the next header. *)
Lemma endpoint_callback h p s s1 w w' :
  hp w !! p = Some s → tx_part s1 = tx_part s →
  (run_message h p ;; TcpSession_read p hdrLength) (upd p s1 w) = Ok tt w' →
  moved may_send p w w' ∧ ∃ s' ms, hp w' !! p = Some s' ∧
    rx_part s' = (sk_reads (ts_socket s1) ++ [(RdHeader, hdrLength)], ts_msg s1, sk_connects (ts_socket s1)) ∧
    tx_part s' = tx_part (pushes ms s1).
Proof.
  intros Hs Et Hrun. set (w1 := upd p s1 w) in *. unfold mbind, M_bind in Hrun.
  destruct (run_message h p w1) as [[] w2| |] eqn:Em; [|done..].
  pose proof (message_pushes h p w1 w2 Em) as Ho.
  assert (Hmv : moved may_send p w w2) by (eapply moved_pushes; [by eapply moved_upd|done]).
  destruct (Ho p) as (ms & Hms & Hs2). unfold w1 in Hs2. rewrite lookup_upd in Hs2.
  cbn [fmap option_fmap option_map] in Hs2.
  unfold TcpSession_read, async_read_some in Hrun. erewrite assign_ok in Hrun by exact Hs2.
  injection Hrun as <-. set (s3 := set_socket _ _).
  assert (E3 : rx_part s3 = (sk_reads (ts_socket s1) ++ [(RdHeader, hdrLength)], ts_msg s1, sk_connects (ts_socket s1)) ∧
               tx_part s3 = tx_part (pushes ms s1)).
  { pose proof (pushes_rx_part ms s1) as E. unfold s3, rx_part, tx_part in *.
    destruct (pushes ms s1) as [[] ? ? ? ? ? ? ? ? ? ? ? ?]; cbn in *. injection E as -> -> ->. done. }
  split; [|exists s3, ms; split; [apply lookup_upd|apply E3]].
  destruct Hmv as [Hd Hmv]. split; [by rewrite (dom_upd p (pushes ms s1))|].
  intros q sq sq' Hq Hq'. destruct (decide (p = q)) as [<-|Hne].
  - rewrite lookup_upd in Hq'. injection Hq' as <-. split; [|done]. exists ms. split; [done|].
    rewrite (proj2 E3). replace sq with s by congruence. by apply pushes_tx_part.
  - rewrite lookup_upd_ne in Hq' by done. by eapply Hmv.
Qed.

Lemma endpoint_message h p s s1 w w' :
  hp w !! p = Some s → tx_part s1 = tx_part s → sk_reads (ts_socket s1) = [] →
  (run_message h p ;; TcpSession_read p hdrLength) (upd p s1 w) = Ok tt w' →
  moved may_send p w w' ∧ ∃ s', hp w' !! p = Some s' ∧
    rx_part s' = ([(RdHeader, hdrLength)], ts_msg s1, sk_connects (ts_socket s1)).
Proof.
  intros Hs Et Er Hrun. destruct (endpoint_callback h p s s1 w w' Hs Et Hrun) as (Hmv & s' & ms & Hs' & Hrx & _).
  split; [done|]. exists s'. rewrite Er in Hrx. done.
Qed.

(** Any read that completes, of however many bytes, in any session: other
    sessions are only sent messages, and this one keeps what it sends, apart
    from what its callback queues, and its connects. *)
Lemma endpoint_read_any p s ec bs w w' :
  hp w !! p = Some s → complete_read p ec bs w = Ok tt w' →
  moved may_send p w w' ∧
  ∃ s', hp w' !! p = Some s' ∧ sk_connects (ts_socket s') = sk_connects (ts_socket s).
Proof.
  intros Hs Hrun. unfold complete_read in Hrun. erewrite bind_deref in Hrun by exact Hs.
  destruct (sk_reads (ts_socket s)) as [|[t size] reads] eqn:Hr.
  { injection Hrun as <-. split; [|by exists s]. rewrite <- (upd_id p s w Hs) at 2. by eapply moved_upd. }
  destruct (store (rd_offset t) bs (ts_msg s)) as [m|] eqn:Hst; [|done].
  rewrite (bind_lift _ m) in Hrun by done. erewrite bind_assign in Hrun by exact Hs.
  set (s1 := set_msg m _) in Hrun.
  assert (E1 : tx_part s1 = tx_part s ∧ sk_connects (ts_socket s1) = sk_connects (ts_socket s))
    by (by unfold s1; destruct s as [[] ? ? ? ? ? ? ? ? ? ? ? ?]).
  destruct E1 as [Et Ec]. clearbody s1.
  assert (Hupd : ∀ s2, tx_part s2 = tx_part s1 → sk_connects (ts_socket s2) = sk_connects (ts_socket s1) →
    hp w' = hp (upd p s2 w) → moved may_send p w w' ∧
    ∃ s', hp w' !! p = Some s' ∧ sk_connects (ts_socket s') = sk_connects (ts_socket s)).
  { intros s2 Et2 Ec2 E. split; [eapply moved_same; [eapply moved_upd; [done|by rewrite Et2]|done]|].
    exists s2. rewrite E, lookup_upd. split; [done|congruence]. }
  destruct t.
  - unfold on_read_header in Hrun. destruct (is_error ec) eqn:He; cbn [negb] in Hrun.
    { injection Hrun as <-. by apply (Hupd s1). }
    unfold handleReadHeader, TcpSession_read, async_read_some in Hrun. rewrite He in Hrun.
    erewrite bind_deref in Hrun by apply lookup_upd.
    destruct (negb _); (erewrite assign_ok in Hrun by apply lookup_upd); rewrite upd_upd in Hrun; injection Hrun as <-;
      (eapply Hupd; [| |done]); by destruct s1 as [[] ? ? ? ? ? ? ? ? ? ? ? ?].
  - unfold on_read_body, handleReadBody, close_on_error, handleError in Hrun. destruct (is_error ec).
    { rewrite bind_ret in Hrun. erewrite bind_deref in Hrun by apply lookup_upd.
      destruct (ts_closedHandler s1) as [h|]; [|done]. cbn [call] in Hrun. apply closed_quiet in Hrun. by apply (Hupd s1). }
    erewrite bind_deref, bind_assign in Hrun by apply lookup_upd. rewrite upd_upd in Hrun.
    destruct (ts_messageHandler s1) as [h|]; [|done]. cbn [call] in Hrun.
    edestruct (endpoint_callback h p s) as (Hmv & s' & ms & Hs' & Hrx & _); [exact Hs| |exact Hrun|].
    { rewrite <- Et. by destruct s1. }
    split; [done|]. exists s'. split; [done|]. injection Hrx as _ _ ->. rewrite <- Ec. by destruct s1.
Qed.

Lemma endpoint_read_body stream all k got p s size reads bs w w' :
  hp w !! p = Some s → in_sync all k got s → Forall acceptable all → stream `prefix_of` wire all →
  sk_reads (ts_socket s) = (RdBody, size) :: reads → arriving stream k s = Some bs →
  complete_read p Success bs w = Ok tt w' →
  moved may_send p w w' ∧ read_completion (ts_socket s) Success bs ∧
  ∃ s', hp w' !! p = Some s' ∧ in_sync all (k + length bs) (got ++ message_of s Success bs) s'.
Proof.
  intros Hs Hin Hacc Hp Hr Hbs Hrun.
  destruct (in_sync_reads _ _ _ _ _ _ _ Hin Hacc Hr) as (-> & Hsz & _).
  destruct (body_arrives stream all k got s size [] bs Hin Hacc Hp Hr Hbs)
    as (m0 & m & _ & -> & Hst & Hb & Hin').
  erewrite complete_body_ok in Hrun by done.
  destruct (ts_messageHandler s) as [h|]; [|done]. cbn [call] in Hrun.
  edestruct (endpoint_message h p s) as (Hmv & s' & Hs' & Hrx); [exact Hs| | |exact Hrun|].
  1,2: by destruct s as [[] ? ? ? ? ? ? ? ? ? ? ? ?]; cbn in *; subst.
  split; [done|split].
  - exists RdBody, size, []. unfold arriving in Hbs. rewrite Hr in Hbs.
    destruct (Z.eqb_spec (Z.of_nat (length (take (Z.to_nat size) (drop k stream)))) size) as [E|]; [|done].
    injection Hbs as <-. split_and!; try done; [lia|]. intros _ Hpos Hnil. rewrite Hnil in E. cbn in E. lia.
  - exists s'. split; [done|]. unfold message_of. rewrite Hr, Hst. cbn [is_error]. apply Hin'. rewrite Hrx.
    by destruct s as [[] ? ? ? ? ? ? ? ? ? ? ? ?].
Qed.

Lemma endpoint_read stream all k got p s ec bs w w' :
  hp w !! p = Some s → in_sync all k got s → Forall acceptable all → stream `prefix_of` wire all →
  sk_reads (ts_socket s) ≠ [] →
  (if is_error ec then bs = [] else arriving stream k s = Some bs) →
  complete_read p ec bs w = Ok tt w' →
  moved may_send p w w' ∧ read_completion (ts_socket s) ec bs ∧
  ∃ s', hp w' !! p = Some s' ∧ in_sync all (k + length bs) (got ++ message_of s ec bs) s'.
Proof.
  intros Hs Hin Hacc Hp Hne Hbs Hrun. destruct (is_error ec) eqn:He.
  - subst bs. replace (got ++ message_of s ec []) with got; [rewrite Nat.add_0_r; by apply endpoint_read_error|].
    unfold message_of. rewrite He. by repeat case_match; rewrite app_nil_r.
  - destruct ec; try done. destruct (sk_reads (ts_socket s)) as [|[[] size] reads] eqn:Hr; [done| |by eapply endpoint_read_body].
    destruct (in_sync_reads _ _ _ _ _ _ _ Hin Hacc Hr) as (_ & _ & Hwh).
    unfold message_of. rewrite Hr, app_nil_r. eapply endpoint_read_header; eauto.
Qed.

(** A completed write. *)
Lemma endpoint_write all p s ec n w w' :
  hp w !! p = Some s → out_sync all s → Forall sendable all → write_completion (ts_socket s) ec n →
  complete_write p ec n w = Ok tt w' →
  ∃ s', hp w' = <[p := s']> (hp w) ∧ out_sync all s' ∧ rx_part s' = rx_part s ∧ ts_id s' = ts_id s.
Proof.
  intros Hs Hout Hall (size & rest & Hw & Hn & Hsize) Hrun.
  assert (Hne : sk_writes (ts_socket s) ≠ []) by by rewrite Hw.
  pose proof Hout as (sent & Eall & [[Htx _]|[Hw' _]]); [|done].
  unfold tx_ok in Htx. destruct (ts_sendQue s) as [|m q] eqn:Eq; [done|].
  assert (Hm : sendable m).
  { rewrite Eall in Hall. apply Forall_app in Hall as [_ Hall]. by inversion Hall. }
  rewrite Htx in Hw. injection Hw as <- <-. rewrite size_t_length in * by done.
  destruct (is_error ec) eqn:He.
  - erewrite complete_write_error in Hrun; [|done|done|done|by apply load_sendable|done].
    destruct (ts_closedHandler s); [|done]. cbn [call] in Hrun.
    assert (Eb : take (Z.to_nat n) (bytes_of_msg m) = take (Z.to_nat n) (frame m)).
    { unfold frame. rewrite take_take, Nat.min_l by lia. done. }
    rewrite Eb in Hrun. eexists. split; [|split].
    + rewrite <- hp_upd. by eapply closed_quiet.
    + by eapply out_sync_failed.
    + split; by destruct s as [[] ? ? ? ? ? ? ? ? ? ? ? ?].
  - destruct ec; try done. rewrite (Hsize eq_refl) in Hrun.
    rewrite (complete_write_ok p s m q w) in Hrun by (done || by rewrite size_t_length). injection Hrun as <-.
    exists (pop_write s). split; [apply hp_upd|]. split; [by apply out_sync_written|].
    unfold pop_write. rewrite Eq. split; by destruct s as [[] ? ? ? ? ? ? ? ? ? ? ? ?].
Qed.

(** Any write that completes. *)
Lemma endpoint_write_any p s ec n w w' :
  hp w !! p = Some s → complete_write p ec n w = Ok tt w' →
  ∃ s', hp w' = <[p := s']> (hp w) ∧ rx_part s' = rx_part s ∧ ts_id s' = ts_id s.
Proof.
  intros Hs Hrun. unfold complete_write in Hrun. erewrite bind_deref in Hrun by exact Hs.
  destruct (sk_writes (ts_socket s)) as [|size rest] eqn:Hw.
  { injection Hrun as <-. exists s. split_and!; [|done|done]. symmetry. by apply insert_id. }
  destruct (ts_sendQue s) as [|m q] eqn:Eq; [done|].
  destruct (load n m) as [bs|]; [|done]. rewrite (bind_lift _ bs) in Hrun by done.
  erewrite bind_assign in Hrun by exact Hs. set (s1 := set_socket _ s) in Hrun.
  assert (E1 : rx_part s1 = rx_part s ∧ ts_id s1 = ts_id s) by (by unfold s1; destruct s as [[] ? ? ? ? ? ? ? ? ? ? ? ?]).
  clearbody s1. unfold handleWrite, close_on_error, handleError in Hrun. destruct (is_error ec).
  { rewrite bind_ret in Hrun. erewrite bind_deref in Hrun by apply lookup_upd.
    destruct (ts_closedHandler s1) as [h|]; [|done]. cbn [call] in Hrun. apply closed_quiet in Hrun.
    exists s1. by rewrite <- hp_upd. }
  erewrite bind_deref in Hrun by apply lookup_upd. destruct (ts_sendQue s1) as [|m1 q1]; [done|].
  erewrite bind_assign, bind_assign in Hrun by apply lookup_upd. rewrite !upd_upd in Hrun.
  set (s2 := set_sendQue _ _) in Hrun.
  assert (E2 : rx_part s2 = rx_part s1 ∧ ts_id s2 = ts_id s1) by (by unfold s2; destruct s1 as [[] ? ? ? ? ? ? ? ? ? ? ? ?]).
  clearbody s2. destruct (negb _); cbn [when] in Hrun.
  - unfold async_write_front in Hrun. erewrite bind_deref in Hrun by apply lookup_upd.
    destruct (ts_sendQue s2) as [|m2 q2]; [done|]. erewrite assign_ok in Hrun by apply lookup_upd.
    injection Hrun as <-. rewrite upd_upd. eexists. split; [apply hp_upd|].
    destruct E1 as [<- <-], E2 as [<- <-]. by destruct s2 as [[] ? ? ? ? ? ? ? ? ? ? ? ?].
  - injection Hrun as <-. exists s2. rewrite hp_upd. destruct E1 as [<- <-], E2 as [<- <-]. done.
Qed.

(** A session that is connected, or waits for its one connection. *)
Definition connecting (s : TcpSession) : Prop :=
  sk_connects (ts_socket s) = 0%nat ∨ sk_connects (ts_socket s) = 1%nat ∧ sk_reads (ts_socket s) = [].

Lemma in_sync_connecting all k got s : in_sync all k got s → connecting s.
Proof. intros (_ & [?|(? & ? & _)] & _); [by left|by right]. Qed.
Lemma connecting_part s s' : rx_part s = rx_part s' → connecting s → connecting s'.
Proof. unfold rx_part, connecting. intros [= Er _ Ec]. by rewrite Er, Ec. Qed.

(** A completed connect. *)
Lemma endpoint_connect p s ec w w' :
  hp w !! p = Some s → connecting s → sk_connects (ts_socket s) ≠ 0%nat →
  complete_connect p ec w = Ok tt w' →
  ∃ s', hp w' = <[p := s']> (hp w) ∧ tx_part s' = tx_part s ∧ connecting s' ∧
    ∀ all k got, in_sync all k got s → in_sync all k got s'.
Proof.
  intros Hs [Hc|(Hc & Hr)] Hne Hrun; [done|]. clear Hne.
  assert (Hin : ∀ s', ts_msg s' = ts_msg s → sk_connects (ts_socket s') = 0%nat →
    waiting_header s' ∨ sk_reads (ts_socket s') = [] → ∀ all k got, in_sync all k got s → in_sync all k got s').
  { intros s' Em Ec Hrd all k got (Hok & [Hc'|(_ & _ & -> & ->)] & _); [congruence|].
    split; [by rewrite Em|]. split; [by left|]. exists [], all. naive_solver. }
  unfold complete_connect in Hrun. erewrite bind_deref in Hrun by exact Hs. rewrite Hc in Hrun.
  erewrite bind_assign in Hrun by exact Hs. destruct (is_error ec); cbn [negb] in Hrun.
  - injection Hrun as <-. eexists. split; [apply hp_upd|]. unfold connecting.
    split_and!; [..|apply Hin]; destruct s as [[] ? ? ? ? ? ? ? ? ? ? ? ?]; cbn in *; subst; auto.
  - erewrite bind_assign in Hrun by apply lookup_upd. unfold TcpSession_start in Hrun.
    erewrite bind_assign in Hrun by apply lookup_upd. erewrite bind_assign in Hrun by apply lookup_upd.
    erewrite bind_deref in Hrun by apply lookup_upd. rewrite !upd_upd in Hrun.
    set (s1 := set_state Opened _) in Hrun. destruct (ts_openedHandler s1) as [h|]; [|done]. cbn [call] in Hrun.
    unfold mbind, M_bind in Hrun. destruct (run_opened h p (upd p s1 w)) as [[] w1| |] eqn:Eo; [|done..].
    pose proof (opened_quiet h p _ _ Eo) as Hq.
    unfold TcpSession_read, async_read_some in Hrun. erewrite assign_ok in Hrun by (rewrite Hq; apply lookup_upd).
    injection Hrun as <-. eexists. split; [rewrite hp_upd, Hq, hp_upd; apply insert_insert_eq|].
    unfold connecting, waiting_header in *.
    split_and!; [..|apply Hin]; unfold s1; destruct s as [[] ? ? ? ? ? ? ? ? ? ? ? ?]; cbn in *; subst; auto.
Qed.
End Endpoints.
