(* ===== verification/IpcSession.v ===== *)
(** * IpcSession and IpcServer (Src/IpcSession.h, Src/IpcSession.cpp, Src/IpcServer.h)

    The session over a local stream socket: unlike TcpSession it reads with
    [async_read], which completes only when its whole buffer is filled, it has
    one message object for sending instead of a queue, and it goes on with a
    header that fails [checkHeader].  The accept loop is the one of
    IpcServer.h. *)
From S2P Require Import Prelude Msg Session IfSession.

(** ** State *)

(** An outstanding [async_read], with what its handler was bound to: the body
    read carries copies of the header's [msgId] and [bodyLength]. *)
Inductive ipc_read :=
  | IpcHeader
  | IpcBody (msgId length : Z).

#[export] Instance ipc_read_eq_dec : EqDecision ipc_read.
Proof. solve_decision. Defined.

Definition ipc_offset (r : ipc_read) : Z :=
  match r with IpcHeader => 0 | IpcBody _ _ => hdrLength end.

(** The outstanding operations of the socket: the connects, the reads with
    their sizes, the [async_write]s as (size, bytes transferred so far), and
    the bytes the peer has been sent. *)
Record IpcSession := mkIpcSession {
  ip_open : bool;
  ip_connects : nat;
  ip_reads : list (ipc_read * Z);
  ip_writes : list (Z * Z);
  ip_out : list Z;
  ip_msg : Msg;
  ip_sendMsg : Msg;
  ip_msgTmr : nat;                   (* waits outstanding on the timer *)
  ip_epRemote : option string;
  ip_handler : option ptr;
  ip_owner : option ptr
}.

Section Setters.
Implicit Types s : IpcSession.
Definition ip_set_open x s := mkIpcSession x (ip_connects s) (ip_reads s) (ip_writes s)
  (ip_out s) (ip_msg s) (ip_sendMsg s) (ip_msgTmr s) (ip_epRemote s) (ip_handler s) (ip_owner s).
Definition ip_set_connects f s := mkIpcSession (ip_open s) (f (ip_connects s)) (ip_reads s)
  (ip_writes s) (ip_out s) (ip_msg s) (ip_sendMsg s) (ip_msgTmr s) (ip_epRemote s)
  (ip_handler s) (ip_owner s).
Definition ip_set_reads f s := mkIpcSession (ip_open s) (ip_connects s) (f (ip_reads s))
  (ip_writes s) (ip_out s) (ip_msg s) (ip_sendMsg s) (ip_msgTmr s) (ip_epRemote s)
  (ip_handler s) (ip_owner s).
Definition ip_set_writes f s := mkIpcSession (ip_open s) (ip_connects s) (ip_reads s)
  (f (ip_writes s)) (ip_out s) (ip_msg s) (ip_sendMsg s) (ip_msgTmr s) (ip_epRemote s)
  (ip_handler s) (ip_owner s).
Definition ip_set_out f s := mkIpcSession (ip_open s) (ip_connects s) (ip_reads s)
  (ip_writes s) (f (ip_out s)) (ip_msg s) (ip_sendMsg s) (ip_msgTmr s) (ip_epRemote s)
  (ip_handler s) (ip_owner s).
Definition ip_set_msg x s := mkIpcSession (ip_open s) (ip_connects s) (ip_reads s)
  (ip_writes s) (ip_out s) x (ip_sendMsg s) (ip_msgTmr s) (ip_epRemote s)
  (ip_handler s) (ip_owner s).
Definition ip_set_sendMsg x s := mkIpcSession (ip_open s) (ip_connects s) (ip_reads s)
  (ip_writes s) (ip_out s) (ip_msg s) x (ip_msgTmr s) (ip_epRemote s)
  (ip_handler s) (ip_owner s).
Definition ip_set_msgTmr x s := mkIpcSession (ip_open s) (ip_connects s) (ip_reads s)
  (ip_writes s) (ip_out s) (ip_msg s) (ip_sendMsg s) x (ip_epRemote s)
  (ip_handler s) (ip_owner s).
Definition ip_set_owner x s := mkIpcSession (ip_open s) (ip_connects s) (ip_reads s)
  (ip_writes s) (ip_out s) (ip_msg s) (ip_sendMsg s) (ip_msgTmr s) (ip_epRemote s)
  (ip_handler s) x.
End Setters.

(** The constructors; neither initialises the two message objects. *)
Definition IpcSession_client (file : string) (handler : option ptr) (uninit : Msg * Msg) :
    IpcSession :=
  mkIpcSession false 0 [] [] [] uninit.1 uninit.2 0 (Some file) handler None.
Definition IpcSession_server (handler : option ptr) (uninit : Msg * Msg) : IpcSession :=
  mkIpcSession false 0 [] [] [] uninit.1 uninit.2 0 None handler None.

Abbreviation ipc_heap := (gmap ptr IpcSession).

(** ** Operations *)

Section Operations.
Context {W : Type} `{FI : !Field W ipc_heap} `{SH : !SessionHandler W}.

(** [void setOwner(const VoidPtr&)] *)
Definition setOwner (this owner : ptr) : M W unit :=
  obj_set this (ip_set_owner (Some owner)).

(** [void start()]: every option is commented out. *)
Definition IpcSession_start (this : ptr) : M W unit := mret tt.

(** [void close()] *)
Definition IpcSession_close (this : ptr) : M W unit :=
  obj_set this (ip_set_open false) ;;
  obj_set this (ip_set_msgTmr O).

(** [async_read(m_socket, buffer(target, size), handler)] *)
Definition ipc_async_read (this : ptr) (r : ipc_read) (size : Z) : M W unit :=
  obj_set this (ip_set_reads (λ l, l ++ [(r, size)])).

(** [void asyncSend()] *)
Definition IpcSession_asyncSend (this : ptr) : M W unit :=
  s ← obj_get this;
  obj_set this (ip_set_writes (λ l, l ++ [(size_t (msg_length (ip_sendMsg s)), 0)])).

(** [void asyncConnect()]; connecting opens the socket. *)
Definition IpcSession_asyncConnect (this : ptr) : M W unit :=
  obj_set this (λ s, ip_set_connects S (ip_set_open true s)).

(** [void asyncRead()] *)
Definition IpcSession_asyncRead (this : ptr) : M W unit :=
  ipc_async_read this IpcHeader hdrLength.

(** [m_handler->error(error, shared_from_this(), m_owner);] *)
Definition ipc_report (this : ptr) (error : error_code) : M W unit :=
  s ← obj_get this;
  virtual_call (ip_handler s) (λ h, sh_error h error this (ip_owner s)) ;; mret tt.

(** [void handleConnect(const error_code&)] *)
Definition IpcSession_handleConnect (this : ptr) (error : error_code) : M W unit :=
  if negb (is_error error) then
    s ← obj_get this;
    virtual_call (ip_handler s) (λ h, sh_connect h this (ip_owner s)) ;; mret tt
  else ipc_report this error.

(** [void handleReadHeader(const error_code&)]: the result of [checkHeader]
    decides only whether a warning is logged. *)
Definition IpcSession_handleReadHeader (this : ptr) (error : error_code) : M W unit :=
  if negb (is_error error) then
    s ← obj_get this;
    let hdr := msg_hdr (ip_msg s) in
    ipc_async_read this (IpcBody (hdr_msgId hdr) (hdr_bodyLength hdr))
      (size_t (bodyLength (ip_msg s)))
  else ipc_report this error.

(** [void handleReadBody(uint32_t& msgId, int16_t& length, const error_code&)] *)
Definition IpcSession_handleReadBody (this : ptr) (msgId length : Z) (error : error_code) :
    M W unit :=
  if negb (is_error error) then
    s ← obj_get this;
    virtual_call (ip_handler s) (λ h, sh_read h msgId length this (ip_owner s)) ;;
    ipc_async_read this IpcHeader hdrLength
  else ipc_report this error.

(** [void handleWrite(const error_code&)] *)
Definition IpcSession_handleWrite (this : ptr) (error : error_code) : M W unit :=
  if negb (is_error error) then mret tt else ipc_report this error.

(** *** What the asio service does

    A completed read has stored its bytes in the message object; an
    [async_write] moves its buffer in any number of transfers, each of which
    takes the bytes that are then in the object. *)
Definition ipc_complete_read (this : ptr) (ec : error_code) (bs : list Z) : M W unit :=
  s ← obj_get this;
  match ip_reads s with
  | [] => mret tt
  | (r, _) :: _ =>
      m ← lift (store (ipc_offset r) bs (ip_msg s));
      obj_set this (λ s, ip_set_msg m (ip_set_reads tail s)) ;;
      match r with
      | IpcHeader => IpcSession_handleReadHeader this ec
      | IpcBody msgId length => IpcSession_handleReadBody this msgId length ec
      end
  end.

Definition ipc_transfer (this : ptr) (n : Z) : M W unit :=
  s ← obj_get this;
  match ip_writes s with
  | [] => mret tt
  | (size, done) :: rest =>
      bs ← lift (load_at done n (ip_sendMsg s));
      obj_set this (λ s, ip_set_out (λ o, o ++ bs)
                           (ip_set_writes (λ _, (size, done + n) :: rest) s))
  end.

Definition ipc_complete_write (this : ptr) (ec : error_code) : M W unit :=
  s ← obj_get this;
  match ip_writes s with
  | [] => mret tt
  | _ :: _ => obj_set this (ip_set_writes tail) ;; IpcSession_handleWrite this ec
  end.

Definition ipc_complete_connect (this : ptr) (ec : error_code) : M W unit :=
  s ← obj_get this;
  match ip_connects s with
  | O => mret tt
  | S _ => obj_set this (ip_set_connects Nat.pred) ;; IpcSession_handleConnect this ec
  end.
End Operations.

(** What the asio documentation promises of the oldest read: [async_read]
    succeeds with exactly the bytes asked for, and fails after fewer. *)
Definition ipc_read_completion (s : IpcSession) (ec : error_code) (bs : list Z) : Prop :=
  ∃ r size rest, ip_reads s = (r, size) :: rest ∧ Forall byte_ok bs ∧
    (is_error ec = false → Z.of_nat (length bs) = size) ∧
    (is_error ec = true → Z.of_nat (length bs) < size).

(** ** IpcServer

    The source names the members [set_owner], [async_read] and the type
    [IpcSession_ptr], which IpcSession.h spells [setOwner], [asyncRead] and
    [IpcSessionPtr]; they are read as those.  An outstanding accept carries the
    session its handler was bound to. *)
Record IpcServer := mkIpcServer {
  iv_this : ptr;
  iv_handler : option ptr;
  iv_newSession : option ptr;
  iv_accepts : list ptr
}.

Section Server.
Context {W : Type} `{FI : !Field W ipc_heap} `{SH : !SessionHandler W} `{FV : !Field W IpcServer}.

(** [new IpcSession(m_ios, m_handler)] *)
Definition ipc_new (s : IpcSession) : M W ptr :=
  h ← fread (T := ipc_heap);
  let p := fresh (dom h) in
  fmodify (T := ipc_heap) (<[p := s]>) ;; mret p.

(** [void start_accept()] *)
Definition ipc_start_accept (uninit : Msg * Msg) : M W unit :=
  v ← fread (T := IpcServer);
  p ← ipc_new (IpcSession_server (iv_handler v) uninit);
  fmodify (T := IpcServer) (λ v,
    mkIpcServer (iv_this v) (iv_handler v) (Some p) (iv_accepts v ++ [p])).

(** [void handle_accept(IpcSession_ptr session, const error_code& error)] *)
Definition ipc_handle_accept (uninit : Msg * Msg) (session : ptr) (error : error_code) :
    M W unit :=
  v ← fread (T := IpcServer);
  (if negb (is_error error) then
     setOwner session (iv_this v) ;;
     IpcSession_start session ;;
     IpcSession_asyncRead session
   else mret tt) ;;
  ipc_start_accept uninit.

(** The completion of the oldest accept: on success the socket of its session
    is connected. *)
Definition ipc_complete_accept (uninit : Msg * Msg) (ec : error_code) : M W unit :=
  v ← fread (T := IpcServer);
  match iv_accepts v with
  | [] => mret tt
  | p :: rest =>
      fmodify (T := IpcServer) (λ v,
        mkIpcServer (iv_this v) (iv_handler v) (iv_newSession v) rest) ;;
      when (negb (is_error ec)) (obj_set p (ip_set_open true)) ;;
      ipc_handle_accept uninit p ec
  end.
End Server.

(** ** The receive path *)

Definition ipc_waiting_header (s : IpcSession) : Prop :=
  ip_reads s = [(IpcHeader, hdrLength)].

(** The oldest read is removed, [m] is in the object, [next] is started. *)
Definition ipc_next (m : Msg) (next : ipc_read * Z) (s : IpcSession) : IpcSession :=
  ip_set_reads (λ l, l ++ [next]) (ip_set_msg m (ip_set_reads tail s)).

(** The body read the header of [m] asks for. *)
Definition ipc_body_read (m : Msg) : ipc_read * Z :=
  (IpcBody (hdr_msgId (msg_hdr m)) (bodyLength m), size_t (bodyLength m)).

Section Receive.
Context {W : Type} `{FI : !Field W ipc_heap} `{SH : !SessionHandler W}.
Implicit Types (w : W) (s : IpcSession) (p : ptr) (m : Msg).

Lemma ipc_header_ok p s bs m size rest w :
  objs w !! p = Some s → ip_reads s = (IpcHeader, size) :: rest →
  store 0 bs (ip_msg s) = Val m →
  ipc_complete_read p Success bs w = Ok tt (obj_upd p (ipc_next m (ipc_body_read m) s) w).
Proof.
  intros Hs Hr Hst. unfold ipc_complete_read. obj_run. rewrite Hr. cbn [ipc_offset].
  rewrite (bind_lift _ m) by done. obj_run.
  unfold IpcSession_handleReadHeader. cbn [is_error negb]. obj_run.
  unfold ipc_async_read. obj_run. by destruct s.
Qed.

Lemma ipc_body_ok p s bs m id len size rest w :
  objs w !! p = Some s → ip_reads s = (IpcBody id len, size) :: rest →
  store 8 bs (ip_msg s) = Val m →
  ipc_complete_read p Success bs w =
    (virtual_call (ip_handler s) (λ h, sh_read h id len p (ip_owner s)) ;;
     ipc_async_read p IpcHeader hdrLength)
      (obj_upd p (ip_set_msg m (ip_set_reads tail s)) w).
Proof.
  intros Hs Hr Hst. unfold ipc_complete_read. obj_run. rewrite Hr. cbn [ipc_offset].
  rewrite (bind_lift _ m) by done. obj_run.
  unfold IpcSession_handleReadBody. cbn [is_error negb]. obj_run. by destruct s.
Qed.

Lemma ipc_report_ok p s h ec w :
  objs w !! p = Some s → ip_handler s = Some h →
  ipc_report p ec w = (sh_error h ec p (ip_owner s) ;; mret tt) w.
Proof. intros Hs Hh. unfold ipc_report. obj_run. by rewrite Hh. Qed.

(** The bytes [input] have all arrived: every [async_read] takes exactly what
    it asks for, as long as there is enough. *)
Fixpoint ipc_pump (fuel : nat) (p : ptr) (input : list Z) : M W (list Z) :=
  match fuel with
  | O => mret input
  | S fuel =>
      s ← obj_get p;
      match ip_reads s with
      | [] => mret input
      | (_, size) :: _ =>
          if Z.of_nat (length input) <? size then mret input
          else
            ipc_complete_read p Success (take (Z.to_nat size) input) ;;
            ipc_pump fuel p (drop (Z.to_nat size) input)
      end
  end.

Lemma ipc_pump_step p s r reads bs rest n w :
  objs w !! p = Some s → ip_reads s = (r, Z.of_nat (length bs)) :: reads →
  ipc_pump (S n) p (bs ++ rest) w = (ipc_complete_read p Success bs ;; ipc_pump n p rest) w.
Proof.
  intros Hs Hr. cbn [ipc_pump]. obj_run. rewrite Hr, length_app, Nat2Z.id. case_cmp; [lia|].
  by rewrite take_app_length, drop_app_length.
Qed.

(** What a handler may do to the session that calls it: send on it. *)
Definition ipc_sends (s s' : IpcSession) : Prop :=
  ip_reads s' = ip_reads s ∧ ip_msg s' = ip_msg s ∧ ip_handler s' = ip_handler s ∧
  ip_owner s' = ip_owner s.

(** The session right before the handler runs on the frame of [m]. *)
Definition ipc_delivered m s : IpcSession :=
  ip_set_msg (received m (ip_msg s)) (ip_set_reads (λ _, []) s).

(** Two completions read a frame, whatever its header says. *)
Lemma ipc_pump_frame p m s rest n w :
  objs w !! p = Some s → ipc_waiting_header s → msg_ok (ip_msg s) → sendable m →
  ipc_pump (S (S n)) p (frame m ++ rest) w =
    ((virtual_call (ip_handler s)
        (λ h, sh_read h (hdr_msgId (msg_hdr m)) (bodyLength m) p (ip_owner s)) ;;
      ipc_async_read p IpcHeader hdrLength) ≫= λ _, ipc_pump n p rest)
      (obj_upd p (ipc_delivered m s) w).
Proof.
  intros Hs Hwh Hok Hm. set (body := take (Z.to_nat (bodyLength m)) (msg_body m)).
  assert (Hbl : Z.of_nat (length body) = bodyLength m).
  { unfold body. rewrite length_take_body by done. destruct Hm. lia. }
  set (m1 := mkMsg (msg_hdr m) (msg_body (ip_msg s))).
  assert (Hn : ipc_body_read m1 =
    (IpcBody (hdr_msgId (msg_hdr m)) (bodyLength m), Z.of_nat (length body))).
  { unfold ipc_body_read. rewrite Hbl. change (bodyLength m1) with (bodyLength m). f_equal.
    destruct Hm as [_ Hm]. apply wrapU_id. unfold in_u, MAX_CP_MSG_DATA in *. lia. }
  rewrite frame_split, <- app_assoc by apply Hm. fold body.
  erewrite ipc_pump_step; [|done|by rewrite length_bytes_of_hdr].
  erewrite bind_ok.
  2:{ eapply ipc_header_ok; [done|exact Hwh|]. apply store_header; [apply Hok|].
      apply length_bytes_of_hdr. }
  rewrite hdr_of_bytes_of_hdr by apply Hm. fold m1. rewrite Hn.
  unfold ipc_waiting_header in Hwh.
  destruct s as [? ? ? ? ? old ? ? ? ? ?]; cbn in Hs, Hwh, Hok; subst.
  erewrite ipc_pump_step; [|apply lookup_obj_upd|reflexivity].
  apply bind_cong. erewrite ipc_body_ok; [|apply lookup_obj_upd|reflexivity|].
  2:{ apply store_body; [apply Hm|]. destruct Hm as [_ Hm]. lia. }
  by rewrite obj_upd_upd.
Qed.
End Receive.

(** ** The send path *)

Section Transmit.
Context {W : Type} `{FI : !Field W ipc_heap} `{SH : !SessionHandler W}.
Implicit Types (w : W) (s : IpcSession) (p : ptr) (m : Msg).

Definition total (ns : list Z) : Z := foldr Z.add 0 ns.

Lemma total_nonneg ns : Forall (λ n, 0 <= n) ns → 0 <= total ns.
Proof. unfold total. induction 1; cbn; lia. Qed.

(** A write [done] bytes of whose buffer are transferred, [n] bytes later. *)
Definition ipc_advance (n : Z) s : IpcSession :=
  match ip_writes s with
  | [] => s
  | (size, done) :: rest =>
      ip_set_out (λ o, o ++ take (Z.to_nat n) (drop (Z.to_nat done) (bytes_of_msg (ip_sendMsg s))))
        (ip_set_writes (λ _, (size, done + n) :: rest) s)
  end.

Lemma ipc_transfer_ok n p s size done rest w :
  objs w !! p = Some s → ip_writes s = (size, done) :: rest → 0 <= done → 0 <= n →
  done + n <= sizeof_Msg → ipc_transfer p n w = Ok tt (obj_upd p (ipc_advance n s) w).
Proof.
  intros Hs Hw Hd Hn Hle. unfold ipc_transfer. obj_run. rewrite Hw.
  unfold load_at. case_cmp; [|lia]. erewrite bind_lift by reflexivity. obj_run.
  unfold ipc_advance. by rewrite Hw.
Qed.

Lemma ipc_transfers_ok ns p s size done rest w :
  objs w !! p = Some s → ip_writes s = (size, done) :: rest → 0 <= done →
  Forall (λ n, 0 <= n) ns → done + total ns <= sizeof_Msg →
  forM_ ns (ipc_transfer p) w = Ok tt (obj_upd p (ipc_advance (total ns) s) w).
Proof.
  intros Hs Hw Hd Hns. revert s done w Hs Hw Hd. induction Hns as [|n ns Hn Hns IH]; intros s done w Hs Hw Hd Hle.
  - cbn. rewrite obj_upd_id; [done|]. rewrite Hs. unfold ipc_advance. rewrite Hw.
    destruct s; cbn in *; subst. unfold ip_set_out; cbn.
    by rewrite Z.add_0_r, take_0, app_nil_r.
  - pose proof (total_nonneg ns Hns). unfold total in *. cbn [foldr] in *.
    cbn [forM_]. erewrite bind_ok by (eapply ipc_transfer_ok; [done..|lia|lia|lia]).
    erewrite IH with (done := done + n); [|apply lookup_obj_upd| |lia|lia].
    2:{ unfold ipc_advance. rewrite Hw. by destruct s. }
    rewrite obj_upd_upd. do 2 f_equal. unfold ipc_advance. destruct s; cbn in *; subst. cbn.
    unfold ip_set_out, ip_set_writes. cbn.
    f_equal; [by rewrite Z.add_assoc|]. rewrite <- app_assoc. f_equal.
    rewrite !Z2Nat.inj_add by lia. rewrite <- drop_drop. by rewrite take_take_drop.
Qed.
End Transmit.

(** ** The accept loop *)

(** One accept is outstanding, for the newest session, which is untouched. *)
Definition ipc_armed {W} `{FI : !Field W ipc_heap, FV : !Field W IpcServer}
    (this : ptr) (h : option ptr) (u : Msg * Msg) (p : ptr) (w : W) : Prop :=
  fget (T := IpcServer) w = mkIpcServer this h (Some p) [p] ∧
  objs w !! p = Some (IpcSession_server h u).

(** The session of an accept that completed with [ec]. *)
Definition ipc_accept_result (this : ptr) (h : option ptr) (u : Msg * Msg) (ec : error_code) :
    IpcSession :=
  if is_error ec then IpcSession_server h u
  else ip_set_reads (λ _, [(IpcHeader, hdrLength)])
         (ip_set_owner (Some this) (ip_set_open true (IpcSession_server h u))).

Section Accept.
Context {W : Type} `{FI : !Field W ipc_heap} `{FV : !Field W IpcServer} `{SE : !Separate FI FV}.
Implicit Types (w : W) (p : ptr).

(** A heap update next to the server, and a server update next to the heap. *)
Lemma objs_server x w : objs (fset (Field := FV) x w) = objs w.
Proof. unfold objs. apply fget_fset_sep. Qed.
Lemma server_upd p s w : fget (Field := FV) (obj_upd p s w) = fget (Field := FV) w.
Proof. unfold obj_upd. apply fget_fset_sep'. Qed.

Lemma ipc_start_accept_ok this h u n ps w :
  fget (T := IpcServer) w = mkIpcServer this h n ps →
  let q := fresh (dom (objs w)) in
  ipc_start_accept u w = Ok tt
    (fset (mkIpcServer this h (Some q) (ps ++ [q])) (obj_upd q (IpcSession_server h u) w)).
Proof.
  intros Hv q. unfold ipc_start_accept, ipc_new, fread, fmodify, modify, mbind, M_bind, get. cbn.
  rewrite Hv. cbn. fold (obj_upd (fresh (dom (objs w))) (IpcSession_server h u) w).
  change (fget (T := ipc_heap) w) with (objs w). fold q.
  change (fset (<[q := IpcSession_server h u]> (objs w)) w)
    with (obj_upd q (IpcSession_server h u) w).
  rewrite server_upd, Hv. done.
Qed.

Lemma ipc_accept_step this h u p ec w :
  ipc_armed this h u p w →
  ∃ w' q, ipc_complete_accept u ec w = Ok tt w' ∧ ipc_armed this h u q w' ∧
    objs w !! q = None ∧ objs w' !! p = Some (ipc_accept_result this h u ec) ∧
    ∀ r, r ≠ p → r ≠ q → objs w' !! r = objs w !! r.
Proof.
  intros [Hv Hp].
  set (w1 := fset (mkIpcServer this h (Some p) []) w).
  assert (Hp1 : objs w1 !! p = Some (IpcSession_server h u)) by (unfold w1; by rewrite objs_server).
  assert (Hv1 : fget (T := IpcServer) w1 = mkIpcServer this h (Some p) [])
    by (unfold w1; by rewrite fget_fset).
  set (w2 := if is_error ec then w1 else obj_upd p (ipc_accept_result this h u ec) w1).
  assert (Hp2 : objs w2 !! p = Some (ipc_accept_result this h u ec)).
  { unfold w2, ipc_accept_result in *. destruct (is_error ec); [done|apply lookup_obj_upd]. }
  assert (Hv2 : fget (T := IpcServer) w2 = mkIpcServer this h (Some p) []).
  { unfold w2. destruct (is_error ec); [done|]. by rewrite server_upd. }
  assert (Hne : ∀ r, r ≠ p → objs w2 !! r = objs w !! r).
  { intros r Hr. unfold w2. destruct (is_error ec); [|rewrite lookup_obj_upd_ne by done];
      unfold w1; by rewrite objs_server. }
  set (q := fresh (dom (objs w2))).
  assert (Hq : objs w2 !! q = None) by (apply not_elem_of_dom, is_fresh).
  assert (Hqp : q ≠ p) by (intros E; rewrite E, Hp2 in Hq; done).
  exists (fset (mkIpcServer this h (Some q) [q]) (obj_upd q (IpcSession_server h u) w2)), q.
  split; [|split; [|split_and!]].
  - trans (ipc_start_accept u w2); [|exact (ipc_start_accept_ok this h u (Some p) [] w2 Hv2)].
    unfold ipc_complete_accept, ipc_handle_accept. rewrite bind_fread, Hv. cbn [iv_accepts].
    rewrite bind_fmodify, Hv. cbn. fold w1.
    unfold w2, ipc_accept_result. destruct (is_error ec); cbn [negb when].
    + by rewrite bind_ret, bind_fread.
    + obj_run. rewrite bind_fread, server_upd, Hv1. cbn [iv_this].
      unfold setOwner, IpcSession_start, IpcSession_asyncRead, ipc_async_read. obj_run. done.
  - split; [by rewrite fget_fset|]. rewrite objs_server. apply lookup_obj_upd.
  - by rewrite <- Hne.
  - rewrite objs_server, lookup_obj_upd_ne by done. done.
  - intros r Hr Hrq. rewrite objs_server, lookup_obj_upd_ne by done. by apply Hne.
Qed.
End Accept.

(** ** Properties *)

Section Theorems.
Context {W : Type} `{FI : !Field W ipc_heap} `{SH : !SessionHandler W}.

(** C34: an IPC session delivers every frame whose length fits its body.  When the
    bytes of a sequence of messages with lengths from 0 to 1024 have arrived at
    a session waiting for a header, two completions per message consume all of
    them and the handler's [read] runs once per message, in order, with the
    message's id and length and exactly its frame in the object; the session
    then waits for the next header.  Nothing is asked of the [version] and
    [result] bytes: a message that [checkHeader] refuses for them is delivered
    too.  (A length it refuses as too big, or a negative one, overflows the
    body: [ipc_body_bounds].)  The handler may send on the session; [obs] is
    whatever it records. *)
Theorem ipc_stream_delivery (obs : W → list (Z * Z * list Z)) p h ms s w :
  (∀ id len s w, objs w !! p = Some s → ip_handler s = Some h →
     ∃ b w' s', sh_read h id len p (ip_owner s) w = Ok b w' ∧
       objs w' !! p = Some s' ∧ ipc_sends s s' ∧
       obs w' = obs w ++ [(id, len, frame (ip_msg s))]) →
  (∀ s w, obs (obj_upd p s w) = obs w) →
  objs w !! p = Some s → ipc_waiting_header s → msg_ok (ip_msg s) →
  ip_handler s = Some h → Forall sendable ms →
  ∃ w' s', ipc_pump (2 * length ms) p (wire ms) w = Ok [] w' ∧
    obs w' = obs w ++ ((λ m, (hdr_msgId (msg_hdr m), bodyLength m, frame m)) <$> ms) ∧
    objs w' !! p = Some s' ∧ ipc_waiting_header s'.
Proof.
  intros Hcb Hobs Hs Hwh Hok Hh Hms. revert s w Hs Hwh Hok Hh.
  induction Hms as [|m ms Hm Hms IH]; intros s w Hs Hwh Hok Hh.
  { exists w, s. cbn. by rewrite app_nil_r. }
  replace (2 * length (m :: ms))%nat with (S (S (2 * length ms))) by (cbn; lia).
  change (wire (m :: ms)) with (frame m ++ wire ms).
  rewrite (ipc_pump_frame p m s) by done. rewrite Hh, bind_assoc. cbn [virtual_call].
  destruct (Hcb (hdr_msgId (msg_hdr m)) (bodyLength m) (ipc_delivered m s)
    (obj_upd p (ipc_delivered m s) w)) as (b & w1 & s1 & Hrun & Hs1 & (Hr & Hm1 & Hh1 & _) & Ho);
    [apply lookup_obj_upd|by destruct s|].
  erewrite bind_ok by (destruct s; exact Hrun).
  unfold ipc_async_read. obj_run.
  set (s2 := ip_set_reads (λ l, l ++ [(IpcHeader, hdrLength)]) s1).
  assert (Hs2 : ipc_waiting_header s2 ∧ ip_msg s2 = received m (ip_msg s) ∧ ip_handler s2 = Some h).
  { unfold s2, ipc_waiting_header. destruct s, s1; cbn in *; subst. done. }
  destruct Hs2 as (Hw2 & Hm2 & Hh2).
  destruct (IH s2 (obj_upd p s2 w1)) as (w' & s' & Hp & Ho' & Hl & Hw');
    [apply lookup_obj_upd|done|rewrite Hm2; by apply received_ok|done|].
  exists w', s'. split_and!; try done.
  rewrite Ho', Hobs, Ho, Hobs, <- app_assoc. cbn. do 2 f_equal.
  destruct s; cbn. by rewrite frame_received.
Qed.

(** the body read of an IPC session is in bounds exactly for the lengths
    from 0 to [MAX_CP_MSG_DATA], and no check stands before it.  After any
    complete header, also one that [checkHeader] refuses, the session asks for
    [bodyLength] bytes converted to [size_t]; every transfer asio may make is
    stored inside the object when the length is in that range, and for every
    other length some transfer writes past the end of it. *)
Theorem ipc_body_bounds p s hb w :
  objs w !! p = Some s → ipc_waiting_header s → msg_ok (ip_msg s) →
  Forall byte_ok hb → length hb = 8%nat →
  let n := hdr_bodyLength (hdr_of_bytes hb) in
  ∃ s', ipc_complete_read p Success hb w = Ok tt (obj_upd p s' w) ∧
    ip_reads s' = [(IpcBody (hdr_msgId (hdr_of_bytes hb)) n, size_t n)] ∧
    (0 <= n <= MAX_CP_MSG_DATA → ∀ ec bs, ipc_read_completion s' ec bs →
       ∃ m, store hdrLength bs (ip_msg s') = Val m) ∧
    (n < 0 ∨ MAX_CP_MSG_DATA < n → ∃ ec bs, ipc_read_completion s' ec bs ∧
       ipc_complete_read p ec bs (obj_upd p s' w) = Undef UB_buffer_overflow).
Proof.
  intros Hs Hwh Hok Hhb Hlen n.
  set (m1 := mkMsg (hdr_of_bytes hb) (msg_body (ip_msg s))).
  assert (Hm1 : msg_ok m1) by (split; [by apply hdr_of_bytes_ok | apply Hok]).
  assert (Hn : in_s 16 n) by (destruct Hm1 as [(_ & _ & Hn & _) _]; exact Hn).
  exists (ipc_next m1 (ipc_body_read m1) s).
  assert (Hr : ip_reads (ipc_next m1 (ipc_body_read m1) s) =
    [(IpcBody (hdr_msgId (hdr_of_bytes hb)) n, size_t n)]).
  { unfold ipc_waiting_header in Hwh. by destruct s; cbn in *; subst. }
  assert (Hmsg : ip_msg (ipc_next m1 (ipc_body_read m1) s) = m1) by (by destruct s).
  unfold in_s, MAX_CP_MSG_DATA in *. split_and!; [|done|..].
  - eapply ipc_header_ok; [done|exact Hwh|]. apply store_header; [apply Hok|done].
  - intros Hrange ec bs (r & size & rest & Hr' & Hbs & Hsucc & Herr). rewrite Hr in Hr'.
    injection Hr' as <- <- <-. rewrite wrapU_id in Hsucc, Herr by (unfold in_u; lia).
    rewrite Hmsg. eexists. apply store_body; [apply Hm1|]. unfold MAX_CP_MSG_DATA.
    destruct (is_error ec); [specialize (Herr eq_refl)|specialize (Hsucc eq_refl)]; lia.
  - intros Hout.
    assert (Hbad : ∀ ec k, (1025 ≤ k)%nat → ipc_complete_read p ec (replicate k 0)
      (obj_upd p (ipc_next m1 (ipc_body_read m1) s) w) = Undef UB_buffer_overflow).
    { intros ec k Hk. unfold ipc_complete_read. obj_run. rewrite Hr. cbn [ipc_offset].
      apply bind_lift_bad. unfold store. rewrite length_replicate. case_cmp; [|done].
      unfold sizeof_Msg, hdrLength, MAX_CP_MSG_DATA in *. lia. }
    assert (Hz : ∀ k, Forall byte_ok (replicate k 0))
      by (intros; apply Forall_replicate; unfold byte_ok; lia).
    destruct Hout as [Hneg|Hbig].
    + exists Error_eof, (replicate 1025 0). split; [|apply Hbad; lia].
      exists (IpcBody (hdr_msgId (hdr_of_bytes hb)) n), (size_t n), [].
      split_and!; [done|apply Hz|done|]. intros _. rewrite length_replicate.
      unfold wrapU. rewrite <- (Z_mod_plus_full n 1), Z.mod_small; lia.
    + exists Success, (replicate (Z.to_nat n) 0). split; [|apply Hbad; lia].
      exists (IpcBody (hdr_msgId (hdr_of_bytes hb)) n), (size_t n), [].
      split_and!; [done|apply Hz| |done]. intros _. rewrite length_replicate.
      rewrite wrapU_id by (unfold in_u; lia). lia.
Qed.

(** what an [asyncSend] puts on the wire is read from the message object
    while the write is under way.  However the write of a message is split into
    transfers, the peer receives its frame if the object is left alone; if the
    application encodes the next message [m2] into it after some transfers, the
    peer receives the head of the first message continued by the bytes of
    [m2]. *)
Theorem ipc_send_transfers p s ns ns' m2 w :
  objs w !! p = Some s → ip_writes s = [] → sendable (ip_sendMsg s) → msg_ok m2 →
  Forall (λ n, 0 <= n) ns → Forall (λ n, 0 <= n) ns' →
  total ns + total ns' = msg_length (ip_sendMsg s) →
  let sent m := ip_set_out (λ o, o ++ take (Z.to_nat (total ns)) (frame (ip_sendMsg s)) ++
       take (Z.to_nat (total ns')) (drop (Z.to_nat (total ns)) (bytes_of_msg m)))
       (ip_set_sendMsg m s) in
  (IpcSession_asyncSend p ;; forM_ ns (ipc_transfer p) ;;
   obj_set p (ip_set_sendMsg m2) ;; forM_ ns' (ipc_transfer p) ;;
   ipc_complete_write p Success) w = Ok tt (obj_upd p (sent m2) w) ∧
  ip_out (sent (ip_sendMsg s)) = ip_out s ++ frame (ip_sendMsg s).
Proof.
  intros Hs Hw Hm Hm2 Hns Hns' Htot sent.
  pose proof (total_nonneg _ Hns). pose proof (total_nonneg _ Hns').
  assert (Hsz : 0 <= msg_length (ip_sendMsg s) <= sizeof_Msg).
  { destruct Hm as [_ Hm]. unfold msg_length, sizeof_Msg, bodyLength, hdrLength in *. lia. }
  assert (Hfr : ∀ b, b <= msg_length (ip_sendMsg s) →
    take (Z.to_nat b) (frame (ip_sendMsg s)) = take (Z.to_nat b) (bytes_of_msg (ip_sendMsg s))).
  { intros b Hb. unfold frame. rewrite take_take. f_equal. lia. }
  split.
  - unfold IpcSession_asyncSend. obj_run.
    assert (Hw1 : ∀ l, ip_writes (ip_set_writes (λ l', l' ++ l) s) = l)
      by (intros; destruct s; cbn in *; by subst).
    erewrite bind_ok by (eapply ipc_transfers_ok;
      [apply lookup_obj_upd|apply Hw1|lia|done|lia]).
    obj_run.
    erewrite bind_ok by (eapply ipc_transfers_ok with (done := total ns);
      [apply lookup_obj_upd| |lia|done|lia];
      unfold ipc_advance; rewrite Hw1; by destruct s).
    unfold ipc_complete_write, sent. obj_run. rewrite Hfr by lia.
    destruct s; cbn in *; subst.
    unfold ipc_advance, ip_set_sendMsg, ip_set_writes, ip_set_out; cbn. obj_run.
    unfold IpcSession_handleWrite; cbn. by rewrite <- app_assoc.
  - unfold sent. rewrite Hfr by lia. destruct s; cbn in *. f_equal.
    rewrite load_at_app by lia. rewrite Htot. done.
Qed.

(** an IPC session hands every failure to its handler.  A failed read of a
    header or of a body, a failed write and a failed connect each call the
    handler's [error] once with the error code, the session and its owner; no
    further read is started. *)
Theorem ipc_errors_reported p s ec h w :
  objs w !! p = Some s → is_error ec = true → ip_handler s = Some h → msg_ok (ip_msg s) →
  let report w := (sh_error h ec p (ip_owner s) ;; mret tt) w in
  (ip_reads s ≠ [] → ipc_complete_read p ec [] w = report (obj_upd p (ip_set_reads tail s) w)) ∧
  (ip_writes s ≠ [] → ipc_complete_write p ec w = report (obj_upd p (ip_set_writes tail s) w)) ∧
  (ip_connects s ≠ O → ipc_complete_connect p ec w =
     report (obj_upd p (ip_set_connects Nat.pred s) w)).
Proof.
  intros Hs He Hh [Hmh Hmb] report. split_and!; intros Hop.
  - unfold ipc_complete_read. obj_run. destruct (ip_reads s) as [|[r size] rest] eqn:Hr; [done|].
    assert (Hst : store (ipc_offset r) [] (ip_msg s) = Val (ip_msg s)).
    { destruct r; cbn [ipc_offset].
      - rewrite store_0 by (cbn; unfold sizeof_Msg, hdrLength, MAX_CP_MSG_DATA; lia).
        unfold overlay. by rewrite splice_nil, msg_of_bytes_of_msg.
      - change hdrLength with 8. rewrite store_body by (done || cbn; lia).
        rewrite splice_nil. by destruct (ip_msg s). }
    rewrite (bind_lift _ (ip_msg s)) by done. obj_run.
    unfold IpcSession_handleReadHeader, IpcSession_handleReadBody. rewrite He.
    destruct s; cbn in *; subst.
    destruct r; cbn [negb]; by erewrite ipc_report_ok by (apply lookup_obj_upd || done).
  - unfold ipc_complete_write. obj_run. destruct (ip_writes s) eqn:Hw; [done|]. obj_run.
    unfold IpcSession_handleWrite. rewrite He. cbn [negb].
    erewrite ipc_report_ok by (apply lookup_obj_upd || by destruct s). by destruct s.
  - unfold ipc_complete_connect. obj_run. destruct (ip_connects s) eqn:Hw; [done|]. obj_run.
    unfold IpcSession_handleConnect. rewrite He. cbn [negb].
    erewrite ipc_report_ok by (apply lookup_obj_upd || by destruct s). by destruct s.
Qed.
End Theorems.

Section AcceptLoop.
Context {W : Type} `{FI : !Field W ipc_heap} `{FV : !Field W IpcServer} `{SE : !Separate FI FV}.

(** the accept loop of IpcServer never ends.  However a sequence of accepts
    completes, with success or with any error, an accept for a brand-new
    session is outstanding after it; the session of every successful accept is
    connected, owned by the server and waiting for a header, the session of a
    failed one is left as constructed, and no other session is touched. *)
Theorem ipc_accept_loop this h u p (ecs : list error_code) (w : W) :
  ipc_armed this h u p w →
  ∃ w' qs, forM_ ecs (ipc_complete_accept u) w = Ok tt w' ∧
    length qs = length ecs ∧ NoDup qs ∧ (∀ q, q ∈ qs → objs w !! q = None) ∧
    (∃ p', last (p :: qs) = Some p' ∧ ipc_armed this h u p' w') ∧
    (∀ i q ec, (p :: qs) !! i = Some q → ecs !! i = Some ec →
       objs w' !! q = Some (ipc_accept_result this h u ec)) ∧
    (∀ q, q ∉ p :: qs → objs w' !! q = objs w !! q).
Proof.
  revert p w. induction ecs as [|ec ecs IH]; intros p w Ha.
  { exists w, []. cbn. split_and!; try done; [constructor|by intros q ?%elem_of_nil|by exists p]. }
  destruct (ipc_accept_step this h u p ec w Ha) as (w1 & q1 & Hrun & Ha1 & Hq1 & Hres & Hne).
  destruct (IH q1 w1 Ha1) as (w' & qs & Hrun' & Hlen & Hnd & Hnew & Ha' & Hall & Hne').
  destruct Ha as [_ Hp]. destruct Ha1 as [_ Hlq1].
  assert (Hpq : p ≠ q1) by (intros ->; by rewrite Hp in Hq1).
  assert (Hq1n : q1 ∉ qs) by (intros E; apply Hnew in E; by rewrite Hlq1 in E).
  assert (Hpn : p ∉ qs) by (intros E; apply Hnew in E; by rewrite Hres in E).
  exists w', (q1 :: qs). split_and!.
  - cbn [forM_]. by erewrite bind_ok by exact Hrun.
  - cbn. by rewrite Hlen.
  - by constructor.
  - intros q [->|Hq]%elem_of_cons; [done|]. rewrite <- Hne; [by apply Hnew|..]; by intros ->.
  - done.
  - intros [|i] q ec' Hi Hec; cbn in Hi, Hec; [|by eapply Hall].
    simplify_eq. rewrite Hne'; [done|]. by rewrite not_elem_of_cons.
  - intros q Hq. rewrite !not_elem_of_cons in Hq. destruct Hq as (? & ? & ?).
    rewrite Hne' by (by rewrite not_elem_of_cons). by apply Hne.
Qed.
End AcceptLoop.

(** ** Instances at concrete inputs *)

Definition ipc_zero : Msg := mkMsg (mkHdr 0 0 0 0) (replicate 1024 0).
(** "hi", under a version that [checkHeader] refuses. *)
Definition ipc_hi : Msg := mkMsg (mkHdr 9 0 3 77) ([104; 105; 0] ++ replicate 1021 0).
Definition ipc_bye : Msg := mkMsg (mkHdr 1 0 2 3) ([98; 0] ++ replicate 1022 0).

Definition ipc_demo (reads : list (ipc_read * Z)) (out : Msg) : IpcSession :=
  mkIpcSession true 0 reads [] [] ipc_zero out 0 None (Some 5%nat) (Some 6%nat).

(** A process of sessions whose handler records what it is given. *)
Definition ipc_recorder : Type := ipc_heap * list (Z * Z * list Z).
#[program] Definition ipc_recorder_heap : Field ipc_recorder ipc_heap :=
  {| fget w := w.1; fset x w := (x, w.2) |}.
Solve All Obligations with (try by intros; destruct w).
Definition ipc_record (id len : Z) (p : ptr) : M ipc_recorder bool :=
  λ w, match w.1 !! p with
       | Some s => Ok true (w.1, w.2 ++ [(id, len, frame (ip_msg s))])
       | None => Ok false w
       end.
Definition ipc_recorder_handler : SessionHandler ipc_recorder :=
  {| sh_read _ id len p _ := ipc_record id len p;
     sh_error _ _ _ _ := mret true; sh_connect _ _ _ := mret true |}.

Lemma ipc_stream_delivery_witness :
  checkHeader ipc_hi = false ∧
  ∃ w', @ipc_pump ipc_recorder ipc_recorder_heap ipc_recorder_handler 4 1%nat
          (wire [ipc_hi; ipc_bye]) ({[1%nat := ipc_demo [(IpcHeader, 8)] ipc_zero]}, []) = Ok [] w' ∧
        w'.2 = [(77, 3, [9; 0; 3; 0; 77; 0; 0; 0; 104; 105; 0]); (3, 2, [1; 0; 2; 0; 3; 0; 0; 0; 98; 0])].
Proof.
  split; [reflexivity|].
  destruct (@ipc_stream_delivery ipc_recorder ipc_recorder_heap ipc_recorder_handler snd 1%nat
    5%nat [ipc_hi; ipc_bye] (ipc_demo [(IpcHeader, 8)] ipc_zero)
    ({[1%nat := ipc_demo [(IpcHeader, 8)] ipc_zero]}, [])) as (w' & s' & Hp & Ho & _).
  - intros id len s w Hs _. exists true, (w.1, w.2 ++ [(id, len, frame (ip_msg s))]), s.
    cbn in *. unfold ipc_record, objs in *. cbn in Hs. rewrite Hs.
    repeat split.
  - reflexivity.
  - reflexivity.
  - reflexivity.
  - apply (bool_decide_unpack _). vm_compute. exact I.
  - reflexivity.
  - repeat constructor; apply (bool_decide_unpack _); vm_compute; exact I.
  - exists w'. split; [exact Hp|]. rewrite Ho. vm_compute. reflexivity.
Defined.

Lemma ipc_body_bounds_witness :
  ∃ s' ec bs, @ipc_complete_read ipc_recorder ipc_recorder_heap ipc_recorder_handler 1%nat Success
      [1; 0; 1; 4; 3; 0; 0; 0] ({[1%nat := ipc_demo [(IpcHeader, 8)] ipc_zero]}, []) =
      Ok tt (@obj_upd _ _ ipc_recorder_heap 1%nat s' ({[1%nat := ipc_demo [(IpcHeader, 8)] ipc_zero]}, [])) ∧
    ip_reads s' = [(IpcBody 3 1025, 1025)] ∧
    @ipc_complete_read ipc_recorder ipc_recorder_heap ipc_recorder_handler 1%nat ec bs
      (@obj_upd _ _ ipc_recorder_heap 1%nat s' ({[1%nat := ipc_demo [(IpcHeader, 8)] ipc_zero]}, [])) =
      Undef UB_buffer_overflow.
Proof.
  destruct (@ipc_body_bounds ipc_recorder ipc_recorder_heap ipc_recorder_handler 1%nat
    (ipc_demo [(IpcHeader, 8)] ipc_zero) [1; 0; 1; 4; 3; 0; 0; 0]
    ({[1%nat := ipc_demo [(IpcHeader, 8)] ipc_zero]}, [])) as (s' & Hr & Hrd & _ & Hout).
  - reflexivity.
  - reflexivity.
  - apply (bool_decide_unpack _). vm_compute. exact I.
  - apply (bool_decide_unpack _). vm_compute. exact I.
  - reflexivity.
  - destruct Hout as (ec & bs & _ & Hu); [right; vm_compute; reflexivity|].
    exists s', ec, bs. split; [exact Hr|]. split; [exact Hrd|exact Hu].
Defined.

(** "hi" is overwritten by "b" after four bytes of its header are sent: the
    peer receives the new message's id and body under the old length. *)
Lemma ipc_send_transfers_witness :
  ∃ w' s', (@IpcSession_asyncSend ipc_recorder ipc_recorder_heap 1%nat ;;
      forM_ [3; 1] (@ipc_transfer ipc_recorder ipc_recorder_heap 1%nat) ;;
      @obj_set _ _ ipc_recorder_heap 1%nat (ip_set_sendMsg ipc_bye) ;;
      forM_ [7] (@ipc_transfer ipc_recorder ipc_recorder_heap 1%nat) ;;
      @ipc_complete_write ipc_recorder ipc_recorder_heap ipc_recorder_handler 1%nat Success)
      ({[1%nat := ipc_demo [] ipc_hi]}, []) = Ok tt w' ∧
    @objs _ _ ipc_recorder_heap w' !! 1%nat = Some s' ∧
    ip_out s' = [9; 0; 3; 0; 3; 0; 0; 0; 98; 0; 0].
Proof.
  destruct (@ipc_send_transfers ipc_recorder ipc_recorder_heap ipc_recorder_handler 1%nat
    (ipc_demo [] ipc_hi) [3; 1] [7] ipc_bye ({[1%nat := ipc_demo [] ipc_hi]}, [])) as [Hr _].
  - reflexivity.
  - reflexivity.
  - apply (bool_decide_unpack _). vm_compute. exact I.
  - apply (bool_decide_unpack _). vm_compute. exact I.
  - repeat constructor; lia.
  - repeat constructor; lia.
  - reflexivity.
  - eexists _, _. split; [exact Hr|]. split; [apply lookup_obj_upd|]. vm_compute. reflexivity.
Defined.

Lemma ipc_errors_reported_witness :
  @ipc_complete_read ipc_recorder ipc_recorder_heap ipc_recorder_handler 1%nat Error_eof []
    ({[1%nat := ipc_demo [(IpcHeader, 8)] ipc_zero]}, []) =
  Ok tt (@obj_upd _ _ ipc_recorder_heap 1%nat (ipc_demo [] ipc_zero)
           ({[1%nat := ipc_demo [(IpcHeader, 8)] ipc_zero]}, [])).
Proof.
  refine (proj1 (@ipc_errors_reported ipc_recorder ipc_recorder_heap ipc_recorder_handler 1%nat
    (ipc_demo [(IpcHeader, 8)] ipc_zero) Error_eof 5%nat
    ({[1%nat := ipc_demo [(IpcHeader, 8)] ipc_zero]}, []) _ _ _ _) _).
  - reflexivity.
  - reflexivity.
  - reflexivity.
  - apply (bool_decide_unpack _). vm_compute. exact I.
  - discriminate.
Defined.

(** A process of one IpcServer and its sessions. *)
Definition ipc_process : Type := ipc_heap * IpcServer.
#[program] Definition ipc_process_heap : Field ipc_process ipc_heap :=
  {| fget w := w.1; fset x w := (x, w.2) |}.
Solve All Obligations with (try by intros; destruct w).
#[program] Definition ipc_process_server : Field ipc_process IpcServer :=
  {| fget w := w.2; fset x w := (w.1, x) |}.
Solve All Obligations with (try by intros; destruct w).
Definition ipc_process_separate : Separate ipc_process_heap ipc_process_server.
Proof. by split. Defined.

Definition ipc_listening : ipc_process :=
  ({[1%nat := IpcSession_server (Some 5%nat) (ipc_zero, ipc_zero)]},
   mkIpcServer 0%nat (Some 5%nat) (Some 1%nat) [1%nat]).

(** The first accept fails, the second succeeds: a third one is outstanding. *)
Lemma ipc_accept_loop_witness :
  ∃ w' q r, forM_ [Error_other 24; Success]
      (@ipc_complete_accept ipc_process ipc_process_heap ipc_process_server (ipc_zero, ipc_zero))
      ipc_listening = Ok tt w' ∧
    @objs _ _ ipc_process_heap w' !! 1%nat = Some (IpcSession_server (Some 5%nat) (ipc_zero, ipc_zero)) ∧
    (ip_owner <$> @objs _ _ ipc_process_heap w' !! q) = Some (Some 0%nat) ∧
    iv_accepts w'.2 = [r].
Proof.
  destruct (@ipc_accept_loop ipc_process ipc_process_heap ipc_process_server ipc_process_separate
    0%nat (Some 5%nat) (ipc_zero, ipc_zero) 1%nat [Error_other 24; Success] ipc_listening)
    as (w' & qs & Hrun & Hlen & _ & _ & (r & _ & [Hv _]) & Hall & _).
  - split; reflexivity.
  - destruct qs as [|q [|q2 [|? ?]]]; try discriminate Hlen. exists w', q, r.
    split; [exact Hrun|]. split; [exact (Hall 0%nat 1%nat (Error_other 24) eq_refl eq_refl)|].
    split; [rewrite (Hall 1%nat q Success eq_refl eq_refl); reflexivity|].
    cbn in Hv. rewrite Hv. reflexivity.
Defined.
