(* ===== verification/UdpSession.v ===== *)
(** * UdpSession (Src/UdpSession.h, Src/UdpSession.cpp)

    The datagram session: one type for the client (a connected socket) and for
    the server (a bound socket that remembers the last sender), one message
    object for receiving and one for sending. *)
From S2P Require Import Prelude Msg Session IfSession.

(** ** State *)

Inductive UdpType := UDP_CLIENT | UDP_SERVER.

#[export] Instance UdpType_eq_dec : EqDecision UdpType.
Proof. solve_decision. Defined.

(** The object a send's buffer points into. *)
Inductive udp_buffer := Buf_msg | Buf_sendMsg.

(** An outstanding send: its buffer, its size, and the destination copied at
    the call ([None]: the connected peer). *)
Record udp_send := mkUdpSend { snd_buf : udp_buffer; snd_size : Z; snd_to : option endpoint }.

Record UdpSession := mkUdpSession {
  us_open : bool;
  us_connects : nat;
  us_receives : list UdpType;        (* async_receive, async_receive_from *)
  us_sends : list udp_send;
  us_out : list (option endpoint * list Z);   (* datagrams sent *)
  us_reuse_address : bool;
  us_epLocal : endpoint;
  us_epRemote : endpoint;
  us_udpType : UdpType;
  us_msg : Msg;
  us_sendMsg : Msg;
  us_msgTmr : nat;                   (* waits outstanding on the timer *)
  us_handler : option ptr;
  us_owner : option ptr
}.

Section Setters.
Implicit Types s : UdpSession.
Definition us_set_open x s := mkUdpSession x (us_connects s) (us_receives s) (us_sends s)
  (us_out s) (us_reuse_address s) (us_epLocal s) (us_epRemote s) (us_udpType s) (us_msg s)
  (us_sendMsg s) (us_msgTmr s) (us_handler s) (us_owner s).
Definition us_set_connects f s := mkUdpSession (us_open s) (f (us_connects s)) (us_receives s)
  (us_sends s) (us_out s) (us_reuse_address s) (us_epLocal s) (us_epRemote s) (us_udpType s)
  (us_msg s) (us_sendMsg s) (us_msgTmr s) (us_handler s) (us_owner s).
Definition us_set_receives f s := mkUdpSession (us_open s) (us_connects s) (f (us_receives s))
  (us_sends s) (us_out s) (us_reuse_address s) (us_epLocal s) (us_epRemote s) (us_udpType s)
  (us_msg s) (us_sendMsg s) (us_msgTmr s) (us_handler s) (us_owner s).
Definition us_set_sends f s := mkUdpSession (us_open s) (us_connects s) (us_receives s)
  (f (us_sends s)) (us_out s) (us_reuse_address s) (us_epLocal s) (us_epRemote s) (us_udpType s)
  (us_msg s) (us_sendMsg s) (us_msgTmr s) (us_handler s) (us_owner s).
Definition us_set_out f s := mkUdpSession (us_open s) (us_connects s) (us_receives s)
  (us_sends s) (f (us_out s)) (us_reuse_address s) (us_epLocal s) (us_epRemote s) (us_udpType s)
  (us_msg s) (us_sendMsg s) (us_msgTmr s) (us_handler s) (us_owner s).
Definition us_set_reuse x s := mkUdpSession (us_open s) (us_connects s) (us_receives s)
  (us_sends s) (us_out s) x (us_epLocal s) (us_epRemote s) (us_udpType s)
  (us_msg s) (us_sendMsg s) (us_msgTmr s) (us_handler s) (us_owner s).
Definition us_set_epRemote x s := mkUdpSession (us_open s) (us_connects s) (us_receives s)
  (us_sends s) (us_out s) (us_reuse_address s) (us_epLocal s) x (us_udpType s)
  (us_msg s) (us_sendMsg s) (us_msgTmr s) (us_handler s) (us_owner s).
Definition us_set_msg x s := mkUdpSession (us_open s) (us_connects s) (us_receives s)
  (us_sends s) (us_out s) (us_reuse_address s) (us_epLocal s) (us_epRemote s) (us_udpType s)
  x (us_sendMsg s) (us_msgTmr s) (us_handler s) (us_owner s).
Definition us_set_msgTmr x s := mkUdpSession (us_open s) (us_connects s) (us_receives s)
  (us_sends s) (us_out s) (us_reuse_address s) (us_epLocal s) (us_epRemote s) (us_udpType s)
  (us_msg s) (us_sendMsg s) x (us_handler s) (us_owner s).
Definition us_set_owner x s := mkUdpSession (us_open s) (us_connects s) (us_receives s)
  (us_sends s) (us_out s) (us_reuse_address s) (us_epLocal s) (us_epRemote s) (us_udpType s)
  (us_msg s) (us_sendMsg s) (us_msgTmr s) (us_handler s) x.
End Setters.

(** The endpoint of a default-constructed [udp::endpoint]. *)
Definition endpoint_any : endpoint := mkEndpoint "0.0.0.0" 0.

(** The constructors: the client's socket is not opened, the server's is
    opened and bound. *)
Definition UdpSession_client (localEp remote : endpoint) (handler : option ptr)
    (uninit : Msg * Msg) : UdpSession :=
  mkUdpSession false 0 [] [] [] false localEp remote UDP_CLIENT uninit.1 uninit.2 0 handler None.
Definition UdpSession_server (localEp : endpoint) (handler : option ptr)
    (uninit : Msg * Msg) : UdpSession :=
  mkUdpSession true 0 [] [] [] false localEp endpoint_any UDP_SERVER uninit.1 uninit.2 0 handler None.

Abbreviation udp_heap := (gmap ptr UdpSession).

(** ** Operations *)

Section Operations.
Context {W : Type} `{FU : !Field W udp_heap} `{SH : !SessionHandler W}.

(** [void setOwner(const VoidPtr&)] *)
Definition UdpSession_setOwner (this owner : ptr) : M W unit :=
  obj_set this (us_set_owner (Some owner)).

(** [void start()]: [set_option] throws on a socket that is not open. *)
Definition UdpSession_start (this : ptr) : M W unit :=
  s ← obj_get this;
  if us_open s then obj_set this (us_set_reuse true) else throw system_error.

(** [void close()] *)
Definition UdpSession_close (this : ptr) : M W unit :=
  obj_set this (us_set_open false) ;;
  obj_set this (us_set_msgTmr O).

(** [void asyncConnect()]; connecting opens the socket. *)
Definition UdpSession_asyncConnect (this : ptr) : M W unit :=
  obj_set this (λ s, us_set_connects S (us_set_open true s)).

(** [void asyncRead()]: [async_receive] or [async_receive_from] into the whole
    of [m_msg]. *)
Definition UdpSession_asyncRead (this : ptr) : M W unit :=
  s ← obj_get this;
  if bool_decide (us_udpType s = UDP_CLIENT)
  then obj_set this (us_set_receives (λ l, l ++ [UDP_CLIENT]))
  else obj_set this (us_set_receives (λ l, l ++ [UDP_SERVER])).

(** [void asyncSend()]: the server's buffer is [m_msg.data()] with the length
    of [m_sendMsg]. *)
Definition UdpSession_asyncSend (this : ptr) : M W unit :=
  s ← obj_get this;
  if bool_decide (us_udpType s = UDP_CLIENT)
  then obj_set this (us_set_sends (λ l, l ++
         [mkUdpSend Buf_sendMsg (size_t (msg_length (us_sendMsg s))) None]))
  else obj_set this (us_set_sends (λ l, l ++
         [mkUdpSend Buf_msg (size_t (msg_length (us_sendMsg s))) (Some (us_epRemote s))])).

(** [m_handler->error(error, shared_from_this(), m_owner);] *)
Definition udp_report (this : ptr) (error : error_code) : M W unit :=
  s ← obj_get this;
  virtual_call (us_handler s) (λ h, sh_error h error this (us_owner s)) ;; mret tt.

(** [void handleConnect(const error_code&)] *)
Definition UdpSession_handleConnect (this : ptr) (error : error_code) : M W unit :=
  if negb (is_error error) then
    s ← obj_get this;
    virtual_call (us_handler s) (λ h, sh_connect h this (us_owner s)) ;; mret tt
  else udp_report this error.

(** [void handleRead(const error_code&)]: the result of [checkHeader] decides
    only whether a warning is logged. *)
Definition UdpSession_handleRead (this : ptr) (error : error_code) : M W unit :=
  if negb (is_error error) then
    s ← obj_get this;
    let hdr := msg_hdr (us_msg s) in
    virtual_call (us_handler s) (λ h,
      sh_read h (hdr_msgId hdr) (hdr_bodyLength hdr) this (us_owner s)) ;;
    s ← obj_get this;
    if bool_decide (us_udpType s = UDP_CLIENT)
    then obj_set this (us_set_receives (λ l, l ++ [UDP_CLIENT]))
    else obj_set this (us_set_receives (λ l, l ++ [UDP_SERVER]))
  else udp_report this error.

(** [void handleWrite(const error_code&)] *)
Definition UdpSession_handleWrite (this : ptr) (error : error_code) : M W unit :=
  if negb (is_error error) then mret tt else udp_report this error.

(** *** Completions

    A completed receive has stored the datagram in [m_msg], and the sender in
    [m_epRemote] when it was started by [async_receive_from]. *)
Definition udp_complete_receive (this : ptr) (ec : error_code) (bs : list Z) (from : endpoint) :
    M W unit :=
  s ← obj_get this;
  match us_receives s with
  | [] => mret tt
  | op :: _ =>
      m ← lift (store 0 bs (us_msg s));
      obj_set this (λ s, us_set_msg m (us_set_receives tail s)) ;;
      when (negb (is_error ec) && bool_decide (op = UDP_SERVER))
        (obj_set this (us_set_epRemote from)) ;;
      UdpSession_handleRead this ec
  end.

Definition udp_source (s : UdpSession) (b : udp_buffer) : Msg :=
  match b with Buf_msg => us_msg s | Buf_sendMsg => us_sendMsg s end.

(** A completed send has sent the bytes that are then in its buffer. *)
Definition udp_complete_send (this : ptr) (ec : error_code) : M W unit :=
  s ← obj_get this;
  match us_sends s with
  | [] => mret tt
  | op :: _ =>
      obj_set this (us_set_sends tail) ;;
      when (negb (is_error ec))
        (bs ← lift (load (snd_size op) (udp_source s (snd_buf op)));
         obj_set this (us_set_out (λ o, o ++ [(snd_to op, bs)]))) ;;
      UdpSession_handleWrite this ec
  end.

Definition udp_complete_connect (this : ptr) (ec : error_code) : M W unit :=
  s ← obj_get this;
  match us_connects s with
  | O => mret tt
  | S _ => obj_set this (us_set_connects Nat.pred) ;; UdpSession_handleConnect this ec
  end.
End Operations.

(** A datagram as [async_receive] may deliver it into the object: at most the
    size of the buffer, the rest is cut off by the kernel. *)
Definition datagram (bs : list Z) : Prop :=
  Forall byte_ok bs ∧ Z.of_nat (length bs) <= sizeof_Msg.

(** ** Running the operations *)

(** The session a received datagram leaves for the handler. *)
Definition udp_received (bs : list Z) (from : endpoint) (s : UdpSession) : UdpSession :=
  let s' := us_set_msg (overlay bs (us_msg s)) (us_set_receives tail s) in
  match us_receives s with
  | UDP_SERVER :: _ => us_set_epRemote from s'
  | _ => s'
  end.

Definition udp_rearm (s : UdpSession) : UdpSession :=
  us_set_receives (λ l, l ++ [us_udpType s]) s.

Section Run.
Context {W : Type} `{FU : !Field W udp_heap} `{SH : !SessionHandler W}.
Implicit Types (w : W) (s : UdpSession) (p : ptr).

Lemma udp_rearm_ok p s w :
  objs w !! p = Some s →
  (s ← obj_get p;
   if bool_decide (us_udpType s = UDP_CLIENT)
   then obj_set p (us_set_receives (λ l, l ++ [UDP_CLIENT]))
   else obj_set p (us_set_receives (λ l, l ++ [UDP_SERVER]))) w =
  Ok tt (obj_upd p (udp_rearm s) w).
Proof.
  intros Hs. obj_run. unfold udp_rearm. destruct (us_udpType s) eqn:Ht;
    case_bool_decide; try done; by obj_run.
Qed.

Lemma udp_report_ok p s h ec w :
  objs w !! p = Some s → us_handler s = Some h →
  udp_report p ec w = (sh_error h ec p (us_owner s) ;; mret tt) w.
Proof. intros Hs Hh. unfold udp_report. obj_run. by rewrite Hh. Qed.

(** A datagram reaches the handler; the handler's call is left to run. *)
Lemma udp_receive_ok p s h bs from w :
  objs w !! p = Some s → us_receives s ≠ [] → us_handler s = Some h → datagram bs →
  let m := overlay bs (us_msg s) in
  udp_complete_receive p Success bs from w =
    (sh_read h (hdr_msgId (msg_hdr m)) (bodyLength m) p (us_owner s) ;;
     s ← obj_get p;
     if bool_decide (us_udpType s = UDP_CLIENT)
     then obj_set p (us_set_receives (λ l, l ++ [UDP_CLIENT]))
     else obj_set p (us_set_receives (λ l, l ++ [UDP_SERVER])))
      (obj_upd p (udp_received bs from s) w).
Proof.
  intros Hs Hr Hh [Hb Hl] m. unfold udp_complete_receive. obj_run.
  destruct (us_receives s) as [|op rest] eqn:E; [done|].
  rewrite (bind_lift _ m) by (by apply store_0). obj_run. cbn [is_error negb andb].
  set (s1 := udp_received bs from s).
  assert (Hrun : ∀ k : unit → M W unit,
    (when (bool_decide (op = UDP_SERVER)) (obj_set p (us_set_epRemote from)) ≫= k)
      (obj_upd p (us_set_msg m (us_set_receives tail s)) w) = k tt (obj_upd p s1 w)).
  { intros k. unfold s1, udp_received. rewrite E. destruct op; case_bool_decide; try done.
    cbn [when]. by obj_run. }
  rewrite Hrun. unfold UdpSession_handleRead. cbn [is_error negb]. obj_run.
  assert (Hs1 : us_handler s1 = Some h ∧ us_msg s1 = m ∧ us_owner s1 = us_owner s).
  { unfold s1, udp_received. rewrite E. by destruct op, s. }
  destruct Hs1 as (-> & -> & ->). done.
Qed.

(** One outstanding send completes. *)
Lemma udp_complete_send_ok p s op bs w :
  objs w !! p = Some s → us_sends s = [op] →
  load (snd_size op) (udp_source s (snd_buf op)) = Val bs →
  udp_complete_send p Success w =
    Ok tt (obj_upd p (us_set_out (λ o, o ++ [(snd_to op, bs)]) (us_set_sends (λ _, []) s)) w).
Proof.
  intros Hs Hq Hl. unfold udp_complete_send. obj_run. rewrite Hq. obj_run.
  cbn [is_error negb when]. rewrite bind_assoc, (bind_lift _ _ _ _ Hl). obj_run.
  unfold UdpSession_handleWrite. cbn. destruct s; cbn in *; by subst.
Qed.
End Run.

(** ** Properties *)

Section Theorems.
Context {W : Type} `{FU : !Field W udp_heap} `{SH : !SessionHandler W}.
Implicit Types (w : W) (s : UdpSession) (p : ptr).

(** C35: every datagram is dispatched once, whatever it holds.  A datagram of any
    size up to the object's never writes outside it; the handler's [read] runs
    once on the session with the datagram in the object, with the id and length
    of the header found there, and a receive is outstanding again.  The header
    is the datagram's own when it has at least eight bytes; a shorter one,
    the empty one included, is completed by the header of the datagram before.
    The server remembers the sender. *)
Theorem udp_receive_dispatch p s h bs from w :
  objs w !! p = Some s → us_receives s = [us_udpType s] → us_handler s = Some h →
  msg_ok (us_msg s) → datagram bs →
  let m := overlay bs (us_msg s) in
  let s' := udp_received bs from s in
  (∀ b w' s'', sh_read h (hdr_msgId (msg_hdr m)) (bodyLength m) p (us_owner s) (obj_upd p s' w) = Ok b w' →
     objs w' !! p = Some s'' → us_receives s'' = us_receives s' → us_udpType s'' = us_udpType s →
     udp_complete_receive p Success bs from w = Ok tt (obj_upd p (udp_rearm s'') w') ∧
     us_receives (udp_rearm s'') = [us_udpType s]) ∧
  us_msg s' = m ∧ msg_ok m ∧
  ((8 ≤ length bs)%nat → msg_hdr m = hdr_of_bytes (take 8 bs)) ∧
  ((length bs ≤ 8)%nat →
     msg_hdr m = hdr_of_bytes (bs ++ drop (length bs) (bytes_of_hdr (msg_hdr (us_msg s))))) ∧
  us_epRemote s' = (if decide (us_udpType s = UDP_SERVER) then from else us_epRemote s).
Proof.
  intros Hs Hr Hh Hok Hd m s'. split_and!.
  - intros b w' s'' Hrun Hs'' Hr'' Ht.
    assert (us_receives s' = []) as Hnil.
    { unfold s', udp_received. rewrite Hr. by destruct s as [? ? ? ? ? ? ? ? [] ? ? ? ? ?]; cbn in *; rewrite Hr. }
    split.
    + erewrite udp_receive_ok; [|done|by rewrite Hr|done..]. erewrite bind_ok by exact Hrun.
      by apply udp_rearm_ok.
    + unfold udp_rearm. destruct s'' as [? ? rs ? ? ? ? ? t ? ? ? ? ?]; cbn in *.
      by rewrite Hr'', Hnil, Ht.
  - unfold s', udp_received. rewrite Hr. by destruct s as [? ? ? ? ? ? ? ? [] ? ? ? ? ?].
  - by apply overlay_ok; [|apply Hd..].
  - apply overlay_hdr.
  - intros Hl. unfold m. assert (Hst := store_0 bs (us_msg s) (proj2 Hd)).
    rewrite store_header_short in Hst by (done || apply Hok).
    apply (f_equal (λ r, match r with Val a => a | Bad _ => us_msg s end)) in Hst.
    cbn beta iota in Hst. by rewrite <- Hst.
  - unfold s', udp_received. rewrite Hr. by destruct s as [? ? ? ? ? ? ? ? [] ? ? ? ? ?].
Qed.

(** what [asyncSend] transmits.  The client sends the frame of [m_sendMsg] to
    its peer.  The server sends to the last sender the first
    [m_sendMsg.length()] bytes of [m_msg], the object it receives into:
    nothing the application has put into [m_sendMsg] but its length. *)
Theorem udp_send_spec p s w :
  objs w !! p = Some s → us_sends s = [] → sendable (us_sendMsg s) →
  let sent := match us_udpType s with
    | UDP_CLIENT => (None, frame (us_sendMsg s))
    | UDP_SERVER => (Some (us_epRemote s),
        take (Z.to_nat (msg_length (us_sendMsg s))) (bytes_of_msg (us_msg s)))
    end in
  (UdpSession_asyncSend p ;; udp_complete_send p Success) w =
    Ok tt (obj_upd p (us_set_out (λ o, o ++ [sent]) s) w).
Proof.
  intros Hs Hq [_ Hm] sent. unfold UdpSession_asyncSend.
  assert (Hsz : 0 <= msg_length (us_sendMsg s) <= sizeof_Msg).
  { unfold msg_length, sizeof_Msg, bodyLength, hdrLength in *. lia. }
  assert (Hw : size_t (msg_length (us_sendMsg s)) = msg_length (us_sendMsg s)).
  { apply wrapU_id. unfold in_u, sizeof_Msg, hdrLength, MAX_CP_MSG_DATA in *. lia. }
  assert (Hl : ∀ m, load (msg_length (us_sendMsg s)) m =
    Val (take (Z.to_nat (msg_length (us_sendMsg s))) (bytes_of_msg m))).
  { intros m. unfold load. case_cmp; [done|lia]. }
  assert (Hgo : ∀ b to,
    udp_complete_send p Success (obj_upd p (us_set_sends (λ l, l ++
      [mkUdpSend b (msg_length (us_sendMsg s)) to]) s) w) =
    Ok tt (obj_upd p (us_set_out (λ o, o ++ [(to, take (Z.to_nat (msg_length (us_sendMsg s)))
      (bytes_of_msg (udp_source s b)))]) s) w)).
  { intros b to.
    erewrite udp_complete_send_ok
      with (op := mkUdpSend b (msg_length (us_sendMsg s)) to); [|apply lookup_obj_upd| |apply Hl].
    - rewrite obj_upd_upd. destruct s; cbn in *; subst. by destruct b.
    - destruct s; cbn in *; by subst. }
  unfold sent. obj_run. destruct (us_udpType s); case_bool_decide; try done; obj_run; rewrite Hw; apply Hgo.
Qed.

(** a reply of the server can carry another client's datagram.  The buffer of
    a send is the object of the outstanding receive: when a datagram from [b]
    arrives after the server has called [asyncSend] for client [a] and before
    the kernel has taken the bytes, what goes to [a] is the head of the
    datagram of [b]. *)
Theorem udp_reply_leak p s h bs b w :
  objs w !! p = Some s → us_udpType s = UDP_SERVER → us_sends s = [] →
  us_receives s = [UDP_SERVER] → us_handler s = Some h → msg_ok (us_msg s) → datagram bs →
  (∀ w id len, sh_read h id len p (us_owner s) w = Ok true w) →
  0 <= bodyLength (us_sendMsg s) → msg_length (us_sendMsg s) <= Z.of_nat (length bs) →
  ∃ s', (UdpSession_asyncSend p ;; udp_complete_receive p Success bs b ;;
         udp_complete_send p Success) w = Ok tt (obj_upd p s' w) ∧
    us_out s' = us_out s ++
      [(Some (us_epRemote s), take (Z.to_nat (msg_length (us_sendMsg s))) bs)] ∧
    us_epRemote s' = b.
Proof.
  intros Hs Ht Hq Hr Hh Hok Hd Hcb Hpos Hlen. set (n := msg_length (us_sendMsg s)) in *.
  assert (Hn : 0 <= n <= sizeof_Msg).
  { unfold n, msg_length, bodyLength, hdrLength, datagram in *. lia. }
  assert (Hw : size_t n = n).
  { apply wrapU_id. unfold in_u, sizeof_Msg, hdrLength, MAX_CP_MSG_DATA in *. lia. }
  set (s1 := us_set_sends (λ l, l ++ [mkUdpSend Buf_msg n (Some (us_epRemote s))]) s).
  assert (Hs1 : us_receives s1 = [UDP_SERVER] ∧ us_handler s1 = Some h ∧ us_owner s1 = us_owner s)
    by (by destruct s).
  destruct Hs1 as (Hr1 & Hh1 & Ho1).
  set (s2 := udp_rearm (udp_received bs b s1)).
  exists (us_set_out (λ o, o ++ [(Some (us_epRemote s), take (Z.to_nat n) bs)])
            (us_set_sends tail s2)).
  split_and!.
  - unfold UdpSession_asyncSend. obj_run. rewrite Ht. case_bool_decide; [done|]. obj_run.
    fold n. rewrite Hw. fold s1.
    erewrite bind_ok with (a := tt).
    2:{ rewrite (udp_receive_ok p s1 h) by (apply lookup_obj_upd || done || by rewrite Hr1).
        erewrite bind_ok by (rewrite Ho1; apply Hcb). apply udp_rearm_ok, lookup_obj_upd. }
    rewrite !obj_upd_upd. fold s2. 
    assert (Hq2 : us_sends s2 = [mkUdpSend Buf_msg n (Some (us_epRemote s))] ∧
                  us_msg s2 = overlay bs (us_msg s)).
    { unfold s2, udp_rearm, udp_received. rewrite Hr1. destruct s; cbn in *; subst. done. }
    destruct Hq2 as [Hq2 Hm2].
    erewrite udp_complete_send_ok with (bs := take (Z.to_nat n) bs);
      [|apply lookup_obj_upd|exact Hq2|].
    { rewrite obj_upd_upd. do 3 f_equal. destruct s2; cbn in *; by subst. }
    cbn [snd_size snd_buf udp_source]. rewrite Hm2. unfold load. case_cmp; [|lia]. f_equal.
    apply take_overlay; [done|apply Hd..|lia].
  - unfold s2, udp_rearm, udp_received. rewrite Hr1. by destruct s.
  - unfold s2, udp_rearm, udp_received. rewrite Hr1. by destruct s.
Qed.
(** failures are reported and end the session's activity.  A failed receive,
    send or connect calls the handler's [error] once; a failed receive leaves
    the message object and the remembered sender alone and starts no further
    receive, so the session is deaf from then on.  [start] on a client that was
    never connected throws, its socket is not open. *)
Theorem udp_errors_reported p s ec h w :
  objs w !! p = Some s → is_error ec = true → us_handler s = Some h → msg_ok (us_msg s) →
  let report w := (sh_error h ec p (us_owner s) ;; mret tt) w in
  (us_receives s ≠ [] → ∀ from,
     udp_complete_receive p ec [] from w = report (obj_upd p (us_set_receives tail s) w)) ∧
  (us_sends s ≠ [] → udp_complete_send p ec w = report (obj_upd p (us_set_sends tail s) w)) ∧
  (us_connects s ≠ O → udp_complete_connect p ec w =
     report (obj_upd p (us_set_connects Nat.pred s) w)) ∧
  (us_open s = false → UdpSession_start p w = Throws system_error w).
Proof.
  intros Hs He Hh [Hmh Hmb] report. split_and!; intros Hop.
  - intros from. unfold udp_complete_receive. obj_run.
    destruct (us_receives s) as [|op rest] eqn:Hr; [done|].
    rewrite (bind_lift _ (us_msg s)).
    2:{ rewrite store_0 by (cbn; unfold sizeof_Msg, hdrLength, MAX_CP_MSG_DATA; lia).
        unfold overlay. by rewrite splice_nil, msg_of_bytes_of_msg. }
    obj_run. rewrite He. cbn [negb andb when]. obj_run.
    unfold UdpSession_handleRead. rewrite He. cbn [negb].
    erewrite udp_report_ok by (apply lookup_obj_upd || by destruct s).
    unfold report. destruct s; cbn in *; by subst.
  - unfold udp_complete_send. obj_run. destruct (us_sends s) eqn:Hw; [done|]. obj_run.
    unfold UdpSession_handleWrite. rewrite He. cbn [negb when]. obj_run.
    erewrite udp_report_ok by (apply lookup_obj_upd || by destruct s). by destruct s.
  - unfold udp_complete_connect. obj_run. destruct (us_connects s) eqn:Hw; [done|]. obj_run.
    unfold UdpSession_handleConnect. rewrite He. cbn [negb].
    erewrite udp_report_ok by (apply lookup_obj_upd || by destruct s). by destruct s.
  - unfold UdpSession_start. obj_run. by rewrite Hop.
Qed.
End Theorems.

(** ** Instances at concrete inputs *)

Definition udp_old : Msg := mkMsg (mkHdr 1 0 2 3) ([98; 0] ++ replicate 1022 0).
Definition udp_reply : Msg := mkMsg (mkHdr 1 0 1 7) (replicate 1024 65).
Definition udp_alice : endpoint := mkEndpoint "10.0.0.1" 5001.
Definition udp_bob : endpoint := mkEndpoint "10.0.0.2" 5002.

Definition udp_demo (t : UdpType) (receives : list UdpType) : UdpSession :=
  mkUdpSession true 0 receives [] [] true endpoint_any udp_alice t udp_old udp_reply 0
    (Some 5%nat) None.

(** A process of UDP sessions whose handler does nothing. *)
#[program] Definition udp_self : Field udp_heap udp_heap := {| fget w := w; fset x _ := x |}.
Solve All Obligations with done.
Definition udp_quiet : SessionHandler udp_heap :=
  {| sh_read _ _ _ _ _ := mret true; sh_error _ _ _ _ := mret true;
     sh_connect _ _ _ := mret true |}.

(** A three-byte datagram: version and result are its own, the length is mixed
    with the old one. *)
Lemma udp_receive_dispatch_witness :
  ∃ s', @udp_complete_receive udp_heap udp_self udp_quiet 1%nat Success [9; 0; 5] udp_bob
      {[1%nat := udp_demo UDP_SERVER [UDP_SERVER]]} =
    Ok tt (@obj_upd _ _ udp_self 1%nat s' {[1%nat := udp_demo UDP_SERVER [UDP_SERVER]]}) ∧
    msg_hdr (us_msg s') = mkHdr 9 0 5 3 ∧ us_epRemote s' = udp_bob ∧ us_receives s' = [UDP_SERVER].
Proof.
  destruct (@udp_receive_dispatch udp_heap udp_self udp_quiet 1%nat
    (udp_demo UDP_SERVER [UDP_SERVER]) 5%nat [9; 0; 5] udp_bob
    {[1%nat := udp_demo UDP_SERVER [UDP_SERVER]]}) as (Hrun & Hm & _ & _ & Hshort & Hep).
  - reflexivity.
  - reflexivity.
  - reflexivity.
  - apply (bool_decide_unpack _). vm_compute. exact I.
  - split; [apply (bool_decide_unpack _); vm_compute; exact I|vm_compute; congruence].
  - destruct (Hrun true _ (udp_received [9; 0; 5] udp_bob (udp_demo UDP_SERVER [UDP_SERVER])) eq_refl)
      as [Hr Hrec]; [apply lookup_obj_upd|reflexivity|reflexivity|].
    eexists. split; [rewrite Hr, obj_upd_upd; reflexivity|].
    split; [exact (eq_trans (f_equal msg_hdr Hm) (Hshort ltac:(cbn; lia)))|].
    split; [exact Hep|exact Hrec].
Defined.

(** The server means to reply with "A", and sends a byte of the request. *)
Lemma udp_send_spec_witness :
  (@UdpSession_asyncSend udp_heap udp_self 1%nat ;;
   @udp_complete_send udp_heap udp_self udp_quiet 1%nat Success)
    {[1%nat := udp_demo UDP_SERVER []]} =
  Ok tt (@obj_upd _ _ udp_self 1%nat
    (us_set_out (λ o, o ++ [(Some udp_alice, [1; 0; 2; 0; 3; 0; 0; 0; 98])]) (udp_demo UDP_SERVER []))
    {[1%nat := udp_demo UDP_SERVER []]}).
Proof.
  refine (@udp_send_spec udp_heap udp_self udp_quiet 1%nat (udp_demo UDP_SERVER []) _ _ _ _).
  - reflexivity.
  - reflexivity.
  - apply (bool_decide_unpack _). vm_compute. exact I.
Defined.

Lemma udp_reply_leak_witness :
  ∃ s', (@UdpSession_asyncSend udp_heap udp_self 1%nat ;;
    @udp_complete_receive udp_heap udp_self udp_quiet 1%nat Success
      [1; 0; 2; 0; 3; 0; 0; 0; 115; 0] udp_bob ;;
    @udp_complete_send udp_heap udp_self udp_quiet 1%nat Success)
      {[1%nat := udp_demo UDP_SERVER [UDP_SERVER]]} =
      Ok tt (@obj_upd _ _ udp_self 1%nat s' {[1%nat := udp_demo UDP_SERVER [UDP_SERVER]]}) ∧
    us_out s' = [(Some udp_alice, [1; 0; 2; 0; 3; 0; 0; 0; 115])].
Proof.
  destruct (@udp_reply_leak udp_heap udp_self udp_quiet 1%nat (udp_demo UDP_SERVER [UDP_SERVER])
    5%nat [1; 0; 2; 0; 3; 0; 0; 0; 115; 0] udp_bob {[1%nat := udp_demo UDP_SERVER [UDP_SERVER]]})
    as (s' & Hr & Ho & _).
  - reflexivity.
  - reflexivity.
  - reflexivity.
  - reflexivity.
  - reflexivity.
  - apply (bool_decide_unpack _). vm_compute. exact I.
  - split; [apply (bool_decide_unpack _); vm_compute; exact I|vm_compute; congruence].
  - reflexivity.
  - vm_compute. congruence.
  - vm_compute. congruence.
  - exists s'. split; [exact Hr|]. rewrite Ho. vm_compute. reflexivity.
Defined.

Lemma udp_errors_reported_witness :
  @udp_complete_receive udp_heap udp_self udp_quiet 1%nat (Error_other 111) [] udp_bob
    {[1%nat := udp_demo UDP_SERVER [UDP_SERVER]]} =
  Ok tt (@obj_upd _ _ udp_self 1%nat (udp_demo UDP_SERVER [])
           {[1%nat := udp_demo UDP_SERVER [UDP_SERVER]]}).
Proof.
  refine (proj1 (@udp_errors_reported udp_heap udp_self udp_quiet 1%nat
    (udp_demo UDP_SERVER [UDP_SERVER]) (Error_other 111) 5%nat
    {[1%nat := udp_demo UDP_SERVER [UDP_SERVER]]} _ _ _ _) _ udp_bob).
  - reflexivity.
  - reflexivity.
  - reflexivity.
  - apply (bool_decide_unpack _). vm_compute. exact I.
  - discriminate.
Defined.
