(* ===== verification/LegacySession.v ===== *)
(** * The older session (Src/TcpSession.cpp behind [#if 0], Src/Incl.h)

    The second half of TcpSession.cpp: a session on the handler interface of
    IfSession.h, which the party server and its client were written for.  It
    reads whole buffers with [async_read], skips headers that [checkHeader]
    refuses, and wraps its handlers in a strand unless every session has an
    io_service of its own.  TcpSession.h no longer declares the members it
    uses; the record below has those the code names, with the types of the
    members that replaced them.  The [handleWrite] that its writes are bound to
    is gone too: the one in the file is that of the newer session, on other
    members.  So a write is started here and never completes, and nothing is
    said of what follows one. *)
From S2P Require Import Prelude Msg Session IfSession.

(** ** State *)

Inductive IoMode := SINGLE_ASIO | MULTI_ASIO.

#[export] Instance IoMode_eq_dec : EqDecision IoMode.
Proof. solve_decision. Defined.

(** What an outstanding [async_read] fills; the body read carries the copies of
    [msgId] and [bodyLength] its handler was bound to. *)
Inductive lg_target :=
  | Lg_header
  | Lg_body (msgId length : Z).

Definition lg_offset (t : lg_target) : Z :=
  match t with Lg_header => 0 | Lg_body _ _ => hdrLength end.

(** An outstanding operation: [size] bytes, its handler wrapped by the strand
    or not. *)
Record lg_op (T : Type) := mkLgOp { lo_target : T; lo_size : Z; lo_strand : bool }.
Arguments mkLgOp {T}.
Arguments lo_target {T}.
Arguments lo_size {T}.
Arguments lo_strand {T}.

(** The writes are of the front of the queue. *)
Record LegacySession := mkLegacySession {
  lg_ioMode : IoMode;
  lg_connects : nat;
  lg_reads : list (lg_op lg_target);
  lg_writes : list (lg_op unit);
  lg_msg : Msg;
  lg_sendMsg : Msg;
  lg_sendQue : list Msg;
  lg_rx : Z;                         (* uint64_t *)
  lg_handler : option ptr;
  lg_owner : option ptr
}.

Section Setters.
Implicit Types s : LegacySession.
Definition lg_set_connects f s := mkLegacySession (lg_ioMode s) (f (lg_connects s)) (lg_reads s)
  (lg_writes s) (lg_msg s) (lg_sendMsg s) (lg_sendQue s) (lg_rx s) (lg_handler s) (lg_owner s).
Definition lg_set_reads f s := mkLegacySession (lg_ioMode s) (lg_connects s) (f (lg_reads s))
  (lg_writes s) (lg_msg s) (lg_sendMsg s) (lg_sendQue s) (lg_rx s) (lg_handler s) (lg_owner s).
Definition lg_set_writes f s := mkLegacySession (lg_ioMode s) (lg_connects s) (lg_reads s)
  (f (lg_writes s)) (lg_msg s) (lg_sendMsg s) (lg_sendQue s) (lg_rx s) (lg_handler s) (lg_owner s).
Definition lg_set_msg x s := mkLegacySession (lg_ioMode s) (lg_connects s) (lg_reads s)
  (lg_writes s) x (lg_sendMsg s) (lg_sendQue s) (lg_rx s) (lg_handler s) (lg_owner s).
Definition lg_set_sendMsg x s := mkLegacySession (lg_ioMode s) (lg_connects s) (lg_reads s)
  (lg_writes s) (lg_msg s) x (lg_sendQue s) (lg_rx s) (lg_handler s) (lg_owner s).
Definition lg_set_sendQue f s := mkLegacySession (lg_ioMode s) (lg_connects s) (lg_reads s)
  (lg_writes s) (lg_msg s) (lg_sendMsg s) (f (lg_sendQue s)) (lg_rx s) (lg_handler s) (lg_owner s).
Definition lg_set_rx x s := mkLegacySession (lg_ioMode s) (lg_connects s) (lg_reads s)
  (lg_writes s) (lg_msg s) (lg_sendMsg s) (lg_sendQue s) x (lg_handler s) (lg_owner s).
Definition lg_set_owner x s := mkLegacySession (lg_ioMode s) (lg_connects s) (lg_reads s)
  (lg_writes s) (lg_msg s) (lg_sendMsg s) (lg_sendQue s) (lg_rx s) (lg_handler s) x.
End Setters.

Abbreviation lg_heap := (gmap ptr LegacySession).

(** ** Operations *)

Section Operations.
Context {W : Type} `{FL : !Field W lg_heap} `{SH : !SessionHandler W}.

(** The two calls every asynchronous operation is written twice as:
    [if( m_ioMode == MULTI_ASIO ) { async_...(handler); return; }
     async_...(m_strand.wrap(handler));] *)
Definition lg_async_read (this : ptr) (t : lg_target) (size : Z) : M W unit :=
  s ← obj_get this;
  if decide (lg_ioMode s = MULTI_ASIO) then
    obj_set this (lg_set_reads (λ l, l ++ [mkLgOp t size false]))
  else obj_set this (lg_set_reads (λ l, l ++ [mkLgOp t size true])).

(** [void asyncSend(Msg&)] *)
Definition LegacySession_asyncSend (this : ptr) (msg : Msg) : M W unit := mret tt.

(** [void asyncSend()] *)
Definition LegacySession_asyncSend_next (this : ptr) : M W unit :=
  s ← obj_get this;
  let progress := negb (bool_decide (lg_sendQue s = [])) in
  obj_set this (lg_set_sendQue (λ q, q ++ [lg_sendMsg s])) ;;
  if negb progress then
    s ← obj_get this;
    front ← lift (match lg_sendQue s with m :: _ => Val m | [] => Bad UB_empty_deque end);
    let size := size_t (msg_length front) in
    if decide (lg_ioMode s = MULTI_ASIO) then
      obj_set this (lg_set_writes (λ l, l ++ [mkLgOp tt size false]))
    else obj_set this (lg_set_writes (λ l, l ++ [mkLgOp tt size true]))
  else mret tt.

(** [void asyncConnect()]: its handler is bound without the strand. *)
Definition LegacySession_asyncConnect (this : ptr) : M W unit :=
  obj_set this (lg_set_connects S).

(** [void asyncRead()] *)
Definition LegacySession_asyncRead (this : ptr) : M W unit :=
  lg_async_read this Lg_header hdrLength.

(** [m_handler->error(error, shared_from_this(), m_owner);] *)
Definition lg_report (this : ptr) (error : error_code) : M W unit :=
  s ← obj_get this;
  virtual_call (lg_handler s) (λ h, sh_error h error this (lg_owner s)) ;; mret tt.

(** [void handleConnect(const error_code&)] *)
Definition LegacySession_handleConnect (this : ptr) (error : error_code) : M W unit :=
  if negb (is_error error) then
    s ← obj_get this;
    virtual_call (lg_handler s) (λ h, sh_connect h this (lg_owner s)) ;; mret tt
  else lg_report this error.

(** [void handleReadHeader(const error_code&)] *)
Definition LegacySession_handleReadHeader (this : ptr) (error : error_code) : M W unit :=
  if negb (is_error error) then
    s ← obj_get this;
    if negb (checkHeader (lg_msg s)) then lg_async_read this Lg_header hdrLength
    else
      let hdr := msg_hdr (lg_msg s) in
      lg_async_read this (Lg_body (hdr_msgId hdr) (hdr_bodyLength hdr))
        (size_t (bodyLength (lg_msg s)))
  else lg_report this error.

(** [void handleReadBody(uint32_t& msgId, int16_t& length, const error_code&)];
    the answer of [read] decides only whether an error is logged. *)
Definition LegacySession_handleReadBody (this : ptr) (msgId length : Z) (error : error_code) :
    M W unit :=
  if negb (is_error error) then
    s ← obj_get this;
    obj_set this (lg_set_rx (u64 (lg_rx s + u64 (msg_length (lg_msg s))))) ;;
    virtual_call (lg_handler s) (λ h, sh_read h msgId length this (lg_owner s)) ;;
    lg_async_read this Lg_header hdrLength
  else lg_report this error.

(** *** What the asio service does *)

Definition lg_complete_connect (this : ptr) (ec : error_code) : M W unit :=
  s ← obj_get this;
  match lg_connects s with
  | O => mret tt
  | S _ => obj_set this (lg_set_connects Nat.pred) ;; LegacySession_handleConnect this ec
  end.

Definition lg_complete_read (this : ptr) (ec : error_code) (bs : list Z) : M W unit :=
  s ← obj_get this;
  match lg_reads s with
  | [] => mret tt
  | op :: _ =>
      m ← lift (store (lg_offset (lo_target op)) bs (lg_msg s));
      obj_set this (λ s, lg_set_msg m (lg_set_reads tail s)) ;;
      match lo_target op with
      | Lg_header => LegacySession_handleReadHeader this ec
      | Lg_body msgId length => LegacySession_handleReadBody this msgId length ec
      end
  end.
End Operations.

(** What the asio documentation promises of the oldest read. *)
Definition lg_read_completion (s : LegacySession) (ec : error_code) (bs : list Z) : Prop :=
  ∃ op rest, lg_reads s = op :: rest ∧ Forall byte_ok bs ∧
    (is_error ec = false → Z.of_nat (length bs) = lo_size op) ∧
    (is_error ec = true → Z.of_nat (length bs) < lo_size op).

(** ** The receive path *)

(** Whether the handlers of a session run under its strand. *)
Definition lg_strand (s : LegacySession) : bool := bool_decide (lg_ioMode s = SINGLE_ASIO).

Definition lg_add_read (t : lg_target) (size : Z) (s : LegacySession) : LegacySession :=
  lg_set_reads (λ l, l ++ [mkLgOp t size (lg_strand s)]) s.

Definition lg_waiting_header (s : LegacySession) : Prop :=
  lg_reads s = [mkLgOp Lg_header hdrLength (lg_strand s)].

(** A peer sends messages; of one whose header [checkHeader] refuses only the
    header counts as an item of the stream. *)
Definition item_bytes (m : Msg) : list Z :=
  if checkHeader m then frame m else bytes_of_hdr (msg_hdr m).
Definition item_ok (m : Msg) : Prop := msg_ok m ∧ (checkHeader m = true → 0 <= bodyLength m).
Definition item_reads (m : Msg) : nat := if checkHeader m then 2 else 1.

#[export] Instance item_ok_dec m : Decision (item_ok m).
Proof. unfold item_ok. apply _. Defined.

Definition items (ms : list Msg) : list Z := concat (item_bytes <$> ms).
Definition items_reads (ms : list Msg) : nat := sum_list_with item_reads ms.
Definition accepted (ms : list Msg) : list Msg := filter (λ m, checkHeader m = true) ms.

(** The message object after an item, and the objects that the handler sees. *)
Definition lg_object (old m : Msg) : Msg :=
  if checkHeader m then received m old else mkMsg (msg_hdr m) (msg_body old).
Fixpoint lg_objects (old : Msg) (ms : list Msg) : list Msg :=
  match ms with
  | [] => []
  | m :: ms =>
      let obj := lg_object old m in
      if checkHeader m then obj :: lg_objects obj ms else lg_objects obj ms
  end.

Lemma checkHeader_hdr m m' : msg_hdr m = msg_hdr m' → checkHeader m = checkHeader m'.
Proof. unfold checkHeader. by intros ->. Qed.

Lemma item_sendable m : item_ok m → checkHeader m = true → sendable m.
Proof.
  intros [Hm Hb] Hc. split; [done|]. specialize (Hb Hc).
  apply checkHeader_accepts in Hc as [_ ?]; [lia|done].
Qed.

Lemma lg_object_ok old m : msg_ok old → item_ok m → msg_ok (lg_object old m).
Proof.
  intros Ho Hm. unfold lg_object. destruct (checkHeader m) eqn:Hc.
  - apply received_ok; [by apply item_sendable|done].
  - split; [apply Hm|apply Ho].
Qed.

(** What the handler sees is the accepted messages, frame by frame. *)
Lemma frames_lg_objects old ms :
  Forall item_ok ms → frame <$> lg_objects old ms = frame <$> accepted ms.
Proof.
  intros Hms. revert old. induction Hms as [|m ms Hm _ IH]; intros old; [done|]. cbn [lg_objects].
  unfold lg_object. destruct (checkHeader m) eqn:Hc.
  - unfold accepted. rewrite filter_cons_True by done. rewrite !fmap_cons, IH. f_equal.
    apply frame_received. by apply item_sendable.
  - unfold accepted. by rewrite filter_cons_False, IH by by rewrite Hc.
Qed.

Section Receive.
Context {W : Type} `{FL : !Field W lg_heap} `{SH : !SessionHandler W}.
Implicit Types (w : W) (s : LegacySession) (p : ptr) (m : Msg).

Lemma lg_async_read_ok p s t size w :
  objs w !! p = Some s → lg_async_read p t size w = Ok tt (obj_upd p (lg_add_read t size s) w).
Proof.
  intros Hs. unfold lg_async_read, lg_add_read, lg_strand. obj_run.
  destruct (decide (lg_ioMode s = MULTI_ASIO)) as [E|E]; obj_run.
  - by rewrite bool_decide_false by by rewrite E.
  - rewrite bool_decide_true; [done|]. by destruct (lg_ioMode s).
Qed.

Lemma lg_report_ok p s h ec w :
  objs w !! p = Some s → lg_handler s = Some h →
  lg_report p ec w = (sh_error h ec p (lg_owner s) ;; mret tt) w.
Proof. intros Hs Hh. unfold lg_report. obj_run. by rewrite Hh. Qed.

(** A complete header is followed by a read of the body it announces, or of
    the next header. *)
Definition lg_after_header (m : Msg) (s : LegacySession) : LegacySession :=
  let s := lg_set_msg m (lg_set_reads tail s) in
  if checkHeader m
  then lg_add_read (Lg_body (hdr_msgId (msg_hdr m)) (bodyLength m)) (size_t (bodyLength m)) s
  else lg_add_read Lg_header hdrLength s.

Lemma lg_header_ok p s bs m size b rest w :
  objs w !! p = Some s → lg_reads s = mkLgOp Lg_header size b :: rest →
  store 0 bs (lg_msg s) = Val m →
  lg_complete_read p Success bs w = Ok tt (obj_upd p (lg_after_header m s) w).
Proof.
  intros Hs Hr Hst. unfold lg_complete_read. obj_run. rewrite Hr. cbn [lo_target lg_offset].
  rewrite (bind_lift _ m) by done. obj_run.
  unfold LegacySession_handleReadHeader. cbn [is_error negb]. obj_run.
  unfold lg_after_header. cbn [lg_msg lg_set_msg]. destruct (checkHeader m); cbn [negb];
    erewrite lg_async_read_ok by apply lookup_obj_upd; by rewrite obj_upd_upd.
Qed.

(** The session right before the handler runs. *)
Definition lg_before_read (m : Msg) (s : LegacySession) : LegacySession :=
  lg_set_rx (u64 (lg_rx s + u64 (msg_length m))) (lg_set_msg m (lg_set_reads tail s)).

Lemma lg_body_ok p s bs m id len size b rest w :
  objs w !! p = Some s → lg_reads s = mkLgOp (Lg_body id len) size b :: rest →
  store 8 bs (lg_msg s) = Val m →
  lg_complete_read p Success bs w =
    (virtual_call (lg_handler s) (λ h, sh_read h id len p (lg_owner s)) ;;
     lg_async_read p Lg_header hdrLength)
      (obj_upd p (lg_before_read m s) w).
Proof.
  intros Hs Hr Hst. unfold lg_complete_read. obj_run. rewrite Hr. cbn [lo_target lg_offset].
  rewrite (bind_lift _ m) by done. obj_run.
  unfold LegacySession_handleReadBody. cbn [is_error negb]. by obj_run.
Qed.

(** All bytes of [input] have arrived. *)
Fixpoint lg_pump (fuel : nat) (p : ptr) (input : list Z) : M W (list Z) :=
  match fuel with
  | O => mret input
  | S fuel =>
      s ← obj_get p;
      match lg_reads s with
      | [] => mret input
      | op :: _ =>
          if Z.of_nat (length input) <? lo_size op then mret input
          else
            lg_complete_read p Success (take (Z.to_nat (lo_size op)) input) ;;
            lg_pump fuel p (drop (Z.to_nat (lo_size op)) input)
      end
  end.

Lemma lg_pump_step p s t b reads bs rest n w :
  objs w !! p = Some s → lg_reads s = mkLgOp t (Z.of_nat (length bs)) b :: reads →
  lg_pump (S n) p (bs ++ rest) w = (lg_complete_read p Success bs ;; lg_pump n p rest) w.
Proof.
  intros Hs Hr. cbn [lg_pump]. obj_run. rewrite Hr. cbn [lo_size].
  rewrite length_app, Nat2Z.id. case_cmp; [lia|].
  by rewrite take_app_length, drop_app_length.
Qed.

(** What a handler may do to the session that calls it: send on it. *)
Definition lg_sends (s s' : LegacySession) : Prop :=
  lg_reads s' = lg_reads s ∧ lg_msg s' = lg_msg s ∧ lg_handler s' = lg_handler s ∧
  lg_owner s' = lg_owner s ∧ lg_ioMode s' = lg_ioMode s ∧ lg_rx s' = lg_rx s.

(** One completion reads a refused header. *)
Lemma lg_pump_refused p m s rest n w :
  objs w !! p = Some s → lg_waiting_header s → msg_ok (lg_msg s) → msg_ok m → checkHeader m = false →
  lg_pump (S n) p (item_bytes m ++ rest) w =
    lg_pump n p rest (obj_upd p (lg_set_msg (lg_object (lg_msg s) m) s) w).
Proof.
  intros Hs Hwh Hok Hm Hc. unfold item_bytes, lg_object. rewrite Hc.
  erewrite lg_pump_step; [|done|by rewrite length_bytes_of_hdr].
  erewrite bind_ok.
  2:{ eapply lg_header_ok; [done|exact Hwh|]. apply store_header; [apply Hok|].
      apply length_bytes_of_hdr. }
  rewrite hdr_of_bytes_of_hdr by apply Hm. do 2 f_equal. unfold lg_after_header.
  change (checkHeader (mkMsg _ _)) with (checkHeader m) at 1. rewrite Hc.
  unfold lg_waiting_header, lg_strand in *. destruct s; cbn in *; subst. done.
Qed.

(** Two completions read a frame. *)
Lemma lg_pump_frame p m s rest n w :
  objs w !! p = Some s → lg_waiting_header s → msg_ok (lg_msg s) → sendable m → checkHeader m = true →
  lg_pump (S (S n)) p (item_bytes m ++ rest) w =
    ((virtual_call (lg_handler s)
        (λ h, sh_read h (hdr_msgId (msg_hdr m)) (bodyLength m) p (lg_owner s)) ;;
      lg_async_read p Lg_header hdrLength) ≫= λ _, lg_pump n p rest)
      (obj_upd p (lg_before_read (lg_object (lg_msg s) m) s) w).
Proof.
  intros Hs Hwh Hok Hm Hc. set (body := take (Z.to_nat (bodyLength m)) (msg_body m)).
  assert (Hbl : Z.of_nat (length body) = bodyLength m).
  { unfold body. rewrite length_take_body by done. destruct Hm. lia. }
  set (m1 := mkMsg (msg_hdr m) (msg_body (lg_msg s))).
  assert (Hn : size_t (bodyLength m) = Z.of_nat (length body)).
  { rewrite Hbl. destruct Hm as [_ Hm]. apply wrapU_id. unfold in_u, MAX_CP_MSG_DATA in *. lia. }
  unfold item_bytes, lg_object. rewrite Hc, frame_split, <- app_assoc by apply Hm. fold body.
  erewrite lg_pump_step; [|done|by rewrite length_bytes_of_hdr].
  erewrite bind_ok.
  2:{ eapply lg_header_ok; [done|exact Hwh|]. apply store_header; [apply Hok|].
      apply length_bytes_of_hdr. }
  rewrite hdr_of_bytes_of_hdr by apply Hm. fold m1. unfold lg_after_header.
  change (checkHeader m1) with (checkHeader m). rewrite Hc. change (bodyLength m1) with (bodyLength m).
  change (msg_hdr m1) with (msg_hdr m). rewrite Hn. unfold lg_waiting_header, lg_strand in Hwh.
  destruct s as [? ? ? ? old ? ? ? ? ?]; cbn in Hs, Hwh, Hok; subst.
  erewrite lg_pump_step; [|apply lookup_obj_upd|reflexivity].
  apply bind_cong. erewrite lg_body_ok; [|apply lookup_obj_upd|reflexivity|].
  2:{ apply store_body; [apply Hm|]. destruct Hm as [_ Hm]. lia. }
  by rewrite obj_upd_upd.
Qed.
End Receive.

(** ** Delivery of a stream *)

Definition lengths (ms : list Msg) : Z := foldr (λ m n, msg_length m + n) 0 ms.

Section Stream.
Context {W : Type} `{FL : !Field W lg_heap} `{SH : !SessionHandler W}.
Implicit Types (w : W) (s : LegacySession).

(** The handler [h] sees messages of session [p] one at a time: [obs] is what
    it keeps, [see] what a message changes of it. *)
Definition lg_sees {A} (obs : W → A) (see : Msg → A → A) (p h : ptr) (o : option ptr) : Prop :=
  ∀ s w, objs w !! p = Some s →
    ∃ b w' s', sh_read h (hdr_msgId (msg_hdr (lg_msg s))) (bodyLength (lg_msg s)) p o w = Ok b w' ∧
      objs w' !! p = Some s' ∧ lg_sends s s' ∧ obs w' = see (lg_msg s) (obs w).

Lemma lg_stream {A} (obs : W → A) (see : Msg → A → A) p h o ms s w :
  lg_sees obs see p h o → (∀ s w, obs (obj_upd p s w) = obs w) →
  objs w !! p = Some s → lg_waiting_header s → msg_ok (lg_msg s) →
  lg_handler s = Some h → lg_owner s = o → Forall item_ok ms →
  ∃ w' s', lg_pump (items_reads ms) p (items ms) w = Ok [] w' ∧
    obs w' = foldl (λ a m, see m a) (obs w) (lg_objects (lg_msg s) ms) ∧
    objs w' !! p = Some s' ∧ lg_waiting_header s' ∧ lg_handler s' = Some h ∧ lg_owner s' = o ∧
    u64 (lg_rx s') = u64 (lg_rx s + lengths (accepted ms)).
Proof.
  intros Hsee Hobs Hs Hwh Hok Hh Ho Hms. revert s w Hs Hwh Hok Hh Ho.
  induction Hms as [|m ms Hm Hms IH]; intros s w Hs Hwh Hok Hh Ho.
  { exists w, s. cbn. by rewrite Z.add_0_r. }
  change (items (m :: ms)) with (item_bytes m ++ items ms).
  change (items_reads (m :: ms)) with (item_reads m + items_reads ms)%nat.
  pose proof (lg_object_ok _ m Hok Hm) as Hok'. cbn [lg_objects].
  unfold item_reads, accepted. destruct (checkHeader m) eqn:Hc.
  - change (2 + items_reads ms)%nat with (S (S (items_reads ms))).
    rewrite (lg_pump_frame p m s) by (done || by apply item_sendable).
    rewrite Hh, Ho, bind_assoc. cbn [virtual_call]. rewrite filter_cons_True by done.
    set (s1 := lg_before_read (lg_object (lg_msg s) m) s).
    assert (Hhdr : msg_hdr (lg_msg s1) = msg_hdr m) by (unfold s1, lg_object; by rewrite Hc).
    destruct (Hsee s1 (obj_upd p s1 w)) as (b & w1 & s2 & Hrun & Hs2 & (Hr2 & Hm2 & Hh2 & Ho2 & Hi2 & Hx2) & Hob);
      [apply lookup_obj_upd|]. unfold bodyLength in Hrun. rewrite Hhdr in Hrun.
    erewrite bind_ok by exact Hrun. erewrite bind_ok by by apply lg_async_read_ok.
    destruct (IH (lg_add_read Lg_header hdrLength s2) (obj_upd p (lg_add_read Lg_header hdrLength s2) w1))
      as (w' & s' & Hp & Ho' & Hl & Hw' & Hh' & Hown & Hx').
    + apply lookup_obj_upd.
    + unfold lg_waiting_header, lg_strand in *. cbn. unfold lg_strand. rewrite Hr2, Hi2. cbn. by rewrite Hwh.
    + cbn. by rewrite Hm2.
    + cbn. by rewrite Hh2.
    + cbn. by rewrite Ho2.
    + exists w', s'. split_and!; try done.
      * rewrite Ho', Hobs, Hob, Hobs. cbn. by rewrite Hm2.
      * rewrite Hx'. cbn. rewrite Hx2. cbn. unfold wrapU, lg_object. rewrite Hc. unfold msg_length. cbn.
change (foldr _ 0 (m :: accepted ms)) with (msg_length m + lengths (accepted ms)).
        unfold msg_length. rewrite Zplus_mod_idemp_l, <- (Z.add_assoc (lg_rx s)).
        by rewrite <- Zplus_mod_idemp_r, Zplus_mod_idemp_l, Zplus_mod_idemp_r.
  - rewrite filter_cons_False by by rewrite Hc. change (1 + items_reads ms)%nat with (S (items_reads ms)).
    rewrite (lg_pump_refused p m s) by (done || apply Hm).
    destruct (IH (lg_set_msg (lg_object (lg_msg s) m) s) (obj_upd p (lg_set_msg (lg_object (lg_msg s) m) s) w))
      as (w' & s' & Hp & Ho' & Hrest); [apply lookup_obj_upd|done..|].
    exists w', s'. split; [exact Hp|]. split; [|exact Hrest]. by rewrite Ho', Hobs.
Qed.
End Stream.

(** ** Events *)

(** What can happen to a session up to its first completed write: a connect or a
    read completes, or the application encodes a message into [m_sendMsg] and
    sends it. *)
Inductive lg_event :=
  | Lg_connected (p : ptr) (ec : error_code)
  | Lg_received (p : ptr) (ec : error_code) (bs : list Z)
  | Lg_send (p : ptr) (m : Msg).

Section Events.
Context {W : Type} `{FL : !Field W lg_heap} `{SH : !SessionHandler W}.

Definition lg_run (e : lg_event) : M W unit :=
  match e with
  | Lg_connected p ec => lg_complete_connect p ec
  | Lg_received p ec bs => lg_complete_read p ec bs
  | Lg_send p m => obj_set p (lg_set_sendMsg m) ;; LegacySession_asyncSend_next p
  end.

End Events.

(** ** Properties *)

Section Theorems.
Context {W : Type} `{FL : !Field W lg_heap} `{SH : !SessionHandler W}.
Implicit Types (w : W) (s : LegacySession).

(** the older session delivers its stream.  The peer sends any sequence of
    messages, of those whose header [checkHeader] refuses only the header: when
    the bytes have arrived at a session waiting for a header, two completions
    per accepted message and one per refused header consume all of them; the
    handler's [read] runs once per accepted message, in order, with its id,
    its length and exactly its frame in the object, and never for a refused
    header; [m_rx] grows by the bytes of the accepted messages, and the session
    waits for the next header, under its strand if it has to.  [obs] is
    whatever the handler records. *)
Theorem legacy_stream_delivery (obs : W → list (Z * Z * list Z)) p h o ms s w :
  lg_sees obs (λ m l, l ++ [(hdr_msgId (msg_hdr m), bodyLength m, frame m)]) p h o →
  (∀ s w, obs (obj_upd p s w) = obs w) →
  objs w !! p = Some s → lg_waiting_header s → msg_ok (lg_msg s) →
  lg_handler s = Some h → lg_owner s = o → Forall item_ok ms →
  ∃ w' s', lg_pump (items_reads ms) p (items ms) w = Ok [] w' ∧
    obs w' = obs w ++ ((λ m, (hdr_msgId (msg_hdr m), bodyLength m, frame m)) <$> accepted ms) ∧
    objs w' !! p = Some s' ∧ lg_waiting_header s' ∧
    u64 (lg_rx s') = u64 (lg_rx s + lengths (accepted ms)).
Proof.
  intros Hsee Hobs Hs Hwh Hok Hh Ho Hms.
  destruct (lg_stream obs _ p h o ms s w Hsee Hobs Hs Hwh Hok Hh Ho Hms)
    as (w' & s' & Hp & Ho' & Hs' & Hw' & _ & _ & Hx).
  exists w', s'. split_and!; try done. rewrite Ho'. clear -Hms.
  generalize (obs w) as l, (lg_msg s) as old. induction Hms as [|m ms Hm _ IH]; intros l old.
  { cbn. by rewrite app_nil_r. }
  cbn [lg_objects]. unfold accepted, lg_object. destruct (checkHeader m) eqn:Hc.
  - rewrite filter_cons_True by done. cbn [foldl]. rewrite IH, <- app_assoc, fmap_cons. cbn [app].
    rewrite frame_received by by apply item_sendable. done.
  - rewrite filter_cons_False by by rewrite Hc. apply IH.
Qed.

(** C29: a refused header does not take its body with it.  When the bytes of a
    message have arrived whose header is refused and whose body is itself a
    stream of messages, a session waiting for a header goes on with the body:
    it hands every accepted message of it to its handler, as if the peer had
    sent them by themselves. *)
Theorem legacy_refused_body (obs : W → list (Z * Z * list Z)) p h o m ms s w :
  lg_sees obs (λ m l, l ++ [(hdr_msgId (msg_hdr m), bodyLength m, frame m)]) p h o →
  (∀ s w, obs (obj_upd p s w) = obs w) →
  objs w !! p = Some s → lg_waiting_header s → msg_ok (lg_msg s) →
  lg_handler s = Some h → lg_owner s = o → Forall item_ok ms →
  sendable m → checkHeader m = false → take (Z.to_nat (bodyLength m)) (msg_body m) = items ms →
  ∃ w' s', lg_pump (S (items_reads ms)) p (frame m) w = Ok [] w' ∧
    obs w' = obs w ++ ((λ m, (hdr_msgId (msg_hdr m), bodyLength m, frame m)) <$> accepted ms) ∧
    objs w' !! p = Some s' ∧ lg_waiting_header s'.
Proof.
  intros Hsee Hobs Hs Hwh Hok Hh Ho Hms [Hm Hb] Hc Hbody.
  destruct (legacy_stream_delivery obs p h o (m :: ms) s w Hsee Hobs Hs Hwh Hok Hh Ho)
    as (w' & s' & Hp & Ho' & Hs' & Hw' & _).
  { constructor; [|done]. split; [done|]. by rewrite Hc. }
  change (items (m :: ms)) with (item_bytes m ++ items ms) in Hp.
  change (items_reads (m :: ms)) with (item_reads m + items_reads ms)%nat in Hp.
  unfold item_bytes, item_reads in Hp. rewrite Hc, <- Hbody, <- frame_split in Hp by lia.
  exists w', s'. split_and!; try done. rewrite Ho'. unfold accepted. by rewrite filter_cons_False by by rewrite Hc.
Qed.

(** every failure of an older session reaches its handler once.  A failed
    connect, a failed header read and a failed body read, after any bytes that
    fit, each call the handler's [error] with the code, the session and its
    owner, and no further read is started. *)
Theorem legacy_errors_reported p s ec h w :
  objs w !! p = Some s → is_error ec = true → lg_handler s = Some h → msg_ok (lg_msg s) →
  let report w := (sh_error h ec p (lg_owner s) ;; mret tt) w in
  (lg_connects s ≠ O →
     lg_complete_connect p ec w = report (obj_upd p (lg_set_connects Nat.pred s) w)) ∧
  (∀ op rest bs m, lg_reads s = op :: rest → store (lg_offset (lo_target op)) bs (lg_msg s) = Val m →
     lg_complete_read p ec bs w = report (obj_upd p (lg_set_msg m (lg_set_reads tail s)) w)).
Proof.
  intros Hs He Hh Hok report. split.
  - intros Hc. unfold lg_complete_connect. obj_run. destruct (lg_connects s) as [|n]; [done|]. obj_run.
    unfold LegacySession_handleConnect. rewrite He. cbn [negb].
    by erewrite lg_report_ok; [|apply lookup_obj_upd|].
  - intros op rest bs m Hr Hst. unfold lg_complete_read. obj_run. rewrite Hr, (bind_lift _ m) by done. obj_run.
    destruct (lo_target op); unfold LegacySession_handleReadHeader, LegacySession_handleReadBody;
      rewrite He; cbn [negb]; by erewrite lg_report_ok; [|apply lookup_obj_upd|].
Qed.
End Theorems.

(** ** Instances at concrete inputs *)

Definition lg_zero : Msg := mkMsg (mkHdr 0 0 0 0) (replicate 1024 0).
Definition lg_hi : Msg := mkMsg (mkHdr 1 0 3 77) ([104; 105; 0] ++ replicate 1021 0).
(** Version 9 is refused; its body is the frame of [lg_hi]. *)
Definition lg_wrapped : Msg := mkMsg (mkHdr 9 0 11 5) (frame lg_hi ++ replicate 1013 0).

Definition lg_demo (mode : IoMode) (connects : nat) (reads : list (lg_op lg_target)) : LegacySession :=
  mkLegacySession mode connects reads [] lg_zero lg_hi [] 0 (Some 5%nat) (Some 6%nat).

(** A process of sessions whose handler records what it is given and starts to
    read when connected. *)
Definition lg_recorder : Type := lg_heap * list (Z * Z * list Z).
#[program] Definition lg_recorder_heap : Field lg_recorder lg_heap :=
  {| fget w := w.1; fset x w := (x, w.2) |}.
Solve All Obligations with (try by intros; destruct w).
Definition lg_record (id len : Z) (p : ptr) : M lg_recorder bool :=
  λ w, match w.1 !! p with
       | Some s => Ok true (w.1, w.2 ++ [(id, len, frame (lg_msg s))])
       | None => Ok false w
       end.
Definition lg_recorder_handler : SessionHandler lg_recorder :=
  {| sh_read _ id len p _ := lg_record id len p;
     sh_error _ _ _ _ := mret true;
     sh_connect _ p _ := @LegacySession_asyncRead lg_recorder lg_recorder_heap p ;; mret true |}.

Definition lg_start (mode : IoMode) : lg_recorder :=
  ({[1%nat := lg_demo mode 0 [mkLgOp Lg_header 8 (bool_decide (mode = SINGLE_ASIO))]]}, []).

Lemma lg_recorder_sees p h o :
  @lg_sees lg_recorder lg_recorder_heap lg_recorder_handler _ snd
    (λ m l, l ++ [(hdr_msgId (msg_hdr m), bodyLength m, frame m)]) p h o.
Proof.
  intros s w Hs. exists true, (w.1, w.2 ++ [(hdr_msgId (msg_hdr (lg_msg s)), bodyLength (lg_msg s), frame (lg_msg s))]), s.
  cbn in *. unfold lg_record, objs in *. cbn in Hs. rewrite Hs. repeat split.
Qed.

Lemma legacy_stream_delivery_witness :
  ∃ w', @lg_pump lg_recorder lg_recorder_heap lg_recorder_handler 5 1%nat
          (frame lg_hi ++ frame lg_wrapped) (lg_start SINGLE_ASIO) = Ok [] w' ∧
        w'.2 = [(77, 3, frame lg_hi); (77, 3, frame lg_hi)].
Proof.
  destruct (@legacy_stream_delivery lg_recorder lg_recorder_heap lg_recorder_handler snd 1%nat
    5%nat (Some 6%nat) [lg_hi; lg_wrapped; lg_hi] (lg_demo SINGLE_ASIO 0 [mkLgOp Lg_header 8 true])
    (lg_start SINGLE_ASIO)) as (w' & s' & Hp & Ho & _).
  - apply lg_recorder_sees.
  - reflexivity.
  - reflexivity.
  - reflexivity.
  - apply (bool_decide_unpack _). vm_compute. exact I.
  - reflexivity.
  - reflexivity.
  - apply (bool_decide_unpack _). vm_compute. exact I.
  - exists w'. split; [exact Hp|]. rewrite Ho. vm_compute. reflexivity.
Defined.

Lemma legacy_refused_body_witness :
  checkHeader lg_wrapped = false ∧
  ∃ w', @lg_pump lg_recorder lg_recorder_heap lg_recorder_handler 3 1%nat (frame lg_wrapped)
          (lg_start MULTI_ASIO) = Ok [] w' ∧ w'.2 = [(77, 3, frame lg_hi)].
Proof.
  split; [reflexivity|].
  destruct (@legacy_refused_body lg_recorder lg_recorder_heap lg_recorder_handler snd 1%nat
    5%nat (Some 6%nat) lg_wrapped [lg_hi] (lg_demo MULTI_ASIO 0 [mkLgOp Lg_header 8 false])
    (lg_start MULTI_ASIO)) as (w' & s' & Hp & Ho & _).
  - apply lg_recorder_sees.
  - reflexivity.
  - reflexivity.
  - reflexivity.
  - apply (bool_decide_unpack _). vm_compute. exact I.
  - reflexivity.
  - reflexivity.
  - apply (bool_decide_unpack _). vm_compute. exact I.
  - apply (bool_decide_unpack _). vm_compute. exact I.
  - reflexivity.
  - vm_compute. reflexivity.
  - exists w'. split; [exact Hp|]. rewrite Ho. vm_compute. reflexivity.
Defined.

Lemma legacy_errors_reported_witness :
  @lg_complete_read lg_recorder lg_recorder_heap lg_recorder_handler 1%nat Error_eof [1; 0]
    (lg_start SINGLE_ASIO) =
  Ok tt (@obj_upd _ _ lg_recorder_heap 1%nat
    (lg_set_msg (mkMsg (mkHdr 1 0 0 0) (replicate 1024 0)) (lg_demo SINGLE_ASIO 0 [])) (lg_start SINGLE_ASIO)).
Proof.
  refine (proj2 (@legacy_errors_reported lg_recorder lg_recorder_heap lg_recorder_handler 1%nat
    (lg_demo SINGLE_ASIO 0 [mkLgOp Lg_header 8 true]) Error_eof 5%nat (lg_start SINGLE_ASIO) _ _ _ _)
    (mkLgOp Lg_header 8 true) [] [1; 0] _ _ _).
  - reflexivity.
  - reflexivity.
  - reflexivity.
  - apply (bool_decide_unpack _). vm_compute. exact I.
  - reflexivity.
  - vm_compute. reflexivity.
Defined.
