(* ===== verification/Singleton.v ===== *)
(** * The singleton template (Src/Singleton.h)

    [Singleton<T>::getInstance] for any [T]: as one command, and cut into the
    steps that touch the static member, for any number of threads. *)
From S2P Require Import Prelude.

(** ** One thread *)

Section Singleton.
(** The static member [_instance] is a field of the state; [T]'s constructor is
    a command that gives the address of the object. *)
Context {W : Type} `{FI : !Field W (option nat)} (new_T : M W nat).

(** [static T* getInstance()] *)
Definition getInstance : M W (option nat) :=
  i ← fread;
  match i with
  | None => p ← new_T; fmodify (λ _ : option nat, Some p)
  | Some _ => mret tt
  end ;;
  fread.

(** [n] calls, one after the other. *)
Fixpoint getInstance_calls (n : nat) : M W (list (option nat)) :=
  match n with
  | O => mret []
  | S n => i ← getInstance; l ← getInstance_calls n; mret (i :: l)
  end.

Lemma getInstance_again (w : W) p : fget w = Some p → getInstance w = Ok (Some p) w.
Proof. intros E. unfold getInstance, fread, mbind, M_bind, get. cbn. rewrite E. cbn. by rewrite E. Qed.

Lemma calls_again n (w : W) p : fget w = Some p → getInstance_calls n w = Ok (replicate n (Some p)) w.
Proof.
  intros E. induction n as [|n IH]; [done|]. cbn. unfold mbind, M_bind.
  rewrite (getInstance_again w p E), IH. done.
Qed.

(** one object.  The first call constructs an object, which every call returns;
    the later calls do nothing else.  When the constructor throws, the member
    is as the constructor left it. *)
Theorem getInstance_once (w : W) :
  (fget w : option nat) = None →
  (∀ p w1, new_T w = Ok p w1 → ∀ n,
     getInstance_calls (S n) w = Ok (replicate (S n) (Some p)) (fset (Some p) w1)) ∧
  (∀ e w1, new_T w = Throws e w1 → getInstance w = Throws e w1).
Proof.
  intros E. split.
  - intros p w1 Hn n.
    assert (Hg : getInstance w = Ok (Some p) (fset (Some p) w1)).
    { unfold getInstance, fread, fmodify, modify, mbind, M_bind, get. cbn. rewrite E, Hn. by rewrite fget_fset. }
    cbn. unfold mbind, M_bind. rewrite Hg, (calls_again n _ p) by apply fget_fset. done.
  - intros e w1 Hn. unfold getInstance, fread, mbind, M_bind, get. cbn. by rewrite E, Hn.
Qed.
End Singleton.

(** ** Several threads *)

(** Where a call is: at the test, between the test and the assignment, at the
    return, returned. *)
Inductive call_pc := At_test | At_new | At_return | Returned (i : option nat).
#[export] Instance call_pc_eq_dec : EqDecision call_pc.
Proof. solve_decision. Defined.

(** The member, how many objects have been constructed (an object is named by
    its number), and the calls. *)
Record calls_state := mkCalls { s_instance : option nat; s_made : nat; s_calls : list call_pc }.

Definition at_call (k : nat) (c : call_pc) (s : calls_state) : calls_state :=
  mkCalls (s_instance s) (s_made s) (<[k := c]> (s_calls s)).

Definition step_call (k : nat) (s : calls_state) : option calls_state :=
  match s_calls s !! k with
  | Some At_test => Some (at_call k (match s_instance s with Some _ => At_return | None => At_new end) s)
  | Some At_new => Some (at_call k At_return (mkCalls (Some (s_made s)) (S (s_made s)) (s_calls s)))
  | Some At_return => Some (at_call k (Returned (s_instance s)) s)
  | _ => None
  end.

Definition run_calls (ks : list nat) (s : calls_state) : option calls_state := foldl (λ o k, s ← o; step_call k s) (Some s) ks.

(** A call tests only while no other is between its test and its assignment. *)
Definition guarded_call (k : nat) (s : calls_state) : Prop := s_calls s !! k = Some At_test → At_new ∉ s_calls s.
Inductive guarded_step (s : calls_state) (k : nat) : calls_state → Prop :=
  | Guarded_step s' : guarded_call k s → step_call k s = Some s' → guarded_step s k s'.

Definition start_calls (n : nat) : calls_state := mkCalls None 0 (replicate n At_test).

(** At most one object; a call past the assignment finds it. *)
Definition one_inv (s : calls_state) : Prop :=
  match s_instance s with
  | None => s_made s = 0%nat ∧ ∀ k c, s_calls s !! k = Some c → c = At_test ∨ c = At_new
  | Some p => s_made s = 1%nat ∧ p = 0%nat ∧
      ∀ k c, s_calls s !! k = Some c → c = At_test ∨ c = At_return ∨ c = Returned (Some 0%nat)
  end ∧
  ∀ j k, s_calls s !! j = Some At_new → s_calls s !! k = Some At_new → j = k.

Lemma guarded_one s k s' : one_inv s → guarded_step s k s' → one_inv s'.
Proof.
  intros [Hi Hu] [s1 Hg He]. unfold step_call in He. destruct (s_calls s !! k) as [[| | |i]|] eqn:Ek; [..|done|done];
    injection He as <-; unfold one_inv, at_call; cbn [s_instance s_made s_calls].
  - specialize (Hg Ek). destruct (s_instance s) as [p|]; destruct_and? Hi.
    + split_and!; try done; intros *; rewrite !list_lookup_insert_Some; naive_solver.
    + split_and!; try done; [intros *; rewrite list_lookup_insert_Some; naive_solver|].
      assert (Hno : ∀ j, s_calls s !! j ≠ Some At_new) by (intros j Hj; by apply Hg, (list_elem_of_lookup_2 _ j)).
      intros *. rewrite !list_lookup_insert_Some. naive_solver.
  - destruct (s_instance s) as [p|]; destruct_and? Hi; [naive_solver|].
    assert (Hno : ∀ j c, s_calls s !! j = Some c → j ≠ k → c = At_test) by naive_solver.
    rewrite H. split_and!; try done; intros *; rewrite !list_lookup_insert_Some; naive_solver.
  - destruct (s_instance s) as [p|]; destruct_and? Hi; [|naive_solver].
    split_and!; try done; intros *; rewrite !list_lookup_insert_Some; naive_solver.
Qed.

Lemma start_one n : one_inv (start_calls n).
Proof.
  split; [split; [done|]|]; cbn; intros *; [intros [-> _]%lookup_replicate; by left|].
  intros [? _]%lookup_replicate. done.
Qed.

(** the instance needs a lock.  However the calls of any number of threads are
    interleaved, if no call tests the member while another is between its test
    and its assignment, at most one object is made and every call that returns
    returns it. *)
Theorem singleton_guarded n s k i :
  reach guarded_step (start_calls n) s → s_calls s !! k = Some (Returned i) → s_made s = 1%nat ∧ i = Some 0%nat.
Proof.
  intros Hr Hk.
  assert (Hinv : one_inv s) by (clear Hk; induction Hr; [apply start_one|by eapply guarded_one]).
  destruct Hinv as [Hi _]. destruct (s_instance s); destruct_and? Hi; naive_solver.
Qed.

(** Without it the two calls of two threads can return two objects. *)
Theorem singleton_race :
  run_calls [0%nat; 1%nat; 0%nat; 0%nat; 1%nat; 1%nat] (start_calls 2) =
    Some (mkCalls (Some 1%nat) 2 [Returned (Some 0%nat); Returned (Some 1%nat)]).
Proof. reflexivity. Qed.

(** ** Instances at concrete inputs *)

(** A memory whose only content is the member and the next address. *)
#[export, refine] Instance member_field : Field (option nat * nat) (option nat) :=
  {| fget := fst; fset x w := (x, w.2) |}.
Proof. all: by try intros []. Defined.
Definition new_at_next : M (option nat * nat) nat := λ w, Ok w.2 (w.1, S w.2).

Lemma getInstance_once_witness :
  getInstance_calls new_at_next 3 (None, 7%nat) = Ok [Some 7%nat; Some 7%nat; Some 7%nat] (Some 7%nat, 8%nat).
Proof. exact (proj1 (getInstance_once new_at_next (None, 7%nat) eq_refl) 7%nat (None, 8%nat) eq_refl 2%nat). Defined.

Lemma singleton_guarded_witness :
  ∃ s, reach guarded_step (start_calls 2) s ∧ s_made s = 1%nat ∧ s_calls s !! 1%nat = Some (Returned (Some 0%nat)).
Proof.
  set (s := mkCalls (Some 0%nat) 1 [At_return; Returned (Some 0%nat)]).
  assert (Hr : reach guarded_step (start_calls 2) s).
  { eapply (reach_step _ _ _ 1%nat); [eapply (reach_step _ _ _ 1%nat); [eapply (reach_step _ _ _ 0%nat);
      [eapply (reach_step _ _ _ 0%nat); [apply reach_refl|]|]|]|]; (econstructor; [|reflexivity]);
      cbn; intros ?; try done; apply (bool_decide_unpack _); vm_compute; exact I. }
  exists s. split; [exact Hr|].
  split; [|reflexivity]. exact (proj1 (singleton_guarded 2 s 1%nat (Some 0%nat) Hr eq_refl)).
Defined.
