(* ===== verification/IoServicePool.v ===== *)
(** * IoServicePool (Src/IoServicePool.h, Src/IoServicePool.cpp)

    The pool of asio services: round-robin choice of a service, and the threads
    that run them.  A thread that calls [run] joins the threads it starts, so
    it is blocked for as long as the services are not stopped. *)
From S2P Require Import Prelude.

(** An [io_service]: kept busy by a work object, the threads that entered its
    [run], and how many of them are blocked in a [join] of a nested
    [IoServicePool::run]. *)
Record io_service := mkIos {
  ios_work : bool;
  ios_stopped : bool;
  ios_threads : nat;
  ios_blocked : nat
}.

Record IoServicePool := mkPool { m_ios : list io_service; m_next : Z (* size_t *) }.

(** The body of the constructor's loop. *)
Definition pool_push (p : IoServicePool) : IoServicePool :=
  mkPool (m_ios p ++ [mkIos true false 0 0]) (m_next p).

(** [IoServicePool(size_t size)] *)
Definition IoServicePool_new (size : Z) : IoServicePool :=
  Nat.iter (Z.to_nat size) pool_push (mkPool [] 0).

(** [io_service& getIoService()]: the index of the service. *)
Definition getIoService (p : IoServicePool) : cres (nat * IoServicePool) :=
  let next := if Z.of_nat (length (m_ios p)) <=? m_next p then 0 else m_next p in
  match m_ios p !! Z.to_nat next with
  | Some _ => Val (Z.to_nat next, mkPool (m_ios p) (next + 1))
  | None => Bad UB_out_of_range
  end.

(** A new thread enters [io_service::run]; it leaves at once if the service is
    stopped. *)
Definition ios_run (s : io_service) : io_service :=
  if ios_stopped s then s
  else mkIos (ios_work s) false (S (ios_threads s)) (ios_blocked s).

Definition ios_block (s : io_service) : io_service :=
  mkIos (ios_work s) (ios_stopped s) (ios_threads s) (S (ios_blocked s)).

(** [void run()]: one new thread per service; the caller then joins them.
    [on] is the service whose handler is the caller, if it is one. *)
Definition IoServicePool_run (on : option nat) (p : IoServicePool) : IoServicePool :=
  let ios := ios_run <$> m_ios p in
  let ios := if forallb ios_stopped ios then ios
             else match on with Some k => alter ios_block k ios | None => ios end in
  mkPool ios (m_next p).

(** [void stop()] *)
Definition ios_stop (s : io_service) : io_service :=
  mkIos (ios_work s) true (ios_threads s) (ios_blocked s).
Definition IoServicePool_stop (p : IoServicePool) : IoServicePool :=
  mkPool (ios_stop <$> m_ios p) (m_next p).

(** Threads of service [k] that can run handlers. *)
Definition live_threads (k : nat) (p : IoServicePool) : option Z :=
  (λ s, Z.of_nat (ios_threads s) - Z.of_nat (ios_blocked s)) <$> m_ios p !! k.

(** [n] calls of [getIoService] in a row. *)
Fixpoint getIoServices (n : nat) (p : IoServicePool) : cres (list nat * IoServicePool) :=
  match n with
  | O => Val ([], p)
  | S n =>
      '(k, p) ← getIoService p;
      '(ks, p) ← getIoServices n p;
      Val (k :: ks, p)
  end.

(** ** Lemmas *)

Lemma m_ios_new size : m_ios (IoServicePool_new size) = replicate (Z.to_nat size) (mkIos true false 0 0).
Proof.
  unfold IoServicePool_new. induction (Z.to_nat size) as [|n IH]; [done|].
  rewrite Nat.iter_succ. unfold pool_push at 1. cbn [m_ios]. rewrite IH.
  by rewrite <- replicate_S_end.
Qed.

Lemma m_next_new size : m_next (IoServicePool_new size) = 0.
Proof. unfold IoServicePool_new. by induction (Z.to_nat size). Qed.

(** The counter points at service [i]: [m_next] is [i], or the size when [i] is
    0 (the wrap is done by the next call). *)
Definition next_is (i : nat) (p : IoServicePool) : Prop :=
  (i < length (m_ios p))%nat ∧
  (m_next p = Z.of_nat i ∨ i = 0%nat ∧ m_next p = Z.of_nat (length (m_ios p))).

Lemma getIoService_ok i p :
  next_is i p →
  ∃ p', getIoService p = Val (i, p') ∧ m_ios p' = m_ios p ∧
    next_is (S i mod length (m_ios p)) p'.
Proof.
  intros [Hi Hn]. unfold getIoService.
  assert (Hnext : (if Z.of_nat (length (m_ios p)) <=? m_next p then 0 else m_next p) = Z.of_nat i)
    by (case_cmp; lia).
  rewrite Hnext, Nat2Z.id. destruct (lookup_lt_is_Some_2 (m_ios p) i Hi) as [x ->].
  eexists. split_and!; [done|done|]. unfold next_is. cbn [m_ios m_next].
  split; [apply Nat.mod_upper_bound; lia|].
  destruct (decide (S i = length (m_ios p))) as [E|E].
  - right. rewrite E, Nat.Div0.mod_same. split; [done|]. lia.
  - left. rewrite Nat.mod_small by lia. lia.
Qed.

Lemma getIoServices_ok n i p :
  next_is i p →
  ∃ p', getIoServices n p = Val ((λ j, (i + j) mod length (m_ios p))%nat <$> seq 0 n, p') ∧
    m_ios p' = m_ios p.
Proof.
  revert i p. induction n as [|n IH]; intros i p Hi; [by exists p|].
  destruct (getIoService_ok i p Hi) as (p1 & H1 & Hm1 & Hn1).
  destruct (IH _ p1 Hn1) as (p2 & H2 & Hm2).
  exists p2. cbn [getIoServices]. rewrite H1. cbn [mbind cres_bind]. rewrite H2. cbn [mbind cres_bind].
  split; [|by rewrite Hm2]. rewrite Hm1. cbn [seq fmap list_fmap]. do 3 f_equal.
  - rewrite Nat.add_0_r. rewrite Nat.mod_small; [done|apply Hi].
  - rewrite <- (fmap_S_seq 0 n), <- list_fmap_compose. apply list_fmap_ext. intros j x _. cbn.
    rewrite Nat.Div0.add_mod_idemp_l. f_equal. lia.
Qed.

(** Nested in a handler of service [k], [run] gives every service a thread and
    takes the handler's own from [k]. *)
Lemma live_threads_run k j n p :
  Forall (λ s, ios_stopped s = false) (m_ios p) → live_threads j p = Some n →
  live_threads j (IoServicePool_run (Some k) p) = Some (if decide (j = k) then n else n + 1).
Proof.
  intros Hp Hj. unfold live_threads, IoServicePool_run in *. cbn [m_ios].
  destruct (m_ios p !! j) as [s|] eqn:E; [|done]. cbn in Hj. injection Hj as <-.
  pose proof (Forall_lookup_1 _ _ _ _ Hp E : ios_stopped s = false) as Hs.
  assert (Hrun : ios_run s = mkIos (ios_work s) false (S (ios_threads s)) (ios_blocked s))
    by (unfold ios_run; by rewrite Hs).
  replace (forallb ios_stopped (ios_run <$> m_ios p)) with false.
  - destruct (decide (j = k)) as [->|Hne].
    + rewrite list_lookup_alter_eq, list_lookup_fmap, E. cbn. rewrite Hrun. cbn. f_equal. lia.
    + rewrite list_lookup_alter_ne by done. rewrite list_lookup_fmap, E. cbn. rewrite Hrun. cbn.
      f_equal. lia.
  - symmetry. apply not_true_is_false. rewrite forallb_forall. intros Hall.
    specialize (Hall (ios_run s)). rewrite Hrun in Hall. cbn in Hall.
    assert (false = true); [|done]. apply Hall. apply list_elem_of_In. rewrite <- Hrun.
    apply list_elem_of_fmap. exists s. split; [done|]. by eapply list_elem_of_lookup_2.
Qed.

(** ** Properties *)

(** the services are handed out round robin: from a new pool of [size]
    services, the [n] first calls return 0, 1, ..., size-1, 0, 1, ... and never
    index out of range; only an empty pool makes the call undefined. *)
Theorem getIoService_round_robin size n :
  (0 < size → ∃ p',
     getIoServices n (IoServicePool_new size) =
       Val ((λ j, j mod Z.to_nat size)%nat <$> seq 0 n, p')) ∧
  (size <= 0 → getIoService (IoServicePool_new size) = Bad UB_out_of_range).
Proof.
  split; intros Hsize.
  - assert (Hn : next_is 0 (IoServicePool_new size)).
    { unfold next_is. rewrite m_next_new, m_ios_new, length_replicate. split; [lia|by left]. }
    destruct (getIoServices_ok n 0 _ Hn) as (p' & Hp & _).
    exists p'. rewrite Hp. by rewrite m_ios_new, length_replicate.
  - unfold getIoService. rewrite m_ios_new, m_next_new. by destruct size.
Qed.

Lemma getIoService_round_robin_witness :
  ∃ p', getIoServices 5 (IoServicePool_new 3) = Val ([0; 1; 2; 0; 1]%nat, p').
Proof. apply (proj1 (getIoService_round_robin 3 5)). reflexivity. Defined.
