(* ===== verification/TcpServer.v ===== *)
(** * TcpServer (Src/Server.h, Src/TcpServer.h, Src/TcpServer.cpp)

    The acceptor, the table of sessions by id and the pool of free ids, with
    every operation and handler.  The application behind the registered
    handlers is the parameter [app]. *)
From S2P Require Import Prelude Config Msg Session TcpSession IoServicePool.

(** ** State *)

Inductive ServerState := Server_Ready | Server_Start | Server_Stop.

#[export] Instance ServerState_eq_dec : EqDecision ServerState.
Proof. solve_decision. Defined.

(** An acceptor: the service it belongs to and its local endpoint. *)
Record acceptor := mkAcceptor { ac_open : bool; ac_ios : nat; ac_ep : endpoint }.

(** [sv_socket] is the socket the next connection is accepted into;
    [sv_accepts] counts the [async_accept]s started and not completed. *)
Record TcpServer := mkTcpServer {
  sv_name : string;
  sv_config : ServerConfig;
  sv_state : ServerState;
  sv_ioServicePool : IoServicePool;
  sv_free_session_id : list Z;              (* deque<int> *)
  sv_sessions : gmap Z ptr;                 (* map<int, Ptr<Session>> *)
  sv_openedHandler : option handler;
  sv_closedHandler : option handler;
  sv_messageHandler : option handler;
  sv_acceptor : option acceptor;
  sv_socket : option socket;
  sv_accepts : nat
}.

Section Setters.
Implicit Types v : TcpServer.
Definition sv_set_state x v := mkTcpServer (sv_name v) (sv_config v) x
  (sv_ioServicePool v) (sv_free_session_id v) (sv_sessions v) (sv_openedHandler v)
  (sv_closedHandler v) (sv_messageHandler v) (sv_acceptor v) (sv_socket v) (sv_accepts v).
Definition sv_set_pool f v := mkTcpServer (sv_name v) (sv_config v) (sv_state v)
  (f (sv_ioServicePool v)) (sv_free_session_id v) (sv_sessions v) (sv_openedHandler v)
  (sv_closedHandler v) (sv_messageHandler v) (sv_acceptor v) (sv_socket v) (sv_accepts v).
Definition sv_set_free f v := mkTcpServer (sv_name v) (sv_config v) (sv_state v)
  (sv_ioServicePool v) (f (sv_free_session_id v)) (sv_sessions v) (sv_openedHandler v)
  (sv_closedHandler v) (sv_messageHandler v) (sv_acceptor v) (sv_socket v) (sv_accepts v).
Definition sv_set_sessions f v := mkTcpServer (sv_name v) (sv_config v) (sv_state v)
  (sv_ioServicePool v) (sv_free_session_id v) (f (sv_sessions v)) (sv_openedHandler v)
  (sv_closedHandler v) (sv_messageHandler v) (sv_acceptor v) (sv_socket v) (sv_accepts v).
Definition sv_set_handlers o c m v := mkTcpServer (sv_name v) (sv_config v) (sv_state v)
  (sv_ioServicePool v) (sv_free_session_id v) (sv_sessions v) o c m
  (sv_acceptor v) (sv_socket v) (sv_accepts v).
Definition sv_set_acceptor x v := mkTcpServer (sv_name v) (sv_config v) (sv_state v)
  (sv_ioServicePool v) (sv_free_session_id v) (sv_sessions v) (sv_openedHandler v)
  (sv_closedHandler v) (sv_messageHandler v) x (sv_socket v) (sv_accepts v).
Definition sv_set_socket x v := mkTcpServer (sv_name v) (sv_config v) (sv_state v)
  (sv_ioServicePool v) (sv_free_session_id v) (sv_sessions v) (sv_openedHandler v)
  (sv_closedHandler v) (sv_messageHandler v) (sv_acceptor v) x (sv_accepts v).
Definition sv_set_accepts f v := mkTcpServer (sv_name v) (sv_config v) (sv_state v)
  (sv_ioServicePool v) (sv_free_session_id v) (sv_sessions v) (sv_openedHandler v)
  (sv_closedHandler v) (sv_messageHandler v) (sv_acceptor v) (sv_socket v) (f (sv_accepts v)).
End Setters.

(** ** Operations *)

(** The constructor's loop [for( int i=0; i<config._maxSession; i++ )], from
    counter [i] with [n] iterations of fuel: [i] is compared as a [size_t], and
    [i+1] is computed as an [int]. *)
Fixpoint fill_ids (n : nat) (maxSession i : Z) (ids : list Z) : cres (list Z) :=
  if size_t i <? maxSession then
    match n with
    | O => Val ids
    | S n =>
        if i + 1 <? 2 ^ 31 then fill_ids n maxSession (i + 1) (ids ++ [i + 1])
        else Bad UB_signed_overflow
    end
  else Val ids.

(** [TcpServer(const string name, const ServerConfig& config)] *)
Definition TcpServer_new (name : string) (config : ServerConfig) : cres TcpServer :=
  ids ← fill_ids (Z.to_nat (sc_maxSession config)) (sc_maxSession config) 0 [];
  Val (mkTcpServer name config Server_Ready (IoServicePool_new (sc_threadCount config))
         ids ∅ None None None None None 0).

Section Operations.
Context {W : Type} `{FH : !Field W heap} `{FS : !Field W TcpServer}.
(** The application's handlers. *)
Context (app : Callbacks W).

Definition server : M W TcpServer := fread.
Definition set_server (f : TcpServer → TcpServer) : M W unit := fmodify f.

(** [State getState()] *)
Definition getState : M W ServerState := v ← server; mret (sv_state v).

(** [Ptr<Session> getSession(int id)]: [None] for a null pointer. *)
Definition getSession (id : Z) : M W (option ptr) :=
  v ← server; mret (sv_sessions v !! id).

Definition registerSessionOpenedHandler (h : handler) : M W unit :=
  set_server (λ v, sv_set_handlers (Some h) (sv_closedHandler v) (sv_messageHandler v) v).
Definition registerSessionClosedHandler (h : handler) : M W unit :=
  set_server (λ v, sv_set_handlers (sv_openedHandler v) (Some h) (sv_messageHandler v) v).
Definition registerMessageHandler (h : handler) : M W unit :=
  set_server (λ v, sv_set_handlers (sv_openedHandler v) (sv_closedHandler v) (Some h) v).

(** [void handleClose(const Ptr<TcpSession>&, CloseReason)] *)
Definition handleClose (session : ptr) (reason : CloseReason) : M W unit :=
  v ← server;
  match sv_closedHandler v with
  | Some h => run_closed (Callbacks := app) h session reason
  | None => mret tt
  end ;;
  id ← TcpSession_getID session;
  set_server (sv_set_sessions (delete id)) ;;
  set_server (sv_set_free (λ l, l ++ [id])).

(** The handlers a session of this server calls: the close closure made in
    [startAccept], the other ones copied from the server. *)
Definition server_callbacks : Callbacks W := {|
  run_opened := run_opened (Callbacks := app);
  run_closed h p r :=
    match h with
    | TcpServer_handleClose => handleClose p r
    | _ => run_closed (Callbacks := app) h p r
    end;
  run_message := run_message (Callbacks := app)
|}.

(** [_ioServicePool->getIoService()] *)
Definition take_ioService : M W nat :=
  v ← server;
  '(k, pool) ← lift (getIoService (sv_ioServicePool v));
  set_server (sv_set_pool (λ _, pool)) ;;
  mret k.

(** [void startAccept()], called by a handler of service [on] or by the main
    thread. *)
Definition startAccept (on : option nat) : M W unit :=
  k ← take_ioService;
  set_server (sv_set_socket (Some socket_new)) ;;
  v ← server;
  match sv_acceptor v with
  | None => undef UB_null
  | Some _ => set_server (sv_set_accepts S)
  end ;;
  set_server (sv_set_pool (IoServicePool_run on)).

(** [void listen(tcp::endpoint ep)]; [bound]: the throwing [open], [bind] and
    [listen] calls succeed. *)
Definition listen (ep : endpoint) (bound : bool) : M W unit :=
  k ← take_ioService;
  if negb bound then throw system_error
  else
    set_server (sv_set_acceptor (Some (mkAcceptor true k ep))) ;;
    set_server (sv_set_state Server_Start) ;;
    startAccept None.

(** [void start(uint16_t port)] *)
Definition start_port (port : Z) (bound : bool) : M W unit :=
  listen (mkEndpoint "0.0.0.0" (u16 port)) bound.

(** [void start(std::string address, uint16_t port)]; [parsed] is what
    [address::from_string] makes of the text ([None]: it throws). *)
Definition start_address (parsed : option string) (port : Z) (bound : bool) : M W unit :=
  match parsed with
  | None => throw system_error
  | Some a => listen (mkEndpoint a (u16 port)) bound
  end.

(** A new object on the heap. *)
Definition make_shared (s : TcpSession) : M W ptr :=
  h ← fread (T := heap);
  let p := fresh (dom h) in
  fmodify (T := heap) (<[p := s]>) ;;
  mret p.

(** The completion lambda of [async_accept].  [peer]: what [remote_endpoint]
    answers for the accepted socket; [uninit]: the indeterminate members of
    the new session. *)
Definition on_accept (error : error_code) (peer : option endpoint)
    (uninit : Msg * Z * Z) : M W unit :=
  v ← server;
  if is_error error then mret tt
  else if bool_decide (sv_state v = Server_Stop) ||
          (sc_maxSession (sv_config v) <=? Z.of_nat (size (sv_sessions v))) then
    match sv_socket v with
    | None => undef UB_null
    | Some _ => set_server (sv_set_socket None)
    end
  else
    match sv_free_session_id v with
    | [] => undef UB_empty_deque
    | id :: _ =>
        set_server (sv_set_free tail) ;;
        match sv_socket v with
        | None => undef UB_null
        | Some sock =>
            set_server (sv_set_socket None) ;;
            match TcpSession_server sock peer id (sv_config v) uninit with
            | inl e => throw e
            | inr s =>
                p ← make_shared (set_handlers (sv_openedHandler v)
                      (Some TcpServer_handleClose) (sv_messageHandler v) s);
                set_server (sv_set_sessions (λ m,
                  match m !! id with Some _ => m | None => <[id := p]> m end)) ;;
                TcpSession_start (CB := server_callbacks) p ;;
                startAccept (ac_ios <$> sv_acceptor v)
            end
        end
    end.

(** An outstanding accept completes. *)
Definition complete_accept (error : error_code) (peer : option endpoint)
    (uninit : Msg * Z * Z) : M W unit :=
  v ← server;
  match sv_accepts v with
  | O => mret tt
  | S _ =>
      set_server (sv_set_accepts Nat.pred) ;;
      on_accept error peer uninit
  end.

(** [void stop()] *)
Definition stop : M W unit :=
  v ← server;
  if negb (bool_decide (sv_state v = Server_Start)) then mret tt
  else
    match sv_acceptor v with
    | None => undef UB_null
    | Some a => set_server (sv_set_acceptor (Some (mkAcceptor false (ac_ios a) (ac_ep a))))
    end ;;
    forM_ (in_order (sv_sessions v)) (λ '(_, p), TcpSession_close p) ;;
    set_server (sv_set_sessions (λ _, ∅)) ;;
    set_server (sv_set_free (λ _, [])) ;;
    set_server (sv_set_state Server_Stop).

(** ** The server process as a step relation

    What can happen to a running server: the outstanding accept completes, or
    the oldest read or write of a session does. *)
Inductive server_event :=
  | Ev_accept (error : error_code) (peer : option endpoint) (uninit : Msg * Z * Z)
  | Ev_read (p : ptr) (ec : error_code) (bs : list Z)
  | Ev_write (p : ptr) (ec : error_code) (n : Z).

Definition server_run (e : server_event) : M W unit :=
  match e with
  | Ev_accept error peer uninit => complete_accept error peer uninit
  | Ev_read p ec bs => complete_read (CB := server_callbacks) p ec bs
  | Ev_write p ec n => complete_write (CB := server_callbacks) p ec n
  end.

Definition enabled (w : W) (e : server_event) : Prop :=
  match e with
  | Ev_accept _ _ uninit => sv_accepts (fget w : TcpServer) ≠ 0%nat ∧ msg_ok uninit.1.1
  | Ev_read p ec bs => ∃ s, hp w !! p = Some s ∧ read_completion (ts_socket s) ec bs
  | Ev_write p ec n => ∃ s, hp w !! p = Some s ∧ write_completion (ts_socket s) ec n
  end.

Definition server_step (w : W) (e : server_event) (w' : W) : Prop :=
  enabled w e ∧ server_run e w = Ok tt w'.
End Operations.
