(* ===== verification/ServerInv.v ===== *)
(** * Invariants of the server process

    The session-id pool, the session table, the heap of sessions and the
    accept loop of TcpServer, as one invariant of [server_step], for any
    application that only sends messages from its handlers ([AppLaws]). *)
From S2P Require Import Prelude Config Msg Session TcpSession TcpSend TcpRecv IoServicePool TcpServer.

(** ** The state of a session between events *)

Definition tx_inv (s : TcpSession) : Prop :=
  match ts_sendQue s with
  | [] => sk_writes (ts_socket s) = []
  | m :: _ => sk_writes (ts_socket s) = [] ∨
              sk_writes (ts_socket s) = [size_t (msg_length m)]
  end.

Definition rx_inv (s : TcpSession) : Prop :=
  sk_reads (ts_socket s) = [] ∨ waiting_header s ∨
  waiting_body s ∧ checkHeader (ts_msg s) = true.

(** A session that has been started: it is open, at most one read and one
    write are outstanding, the write is that of the front of the queue. *)
Definition session_inv (s : TcpSession) : Prop :=
  msg_ok (ts_msg s) ∧ ts_state s = Opened ∧ rx_inv s ∧ tx_inv s ∧
  ts_closedHandler s = Some TcpServer_handleClose.

Lemma push_send_tx_inv m s : tx_inv s → tx_inv (push_send m s).
Proof.
  unfold tx_inv, push_send. destruct s as [[] ? ? ? ? q ? ? ? ? ? ? ?]; cbn. intros Hw.
  destruct q; cbn; [|done]. rewrite Hw. by right.
Qed.

Lemma push_send_inv m s : session_inv s → session_inv (push_send m s).
Proof.
  intros (Hm & Ho & Hr & Ht & Hc). unfold session_inv, rx_inv, waiting_header, waiting_body in *.
  rewrite push_send_msg, push_send_state, push_send_reads.
  split_and!; try done; [by apply push_send_tx_inv|]. by rewrite (proj1 (proj2 (push_send_handlers m s))).
Qed.

Lemma pushes_inv ms s : session_inv s → session_inv (pushes ms s).
Proof. revert s. induction ms as [|m ms IH]; intros s Hs; [done|]. by apply (IH (push_send m s)), push_send_inv. Qed.

Lemma pushes_id ms s : ts_id (pushes ms s) = ts_id s.
Proof. by apply (pushes_proj ts_id), push_send_id. Qed.
Lemma pushes_reads ms s : sk_reads (ts_socket (pushes ms s)) = sk_reads (ts_socket s).
Proof. apply (pushes_proj (λ s, sk_reads (ts_socket s))), push_send_reads. Qed.

Lemma took_read_inv m s :
  session_inv s → msg_ok m → session_inv (took_read m s) ∧ sk_reads (ts_socket (took_read m s)) = [].
Proof.
  intros (Hm & Ho & Hr & Ht & Hc) Hok.
  assert (Hnil : sk_reads (ts_socket (took_read m s)) = []).
  { unfold rx_inv, waiting_header, waiting_body in Hr.
    destruct s as [[] ? ? ? ? ? ? ? ? ? ? ? ?]; cbn in *. by destruct Hr as [->|[->|[-> _]]]. }
  split; [|done]. unfold session_inv, rx_inv, tx_inv in *. rewrite Hnil.
  destruct s as [[] ? ? ? ? ? ? ? ? ? ? ? ?]; cbn in *. naive_solver.
Qed.

Lemma add_read_inv r s :
  session_inv s → sk_reads (ts_socket s) = [] →
  r = (RdHeader, hdrLength) ∨
  r = (RdBody, size_t (bodyLength (ts_msg s))) ∧ checkHeader (ts_msg s) = true →
  session_inv (add_read r s).
Proof.
  intros (Hm & Ho & Hr & Ht & Hc) Hnil Hrd.
  unfold session_inv, rx_inv, tx_inv, waiting_header, waiting_body, add_read in *.
  destruct s as [[] ? ? ? ? ? ? ? ? ? ? ? ?]; cbn in *. subst. cbn.
  split_and!; try done. destruct Hrd as [->|[-> ?]]; auto.
Qed.

Lemma add_read_waiting s :
  sk_reads (ts_socket s) = [] → waiting_header (add_read (RdHeader, hdrLength) s).
Proof. unfold waiting_header, add_read. destruct s as [[] ? ? ? ? ? ? ? ? ? ? ? ?]; cbn. by intros ->. Qed.

Lemma set_rx_inv f s : session_inv s → session_inv (set_rx f s).
Proof. by destruct s. Qed.

Lemma failed_write_inv s bs : session_inv s → session_inv (write_failed bs s).
Proof.
  intros (Hm & Ho & Hr & Ht & Hc). unfold session_inv, rx_inv, tx_inv in *.
  destruct s as [[] ? ? ? ? q ? ? ? ? ? ? ?]; cbn in *. split_and!; try done.
  destruct q; [by rewrite Ht|]. by destruct Ht as [->| ->]; left.
Qed.

(** The session after a successful write, whatever its length. *)
Definition write_done (bs : list Z) (m : Msg) (q : list Msg) (s : TcpSession) : TcpSession :=
  let s := set_sendQue (λ _, q) (set_tx (λ tx, u64 (tx + msg_length m))
             (set_socket (λ k, sk_set_out (λ o, o ++ bs) (sk_set_writes tail k)) s)) in
  match q with
  | [] => s
  | m' :: _ => set_socket (sk_set_writes (λ l, l ++ [size_t (msg_length m')])) s
  end.

Lemma write_done_inv bs m q s :
  session_inv s → ts_sendQue s = m :: q → session_inv (write_done bs m q s).
Proof.
  intros (Hm & Ho & Hr & Ht & Hc) Hq. unfold session_inv, rx_inv, tx_inv, write_done in *.
  rewrite Hq in Ht.
  destruct s as [[] ? ? ? ? ? ? ? ? ? ? ? ?]; cbn in *. subst.
  destruct q; cbn; split_and!; try done; destruct Ht as [->| ->]; cbn; auto.
Qed.

(** ** The id pool *)

Definition max_of (v : TcpServer) : Z := sc_maxSession (sv_config v).

(** Every id is free or in use, and no other id is either. *)
Definition ids_inv (v : TcpServer) : Prop :=
  (∀ k, 1 <= k <= max_of v → k ∈ sv_free_session_id v ∨ is_Some (sv_sessions v !! k)) ∧
  (∀ k, k ∈ sv_free_session_id v → 1 <= k <= max_of v) ∧
  (∀ k p, sv_sessions v !! k = Some p → 1 <= k <= max_of v).

(** The stronger property of an undisturbed pool: no id is free twice, or both
    free and in use. *)
Definition ids_exact (v : TcpServer) : Prop :=
  ids_inv v ∧ NoDup (sv_free_session_id v) ∧
  ∀ k, k ∈ sv_free_session_id v → sv_sessions v !! k = None.

Lemma sessions_dom v : ids_inv v → dom (sv_sessions v) ⊆ list_to_set (seqZ 1 (max_of v)).
Proof.
  intros (_ & _ & Hr) k [p Hp]%elem_of_dom. apply elem_of_list_to_set, elem_of_seqZ.
  specialize (Hr _ _ Hp). lia.
Qed.

Lemma size_seqZ_set (n : Z) : size (list_to_set (seqZ 1 n) : gset Z) = Z.to_nat n.
Proof.
  rewrite size_list_to_set by apply NoDup_seqZ. apply length_seqZ.
Qed.

Lemma sessions_bounded v : ids_inv v → (size (sv_sessions v) ≤ Z.to_nat (max_of v))%nat.
Proof.
  intros Hi%sessions_dom%subseteq_size. by rewrite size_dom, size_seqZ_set in Hi.
Qed.

(** Below capacity some id is free: the deque is not empty. *)
Lemma free_nonempty v :
  ids_inv v → (Z.of_nat (size (sv_sessions v)) < max_of v) →
  ∃ id rest, sv_free_session_id v = id :: rest.
Proof.
  intros Hi Hlt. destruct (sv_free_session_id v) as [|id rest] eqn:E; [|eauto].
  exfalso. assert (Hsub : (list_to_set (seqZ 1 (max_of v)) : gset Z) ⊆ dom (sv_sessions v)).
  { intros k Hk%elem_of_list_to_set%elem_of_seqZ. apply elem_of_dom.
    destruct (proj1 Hi k ltac:(lia)) as [Hin|]; [|done]. rewrite E in Hin. by apply not_elem_of_nil in Hin. }
  apply subseteq_size in Hsub. rewrite size_dom, size_seqZ_set in Hsub. lia.
Qed.

(** The two table operations. *)
Definition take_id (id : Z) (rest : list Z) (p : ptr) (v : TcpServer) : TcpServer :=
  sv_set_sessions (λ m, match m !! id with Some _ => m | None => <[id := p]> m end)
    (sv_set_free (λ _, rest) v).
Definition give_id (id : Z) (v : TcpServer) : TcpServer :=
  sv_set_free (λ l, l ++ [id]) (sv_set_sessions (delete id) v).

Lemma take_id_inv id rest p v :
  ids_inv v → sv_free_session_id v = id :: rest → ids_inv (take_id id rest p v).
Proof.
  intros (Hc & Hf & Hs) E. unfold ids_inv, take_id. cbn. unfold max_of in *. cbn.
  rewrite E in Hc, Hf. split_and!.
  - intros k Hk. destruct (decide (k = id)) as [->|Hne].
    + right. destruct (sv_sessions v !! id) eqn:Eid; [by rewrite Eid|]. by rewrite lookup_insert_eq.
    + destruct (Hc k Hk) as [[?|?]%elem_of_cons|?]; [done|by left|right].
      destruct (sv_sessions v !! id); [done|]. by rewrite lookup_insert_ne.
  - intros k Hk. apply Hf. by right.
  - intros k q Hk. destruct (sv_sessions v !! id) eqn:Eid; [by eapply Hs|].
    apply lookup_insert_Some in Hk as [[<- _]|[_ Hk]]; [apply Hf; by left|by eapply Hs].
Qed.

Lemma take_id_exact id rest p v :
  ids_exact v → sv_free_session_id v = id :: rest →
  ids_exact (take_id id rest p v) ∧ sv_sessions (take_id id rest p v) = <[id := p]> (sv_sessions v).
Proof.
  intros (Hi & Hnd & Hdis) E. assert (Hn : sv_sessions v !! id = None) by (apply Hdis; rewrite E; by left).
  assert (Hse : sv_sessions (take_id id rest p v) = <[id := p]> (sv_sessions v)) by (unfold take_id; cbn; by rewrite Hn).
  split; [|done]. split; [by apply take_id_inv|]. rewrite E in Hnd, Hdis.
  apply NoDup_cons in Hnd as [Hnin Hnd]. rewrite Hse. split; [done|].
  intros k Hk. cbn in Hk. rewrite lookup_insert_ne by (by intros ->). apply Hdis. by right.
Qed.

Lemma give_id_inv id v : ids_inv v → 1 <= id <= max_of v → ids_inv (give_id id v).
Proof.
  intros (Hc & Hf & Hs) Hid. unfold ids_inv, give_id. cbn. unfold max_of in *. cbn. split_and!.
  - intros k Hk. rewrite elem_of_app, list_elem_of_singleton.
    destruct (decide (k = id)) as [->|Hne]; [left; by right|].
    rewrite lookup_delete_ne by done. destruct (Hc k Hk); auto.
  - intros k [Hk| ->%list_elem_of_singleton]%elem_of_app; auto.
  - intros k q [_ Hk]%lookup_delete_Some. by eapply Hs.
Qed.

Lemma give_id_exact id p v :
  ids_exact v → sv_sessions v !! id = Some p → ids_exact (give_id id v).
Proof.
  intros (Hi & Hnd & Hdis) Hp. split; [apply give_id_inv; [done|by eapply (proj2 (proj2 Hi))]|].
  cbn. split.
  - apply NoDup_app. split_and!; [done| |apply NoDup_singleton].
    intros k Hk ->%list_elem_of_singleton. rewrite (Hdis _ Hk) in Hp. done.
  - intros k [Hk| ->%list_elem_of_singleton]%elem_of_app.
    + rewrite lookup_delete_None. right. by apply Hdis.
    + apply lookup_delete_eq.
Qed.

(** ** The process invariant *)

Section Process.
Context {W : Type} `{FH : !Field W heap} `{FS : !Field W TcpServer} `{SEP : !Separate FS FH}.
Implicit Types (w : W) (s : TcpSession) (p q : ptr).

(** The server component of a process state. *)
Definition sv w : TcpServer := fget w.

(** Between two states an application handler only sent messages. *)
Definition app_rel w w' : Prop :=
  sv w' = sv w ∧ ∀ q, ∃ ms, hp w' !! q = pushes ms <$> hp w !! q.

Lemma app_rel_refl w : app_rel w w.
Proof. split; [done|]. intros q. exists []. by destruct (hp w !! q). Qed.

Lemma app_rel_trans w1 w2 w3 : app_rel w1 w2 → app_rel w2 w3 → app_rel w1 w3.
Proof.
  intros [H1 K1] [H2 K2]. split; [congruence|]. intros q.
  destruct (K1 q) as [ms1 E1], (K2 q) as [ms2 E2]. exists (ms1 ++ ms2).
  rewrite E2, E1. destruct (hp w1 !! q); cbn; [|done]. by rewrite pushes_app.
Qed.

(** What the server assumes of the application behind its handlers. *)
Class AppLaws (app : Callbacks W) := {
  opened_law h p w : is_Some (hp w !! p) →
    ∃ w', run_opened (Callbacks := app) h p w = Ok tt w' ∧ app_rel w w';
  closed_law h p r w : is_Some (hp w !! p) →
    ∃ w', run_closed (Callbacks := app) h p r w = Ok tt w' ∧ app_rel w w';
  message_law h p w w' : run_message (Callbacks := app) h p w = Ok tt w' → app_rel w w'
}.

(** Every entry of the table is a session with that id; every session is in a
    state between events, with an id of the pool. *)
Definition table_inv (v : TcpServer) (h : heap) : Prop :=
  (∀ k p, sv_sessions v !! k = Some p → ∃ s, h !! p = Some s ∧ ts_id s = k) ∧
  (∀ p s, h !! p = Some s → session_inv s ∧ 1 <= ts_id s <= max_of v).

(** The server runs, with its handlers registered and a non-empty pool; at most
    one accept is outstanding, and then its socket exists. *)
Definition accept_inv (v : TcpServer) : Prop :=
  sv_acceptor v ≠ None ∧ sv_state v = Server_Start ∧ sv_openedHandler v ≠ None ∧
  (∃ i, next_is i (sv_ioServicePool v)) ∧ (sv_accepts v ≤ 1)%nat ∧
  (sv_accepts v = 1%nat → sv_socket v = Some socket_new).

Definition server_inv w : Prop :=
  ids_inv (sv w) ∧ table_inv (sv w) (hp w) ∧ accept_inv (sv w) ∧ 0 <= max_of (sv w).

Lemma server_inv_app w w' : server_inv w → app_rel w w' → server_inv w'.
Proof.
  intros (Hi & [Ht Hh] & Ha & Hm) [Hv Hq]. unfold server_inv, table_inv. rewrite Hv. split_and!; try done.
  - intros k p Hk. destruct (Ht k p Hk) as (s & Hs & Hid). destruct (Hq p) as [ms E].
    exists (pushes ms s). by rewrite E, Hs, pushes_id.
  - intros p s Hs. destruct (Hq p) as [ms E]. rewrite E in Hs.
    destruct (hp w !! p) as [s0|] eqn:E0; [|done]. cbn in Hs. injection Hs as <-.
    destruct (Hh p s0 E0). rewrite pushes_id. by auto using pushes_inv.
Qed.

Lemma sv_upd p s w : sv (upd p s w) = sv w.
Proof. unfold sv. apply upd_sep. done. Qed.

Lemma server_inv_upd p s s' w :
  server_inv w → hp w !! p = Some s → session_inv s' → ts_id s' = ts_id s →
  server_inv (upd p s' w).
Proof.
  intros (Hi & [Ht Hh] & Ha & Hm) Hs Hs' Hid. unfold server_inv, table_inv. rewrite sv_upd.
  split_and!; try done.
  - intros k q Hk. destruct (Ht k q Hk) as (s0 & Hs0 & Hk0).
    destruct (decide (p = q)) as [->|Hne].
    + exists s'. rewrite lookup_upd. split; [done|]. simplify_eq. congruence.
    + exists s0. by rewrite lookup_upd_ne.
  - intros q s0 Hq. destruct (decide (p = q)) as [->|Hne].
    + rewrite lookup_upd in Hq. injection Hq as <-. rewrite Hid. split; [done|]. by apply (Hh q s).
    + rewrite lookup_upd_ne in Hq by done. exact (Hh q s0 Hq).
Qed.

(** The server component is replaced, the sessions stay. *)
Definition upd_sv (v : TcpServer) w : W := fset v w.
Lemma sv_upd_sv v w : sv (upd_sv v w) = v.
Proof. apply fget_fset. Qed.
Lemma hp_upd_sv v w : hp (upd_sv v w) = hp w.
Proof. unfold upd_sv. apply (fget_fset_sep' (Separate := SEP)). Qed.
Lemma upd_sv_upd_sv v v' w : upd_sv v' (upd_sv v w) = upd_sv v' w.
Proof. apply fset_fset. Qed.
Lemma upd_sv_id w : upd_sv (sv w) w = w.
Proof. apply fset_fget. Qed.
Lemma upd_upd_sv p s v w : upd p s (upd_sv v w) = upd_sv v (upd p s w).
Proof.
  unfold upd, upd_sv. rewrite (fget_fset_sep' (Separate := SEP)). symmetry.
  apply (fset_fset_sep (Separate := SEP)).
Qed.

Lemma bind_server {B} (k : TcpServer → M W B) w : (server ≫= k) w = k (sv w) w.
Proof. done. Qed.
Lemma bind_set_server {B} f (k : unit → M W B) w :
  (set_server f ≫= k) w = k tt (upd_sv (f (sv w)) w).
Proof. done. Qed.
Lemma set_server_ok f w : set_server f w = Ok tt (upd_sv (f (sv w)) w).
Proof. done. Qed.

Lemma server_inv_upd_sv v w :
  server_inv w → ids_inv v → accept_inv v → max_of v = max_of (sv w) →
  (∀ k p, sv_sessions v !! k = Some p → sv_sessions (sv w) !! k = Some p) →
  server_inv (upd_sv v w).
Proof.
  intros (Hi & [Ht Hh] & Ha & Hm) Hi' Ha' Hmax Hsub.
  unfold server_inv, table_inv. rewrite sv_upd_sv, hp_upd_sv, Hmax. split_and!; try done; auto.
Qed.

(** Sending on a session is one of the things an application may do. *)
Lemma send_app_rel p m w :
  is_Some (hp w !! p) → ∃ w', TcpSession_send p m w = Ok tt w' ∧ app_rel w w'.
Proof.
  intros [s Hs]. eexists. split; [by apply send_ok|]. split; [apply sv_upd|].
  intros q. destruct (decide (p = q)) as [<-|Hne].
  - exists [m]. by rewrite lookup_upd, Hs.
  - exists []. rewrite lookup_upd_ne by done. by destruct (hp w !! q).
Qed.

(** ** Running the handlers *)

Context (app : Callbacks W) `{LAWS : !AppLaws app}.
Abbreviation SC := (server_callbacks app).

Lemma handleClose_ok p r s w :
  hp w !! p = Some s →
  ∃ w1, app_rel w w1 ∧ handleClose app p r w = Ok tt (upd_sv (give_id (ts_id s) (sv w1)) w1).
Proof.
  intros Hs. unfold handleClose. rewrite bind_server.
  assert (∃ w1, match sv_closedHandler (sv w) with
                | Some h => run_closed (Callbacks := app) h p r | None => mret tt end w = Ok tt w1 ∧
                app_rel w w1) as (w1 & Hrun & Hrel).
  { destruct (sv_closedHandler (sv w)) as [h|]; [by apply closed_law|].
    exists w. split; [done|apply app_rel_refl]. }
  exists w1. split; [done|]. erewrite bind_ok by exact Hrun.
  destruct (proj2 Hrel p) as [ms E]. rewrite Hs in E. cbn in E.
  unfold TcpSession_getID. rewrite bind_assoc. erewrite bind_deref by exact E.
  rewrite bind_ret, bind_set_server, set_server_ok, sv_upd_sv, upd_sv_upd_sv, pushes_id. done.
Qed.

Lemma server_inv_close p s w w1 :
  server_inv w → hp w !! p = Some s → app_rel w w1 →
  server_inv (upd_sv (give_id (ts_id s) (sv w1)) w1).
Proof.
  intros Hi Hs Hrel. pose proof (server_inv_app _ _ Hi Hrel) as Hi1.
  destruct Hi as (_ & [_ Hh] & _ & _). destruct (Hh p s Hs) as [_ Hid].
  destruct Hrel as [Hv _]. apply server_inv_upd_sv; try done.
  - apply give_id_inv; [apply Hi1|]. by rewrite Hv.
  - apply Hi1.
  - intros k q Hk. cbn in Hk. by apply lookup_delete_Some in Hk as [_ Hk].
Qed.

Lemma start_ok p s h w w2 s2 :
  hp w !! p = Some s → ts_openedHandler s = Some h →
  run_opened (Callbacks := app) h p (upd p (set_state Opened s) w) = Ok tt w2 →
  hp w2 !! p = Some s2 →
  TcpSession_start (CB := SC) p w = Ok tt (upd p (add_read (RdHeader, hdrLength) s2) w2).
Proof.
  intros Hs Hh Hrun Hs2. unfold TcpSession_start. sess_run.
  replace (set_state Opened (set_state Opening s)) with (set_state Opened s) by (by destruct s).
  replace (ts_openedHandler (set_state Opened s)) with (Some h) by (rewrite <- Hh; by destruct s).
  cbn [call]. erewrite bind_ok by exact Hrun.
  unfold TcpSession_read, async_read_some. by erewrite assign_ok by exact Hs2.
Qed.

(** What [startAccept] does to the server. *)
Definition accepting (on : option nat) (pool : IoServicePool) (v : TcpServer) : TcpServer :=
  sv_set_pool (λ _, IoServicePool_run on pool)
    (sv_set_accepts S (sv_set_socket (Some socket_new) v)).

Lemma startAccept_ok on i w :
  sv_acceptor (sv w) ≠ None → next_is i (sv_ioServicePool (sv w)) →
  ∃ pool, getIoService (sv_ioServicePool (sv w)) = Val (i, pool) ∧
    m_ios pool = m_ios (sv_ioServicePool (sv w)) ∧ (∃ j, next_is j pool) ∧
    startAccept on w = Ok tt (upd_sv (accepting on pool (sv w)) w).
Proof.
  intros Ha Hi. destruct (getIoService_ok i _ Hi) as (pool & Hp & Hm & Hn).
  exists pool. split_and!; [done|done|eauto|]. unfold startAccept, take_ioService.
  rewrite bind_assoc, bind_server, bind_assoc, (bind_lift _ (i, pool)) by done.
  cbn beta iota. rewrite bind_assoc, bind_set_server, bind_ret, bind_set_server, bind_server.
  rewrite !sv_upd_sv, !upd_sv_upd_sv. cbn [sv_acceptor sv_set_socket sv_set_pool].
  destruct (sv_acceptor (sv w)); [|done].
  rewrite bind_set_server, set_server_ok, !sv_upd_sv, !upd_sv_upd_sv.
  unfold accepting. by destruct (sv w).
Qed.

Lemma next_is_run i on (pl : IoServicePool) :
  next_is i pl → next_is i (IoServicePool_run on pl).
Proof.
  unfold next_is, IoServicePool_run. cbn [m_ios m_next].
  assert (Hl : length (if forallb ios_stopped (ios_run <$> m_ios pl) then ios_run <$> m_ios pl
     else match on with Some k => alter ios_block k (ios_run <$> m_ios pl) | None => ios_run <$> m_ios pl end)
     = length (m_ios pl)).
  { destruct (forallb _ _), on; rewrite ?length_alter, ?length_fmap; done. }
  by rewrite Hl.
Qed.

(** *** Accepting a connection *)

(** The new session as [on_accept] makes it, before [start]. *)
Definition new_session (v : TcpServer) (sock : socket) (ep : endpoint) (id : Z)
    (uninit : Msg * Z * Z) : TcpSession :=
  set_handlers (sv_openedHandler v) (Some TcpServer_handleClose) (sv_messageHandler v)
    (mkTcpSession (sk_set_options true (sc_noDelay (sv_config v)) sock) id Ready ep
       uninit.1.1 [] (sc_minReceive (sv_config v)) (sc_maxReceiveBufferSize (sv_config v))
       uninit.1.2 uninit.2 None None None).

(** The server after a connection got id [id] and the next accept started. *)
Definition accepted (pool : IoServicePool) (id : Z) (rest : list Z) (p : ptr)
    (v : TcpServer) : TcpServer :=
  accepting (ac_ios <$> sv_acceptor v) pool
    (take_id id rest p (sv_set_socket None (sv_set_accepts Nat.pred v))).

Lemma make_shared_ok {B} s (k : ptr → M W B) w :
  (make_shared s ≫= k) w = k (fresh (dom (hp w))) (upd (fresh (dom (hp w))) s w).
Proof. done. Qed.

Lemma on_accept_start ep uninit id rest sock w :
  sv_state (sv w) ≠ Server_Stop →
  Z.of_nat (size (sv_sessions (sv w))) < max_of (sv w) →
  sv_free_session_id (sv w) = id :: rest → sv_socket (sv w) = Some sock →
  let p := fresh (dom (hp w)) in
  on_accept app Success (Some ep) uninit w =
    (TcpSession_start (CB := SC) p ;; startAccept (ac_ios <$> sv_acceptor (sv w)))
      (upd_sv (take_id id rest p (sv_set_socket None (sv w)))
         (upd p (new_session (sv w) sock ep id uninit) w)).
Proof.
  intros Hst Hsz Hf Hk. unfold on_accept. rewrite bind_server. cbn [is_error].
  rewrite bool_decide_eq_false_2 by done.
  assert (Hcap : (sc_maxSession (sv_config (sv w)) <=? Z.of_nat (size (sv_sessions (sv w)))) = false)
    by (apply Z.leb_gt; exact Hsz).
  rewrite Hcap, Hf, Hk. cbn [orb]. rewrite !bind_set_server, !sv_upd_sv, !upd_sv_upd_sv.
  cbn [TcpSession_server]. rewrite make_shared_ok, hp_upd_sv, bind_set_server, sv_upd, sv_upd_sv.
  rewrite upd_upd_sv, upd_sv_upd_sv. unfold take_id, new_session.
  destruct (sv w); cbn in *. by subst.
Qed.

Lemma new_session_inv v ep id uninit :
  msg_ok uninit.1.1 →
  session_inv (set_state Opened (new_session v socket_new ep id uninit)) ∧
  sk_reads (ts_socket (set_state Opened (new_session v socket_new ep id uninit))) = [].
Proof. intros Hm. split; [|done]. split_and!; try done. by left. Qed.

Lemma accept_ok ep uninit w :
  server_inv w → sv_accepts (sv w) = 1%nat → msg_ok uninit.1.1 →
  Z.of_nat (size (sv_sessions (sv w))) < max_of (sv w) →
  ∃ id rest p pool w' s,
    sv_free_session_id (sv w) = id :: rest ∧ hp w !! p = None ∧
    m_ios pool = m_ios (sv_ioServicePool (sv w)) ∧ (∃ j, next_is j pool) ∧
    complete_accept app Success (Some ep) uninit w = Ok tt w' ∧
    sv w' = accepted pool id rest p (sv w) ∧
    hp w' !! p = Some s ∧ ts_id s = id ∧ waiting_header s ∧ session_inv s ∧
    ∀ q, q ≠ p → ∃ ms, hp w' !! q = pushes ms <$> hp w !! q.
Proof.
  intros (Hi & Ht & (Hac & Hst & Hop & [i Hn] & _ & Hsk) & _) Hacc Hm Hlt.
  destruct (free_nonempty _ Hi Hlt) as (id & rest & Hf).
  set (v0 := sv_set_accepts Nat.pred (sv w)). set (w0 := upd_sv v0 w).
  set (p := fresh (dom (hp w))).
  assert (Hp : hp w !! p = None) by (apply not_elem_of_dom, is_fresh).
  destruct (sv_openedHandler (sv w)) as [h|] eqn:Eh; [|done].
  set (s0 := new_session v0 socket_new ep id uninit).
  set (w1 := upd_sv (take_id id rest p (sv_set_socket None v0)) (upd p s0 w0)).
  assert (Hs0 : hp w1 !! p = Some s0) by (unfold w1; rewrite hp_upd_sv; apply lookup_upd).
  destruct (opened_law h p (upd p (set_state Opened s0) w1)) as (w2 & Hrun & Hrel);
    [rewrite lookup_upd; eauto|].
  destruct (new_session_inv v0 ep id uninit Hm) as [Hinv Hnil]. fold s0 in Hinv, Hnil.
  destruct (proj2 Hrel p) as [ms E]. rewrite lookup_upd in E. cbn in E.
  set (s2 := pushes ms (set_state Opened s0)) in *.
  assert (Hsv2 : sv (upd p (add_read (RdHeader, hdrLength) s2) w2) =
                 take_id id rest p (sv_set_socket None v0)).
  { rewrite sv_upd, (proj1 Hrel), sv_upd. unfold w1. by rewrite sv_upd_sv. }
  destruct (startAccept_ok (ac_ios <$> sv_acceptor (sv w)) i (upd p (add_read (RdHeader, hdrLength) s2) w2))
    as (pool & _ & Hpm & Hpn & Hsa); [by rewrite Hsv2|by rewrite Hsv2|].
  rewrite Hsv2 in Hpm, Hsa.
  eexists id, rest, p, pool, _, (add_read (RdHeader, hdrLength) s2).
  split_and!; try done.
  - unfold complete_accept. rewrite bind_server, Hacc, bind_set_server. fold v0. fold w0.
    assert (Hw0 : sv w0 = v0) by apply sv_upd_sv.
    rewrite (on_accept_start ep uninit id rest socket_new); rewrite ?Hw0;
      [|unfold v0; cbn; by rewrite Hst|done|done|by apply Hsk].
    assert (Hhp0 : hp w0 = hp w) by apply hp_upd_sv. rewrite Hhp0. fold p. fold s0. fold w1.
    erewrite bind_ok; [exact Hsa|]. eapply start_ok; [done| |exact Hrun|exact E]. exact Eh.
  - by rewrite sv_upd_sv.
  - rewrite hp_upd_sv. apply lookup_upd.
  - unfold s2. change (ts_id (add_read (RdHeader, hdrLength) ?s)) with (ts_id s).
    by rewrite pushes_id.
  - apply add_read_waiting. unfold s2. by rewrite pushes_reads, Hnil.
  - apply add_read_inv; [by apply pushes_inv|unfold s2; by rewrite pushes_reads|by left].
  - intros q Hq. rewrite hp_upd_sv, lookup_upd_ne by done.
    destruct (proj2 Hrel q) as [ms' E']. exists ms'. rewrite E', lookup_upd_ne by done.
    unfold w1. rewrite hp_upd_sv, lookup_upd_ne by done. unfold w0. by rewrite hp_upd_sv.
Qed.

Lemma accepted_accept_inv pool id rest p v :
  accept_inv v → sv_accepts v = 1%nat → (∃ j, next_is j pool) →
  accept_inv (accepted pool id rest p v).
Proof.
  intros (Ha & Hst & Hop & _ & _ & _) H1 [j Hj]. unfold accept_inv, accepted. cbn.
  rewrite H1. split_and!; try done. exists j. by apply next_is_run.
Qed.

Lemma server_inv_accepted pool id rest p s w w' :
  server_inv w → sv_accepts (sv w) = 1%nat → (∃ j, next_is j pool) →
  sv_free_session_id (sv w) = id :: rest → hp w !! p = None →
  sv w' = accepted pool id rest p (sv w) →
  hp w' !! p = Some s → ts_id s = id → session_inv s →
  (∀ q, q ≠ p → ∃ ms, hp w' !! q = pushes ms <$> hp w !! q) →
  server_inv w'.
Proof.
  intros (Hi & [Ht Hh] & Ha & Hm) H1 Hpool Hf Hp Hv Hs Hid Hinv Hq.
  assert (Hi' : ids_inv (sv w')) by (rewrite Hv; exact (take_id_inv id rest p (sv w) Hi Hf)).
  assert (Hmax : max_of (sv w') = max_of (sv w)) by (by rewrite Hv).
  assert (Hidr : 1 <= id <= max_of (sv w)) by (apply Hi; rewrite Hf; by left).
  unfold server_inv, table_inv. rewrite Hmax. split_and!; try done.
  - intros k q Hk. rewrite Hv in Hk. cbn in Hk.
    assert (sv_sessions (sv w) !! k = Some q ∨ k = id ∧ q = p) as [Hk'|[-> ->]].
    { destruct (sv_sessions (sv w) !! id); [by left|].
      apply lookup_insert_Some in Hk as [[? ?]|[_ ?]]; auto. }
    + destruct (Ht k q Hk') as (s0 & Hs0 & Hid0).
      destruct (Hq q) as [ms E]; [by intros ->; rewrite Hp in Hs0|].
      exists (pushes ms s0). rewrite E, Hs0, pushes_id. done.
    + by exists s.
  - intros q s0 Hs0. destruct (decide (q = p)) as [->|Hne].
    + rewrite Hs in Hs0. injection Hs0 as <-. by rewrite Hid.
    + destruct (Hq q Hne) as [ms E]. rewrite E in Hs0.
      destruct (hp w !! q) as [s1|] eqn:E1; [|done]. cbn in Hs0. injection Hs0 as <-.
      rewrite pushes_id. destruct (Hh q s1 E1). split; [by apply pushes_inv|done].
  - rewrite Hv. by apply accepted_accept_inv.
Qed.

(** The accept ends without a new one: an error, or a server at capacity. *)
Definition accept_dropped (sock : option socket) (v : TcpServer) : TcpServer :=
  sv_set_socket sock (sv_set_accepts Nat.pred v).

Lemma accept_error_ok error peer uninit w :
  sv_accepts (sv w) = 1%nat → is_error error = true →
  complete_accept app error peer uninit w =
    Ok tt (upd_sv (accept_dropped (sv_socket (sv w)) (sv w)) w).
Proof.
  intros H1 He. unfold complete_accept. rewrite bind_server, H1, bind_set_server.
  unfold on_accept. rewrite bind_server, He. unfold accept_dropped. by destruct (sv w).
Qed.

Lemma accept_full_ok peer uninit w sock :
  sv_accepts (sv w) = 1%nat → sv_socket (sv w) = Some sock →
  sv_state (sv w) = Server_Stop ∨ max_of (sv w) <= Z.of_nat (size (sv_sessions (sv w))) →
  complete_accept app Success peer uninit w = Ok tt (upd_sv (accept_dropped None (sv w)) w).
Proof.
  intros H1 Hk Hfull. unfold complete_accept. rewrite bind_server, H1, bind_set_server.
  unfold on_accept. rewrite bind_server, sv_upd_sv. cbn [is_error].
  assert (Hc : bool_decide (sv_state (sv_set_accepts Nat.pred (sv w)) = Server_Stop) ||
               (sc_maxSession (sv_config (sv_set_accepts Nat.pred (sv w))) <=?
                Z.of_nat (size (sv_sessions (sv_set_accepts Nat.pred (sv w))))) = true).
  { apply orb_true_iff. destruct Hfull as [Hs|Hs]; [left; by apply bool_decide_eq_true|].
    right. by apply Z.leb_le. }
  rewrite Hc. change (sv_socket (sv_set_accepts _ _)) with (sv_socket (sv w)). rewrite Hk.
  rewrite set_server_ok, sv_upd_sv, upd_sv_upd_sv. done.
Qed.

(** A peer that is gone when the socket is asked for it. *)
Lemma accept_gone_throws uninit w :
  server_inv w → sv_accepts (sv w) = 1%nat →
  Z.of_nat (size (sv_sessions (sv w))) < max_of (sv w) →
  ∃ w', complete_accept app Success None uninit w = Throws system_error w'.
Proof.
  intros (Hi & _ & (_ & Hst & _ & _ & _ & Hsk) & _) H1 Hlt.
  destruct (free_nonempty _ Hi Hlt) as (id & rest & Hf).
  unfold complete_accept. rewrite bind_server, H1, bind_set_server.
  unfold on_accept. rewrite bind_server, sv_upd_sv. cbn [is_error].
  rewrite bool_decide_eq_false_2 by (cbn; by rewrite Hst).
  replace (sc_maxSession _ <=? _) with false by (symmetry; by apply Z.leb_gt).
  change (sv_free_session_id (sv_set_accepts _ _)) with (sv_free_session_id (sv w)).
  change (sv_socket (sv_set_accepts _ _)) with (sv_socket (sv w)).
  rewrite Hf, (Hsk H1). by eexists.
Qed.

Lemma accept_step_inv error peer uninit w w' :
  server_inv w → enabled w (Ev_accept error peer uninit) →
  complete_accept app error peer uninit w = Ok tt w' → server_inv w'.
Proof.
  intros Hinv [Hne Hm] Hrun. change (sv_accepts (sv w) ≠ 0%nat) in Hne.
  pose proof Hinv as (Hi & Ht & Ha & Hmx).
  assert (H1 : sv_accepts (sv w) = 1%nat) by (destruct Ha as (_ & _ & _ & _ & ? & _); lia).
  assert (Hdrop : ∀ sock, server_inv (upd_sv (accept_dropped sock (sv w)) w)).
  { intros sock. apply server_inv_upd_sv; try done.
    destruct Ha as (? & ? & ? & ? & ? & ?). unfold accept_inv, accept_dropped. cbn.
    rewrite H1. cbn. split_and!; try done. lia. }
  destruct (is_error error) eqn:He.
  { rewrite accept_error_ok in Hrun by done. by injection Hrun as <-. }
  destruct error; try done.
  destruct (decide (max_of (sv w) <= Z.of_nat (size (sv_sessions (sv w))))).
  { erewrite accept_full_ok in Hrun; [|done|by apply Ha|by right]. by injection Hrun as <-. }
  destruct peer as [ep|].
  2:{ destruct (accept_gone_throws uninit w) as [? E]; [done..|lia|]. by rewrite E in Hrun. }
  destruct (accept_ok ep uninit w) as (id & rest & p & pool & w1 & s & Hf & Hp & _ & Hpool & Hr & Hv & Hs & Hid & _ & Hsi & Hq);
    [done..|lia|].
  rewrite Hr in Hrun. injection Hrun as <-. by eapply server_inv_accepted.
Qed.

(** *** Reads and writes *)

Lemma handler_ok s p w r :
  server_inv w → hp w !! p = Some s → session_inv s →
  ∃ w', (call (ts_closedHandler s) (λ h, run_closed (Callbacks := SC) h p r)) w = Ok tt w' ∧
    server_inv w' ∧ ∃ w1, app_rel w w1 ∧ w' = upd_sv (give_id (ts_id s) (sv w1)) w1.
Proof.
  intros Hw Hs (_ & _ & _ & _ & ->). cbn [call].
  destruct (handleClose_ok p r s w Hs) as (w1 & Hrel & Hrun).
  eexists. split; [exact Hrun|]. split; [by eapply server_inv_close|by exists w1].
Qed.

(** A completion of the read of a session in a state between events. *)
Lemma read_cases p ec bs w w' :
  server_inv w → enabled w (Ev_read p ec bs) →
  complete_read (CB := SC) p ec bs w = Ok tt w' →
  ∃ s m t size rest, hp w !! p = Some s ∧ session_inv s ∧ session_inv (took_read m s) ∧
    sk_reads (ts_socket (took_read m s)) = [] ∧ sk_reads (ts_socket s) = (t, size) :: rest ∧
    (t = RdHeader ∧ w' = upd p (took_read m s) w ∨
     t = RdHeader ∧ w' = upd p (add_read (next_read m) (took_read m s)) w ∨
     (t = RdBody ∧ is_error ec = true) ∧ m = ts_msg s ∧
       call (ts_closedHandler s) (λ h, run_closed (Callbacks := SC) h p (close_reason ec))
         (upd p (took_read m s) w) = Ok tt w' ∨
     (t = RdBody ∧ is_error ec = false ∧ store hdrLength bs (ts_msg s) = Val m) ∧
     (call (ts_messageHandler s) (λ h, run_message (Callbacks := SC) h p) ;;
      TcpSession_read p hdrLength)
       (upd p (set_rx (λ rx, u64 (rx + msg_length m)) (took_read m s)) w) = Ok tt w').
Proof.
  intros Hw (s & Hs & t & size & rest & Hr & Hbs & _ & Herr & _) Hrun.
  pose proof Hw as (_ & [_ Hh] & _ & _). destruct (Hh p s Hs) as [Hsi _].
  destruct (store (rd_offset t) bs (ts_msg s)) as [m|] eqn:Est.
  2:{ unfold complete_read in Hrun. erewrite bind_deref in Hrun by exact Hs.
      rewrite Hr in Hrun. by rewrite Est in Hrun. }
  assert (Hm : msg_ok m).
  { eapply store_ok; [|apply Hsi|exact Hbs|exact Est]. by destruct t. }
  destruct (is_error ec) eqn:He.
  - rewrite (Herr eq_refl) in *. exists s, (ts_msg s), t, size, rest.
    destruct (took_read_inv (ts_msg s) s Hsi (proj1 Hsi)) as [Hti Htn].
    split_and!; [done..|]. destruct t.
    + erewrite header_error_ok in Hrun; [|done|apply Hsi|done|done]. injection Hrun as <-. by left.
    + erewrite body_error_ok in Hrun; [|done|apply Hsi|done|done]. right; right; left. done.
  - exists s, m, t, size, rest. destruct (took_read_inv m s Hsi Hm) as [Hti Htn]. split_and!; [done..|].
    destruct ec; try done. destruct t.
    + erewrite complete_header_ok in Hrun by done. injection Hrun as <-. right; left. done.
    + erewrite complete_body_ok in Hrun by done. right; right; right. done.
Qed.

(** A completion of its write. *)
Lemma write_cases p ec n w w' :
  server_inv w → enabled w (Ev_write p ec n) →
  complete_write (CB := SC) p ec n w = Ok tt w' →
  ∃ s bs m rest, hp w !! p = Some s ∧ session_inv s ∧ ts_sendQue s = m :: rest ∧
    (is_error ec = false ∧ w' = upd p (write_done bs m rest s) w ∨
     is_error ec = true ∧ call (ts_closedHandler s) (λ h, run_closed (Callbacks := SC) h p (close_reason ec))
       (upd p (write_failed bs s) w) = Ok tt w').
Proof.
  intros Hw (s & Hs & size & rest & Hwr & _) Hrun.
  pose proof Hw as (_ & [_ Hh] & _ & _). destruct (Hh p s Hs) as [Hsi _].
  unfold complete_write in Hrun. erewrite bind_deref in Hrun by exact Hs. rewrite Hwr in Hrun.
  destruct (ts_sendQue s) as [|m q] eqn:Eq; [done|].
  destruct (load n m) as [bs|] eqn:El; [|done]. erewrite bind_lift in Hrun by reflexivity.
  erewrite bind_assign in Hrun by exact Hs. exists s, bs, m, q. split_and!; [done..|].
  unfold handleWrite in Hrun. destruct (is_error ec).
  - right. split; [done|]. unfold close_on_error, handleError in Hrun. rewrite bind_ret in Hrun.
    erewrite bind_deref in Hrun by apply lookup_upd. done.
  - left. split; [done|]. cut (Ok tt w' = Ok tt (upd p (write_done bs m q s) w)); [by intros [= ->]|].
    rewrite <- Hrun. sess_run. destruct s as [[] ? ? ? ? ? ? ? ? ? ? ? ?]; cbn in *.
    subst. sess_run. cbn. destruct q; cbn; [done|]. unfold async_write_front. sess_run. cbn.
    by sess_run.
Qed.

(** The message callback, then the next header read. *)
Lemma message_case s s0 p w w' :
  hp w !! p = Some s0 →
  (call (ts_messageHandler s) (λ h, run_message (Callbacks := SC) h p) ;;
   TcpSession_read p hdrLength) w = Ok tt w' →
  ∃ w1 ms, app_rel w w1 ∧ hp w1 !! p = Some (pushes ms s0) ∧
    w' = upd p (add_read (RdHeader, hdrLength) (pushes ms s0)) w1.
Proof.
  intros Hs Hrun. destruct (ts_messageHandler s) as [h|]; [|done]. cbn [call] in Hrun.
  unfold mbind, M_bind in Hrun.
  destruct (run_message h p w) as [[] w1| |] eqn:Em; [|done..].
  pose proof (message_law (app := app) h p w w1 Em) as Hrel.
  destruct (proj2 Hrel p) as [ms E]. rewrite Hs in E. cbn in E.
  unfold TcpSession_read, async_read_some in Hrun. erewrite assign_ok in Hrun by exact E.
  injection Hrun as <-. by exists w1, ms.
Qed.

Lemma read_step_inv p ec bs w w' :
  server_inv w → enabled w (Ev_read p ec bs) →
  complete_read (CB := SC) p ec bs w = Ok tt w' → server_inv w'.
Proof.
  intros Hw He Hrun.
  destruct (read_cases p ec bs w w' Hw He Hrun) as (s & m & t & size & rest & Hs & Hsi & Hti & Htn & _ & Hc).
  assert (Hw1 : server_inv (upd p (took_read m s) w)) by (by eapply server_inv_upd).
  destruct Hc as [[_ ->]|[[_ ->]|[(_ & _ & Hr)|[_ Hr]]]]; [done|..].
  - eapply server_inv_upd; [done|exact Hs| |done]. apply add_read_inv; [done..|].
    unfold next_read. destruct (checkHeader m) eqn:Ec; [by right|by left].
  - destruct (handler_ok (took_read m s) p _ (close_reason ec) Hw1 (lookup_upd _ _ _) Hti)
      as (w2 & Hr2 & Hi2 & _).
    change (ts_closedHandler s) with (ts_closedHandler (took_read m s)) in Hr.
    rewrite Hr2 in Hr. by injection Hr as <-.
  - set (s2 := set_rx _ _) in Hr. assert (Hs2 : session_inv s2) by (by apply set_rx_inv).
    destruct (message_case s s2 p _ w' (lookup_upd _ _ _) Hr) as (w1 & ms & Hrel & Hs1 & ->).
    eapply server_inv_upd; [|exact Hs1| |done].
    + eapply server_inv_app; [|exact Hrel]. by eapply server_inv_upd.
    + apply add_read_inv; [by apply pushes_inv|by rewrite pushes_reads|by left].
Qed.

Lemma write_step_inv p ec n w w' :
  server_inv w → enabled w (Ev_write p ec n) →
  complete_write (CB := SC) p ec n w = Ok tt w' → server_inv w'.
Proof.
  intros Hw He Hrun.
  destruct (write_cases p ec n w w' Hw He Hrun) as (s & bs & m & q & Hs & Hsi & Hq & [[_ ->]|[_ Hr]]).
  - eapply server_inv_upd; [done|exact Hs|by apply write_done_inv|].
    unfold write_done. by destruct q.
  - assert (Hs1 : session_inv (write_failed bs s)) by (by apply failed_write_inv).
    destruct (handler_ok (write_failed bs s) p (upd p (write_failed bs s) w) (close_reason ec))
      as (w2 & Hr2 & Hi2 & _); [by eapply server_inv_upd|apply lookup_upd|done|].
    change (ts_closedHandler s) with (ts_closedHandler (write_failed bs s)) in Hr.
    rewrite Hr2 in Hr. by injection Hr as <-.
Qed.

Lemma server_step_inv w e w' : server_inv w → server_step app w e w' → server_inv w'.
Proof.
  intros Hw [He Hrun]. destruct e; cbn in Hrun;
    [eapply accept_step_inv|eapply read_step_inv|eapply write_step_inv]; done.
Qed.

Lemma server_reach_inv w0 w : server_inv w0 → reach (server_step app) w0 w → server_inv w.
Proof. intros H0. apply reach_inv; [done|]. apply server_step_inv. Qed.

(** *** What an event leaves alone *)

(** On the sessions in [P], a step only queued messages. *)
Definition only_sends (P : ptr → Prop) w w' : Prop :=
  ∀ q, P q → ∃ ms, hp w' !! q = pushes ms <$> hp w !! q.

Lemma only_sends_upd (P : ptr → Prop) p s w w' :
  ¬ P p → only_sends P (upd p s w) w' → only_sends P w w'.
Proof.
  intros Hp H q Hq. destruct (H q Hq) as [ms E]. exists ms.
  rewrite E, lookup_upd_ne by (by intros ->). done.
Qed.

Lemma only_sends_refl_upd (P : ptr → Prop) p s w : ¬ P p → only_sends P w (upd p s w).
Proof.
  intros Hp. apply (only_sends_upd P p s); [done|]. intros q _. exists [].
  by destruct (hp (upd p s w) !! q).
Qed.

Lemma app_rel_only_sends P w w' : app_rel w w' → only_sends P w w'.
Proof. intros [_ H] q _. apply H. Qed.

Lemma only_sends_upd_sv P v w w' : only_sends P w w' → only_sends P w (upd_sv v w').
Proof. intros H q Hq. rewrite hp_upd_sv. by apply H. Qed.

(** A close handler run on session [p]. *)
Lemma close_only_sends s p r w w' :
  server_inv w → hp w !! p = Some s → session_inv s →
  call (ts_closedHandler s) (λ h, run_closed (Callbacks := SC) h p r) w = Ok tt w' →
  (∀ P, only_sends P w w') ∧ sv w' = give_id (ts_id s) (sv w).
Proof.
  intros Hw Hs Hsi Hrun. destruct (handler_ok s p w r Hw Hs Hsi) as (w2 & Hr & _ & w1 & Hrel & ->).
  rewrite Hr in Hrun. injection Hrun as <-. split; [|by rewrite sv_upd_sv, (proj1 Hrel)].
  intros P. by apply only_sends_upd_sv, app_rel_only_sends.
Qed.

Lemma read_only_sends p ec bs w w' :
  server_inv w → enabled w (Ev_read p ec bs) →
  complete_read (CB := SC) p ec bs w = Ok tt w' →
  only_sends (λ q, q ≠ p) w w' ∧ (sv w' = sv w ∨ ∃ id, sv w' = give_id id (sv w)).
Proof.
  intros Hw He Hrun.
  destruct (read_cases p ec bs w w' Hw He Hrun) as (s & m & t & size & rest & Hs & Hsi & Hti & Htn & _ & Hc).
  assert (Hne : ¬ (p ≠ p)) by (by intros ?).
  destruct Hc as [[_ ->]|[[_ ->]|[(_ & _ & Hr)|[_ Hr]]]].
  1,2: rewrite sv_upd; split; [by apply only_sends_refl_upd|by left].
  - change (ts_closedHandler s) with (ts_closedHandler (took_read m s)) in Hr.
    destruct (close_only_sends (took_read m s) p _ _ _ (server_inv_upd p s _ w Hw Hs Hti eq_refl)
      (lookup_upd _ _ _) Hti Hr) as [Ho Hv]. rewrite sv_upd in Hv.
    split; [by apply (only_sends_upd _ p (took_read m s))|by right; eexists].
  - destruct (message_case s _ p _ w' (lookup_upd _ _ _) Hr) as (w1 & ms & Hrel & Hs1 & ->).
    rewrite sv_upd, (proj1 Hrel), sv_upd. split; [|by left]. intros q Hq.
    rewrite lookup_upd_ne by done. destruct (proj2 Hrel q) as [ms' E]. exists ms'.
    by rewrite E, lookup_upd_ne.
Qed.

Lemma write_only_sends p ec n w w' :
  server_inv w → enabled w (Ev_write p ec n) →
  complete_write (CB := SC) p ec n w = Ok tt w' →
  only_sends (λ q, q ≠ p) w w' ∧ (sv w' = sv w ∨ ∃ id, sv w' = give_id id (sv w)).
Proof.
  intros Hw He Hrun. assert (Hne : ¬ (p ≠ p)) by (by intros ?).
  destruct (write_cases p ec n w w' Hw He Hrun) as (s & bs & m & q & Hs & Hsi & Hq & [[_ ->]|[_ Hr]]).
  - rewrite sv_upd. split; [by apply only_sends_refl_upd|by left].
  - assert (Hs1 : session_inv (write_failed bs s)) by (by apply failed_write_inv).
    change (ts_closedHandler s) with (ts_closedHandler (write_failed bs s)) in Hr.
    destruct (close_only_sends (write_failed bs s) p _ _ _ (server_inv_upd p s _ w Hw Hs Hs1 eq_refl)
      (lookup_upd _ _ _) Hs1 Hr) as [Ho Hv]. rewrite sv_upd in Hv.
    split; [by apply (only_sends_upd _ p (write_failed bs s))|by right; eexists].
Qed.

(** A write leaves the reads of its session alone. *)
Lemma write_reads p ec n s w w' :
  server_inv w → enabled w (Ev_write p ec n) → hp w !! p = Some s →
  complete_write (CB := SC) p ec n w = Ok tt w' →
  ∃ s', hp w' !! p = Some s' ∧ sk_reads (ts_socket s') = sk_reads (ts_socket s).
Proof.
  intros Hw He Hs Hrun.
  destruct (write_cases p ec n w w' Hw He Hrun) as (s0 & bs & m & q & Hs0 & Hsi & Hq & [[_ ->]|[_ Hr]]);
    simplify_eq.
  - eexists. split; [apply lookup_upd|]. unfold write_done.
    by destruct q, s as [[] ? ? ? ? ? ? ? ? ? ? ? ?].
  - assert (Hs1 : session_inv (write_failed bs s)) by (by apply failed_write_inv).
    change (ts_closedHandler s) with (ts_closedHandler (write_failed bs s)) in Hr.
    destruct (close_only_sends (write_failed bs s) p _ _ _ (server_inv_upd p s _ w Hw Hs Hs1 eq_refl)
      (lookup_upd _ _ _) Hs1 Hr) as [Ho _].
    destruct (Ho (λ _, True) p I) as [ms E]. rewrite lookup_upd in E. eexists. split; [exact E|].
    rewrite pushes_reads. by destruct s as [[] ? ? ? ? ? ? ? ? ? ? ? ?].
Qed.

Lemma accept_only_sends error peer uninit w w' (P : ptr → Prop) :
  server_inv w → sv_accepts (sv w) ≠ 0%nat → msg_ok uninit.1.1 →
  (∀ q, P q → is_Some (hp w !! q)) →
  complete_accept app error peer uninit w = Ok tt w' → only_sends P w w'.
Proof.
  intros Hinv Hne Hm HP Hrun. pose proof Hinv as (Hi & Ht & Ha & Hmx).
  assert (H1 : sv_accepts (sv w) = 1%nat) by (destruct Ha as (_ & _ & _ & _ & ? & _); lia).
  assert (Hsame : ∀ v, only_sends P w (upd_sv v w)).
  { intros v. apply only_sends_upd_sv. intros q _. exists []. by destruct (hp w !! q). }
  destruct (is_error error) eqn:He.
  { rewrite accept_error_ok in Hrun by done. by injection Hrun as <-. }
  destruct error; try done.
  destruct (decide (max_of (sv w) <= Z.of_nat (size (sv_sessions (sv w))))).
  { erewrite accept_full_ok in Hrun; [|done|by apply Ha|by right]. by injection Hrun as <-. }
  destruct peer as [ep|].
  2:{ destruct (accept_gone_throws uninit w) as [? E]; [done..|lia|]. by rewrite E in Hrun. }
  destruct (accept_ok ep uninit w)
    as (id & rest & p & pool & w1 & s & Hf & Hp & _ & _ & Hr & _ & _ & _ & _ & _ & Hq);
    [done..|lia|].
  rewrite Hr in Hrun. injection Hrun as <-. intros q HPq. apply Hq. intros ->.
  destruct (HP _ HPq) as [? E]. by rewrite Hp in E.
Qed.

(** A session with no outstanding read never gets one again. *)
Lemma deaf_step p s w e w' :
  server_inv w → server_step app w e w' →
  hp w !! p = Some s → sk_reads (ts_socket s) = [] →
  ∃ s', hp w' !! p = Some s' ∧ sk_reads (ts_socket s') = [].
Proof.
  intros Hw [He Hrun] Hs Hnil.
  assert (Hother : only_sends (λ q, q = p) w w' →
                   ∃ s', hp w' !! p = Some s' ∧ sk_reads (ts_socket s') = []).
  { intros Ho. destruct (Ho p eq_refl) as [ms E]. exists (pushes ms s).
    by rewrite E, Hs, pushes_reads. }
  destruct e as [error peer uninit|q ec bs|q ec n]; cbn in Hrun.
  - apply Hother. destruct He as [Hne Hm]. change (sv_accepts (sv w) ≠ 0%nat) in Hne.
    eapply accept_only_sends; [done..| |exact Hrun]. intros q ->. eauto.
  - destruct (decide (q = p)) as [->|Hne].
    + destruct He as (s0 & Hs0 & t & size & rest & Hr & _). simplify_eq. by rewrite Hnil in Hr.
    + apply Hother. intros q' ->. by apply (read_only_sends q ec bs).
  - destruct (decide (q = p)) as [->|Hne].
    + destruct (write_reads p ec n s w w' Hw He Hs Hrun) as (s' & Hs' & Hr').
      exists s'. by rewrite Hr'.
    + apply Hother. intros q' ->. by apply (write_only_sends q ec n).
Qed.
End Process.

#[global] Arguments server : simpl never.
#[global] Arguments set_server : simpl never.
