(* ===== verification/ServerProps.v ===== *)
(** * Properties of the server

    The session ids, the accept loop, closing, stopping and the threads of
    TcpServer, for any application that only sends from its handlers. *)
From S2P Require Import Prelude Config Msg Session TcpSession TcpSend TcpRecv IoServicePool TcpServer ServerInv.

(** ** Construction and start *)

Lemma fill_ids_ok n i ids max :
  0 <= i → i + Z.of_nat n = max → max < 2 ^ 31 →
  fill_ids n max i ids = Val (ids ++ seqZ (i + 1) (Z.of_nat n)).
Proof.
  revert i ids. induction n as [|n IH]; intros i ids Hi Hn Hmax; cbn [fill_ids];
    rewrite wrapU_id by (unfold in_u; lia).
  - replace max with i by lia. rewrite Z.ltb_irrefl. by rewrite app_nil_r.
  - case_cmp; try lia. rewrite IH by lia. rewrite <- app_assoc.
    rewrite (seqZ_cons (i + 1)) by lia. cbn. do 4 f_equal; lia.
Qed.

Lemma fill_ids_overflow n i ids max :
  0 <= i < 2 ^ 31 → i + Z.of_nat n = max → 2 ^ 31 <= max < 2 ^ 64 →
  fill_ids n max i ids = Bad UB_signed_overflow.
Proof.
  revert i ids. induction n as [|n IH]; intros i ids Hi Hn Hmax; [lia|].
  cbn [fill_ids]. rewrite wrapU_id by (unfold in_u; lia). case_cmp; try lia; [|done].
  apply IH; lia.
Qed.

Section Props.
Context {W : Type} `{FH : !Field W heap} `{FS : !Field W TcpServer} `{SEP : !Separate FS FH}.
Context (app : Callbacks W) `{LAWS : !AppLaws app}.
Implicit Types (w : W) (s : TcpSession) (p q : ptr).

(** A constructed server with its opened handler registered, no session yet,
    and a pool of at least one service. *)
Definition fresh_server (v : TcpServer) : Prop :=
  sv_sessions v = ∅ ∧ sv_free_session_id v = seqZ 1 (max_of v) ∧ sv_accepts v = 0%nat ∧
  sv_openedHandler v ≠ None ∧ 0 <= max_of v ∧ ∃ i, next_is i (sv_ioServicePool v).

Lemma fresh_ids_exact v : fresh_server v → ids_exact v.
Proof.
  intros (Hs & Hf & _ & _ & Hm & _). unfold ids_exact, ids_inv. rewrite Hs, Hf. split_and!.
  - intros k Hk. left. apply elem_of_seqZ. lia.
  - intros k Hk%elem_of_seqZ. lia.
  - done.
  - apply NoDup_seqZ.
  - done.
Qed.

(** The server component after a successful [listen]. *)
Definition listening (ep : endpoint) (k : nat) (pool1 pool2 : IoServicePool) (v : TcpServer) : TcpServer :=
  accepting None pool2
    (sv_set_state Server_Start (sv_set_acceptor (Some (mkAcceptor true k ep))
       (sv_set_pool (λ _, pool1) v))).

Lemma listen_ok ep i w :
  next_is i (sv_ioServicePool (sv w)) →
  ∃ k pool1 pool2, listen ep true w = Ok tt (upd_sv (listening ep k pool1 pool2 (sv w)) w) ∧
    m_ios pool2 = m_ios (sv_ioServicePool (sv w)) ∧ ∃ j, next_is j pool2.
Proof.
  intros Hi. destruct (getIoService_ok i _ Hi) as (pool1 & Hp & Hm1 & Hn1).
  set (v1 := sv_set_state Server_Start (sv_set_acceptor (Some (mkAcceptor true i ep))
               (sv_set_pool (λ _, pool1) (sv w)))).
  destruct (startAccept_ok None (S i mod length (m_ios (sv_ioServicePool (sv w))))%nat (upd_sv v1 w)) as (pool2 & _ & Hm2 & Hn2 & Hs);
    [by rewrite sv_upd_sv|rewrite sv_upd_sv; exact Hn1|]. rewrite sv_upd_sv in *.
  exists i, pool1, pool2. split; [|split; [by rewrite Hm2|done]].
  unfold listen, take_ioService. rewrite bind_assoc, bind_server, bind_assoc, (bind_lift _ (i, pool1)) by done.
  cbn beta iota. rewrite bind_assoc, bind_set_server, bind_ret. cbn [negb].
  rewrite !bind_set_server, !sv_upd_sv, !upd_sv_upd_sv. fold v1.
  rewrite Hs, upd_sv_upd_sv. done.
Qed.

Lemma listen_inv ep w :
  fresh_server (sv w) → hp w = ∅ →
  ∃ w', listen ep true w = Ok tt w' ∧ server_inv w' ∧ ids_exact (sv w') ∧
    sv_accepts (sv w') = 1%nat ∧ hp w' = ∅ ∧ sv_sessions (sv w') = ∅ ∧
    sv_config (sv w') = sv_config (sv w).
Proof.
  intros Hf Hh. pose proof Hf as (Hs & Hfr & Hacc & Hop & Hm & i & Hi).
  destruct (listen_ok ep i w Hi) as (k & pool1 & pool2 & Hrun & _ & j & Hj).
  pose proof (fresh_ids_exact _ Hf) as Hex.
  eexists. split; [exact Hrun|]. unfold server_inv. rewrite !sv_upd_sv, !hp_upd_sv, Hh.
  split_and!; try done.
  - apply Hex.
  - split; [|done]. cbn. rewrite Hs. done.
  - unfold accept_inv, listening, accepting. cbn. rewrite Hacc. split_and!; try done.
    exists j. by apply next_is_run.
  - cbn. by rewrite Hacc.
Qed.

(** A state the server can be in: [listen] succeeded on a fresh server, and
    then any events happened. *)
Definition running w : Prop :=
  ∃ ep w0 w1, fresh_server (sv w0) ∧ hp w0 = ∅ ∧ listen ep true w0 = Ok tt w1 ∧
    reach (server_step app) w1 w.

Lemma running_inv w : running w → server_inv w.
Proof.
  intros (ep & w0 & w1 & Hf & Hh & Hl & Hr).
  destruct (listen_inv ep w0 Hf Hh) as (w1' & Hl' & Hi & _). rewrite Hl in Hl'.
  injection Hl' as <-. by eapply server_reach_inv.
Qed.

Lemma running_step w e w' : running w → server_step app w e w' → running w'.
Proof. intros (ep & w0 & w1 & Hf & Hh & Hl & Hr) Hs. exists ep, w0, w1. split_and!; try done. by econstructor. Qed.

Lemma session_at w p s : server_inv w → hp w !! p = Some s → session_inv s ∧ 1 <= ts_id s <= max_of (sv w).
Proof. intros (_ & [_ Hh] & _). apply Hh. Qed.

(** Without an outstanding accept there will never be one again. *)
Lemma deaf_acceptor w w' :
  server_inv w → sv_accepts (sv w) = 0%nat → reach (server_step app) w w' →
  sv_accepts (sv w') = 0%nat.
Proof.
  intros Hw H0 Hr. cut (server_inv w' ∧ sv_accepts (sv w') = 0%nat); [tauto|].
  revert w' Hr. apply reach_inv; [done|]. clear w Hw H0. intros w e w' [Hw H0] Hstep.
  split; [by eapply server_step_inv|]. destruct Hstep as [He Hrun]. destruct e; cbn in Hrun.
  - destruct He as [Hne _]. done.
  - by destruct (read_only_sends app _ _ _ _ _ Hw He Hrun) as [_ [->|[id ->]]].
  - by destruct (write_only_sends app _ _ _ _ _ Hw He Hrun) as [_ [->|[id ->]]].
Qed.

(** *** Which events are undefined *)

Lemma accept_defined error peer uninit w u :
  server_inv w → enabled w (Ev_accept error peer uninit) →
  complete_accept app error peer uninit w ≠ Undef u.
Proof.
  intros Hw [Hne Hm] Hrun. change (sv_accepts (sv w) ≠ 0%nat) in Hne.
  assert (H1 : sv_accepts (sv w) = 1%nat) by (destruct Hw as (_ & _ & (_ & _ & _ & _ & ? & _) & _); lia).
  destruct (is_error error) eqn:He; [by rewrite accept_error_ok in Hrun|].
  destruct error; try done.
  destruct (decide (max_of (sv w) <= Z.of_nat (size (sv_sessions (sv w))))).
  { erewrite accept_full_ok in Hrun; [done|done|by apply Hw|by right]. }
  destruct peer as [ep|].
  - destruct (accept_ok app ep uninit w Hw H1 Hm ltac:(lia)) as (? & ? & ? & ? & ? & ? & _ & _ & _ & _ & E & _).
    by rewrite E in Hrun.
  - destruct (accept_gone_throws app uninit w Hw H1 ltac:(lia)) as [? E]. by rewrite E in Hrun.
Qed.

Lemma read_defined p ec bs w u :
  server_inv w → enabled w (Ev_read p ec bs) →
  complete_read (CB := server_callbacks app) p ec bs w = Undef u →
  ∃ s, hp w !! p = Some s ∧ waiting_body s ∧
    (bodyLength (ts_msg s) < 0 ∨ ∃ h w1, run_message (Callbacks := app) h p w1 = Undef u).
Proof.
  intros Hw (s & Hs & t & size & rest & Hr & Hbs & Hlen & Herr & _) Hrun.
  destruct (session_at _ _ _ Hw Hs) as [Hsi _]. exists s. split; [done|].
  assert (Ht : t = RdHeader ∧ size = hdrLength ∨
               t = RdBody ∧ size = size_t (bodyLength (ts_msg s)) ∧ waiting_body s ∧
               bodyLength (ts_msg s) <= MAX_CP_MSG_DATA).
  { destruct Hsi as (Hm & _ & [Hr'|[Hr'|[Hr' Hc]]] & _); rewrite Hr' in Hr; [done|..];
      injection Hr as <- <- _; [by left|]. right. split_and!; try done.
    by apply (checkHeader_accepts (ts_msg s)). }
  destruct (is_error ec) eqn:He.
  - rewrite (Herr eq_refl) in *. destruct Ht as [[-> ->]|(-> & -> & Hwb & _)].
    + by erewrite header_error_ok in Hrun by (done || apply Hsi).
    + erewrite body_error_ok in Hrun; [|done|apply Hsi|done|done].
      set (s1 := took_read (ts_msg s) s) in *.
      assert (Hs1 : session_inv s1) by (by apply took_read_inv; [|apply Hsi]).
      destruct (handler_ok app s1 p (upd p s1 w) (close_reason ec)) as (w2 & E & _);
        [by eapply server_inv_upd|apply lookup_upd|done|].
      change (ts_closedHandler s) with (ts_closedHandler s1) in Hrun. by rewrite E in Hrun.
  - destruct ec; try done. destruct Ht as [[-> ->]|(-> & -> & Hwb & Hmax)].
    + erewrite complete_header_ok in Hrun; [done|done|done|].
      apply store_header_short; [apply Hsi|]. unfold hdrLength in *. lia.
    + split; [done|]. destruct (decide (bodyLength (ts_msg s) < 0)) as [|Hpos]; [by left|]. right.
      rewrite wrapU_id in Hlen by (unfold in_u, MAX_CP_MSG_DATA in *; lia).
      erewrite complete_body_ok in Hrun; [|done|done|apply store_body; [apply Hsi|lia]].
      destruct (ts_messageHandler s) as [h|]; [|done]. cbn [call] in Hrun.
      unfold mbind, M_bind in Hrun.
      match type of Hrun with context [run_message h p ?w0] => set (w1 := w0) in Hrun end.
      destruct (run_message h p w1) as [[] w2| |v] eqn:Em; [done|done|].
      exists h, w1. injection Hrun as <-. exact Em.
Qed.

Lemma write_defined p ec n w u :
  server_inv w → enabled w (Ev_write p ec n) →
  complete_write (CB := server_callbacks app) p ec n w = Undef u →
  ∃ s m rest, hp w !! p = Some s ∧ ts_sendQue s = m :: rest ∧
    ¬ 0 <= bodyLength m <= MAX_CP_MSG_DATA.
Proof.
  intros Hw (s & Hs & size & rest & Hwr & Hn & Hsz) Hrun.
  destruct (session_at _ _ _ Hw Hs) as [Hsi _]. pose proof Hsi as (_ & _ & _ & Htx & _).
  unfold tx_inv in Htx. destruct (ts_sendQue s) as [|m q] eqn:Eq; [by rewrite Htx in Hwr|].
  exists s, m, q. split_and!; try done. intros Hb.
  destruct Htx as [Htx|Htx]; rewrite Htx in Hwr; [done|]. injection Hwr as <- <-.
  assert (Hl : size_t (msg_length m) = msg_length m).
  { apply wrapU_id. unfold in_u, msg_length, bodyLength, hdrLength, MAX_CP_MSG_DATA in *. lia. }
  rewrite Hl in *.
  assert (Hld : load n m = Val (take (Z.to_nat n) (bytes_of_msg m))).
  { unfold load. case_cmp; [done|].
    unfold sizeof_Msg, msg_length, bodyLength, hdrLength, MAX_CP_MSG_DATA in *. lia. }
  destruct (is_error ec) eqn:He.
  - erewrite complete_write_error in Hrun by done.
    set (s1 := write_failed _ s) in *. assert (Hs1 : session_inv s1) by (by apply failed_write_inv).
    destruct (handler_ok app s1 p (upd p s1 w) (close_reason ec)) as (w2 & E & _);
      [by eapply server_inv_upd|apply lookup_upd|done|].
    change (ts_closedHandler s) with (ts_closedHandler s1) in Hrun. by rewrite E in Hrun.
  - destruct ec; try done. unfold complete_write in Hrun.
    erewrite bind_deref in Hrun by exact Hs. rewrite Htx, Eq, (bind_lift _ _ _ _ Hld) in Hrun.
    erewrite bind_assign in Hrun by exact Hs. unfold handleWrite in Hrun. cbn [is_error] in Hrun.
    erewrite bind_deref in Hrun by apply lookup_upd.
    destruct s as [[] ? ? ? ? ? ? ? ? ? ? ? ?]; cbn in *. subst. cbn in Hrun.
    erewrite bind_assign in Hrun by apply lookup_upd. erewrite bind_assign in Hrun by apply lookup_upd.
    destruct q; cbn in Hrun; [done|]. unfold async_write_front in Hrun.
    erewrite bind_deref in Hrun by apply lookup_upd. done.
Qed.

(** *** The id pool through the handlers *)

Lemma handleClose_listed p s r w :
  server_inv w → hp w !! p = Some s →
  ∃ w', handleClose app p r w = Ok tt w' ∧ sv w' = give_id (ts_id s) (sv w) ∧
    ∃ ms, hp w' !! p = Some (pushes ms s).
Proof.
  intros Hw Hs. destruct (handleClose_ok app p r s w Hs) as (w1 & [Hv Hq] & Hr).
  eexists. split; [exact Hr|]. rewrite sv_upd_sv, hp_upd_sv, Hv. split; [done|].
  destruct (Hq p) as [ms E]. exists ms. by rewrite E, Hs.
Qed.

(** ** Properties *)

(** C10: in every state a listening server can reach, whatever events happen
    and whatever the application sends: there are at most [_maxSession]
    sessions in the table, each listed under its own id; every session object
    is in state [Opened], has an id of the pool, at most one read outstanding
    (for a header, or for the body its header announces) and at most one write
    (that of the front of its queue); every id is free or in use; and at most
    one accept is outstanding. *)
Theorem server_safety w :
  running w →
  Z.of_nat (size (sv_sessions (sv w))) <= max_of (sv w) ∧
  (∀ k p, sv_sessions (sv w) !! k = Some p → ∃ s, hp w !! p = Some s ∧ ts_id s = k) ∧
  (∀ p s, hp w !! p = Some s →
     ts_state s = Opened ∧ 1 <= ts_id s <= max_of (sv w) ∧
     (sk_reads (ts_socket s) = [] ∨ sk_reads (ts_socket s) = [(RdHeader, 8)] ∨
      sk_reads (ts_socket s) = [(RdBody, size_t (bodyLength (ts_msg s)))]) ∧
     (sk_writes (ts_socket s) = [] ∨ ∃ m rest, ts_sendQue s = m :: rest ∧
        sk_writes (ts_socket s) = [size_t (msg_length m)])) ∧
  (∀ k, 1 <= k <= max_of (sv w) ↔ k ∈ sv_free_session_id (sv w) ∨ is_Some (sv_sessions (sv w) !! k)) ∧
  (sv_accepts (sv w) ≤ 1)%nat.
Proof.
  intros Hw%running_inv. pose proof Hw as (Hi & [Ht Hh] & Ha & Hm). split_and!.
  - pose proof (sessions_bounded _ Hi). lia.
  - exact Ht.
  - intros p s Hs. destruct (Hh p s Hs) as [(_ & Ho & Hr & Hx & _) Hid].
    split_and!; [done|lia..| |].
    + destruct Hr as [?|[?|[? _]]]; auto.
    + unfold tx_inv in Hx. destruct (ts_sendQue s) as [|m rest]; [by left|].
      destruct Hx as [?|?]; [by left|right; eauto].
  - intros k. destruct Hi as (H1 & H2 & H3). split; [apply H1|].
    intros [?|[q ?]]; [by apply H2|by eapply H3].
  - apply Ha.
Qed.

(** C17: accepting a connection.  In a running server with its one accept
    outstanding and below capacity, an accept whose peer is still there
    ([remote_endpoint] succeeds) returns: the first free id leaves the pool, a
    new session object with that id, waiting for its first header, is made, and
    the next accept is started.  The session is then listed under the id unless
    the id is in use, in which case [emplace] leaves the table as it was; that
    happens only after an id has been given back twice: while none has, the id
    is one no listed session has, the session is listed, and it remains so. *)
Theorem accept_assigns_fresh_id w ep uninit :
  running w → sv_accepts (sv w) = 1%nat → msg_ok uninit.1.1 →
  Z.of_nat (size (sv_sessions (sv w))) < max_of (sv w) →
  ∃ id rest p s w', sv_free_session_id (sv w) = id :: rest ∧ hp w !! p = None ∧
    complete_accept app Success (Some ep) uninit w = Ok tt w' ∧
    hp w' !! p = Some s ∧ ts_id s = id ∧ waiting_header s ∧
    sv_free_session_id (sv w') = rest ∧ sv_accepts (sv w') = 1%nat ∧
    sv_sessions (sv w') =
      match sv_sessions (sv w) !! id with None => <[id := p]> (sv_sessions (sv w)) | Some _ => sv_sessions (sv w) end ∧
    (ids_exact (sv w) → sv_sessions (sv w) !! id = None ∧
       sv_sessions (sv w') = <[id := p]> (sv_sessions (sv w)) ∧ ids_exact (sv w')).
Proof.
  intros Hw%running_inv H1 Hm Hlt.
  destruct (accept_ok app ep uninit w Hw H1 Hm Hlt)
    as (id & rest & p & pool & w' & s & Hf & Hp & _ & _ & Hr & Hv & Hs & Hid & Hwh & _).
  exists id, rest, p, s, w'. rewrite Hv. split_and!; try done; [by cbn; rewrite H1|].
  intros Hex. assert (Hn : sv_sessions (sv w) !! id = None) by (apply Hex; rewrite Hf; by left).
  split; [done|]. destruct (take_id_exact id rest p (sv w) Hex Hf) as [Hx Hse].
  split; [exact Hse|]. exact Hx.
Qed.

(** closing a listed session runs the application's handler, takes the
    session out of the table and appends its id to the free ids; while no id
    has been given back twice, that remains so. *)
Theorem close_returns_id w p s r :
  running w → sv_sessions (sv w) !! ts_id s = Some p → hp w !! p = Some s →
  ∃ w', handleClose app p r w = Ok tt w' ∧
    sv_sessions (sv w') = delete (ts_id s) (sv_sessions (sv w)) ∧
    sv_free_session_id (sv w') = sv_free_session_id (sv w) ++ [ts_id s] ∧
    (ids_exact (sv w) → ids_exact (sv w')).
Proof.
  intros Hw%running_inv Hk Hs. destruct (handleClose_listed p s r w Hw Hs) as (w' & Hr & Hv & _).
  exists w'. rewrite Hv. split_and!; try done. intros Hex. by eapply give_id_exact.
Qed.

(** a session whose connection breaks while a body and a write are
    outstanding is closed twice, once by each completion.  Its id is then free
    twice, so the pool will hand it to two sessions. *)
Theorem double_close_duplicates_id w p s m rest ec1 ec2 n :
  running w → hp w !! p = Some s → waiting_body s →
  ts_sendQue s = m :: rest → sendable m → sk_writes (ts_socket s) = [size_t (msg_length m)] →
  is_error ec1 = true → is_error ec2 = true → 0 <= n <= msg_length m →
  ∃ w1 w2, server_step app w (Ev_read p ec1 []) w1 ∧ server_step app w1 (Ev_write p ec2 n) w2 ∧
    sv_free_session_id (sv w2) = sv_free_session_id (sv w) ++ [ts_id s; ts_id s] ∧
    sv_sessions (sv w2) !! ts_id s = None ∧ ¬ ids_exact (sv w2).
Proof.
  intros Hw%running_inv Hs Hwb Hq Hm Hwr He1 He2 Hn.
  destruct (session_at _ _ _ Hw Hs) as [Hsi _]. set (s1 := took_read (ts_msg s) s).
  assert (Hs1 : session_inv s1) by (by apply took_read_inv; [|apply Hsi]).
  destruct (handler_ok app s1 p (upd p s1 w) (close_reason ec1)) as (w1 & Hr1 & Hi1 & w1' & Hrel & Hw1);
    [by eapply server_inv_upd|apply lookup_upd|done|].
  destruct (proj2 Hrel p) as [ms E]. rewrite lookup_upd in E. cbn in E.
  assert (Hp1 : hp w1 !! p = Some (pushes ms s1)) by (by rewrite Hw1, hp_upd_sv).
  assert (Hq1 : ts_sendQue (pushes ms s1) = m :: (rest ++ ms)).
  { rewrite pushes_queue. change (ts_sendQue s1) with (ts_sendQue s). by rewrite Hq. }
  assert (Hwr1 : sk_writes (ts_socket (pushes ms s1)) = [msg_length m]).
  { rewrite pushes_writes by (change (ts_sendQue s1) with (ts_sendQue s); by rewrite Hq).
    change (sk_writes (ts_socket s1)) with (sk_writes (ts_socket (set_socket (sk_set_reads tail) s))).
    rewrite <- size_t_length by done. by destruct s as [[] ? ? ? ? ? ? ? ? ? ? ? ?]. }
  assert (Hsi1 : session_inv (pushes ms s1)) by (by apply pushes_inv).
  set (s2 := write_failed (take (Z.to_nat n) (bytes_of_msg m)) (pushes ms s1)).
  assert (Hs2 : session_inv s2) by (by apply failed_write_inv).
  destruct (handler_ok app s2 p (upd p s2 w1) (close_reason ec2)) as (w2 & Hr2 & Hi2 & w2' & Hrel2 & Hw2);
    [by eapply server_inv_upd|apply lookup_upd|done|].
  assert (Hid : ts_id s2 = ts_id s) by (change (ts_id s2) with (ts_id (pushes ms s1)); by rewrite pushes_id).
  assert (Hv : sv w2 = give_id (ts_id s) (give_id (ts_id s) (sv w))).
  { rewrite Hw2, sv_upd_sv, (proj1 Hrel2), sv_upd, Hid, Hw1, sv_upd_sv, (proj1 Hrel), sv_upd. done. }
  exists w1, w2. rewrite Hv. split_and!.
  - split.
    + exists s. split; [done|]. exists RdBody, (size_t (bodyLength (ts_msg s))), [].
      split_and!; [done|constructor| |done|by rewrite He1]. cbn. apply wrapU_range. lia.
    + cbn. erewrite body_error_ok; [exact Hr1|done|apply Hsi|exact Hwb|done].
  - split.
    + exists (pushes ms s1). split; [done|]. exists (msg_length m), []. rewrite Hwr1.
      split_and!; [done|lia|lia|]. by rewrite He2.
    + cbn. erewrite complete_write_error; [exact Hr2|exact Hp1|exact Hq1|exact Hwr1| |done].
      by apply load_sendable.
  - cbn. by rewrite <- app_assoc.
  - cbn. apply lookup_delete_eq.
  - intros (_ & Hnd & _). cbn in Hnd. rewrite <- app_assoc in Hnd.
    apply NoDup_app in Hnd as (_ & _ & Hnd). by apply NoDup_cons in Hnd as [[] _]; left.
Qed.

Lemma accept_ends w error peer uninit :
  server_inv w → sv_accepts (sv w) = 1%nat →
  is_error error = true ∨
    error = Success ∧ max_of (sv w) <= Z.of_nat (size (sv_sessions (sv w))) →
  ∃ sock, complete_accept app error peer uninit w =
    Ok tt (upd_sv (accept_dropped sock (sv w)) w).
Proof.
  intros (_ & _ & Ha & _) H1 [He|[-> Hfull]]; eexists.
  - by apply accept_error_ok.
  - eapply accept_full_ok; [done|by apply Ha|by right].
Qed.

(** the accept loop ends at the first accept that fails or finds the server
    full.  The completion starts no new accept, and whatever happens later -
    sessions closing included - no accept is ever outstanding again: the
    server is running and has room, but takes no further connection. *)
Theorem accept_loop_ends w error peer uninit :
  running w → sv_accepts (sv w) = 1%nat →
  is_error error = true ∨
    error = Success ∧ max_of (sv w) <= Z.of_nat (size (sv_sessions (sv w))) →
  ∃ w1, complete_accept app error peer uninit w = Ok tt w1 ∧
    sv_state (sv w1) = Server_Start ∧
    sv_sessions (sv w1) = sv_sessions (sv w) ∧
    ∀ w2, reach (server_step app) w1 w2 →
      sv_accepts (sv w2) = 0%nat ∧ ∀ error' peer' uninit', ¬ enabled w2 (Ev_accept error' peer' uninit').
Proof.
  intros Hw%running_inv H1 Hend. destruct (accept_ends w error peer uninit Hw H1 Hend) as [sock Hr].
  eexists. split; [exact Hr|]. rewrite sv_upd_sv. split_and!; [apply Hw|done|]. intros w2 Hre.
  assert (H0 : sv_accepts (sv w2) = 0%nat).
  { eapply deaf_acceptor; [| |exact Hre].
    - pose proof Hw as (Hi & Ht & (Hac & Hst & Hop & Hp & _ & _) & Hm).
      apply server_inv_upd_sv; [done|done| |done|done].
      unfold accept_inv, accept_dropped. cbn. rewrite H1. split_and!; try done. cbn. lia.
    - rewrite sv_upd_sv. cbn. by rewrite H1. }
  split; [done|]. intros error' peer' uninit' [Hne _]. done.
Qed.

(** a peer that goes away between two messages leaks its session.  The
    failed header read changes nothing in the server - the session stays in
    the table and its id in use - and in every later state the session exists
    with no read outstanding, so it will never notice. *)
Theorem silent_disconnect_leaks w p s ec :
  running w → hp w !! p = Some s → waiting_header s → is_error ec = true →
  ∃ w1, server_step app w (Ev_read p ec []) w1 ∧ sv w1 = sv w ∧
    ∀ w2, reach (server_step app) w1 w2 →
      ∃ s2, hp w2 !! p = Some s2 ∧ ts_state s2 = Opened ∧ sk_reads (ts_socket s2) = [].
Proof.
  intros Hrun Hs Hwh He. pose proof (running_inv _ Hrun) as Hw.
  destruct (session_at _ _ _ Hw Hs) as [Hsi _].
  assert (Hstep : server_step app w (Ev_read p ec []) (upd p (took_read (ts_msg s) s) w)).
  { split.
    - exists s. split; [done|]. exists RdHeader, hdrLength, []. rewrite Hwh, He. done.
    - cbn. eapply header_error_ok; [done|apply Hsi|exact Hwh|done]. }
  eexists. split; [exact Hstep|]. rewrite sv_upd. split; [done|]. intros w2 Hre.
  assert (∃ s2, hp w2 !! p = Some s2 ∧ sk_reads (ts_socket s2) = []) as (s2 & Hs2 & Hr2).
  { pose proof (running_step _ _ _ Hrun Hstep) as Hw1%running_inv.
    cut (server_inv w2 ∧ ∃ s2, hp w2 !! p = Some s2 ∧ sk_reads (ts_socket s2) = []); [tauto|].
    revert w2 Hre. apply reach_inv.
    - split; [done|]. eexists. split; [apply lookup_upd|]. by apply took_read_inv; [|apply Hsi].
    - intros w1 e w2 [Hi (s1 & Hs1 & Hn1)] Hst. split; [by eapply server_step_inv|].
      by eapply deaf_step. }
  exists s2. split_and!; try done.
  assert (Hw2 : server_inv w2).
  { apply (server_reach_inv app _ w2) in Hre; [done|]. by eapply running_inv, running_step. }
  by apply (session_at _ _ _ Hw2 Hs2).
Qed.

(** C16: no event is undefined on its own account.  In a state a listening
    server can reach, an event has undefined behaviour only when a peer
    announced a negative body length, when the application's message callback
    has, or when the application queued a message whose length is not within
    its body. *)
Theorem event_undefined_causes w e u :
  running w → enabled w e → server_run app e w = Undef u →
  match e with
  | Ev_accept _ _ _ => False
  | Ev_read p _ _ => ∃ s, hp w !! p = Some s ∧ waiting_body s ∧
      (bodyLength (ts_msg s) < 0 ∨ ∃ h w1, run_message (Callbacks := app) h p w1 = Undef u)
  | Ev_write p _ _ => ∃ s m rest, hp w !! p = Some s ∧ ts_sendQue s = m :: rest ∧
      ¬ 0 <= bodyLength m <= MAX_CP_MSG_DATA
  end.
Proof.
  intros Hw%running_inv He Hrun. destruct e as [error peer uninit|p ec bs|p ec n]; cbn in Hrun.
  - by eapply accept_defined.
  - by eapply read_defined.
  - by eapply write_defined.
Qed.

(** a session never counts as closed.  Every session the server made is
    [Opened] for good: [isOpen] and [getRemoteEndpoint] answer so even after
    [close], which closes the socket but not the session's state. *)
Theorem close_keeps_opened w p s :
  running w → hp w !! p = Some s →
  let k := set_socket sk_close s in
  TcpSession_close p w = Ok tt (upd p k w) ∧ sk_open (ts_socket k) = false ∧
  TcpSession_isOpen p (upd p k w) = Ok true (upd p k w) ∧
  TcpSession_getRemoteEndpoint p (upd p k w) =
    Ok (Some (ep_address (ts_remoteEndpoint s), ep_port (ts_remoteEndpoint s))) (upd p k w).
Proof.
  intros Hw%running_inv Hs k. destruct (session_at _ _ _ Hw Hs) as [(_ & Ho & _) _].
  unfold TcpSession_close, TcpSession_isOpen, TcpSession_getRemoteEndpoint.
  rewrite (assign_ok p s) by done. sess_run. unfold k.
  destruct s as [[] ? ? ? ? ? ? ? ? ? ? ? ?]; cbn in *. by subst.
Qed.

(** *** Stopping *)

(** The sessions of [l] closed. *)
Definition closed_on (l : list ptr) (h : heap) : heap :=
  foldl (λ h p, alter (set_socket sk_close) p h) h l.

Lemma lookup_closed_on l h p :
  closed_on l h !! p = (λ s, if decide (p ∈ l) then set_socket sk_close s else s) <$> h !! p.
Proof.
  revert h. induction l as [|q l IH]; intros h.
  - change (closed_on [] h) with h. destruct (h !! p); [|done]. cbn.
    by rewrite decide_False by apply not_elem_of_nil.
  - change (closed_on (q :: l) h) with (closed_on l (alter (set_socket sk_close) q h)).
    rewrite IH. destruct (decide (q = p)) as [->|Hne].
    + rewrite lookup_alter_eq. destruct (h !! p) as [s|]; [|done]. cbn.
      rewrite (decide_True (P := p ∈ p :: l)) by (by left).
      destruct (decide (p ∈ l)); [|done]. by destruct s.
    + rewrite lookup_alter_ne by done. destruct (h !! p); [|done]. cbn.
      destruct (decide (p ∈ l)).
      * by rewrite decide_True by (by right).
      * by rewrite decide_False by (intros [->|?]%elem_of_cons; done).
Qed.

Lemma close_all_ok (l : list (Z * ptr)) w :
  forM_ l (λ '(_, p), TcpSession_close p) w = Ok tt (fset (closed_on l.*2 (hp w)) w).
Proof.
  revert w. induction l as [|[k p] l IH]; intros w; cbn [forM_].
  - change (closed_on [].*2 (hp w)) with (hp w). by rewrite fset_fget.
  - erewrite bind_ok by reflexivity. by rewrite IH, fget_fset, fset_fset.
Qed.

(** The server after [stop]. *)
Definition stopped (a : acceptor) (v : TcpServer) : TcpServer :=
  sv_set_state Server_Stop (sv_set_free (λ _, []) (sv_set_sessions (λ _, ∅)
    (sv_set_acceptor (Some (mkAcceptor false (ac_ios a) (ac_ep a))) v))).

Lemma stop_ok w :
  server_inv w →
  ∃ a w', stop w = Ok tt w' ∧ sv w' = stopped a (sv w) ∧
    hp w' = closed_on (in_order (sv_sessions (sv w))).*2 (hp w).
Proof.
  intros (_ & _ & (Hac & Hst & _) & _).
  destruct (sv_acceptor (sv w)) as [a|] eqn:Ea; [|done].
  set (v1 := sv_set_acceptor (Some (mkAcceptor false (ac_ios a) (ac_ep a))) (sv w)).
  set (w1 := upd_sv v1 w).
  set (h2 := closed_on (in_order (sv_sessions (sv w))).*2 (hp w1)).
  assert (Hsv2 : sv (fset h2 w1) = v1).
  { unfold sv. rewrite fget_fset_sep. apply sv_upd_sv. }
  exists a, (upd_sv (stopped a (sv w)) (fset h2 w1)).
  rewrite sv_upd_sv, hp_upd_sv, fget_fset. split_and!; [|done|unfold h2, w1; by rewrite hp_upd_sv].
  unfold stop. rewrite bind_server, bool_decide_eq_true_2 by done. cbn [negb].
  rewrite Ea, bind_set_server. fold v1. fold w1.
  erewrite bind_ok by apply close_all_ok. fold h2.
  rewrite !bind_set_server, set_server_ok, !sv_upd_sv, Hsv2, !upd_sv_upd_sv. done.
Qed.

(** [stop] on a running server closes the socket of every session in the
    table and of no other, leaves the rest of each session as it is, closes
    the acceptor, and empties the table - and the pool of free ids with it. *)
Theorem stop_closes_all w :
  running w →
  ∃ w', stop w = Ok tt w' ∧
    sv_state (sv w') = Server_Stop ∧ sv_sessions (sv w') = ∅ ∧ sv_free_session_id (sv w') = [] ∧
    (ac_open <$> sv_acceptor (sv w')) = Some false ∧
    ∀ p s, hp w !! p = Some s →
      ((∃ k, sv_sessions (sv w) !! k = Some p) → hp w' !! p = Some (set_socket sk_close s)) ∧
      ((∀ k, sv_sessions (sv w) !! k ≠ Some p) → hp w' !! p = Some s).
Proof.
  intros Hw%running_inv. destruct (stop_ok w Hw) as (a & w' & Hr & Hv & Hh).
  exists w'. rewrite Hv. split_and!; try done. intros p s Hs.
  rewrite Hh, lookup_closed_on, Hs. cbn. split; intros Hk.
  - destruct Hk as [k Hk]. rewrite decide_True; [done|]. apply list_elem_of_fmap.
    exists (k, p). by rewrite elem_of_in_order.
  - rewrite decide_False; [done|]. intros ([k q] & -> & Hq%elem_of_in_order)%list_elem_of_fmap.
    by apply (Hk k).
Qed.

(** a stopped server cannot be started again: [start] succeeds, and the
    first connection then takes the front of the emptied pool of ids, which is
    undefined behaviour. *)
Theorem restart_undefined w ep peer uninit :
  running w → 0 < max_of (sv w) →
  ∃ w', (stop ;; listen ep true) w = Ok tt w' ∧ sv_state (sv w') = Server_Start ∧
    complete_accept app Success peer uninit w' = Undef UB_empty_deque.
Proof.
  intros Hw%running_inv Hm. destruct (stop_ok w Hw) as (a & w1 & Hr & Hv & _).
  pose proof Hw as (_ & _ & (_ & _ & _ & [i Hi] & _ & _) & _).
  destruct (listen_ok ep i w1) as (k & pool1 & pool2 & Hl & _ & _); [by rewrite Hv|].
  eexists. split; [by erewrite bind_ok by exact Hr|]. rewrite sv_upd_sv. split; [done|].
  unfold complete_accept. rewrite bind_server, sv_upd_sv. cbn [sv_accepts listening accepting sv_set_pool sv_set_accepts].
  rewrite bind_set_server. unfold on_accept. rewrite bind_server, !sv_upd_sv. cbn [is_error].
  rewrite Hv. cbn [sv_state sv_sessions sv_free_session_id sv_config stopped sv_set_accepts listening accepting
    sv_set_pool sv_set_socket sv_set_state sv_set_acceptor sv_set_free sv_set_sessions].
  rewrite bool_decide_eq_false_2 by done. cbn [orb]. rewrite map_size_empty.
  replace (sc_maxSession (sv_config (sv w)) <=? Z.of_nat 0) with false by (symmetry; by apply Z.leb_gt).
  done.
Qed.

(** each accepted connection adds a thread to every service except the
    acceptor's: [startAccept] runs the pool again and joins inside the accept
    handler, so the acceptor's service gains a thread and loses one, and with
    more than one service the others run their handlers on one more thread
    after every accept. *)
Theorem accept_adds_threads w ep uninit a j n :
  running w → sv_accepts (sv w) = 1%nat → msg_ok uninit.1.1 →
  Z.of_nat (size (sv_sessions (sv w))) < max_of (sv w) →
  sv_acceptor (sv w) = Some a → Forall (λ x, ios_stopped x = false) (m_ios (sv_ioServicePool (sv w))) →
  live_threads j (sv_ioServicePool (sv w)) = Some n →
  ∃ w', complete_accept app Success (Some ep) uninit w = Ok tt w' ∧
    live_threads j (sv_ioServicePool (sv w')) = Some (if decide (j = ac_ios a) then n else n + 1).
Proof.
  intros Hw%running_inv H1 Hm Hlt Ha Hst Hj.
  destruct (accept_ok app ep uninit w Hw H1 Hm Hlt)
    as (id & rest & p & pool & w' & s & _ & _ & Hpm & _ & Hr & Hv & _).
  exists w'. split; [done|]. rewrite Hv. unfold accepted, accepting. cbn. rewrite Ha. cbn.
  apply live_threads_run; unfold live_threads in *; by rewrite Hpm.
Qed.
End Props.

Lemma TcpServer_new_ok name config :
  0 <= sc_maxSession config < 2 ^ 31 →
  TcpServer_new name config =
    Val (mkTcpServer name config Server_Ready (IoServicePool_new (sc_threadCount config))
           (seqZ 1 (sc_maxSession config)) ∅ None None None None None 0).
Proof.
  intros Hm. unfold TcpServer_new. rewrite fill_ids_ok by lia. cbn [mbind cres_bind].
  by rewrite Z2Nat.id by lia.
Qed.

(** With its opened handler registered and a thread it is ready for [listen]. *)
Lemma TcpServer_new_fresh name config v h c m :
  TcpServer_new name config = Val v → 0 <= sc_maxSession config < 2 ^ 31 →
  0 < sc_threadCount config → fresh_server (sv_set_handlers (Some h) c m v).
Proof.
  intros Hv Hm Ht. rewrite TcpServer_new_ok in Hv by done. injection Hv as <-.
  unfold fresh_server, max_of. cbn. split_and!; try done; [lia|]. exists 0%nat.
  unfold next_is. rewrite m_ios_new, m_next_new, length_replicate. split; [lia|by left].
Qed.

(** the constructor numbers the sessions 1 to [_maxSession], each once, and
    overflows its [int] counter exactly when [_maxSession] is 2^31 or more.
    With its opened handler registered and at least one thread the server is
    ready for [listen]. *)
Theorem TcpServer_new_spec name config :
  in_u 64 (sc_maxSession config) →
  (sc_maxSession config < 2 ^ 31 → ∃ v, TcpServer_new name config = Val v ∧
     sv_free_session_id v = seqZ 1 (sc_maxSession config) ∧ ids_exact v ∧
     sv_state v = Server_Ready ∧ sv_sessions v = ∅ ∧
     (0 < sc_threadCount config → ∀ h c m, fresh_server (sv_set_handlers (Some h) c m v))) ∧
  (2 ^ 31 <= sc_maxSession config → TcpServer_new name config = Bad UB_signed_overflow).
Proof.
  intros [H0 H64]. split; intros Hm.
  - eexists. split; [by apply TcpServer_new_ok|]. split_and!; try done.
    + unfold ids_exact, ids_inv, max_of. cbn. split_and!; [|..|done|apply NoDup_seqZ|done].
      * intros k Hk. left. apply elem_of_seqZ. lia.
      * intros k Hk%elem_of_seqZ. lia.
    + intros Ht h c m. eapply TcpServer_new_fresh; [by apply TcpServer_new_ok|done|done].
  - unfold TcpServer_new. rewrite fill_ids_overflow by lia. done.
Qed.

(** ** Instances at concrete inputs

    The smallest server process: sessions, the server, and an application that
    greets every new session. *)

Definition plain : Type := heap * TcpServer.
#[program, export] Instance plain_heap : Field plain heap :=
  {| fget w := w.1; fset x w := (x, w.2) |}.
Solve All Obligations with (by intros; try destruct w).
#[program, export] Instance plain_server : Field plain TcpServer :=
  {| fget w := w.2; fset x w := (w.1, x) |}.
Solve All Obligations with (by intros; try destruct w).
#[export] Instance plain_separate : Separate plain_server plain_heap.
Proof. by split. Qed.

Definition greeter : Callbacks plain := {|
  run_opened _ p := TcpSession_send p hello;
  run_closed _ _ _ := mret tt;
  run_message _ _ := mret tt
|}.

#[export] Instance greeter_laws : AppLaws greeter.
Proof.
  split.
  - intros h p w. apply send_app_rel.
  - intros h p r w _. exists w. split; [done|apply app_rel_refl].
  - intros h p w w' [= <-]. apply app_rel_refl.
Qed.

Definition after {W A} (r : outcome W A) (w : W) : W :=
  match r with Ok _ w' => w' | _ => w end.

Definition small_config : ServerConfig := mkServerConfig 2 2 true 4096 size_max.
Definition plain_v0 : TcpServer :=
  mkTcpServer "chat" small_config Server_Ready (IoServicePool_new 2) [1; 2] ∅
    (Some ChatServer_opened) (Some ChatServer_closed) (Some ChatServer_message) None None 0.
Definition any_ep : endpoint := mkEndpoint "0.0.0.0" 20000.
Definition uninit0 : Msg * Z * Z := (demo_msg 0 [], 0, 0).
Definition plain0 : plain := (∅, plain_v0).
Definition plain1 : plain := after (listen any_ep true plain0) plain0.
Definition plain2 : plain := after (complete_accept greeter Success (Some any_ep) uninit0 plain1) plain1.

Lemma plain1_running : running greeter plain1.
Proof.
  exists any_ep, plain0, plain1. split_and!; [|reflexivity|reflexivity|constructor].
  unfold fresh_server. split_and!; try reflexivity; try done. exists 0%nat.
  split; [apply Nat.lt_0_2|by left].
Qed.

Lemma plain2_running : running greeter plain2.
Proof.
  eapply running_step; [exact plain1_running|].
  split; [|instantiate (1 := Ev_accept Success (Some any_ep) uninit0); vm_compute; reflexivity].
  split; [done|exact demo_msg_ok].
Qed.

(** A header announcing three bytes of body has arrived. *)
Definition plain3 : plain :=
  after (complete_read (CB := server_callbacks greeter) 0%nat Success [1; 0; 3; 0; 3; 0; 0; 0] plain2) plain2.
Definition session_of (w : plain) (p : ptr) : TcpSession :=
  match w.1 !! p with Some s => s | None => demo_session socket_new [] end.

Lemma plain3_running : running greeter plain3.
Proof.
  eapply running_step; [exact plain2_running|].
  split; [|instantiate (1 := Ev_read 0%nat Success [1; 0; 3; 0; 3; 0; 0; 0]); vm_compute; reflexivity].
  exists (session_of plain2 0%nat). split; [vm_compute; reflexivity|].
  exists RdHeader, 8, []. split_and!; [vm_compute; reflexivity|..|done|done].
  - apply (bool_decide_unpack _). vm_compute. exact I.
  - cbn. lia.
Qed.

(** With a single id, so that one session fills the server. *)
Definition full0 : plain :=
  (∅, mkTcpServer "chat" (mkServerConfig 1 1 true 4096 size_max) Server_Ready (IoServicePool_new 1)
        [1] ∅ (Some ChatServer_opened) None None None None 0).
Definition full1 : plain := after (listen any_ep true full0) full0.
Definition full2 : plain := after (complete_accept greeter Success (Some any_ep) uninit0 full1) full1.

Lemma full2_running : running greeter full2.
Proof.
  eapply running_step with (w := full1);
    [|split; [|instantiate (1 := Ev_accept Success (Some any_ep) uninit0); vm_compute; reflexivity]].
  - exists any_ep, full0, full1. split_and!; [|reflexivity|reflexivity|constructor].
    unfold fresh_server. split_and!; try reflexivity; try done. exists 0%nat.
    split; [apply Nat.lt_0_1|by left].
  - split; [done|exact demo_msg_ok].
Qed.

Lemma TcpServer_new_spec_witness :
  (∃ v, TcpServer_new "chat" ServerConfig_default = Val v ∧ sv_free_session_id v = seqZ 1 1024) ∧
  TcpServer_new "chat" (mkServerConfig 1 (2 ^ 31) true 4096 size_max) = Bad UB_signed_overflow.
Proof.
  split.
  - destruct (proj1 (TcpServer_new_spec "chat" ServerConfig_default ltac:(split; cbn; lia)))
      as (v & Hv & Hf & _); [cbn; lia|]. exists v. by split.
  - apply TcpServer_new_spec; [split; cbn; lia|cbn; lia].
Defined.

Lemma server_safety_witness :
  Z.of_nat (size (sv_sessions (sv plain3))) <= 2 ∧ (sv_accepts (sv plain3) ≤ 1)%nat.
Proof.
  destruct (server_safety greeter plain3 plain3_running) as (H1 & _ & _ & _ & H2).
  split; [exact H1|exact H2].
Defined.

Lemma accept_assigns_fresh_id_witness :
  ∃ p s w', complete_accept greeter Success (Some any_ep) uninit0 plain2 = Ok tt w' ∧
    hp w' !! p = Some s ∧ ts_id s = 2 ∧ sv_free_session_id (sv w') = [].
Proof.
  destruct (accept_assigns_fresh_id greeter plain2 any_ep uninit0 plain2_running)
    as (id & rest & p & s & w' & Hf & _ & Hr & Hs & Hid & _ & Hf' & _).
  - vm_compute. reflexivity.
  - exact demo_msg_ok.
  - vm_compute. reflexivity.
  - vm_compute in Hf. injection Hf as <- <-. by exists p, s, w'.
Defined.

Lemma close_returns_id_witness :
  ∃ w', handleClose greeter 0%nat Timeout plain2 = Ok tt w' ∧ sv_free_session_id (sv w') = [2; 1].
Proof.
  destruct (close_returns_id greeter plain2 0%nat (session_of plain2 0%nat) Timeout plain2_running)
    as (w' & Hr & _ & Hf & _).
  - vm_compute. reflexivity.
  - vm_compute. reflexivity.
  - exists w'. split; [exact Hr|]. rewrite Hf. vm_compute. reflexivity.
Defined.

Lemma double_close_duplicates_id_witness :
  ∃ w1 w2, server_step greeter plain3 (Ev_read 0%nat Error_eof []) w1 ∧
    server_step greeter w1 (Ev_write 0%nat (Error_other 104) 0) w2 ∧
    sv_free_session_id (sv w2) = [2; 1; 1].
Proof.
  destruct (double_close_duplicates_id greeter plain3 0%nat (session_of plain3 0%nat) hello []
    Error_eof (Error_other 104) 0 plain3_running) as (w1 & w2 & H1 & H2 & Hf & _);
    try (vm_compute; reflexivity).
  - exact hello_sendable.
  - vm_compute. split; congruence.
  - exists w1, w2. split; [exact H1|]. split; [exact H2|]. rewrite Hf. vm_compute. reflexivity.
Defined.

Lemma accept_loop_ends_witness :
  ∃ w1, complete_accept greeter Success (Some any_ep) uninit0 full2 = Ok tt w1 ∧
    sv_accepts (sv w1) = 0%nat.
Proof.
  destruct (accept_loop_ends greeter full2 Success (Some any_ep) uninit0 full2_running)
    as (w1 & Hr & _ & _ & Hall).
  - vm_compute. reflexivity.
  - right. split; [done|]. vm_compute. congruence.
  - exists w1. split; [exact Hr|]. apply (Hall w1). constructor.
Defined.

Lemma silent_disconnect_leaks_witness :
  ∃ w1, server_step greeter plain2 (Ev_read 0%nat Error_eof []) w1 ∧
    sv_sessions (sv w1) = {[1 := 0%nat]}.
Proof.
  destruct (silent_disconnect_leaks greeter plain2 0%nat (session_of plain2 0%nat) Error_eof
    plain2_running) as (w1 & Hst & Hv & _); try (vm_compute; reflexivity).
  exists w1. split; [exact Hst|]. rewrite Hv. vm_compute. reflexivity.
Defined.

(** A peer announces -1 bytes and sends more than the object holds. *)
Definition overflowing : plain :=
  after (complete_read (CB := server_callbacks greeter) 0%nat Success [1; 0; 255; 255; 3; 0; 0; 0] plain2) plain2.

Lemma event_undefined_causes_witness :
  ∃ s, hp overflowing !! 0%nat = Some s ∧ waiting_body s ∧
    (bodyLength (ts_msg s) < 0 ∨ ∃ h w1, run_message (Callbacks := greeter) h 0%nat w1 = Undef UB_buffer_overflow).
Proof.
  refine (event_undefined_causes greeter overflowing (Ev_read 0%nat Success (replicate 1025 0))
    UB_buffer_overflow _ _ _).
  - eapply running_step; [exact plain2_running|].
    split; [|instantiate (1 := Ev_read 0%nat Success [1; 0; 255; 255; 3; 0; 0; 0]); vm_compute; reflexivity].
    exists (session_of plain2 0%nat). split; [vm_compute; reflexivity|].
    exists RdHeader, 8, []. split_and!; [vm_compute; reflexivity|..|done|done].
    + apply (bool_decide_unpack _). vm_compute. exact I.
    + cbn. lia.
  - exists (session_of overflowing 0%nat). split; [vm_compute; reflexivity|].
    exists RdBody, (2 ^ 64 - 1), []. split_and!; [vm_compute; reflexivity|..|done|done].
    + apply (bool_decide_unpack _). vm_compute. exact I.
    + vm_compute. congruence.
  - vm_compute. reflexivity.
Defined.

Lemma close_keeps_opened_witness :
  ∃ w, TcpSession_close 0%nat plain2 = Ok tt w ∧ TcpSession_isOpen 0%nat w = Ok true w.
Proof.
  destruct (close_keeps_opened greeter plain2 0%nat (session_of plain2 0%nat) plain2_running)
    as (Hr & _ & Ho & _); [vm_compute; reflexivity|].
  eexists. split; [exact Hr|exact Ho].
Defined.

Lemma stop_closes_all_witness :
  ∃ w', stop plain2 = Ok tt w' ∧ sv_free_session_id (sv w') = [] ∧
    (sk_open ∘ ts_socket <$> hp w' !! 0%nat) = Some false.
Proof.
  destruct (stop_closes_all greeter plain2 plain2_running) as (w' & Hr & _ & _ & Hf & _ & Hall).
  exists w'. split; [exact Hr|]. split; [exact Hf|].
  destruct (Hall 0%nat (session_of plain2 0%nat)) as [Hc _]; [vm_compute; reflexivity|].
  rewrite Hc by (exists 1; vm_compute; reflexivity). vm_compute. reflexivity.
Defined.

Lemma restart_undefined_witness :
  ∃ w', (stop ;; listen any_ep true) plain2 = Ok tt w' ∧
    complete_accept greeter Success (Some any_ep) uninit0 w' = Undef UB_empty_deque.
Proof.
  destruct (restart_undefined greeter plain2 any_ep (Some any_ep) uninit0 plain2_running)
    as (w' & Hr & _ & Hu); [vm_compute; reflexivity|].
  exists w'. split; [exact Hr|exact Hu].
Defined.

(** The second of two services runs on three threads after two accepts. *)
Lemma accept_adds_threads_witness :
  ∃ w', complete_accept greeter Success (Some any_ep) uninit0 plain2 = Ok tt w' ∧
    live_threads 1 (sv_ioServicePool (sv w')) = Some 3.
Proof.
  destruct (accept_adds_threads greeter plain2 any_ep uninit0 (mkAcceptor true 0 any_ep) 1 2 plain2_running)
    as (w' & Hr & Hl).
  - vm_compute. reflexivity.
  - exact demo_msg_ok.
  - vm_compute. reflexivity.
  - vm_compute. reflexivity.
  - vm_compute. repeat constructor.
  - vm_compute. reflexivity.
  - exists w'. split; [exact Hr|exact Hl].
Defined.
