(* ===== verification/ServerRace.v ===== *)
(** * The server's tables and their lock (Src/TcpServer.h, Src/TcpServer.cpp, chat_server/ChatServer.cpp)

    [_sessions] and [_free_session_id] are used by handlers that run on the
    threads of different services.  Here a handler is the sequence of its
    accesses to the two containers and of its uses of [_mutex]; an access
    begins and ends, and two that overlap, one of them a write, are a data
    race, which is undefined.  Any number of handlers are under way at the same
    time, but at most one of them is an accept: [startAccept] is called at the
    end of the accept handler, after its accesses.  The theorem says exactly
    which two of them can race. *)
From S2P Require Import Prelude.

(** ** Handlers *)

Inductive container := C_sessions | C_free_ids.
Inductive action :=
  | A_lock | A_unlock
  | A_begin (c : container) (write : bool)
  | A_end (c : container) (write : bool).

#[export] Instance container_eq_dec : EqDecision container.
Proof. solve_decision. Defined.
#[export] Instance action_eq_dec : EqDecision action.
Proof. solve_decision. Defined.

Definition access (c : container) (write : bool) : list action := [A_begin c write; A_end c write].
(** [std::lock_guard<std::mutex> guard(_mutex);] around [l]. *)
Definition guarded (l : list action) : list action := A_lock :: l ++ [A_unlock].

(** [handleClose]; an accept below capacity and one that finds the server full;
    [nfMessage]'s loop; [getSession]; [stop]. *)
Inductive handler := H_close | H_accept | H_refuse | H_relay | H_getSession | H_stop.

#[export] Instance handler_eq_dec : EqDecision handler.
Proof. solve_decision. Defined.

Definition close_actions : list action :=
  guarded (access C_sessions true) ++ access C_free_ids true.
Definition accept_actions : list action :=
  access C_sessions false ++                               (* _sessions.size() *)
  access C_free_ids false ++ access C_free_ids true ++     (* front(), pop_front() *)
  guarded (access C_sessions true).                        (* emplace() *)
Definition refuse_actions : list action := access C_sessions false.
Definition relay_actions : list action := guarded (access C_sessions false).
Definition getSession_actions : list action := guarded (access C_sessions false).
Definition stop_actions : list action :=
  access C_sessions false ++ access C_sessions true ++ access C_free_ids true.

Definition actions (h : handler) : list action :=
  match h with
  | H_close => close_actions
  | H_accept => accept_actions
  | H_refuse => refuse_actions
  | H_relay => relay_actions
  | H_getSession => getSession_actions
  | H_stop => stop_actions
  end.

(** ** Handlers under way

    Who has the lock, and what each handler still has to do; a handler whose
    next action is the end of an access is in the middle of it. *)
Record under_way := mkUnderWay { uw_lock : option nat; uw_rest : gmap nat (list action) }.

Definition step (t : nat) (s : under_way) : option under_way :=
  match uw_rest s !! t with
  | Some (A_lock :: k) =>
      match uw_lock s with
      | None => Some (mkUnderWay (Some t) (<[t := k]> (uw_rest s)))
      | Some _ => None
      end
  | Some (A_unlock :: k) =>
      if decide (uw_lock s = Some t) then Some (mkUnderWay None (<[t := k]> (uw_rest s))) else None
  | Some (_ :: k) => Some (mkUnderWay (uw_lock s) (<[t := k]> (uw_rest s)))
  | _ => None
  end.

Fixpoint steps (ts : list nat) (s : under_way) : option under_way :=
  match ts with [] => Some s | t :: ts => s' ← step t s; steps ts s' end.

Definition start (hs : list handler) : under_way := mkUnderWay None (map_seq 0 (actions <$> hs)).

(** [l1] and [l2] are in the middle of accesses that conflict. *)
Definition conflict (l1 l2 : list action) : bool :=
  match l1, l2 with
  | A_end c1 w1 :: _, A_end c2 w2 :: _ => bool_decide (c1 = c2) && (w1 || w2)
  | _, _ => false
  end.
Definition overlap (i j : nat) (s : under_way) : Prop :=
  ∃ l1 l2, uw_rest s !! i = Some l1 ∧ uw_rest s !! j = Some l2 ∧ conflict l1 l2 = true.

(** ** Two handlers by themselves *)

(** [true] for the first. *)
Record duo := mkDuo { d_lock : option bool; d_one : list action; d_two : list action }.

Definition d_rest (b : bool) (d : duo) : list action := if b then d_one d else d_two d.
Definition d_set (b : bool) (lock : option bool) (k : list action) (d : duo) : duo :=
  if b then mkDuo lock k (d_two d) else mkDuo lock (d_one d) k.
Definition d_step (b : bool) (d : duo) : option duo :=
  match d_rest b d with
  | A_lock :: k => match d_lock d with None => Some (d_set b (Some b) k d) | Some _ => None end
  | A_unlock :: k => if decide (d_lock d = Some b) then Some (d_set b None k d) else None
  | _ :: k => Some (d_set b (d_lock d) k d)
  | [] => None
  end.
Fixpoint d_steps (bs : list bool) (d : duo) : option duo :=
  match bs with [] => Some d | b :: bs => d' ← d_step b d; d_steps bs d' end.

(** All interleavings of at most [fuel] steps. *)
Fixpoint d_races (fuel : nat) (d : duo) : bool :=
  if conflict (d_one d) (d_two d) then true
  else match fuel with
       | O => false
       | S fuel =>
           if match d_step true d with Some d' => d_races fuel d' | None => false end then true
           else match d_step false d with Some d' => d_races fuel d' | None => false end
       end.

Definition d_start (h1 h2 : handler) : duo := mkDuo None (actions h1) (actions h2).
Definition d_size (d : duo) : nat := length (d_one d) + length (d_two d).

Lemma d_step_size b d d' : d_step b d = Some d' → d_size d = S (d_size d').
Proof.
  unfold d_step, d_set, d_rest, d_size. destruct d as [lk l1 l2], b; cbn;
    [destruct l1 as [|[] l1]|destruct l2 as [|[] l2]]; intros; repeat case_match; simplify_eq; cbn; lia.
Qed.

(** The search finds a race exactly if there is one. *)
Lemma d_races_spec fuel d :
  (d_size d ≤ fuel)%nat →
  d_races fuel d = true ↔ ∃ bs d', d_steps bs d = Some d' ∧ conflict (d_one d') (d_two d') = true.
Proof.
  revert d. induction fuel as [|fuel IH]; intros d Hf; cbn; destruct (conflict (d_one d) (d_two d)) eqn:Hc.
  1,3: split; [|done]; intros _; by exists [], d.
  - split; [done|]. intros ([|b bs] & d' & Hs & Hr); cbn in Hs; [simplify_eq; congruence|].
    destruct (d_step b d) as [d1|] eqn:E; [|done]. apply d_step_size in E. lia.
  - assert (Hb : ∀ b, match d_step b d with Some d' => d_races fuel d' | None => false end = true ↔
      ∃ bs d', d_steps (b :: bs) d = Some d' ∧ conflict (d_one d') (d_two d') = true).
    { intros b. cbn. destruct (d_step b d) as [d1|] eqn:E; cbn; [|naive_solver].
      apply IH. apply d_step_size in E. lia. }
    destruct (match d_step true d with Some _ => _ | None => _ end) eqn:Et.
    + split; [|done]. intros _. apply Hb in Et as (bs & d' & ?). by exists (true :: bs), d'.
    + rewrite Hb. split.
      * intros (bs & d' & ?). by exists (false :: bs), d'.
      * intros ([|b bs] & d' & Hs & Hr); [cbn in Hs; simplify_eq; congruence|].
        destruct b; [|by exists bs, d'].
        assert (false = true) as [=]. rewrite <- Et. apply Hb. by exists bs, d'.
Qed.

(** ** Two handlers among any number *)

Section Projection.
Context (i j : nat) (Hij : i ≠ j).
Implicit Types s : under_way.

Definition owner (t : nat) : option bool :=
  if decide (t = i) then Some true else if decide (t = j) then Some false else None.
Definition project s : duo :=
  mkDuo (uw_lock s ≫= owner) (default [] (uw_rest s !! i)) (default [] (uw_rest s !! j)).

Lemma owner_i : owner i = Some true.
Proof. unfold owner. by rewrite decide_True. Qed.
Lemma owner_j : owner j = Some false.
Proof. unfold owner. by rewrite decide_False, decide_True. Qed.
Lemma owner_other t : t ≠ i → t ≠ j → owner t = None.
Proof. intros. unfold owner. by rewrite !decide_False. Qed.

Lemma project_set t k lock s :
  project (mkUnderWay lock (<[t := k]> (uw_rest s))) =
    match owner t with
    | Some b => d_set b (lock ≫= owner) k (project s)
    | None => mkDuo (lock ≫= owner) (d_one (project s)) (d_two (project s))
    end.
Proof.
  unfold project. cbn. destruct (decide (t = i)) as [->|Hi]; [|destruct (decide (t = j)) as [->|Hj]].
  - rewrite owner_i, lookup_insert_eq, lookup_insert_ne by done. done.
  - rewrite owner_j, lookup_insert_eq, lookup_insert_ne by done. done.
  - by rewrite owner_other, !lookup_insert_ne by done.
Qed.

Lemma d_rest_project t b s l :
  owner t = Some b → uw_rest s !! t = Some l → d_rest b (project s) = l.
Proof.
  unfold owner. repeat case_decide; intros; simplify_eq; cbn; by simplify_option_eq.
Qed.

(** A step of one of the two is a step of the pair, any other step none. *)
Lemma step_project t s s' :
  step t s = Some s' →
  match owner t with Some b => d_step b (project s) = Some (project s') | None => project s' = project s end.
Proof.
  unfold step. destruct (uw_rest s !! t) as [[|a k]|] eqn:Ht; [done| |done].
  destruct (owner t) as [b|] eqn:Hb.
  - unfold d_step. rewrite (d_rest_project t b s _ Hb Ht).
    destruct a; cbn [uw_lock]; intros Hs.
    + destruct (uw_lock s) eqn:El; [done|]. injection Hs as <-. rewrite project_set, Hb. cbn.
      rewrite El. cbn. by rewrite Hb.
    + case_decide as El; [|done]. injection Hs as <-. rewrite project_set, Hb. cbn. rewrite El. cbn.
      rewrite Hb. by rewrite decide_True.
    + injection Hs as <-. by rewrite project_set, Hb.
    + injection Hs as <-. by rewrite project_set, Hb.
  - destruct a; intros Hs.
    + destruct (uw_lock s) eqn:El; [done|]. injection Hs as <-. rewrite project_set, Hb. cbn.
      unfold project. by rewrite El, Hb.
    + case_decide as El; [|done]. injection Hs as <-. rewrite project_set, Hb. unfold project. rewrite El. cbn.
      by rewrite Hb.
    + injection Hs as <-. by rewrite project_set, Hb.
    + injection Hs as <-. by rewrite project_set, Hb.
Qed.

Lemma steps_project ts s s' : steps ts s = Some s' → ∃ bs, d_steps bs (project s) = Some (project s').
Proof.
  revert s. induction ts as [|t ts IH]; intros s Hs; cbn in Hs.
  { injection Hs as <-. by exists []. }
  destruct (step t s) as [s1|] eqn:E; [|done]. cbn in Hs. destruct (IH s1 Hs) as [bs Hbs].
  apply step_project in E. destruct (owner t) as [b|].
  - exists (b :: bs). cbn. by rewrite E.
  - exists bs. by rewrite <- E.
Qed.

(** The pair can go on among the others while none of these has the lock. *)
Definition free_of_others s : Prop :=
  is_Some (uw_rest s !! i) ∧ is_Some (uw_rest s !! j) ∧ ∀ t, uw_lock s = Some t → is_Some (owner t).
Definition index (b : bool) : nat := if b then i else j.
Lemma owner_index b : owner (index b) = Some b.
Proof. destruct b; [apply owner_i|apply owner_j]. Qed.
Lemma owner_inv t b : owner t = Some b → t = index b.
Proof. unfold owner. repeat case_decide; intros; by simplify_eq. Qed.

Lemma d_step_project b s d' :
  free_of_others s → d_step b (project s) = Some d' →
  ∃ s', step (index b) s = Some s' ∧ project s' = d' ∧ free_of_others s'.
Proof.
  intros (Hi & Hj & Hl) Hd. pose proof (owner_index b) as Hb.
  assert (is_Some (uw_rest s !! index b)) as [l Ht] by by destruct b.
  unfold d_step in Hd. rewrite (d_rest_project _ b s l Hb Ht) in Hd.
  assert (Hfree : ∀ k lock, (∀ t, lock = Some t → is_Some (owner t)) →
    free_of_others (mkUnderWay lock (<[index b := k]> (uw_rest s)))).
  { intros k lock Hlock. unfold free_of_others. cbn.
    split_and!; [apply lookup_insert_is_Some'; by right..|done]. }
  assert (Hlock : ∀ k, d_set b (uw_lock s ≫= owner) k (project s) =
    project (mkUnderWay (uw_lock s) (<[index b := k]> (uw_rest s)))) by (intros; by rewrite project_set, Hb).
  unfold step. rewrite Ht. destruct l as [|[] k]; [done|..].
  - cbn in Hd. destruct (uw_lock s) as [t|] eqn:El.
    + destruct (Hl t eq_refl) as [b' Hb']. cbn in Hd. by rewrite Hb' in Hd.
    + cbn in Hd. injection Hd as <-. eexists. split; [done|]. rewrite project_set, Hb. cbn. rewrite Hb.
      split; [done|]. apply Hfree. intros t [= <-]. by rewrite Hb.
  - case_decide as Eb; [|done]. injection Hd as <-. cbn in Eb.
    destruct (uw_lock s) as [t|] eqn:El; [|done]. cbn in Eb. apply owner_inv in Eb as ->.
    rewrite decide_True by done. eexists. split; [done|]. rewrite project_set, Hb. split; [done|]. by apply Hfree.
  - injection Hd as <-. eexists. split; [done|]. split; [symmetry; apply Hlock|by apply Hfree].
  - injection Hd as <-. eexists. split; [done|]. split; [symmetry; apply Hlock|by apply Hfree].
Qed.

Lemma d_steps_project bs s d' :
  free_of_others s → d_steps bs (project s) = Some d' →
  ∃ s', steps (index <$> bs) s = Some s' ∧ project s' = d' ∧ free_of_others s'.
Proof.
  revert s. induction bs as [|b bs IH]; intros s Hs Hd; cbn in Hd.
  { injection Hd as <-. by exists s. }
  destruct (d_step b (project s)) as [d1|] eqn:E; [|done]. cbn in Hd.
  destruct (d_step_project b s d1 Hs E) as (s1 & Hs1 & <- & Hf1).
  destruct (IH s1 Hf1 Hd) as (s' & Hs' & ?). exists s'. cbn. by rewrite Hs1.
Qed.

Lemma overlap_project s : overlap i j s ↔ conflict (d_one (project s)) (d_two (project s)) = true.
Proof.
  unfold overlap, project. cbn. split.
  - intros (l1 & l2 & -> & -> & ?). done.
  - destruct (uw_rest s !! i) as [l1|]; [|done]. destruct (uw_rest s !! j) as [l2|]; cbn; [|by destruct l1 as [|[]]].
    intros. by exists l1, l2.
Qed.
End Projection.

(** ** Property *)

(** At most one accept, of either outcome, is outstanding. *)
Definition accepting (h : handler) : bool := match h with H_accept | H_refuse => true | _ => false end.
Definition one_accept (hs : list handler) : Prop :=
  ∀ i j h1 h2, hs !! i = Some h1 → hs !! j = Some h2 → accepting h1 = true → accepting h2 = true → i = j.

(** Which handlers only look at the table under the lock. *)
Definition locked_reader (h : handler) : bool :=
  match h with H_relay | H_getSession => true | _ => false end.
Definition racing (h1 h2 : handler) : bool :=
  bool_decide (h1 = H_stop) || bool_decide (h2 = H_stop) || negb (locked_reader h1 || locked_reader h2).

Lemma racing_spec h1 h2 :
  accepting h1 && accepting h2 = false → d_races (d_size (d_start h1 h2)) (d_start h1 h2) = racing h1 h2.
Proof. destruct h1, h2; try discriminate; intros _; vm_compute; reflexivity. Qed.

(** C18: the data races of the server's tables.  Let any handlers be under way on
    threads of their own, any number of closes, relays, [getSession]s and
    [stop]s, and at most one accept, below capacity or refused (the next one is
    started at its end).  Two of them can come to overlap in conflicting
    accesses to the table of sessions or to the free ids exactly in these cases:
    [stop], which takes no lock, races with all of them and with another
    [stop]; and closes race with each other and with the accept, because the
    free ids and the test of the table's size are outside the lock.  In
    particular the relay of a message and [getSession] never race with the
    accept, closes or each other, however many there are. *)
Theorem server_races (hs : list handler) i j h1 h2 :
  one_accept hs → i ≠ j → hs !! i = Some h1 → hs !! j = Some h2 →
  (∃ ts s, steps ts (start hs) = Some s ∧ overlap i j s) ↔ racing h1 h2 = true.
Proof.
  intros Hone Hij H1 H2.
  assert (Hacc : accepting h1 && accepting h2 = false).
  { apply not_true_is_false. intros [? ?]%andb_true_iff. by apply Hij, (Hone i j h1 h2). }
  assert (Hr : ∀ k h, hs !! k = Some h → uw_rest (start hs) !! k = Some (actions h)).
  { intros k h Hk. cbn. rewrite lookup_map_seq_0, list_lookup_fmap, Hk. done. }
  assert (Hp : project i j (start hs) = d_start h1 h2).
  { unfold project. rewrite (Hr i h1 H1), (Hr j h2 H2). done. }
  rewrite <- racing_spec, d_races_spec by done. rewrite <- Hp. split.
  - intros (ts & s & Hs & Hc). destruct (steps_project i j Hij ts _ _ Hs) as [bs Hbs].
    exists bs, (project i j s). split; [done|]. by apply overlap_project.
  - intros (bs & d & Hs & Hc).
    destruct (d_steps_project i j Hij bs (start hs) d) as (s & Hss & <- & _); [|done|].
    + split_and!; [rewrite (Hr i h1 H1); by eexists|rewrite (Hr j h2 H2); by eexists|done].
    + exists (index i j <$> bs), s. split; [done|]. by apply overlap_project.
Qed.

(** The accept and a close race; a relay and a close do not. *)
Lemma server_races_witness :
  (∃ ts s, steps ts (start [H_close; H_relay; H_refuse]) = Some s ∧ overlap 0 2 s) ∧
  ¬ (∃ ts s, steps ts (start [H_close; H_relay; H_refuse]) = Some s ∧ overlap 0 1 s).
Proof.
  assert (Hone : one_accept [H_close; H_relay; H_refuse]).
  { intros [|[|[|i]]] [|[|[|j]]] h1 h2 H1 H2; cbn in H1, H2; try discriminate H1; try discriminate H2;
      injection H1 as <-; injection H2 as <-; cbn; congruence. }
  split.
  - apply (server_races [H_close; H_relay; H_refuse] 0 2 H_close H_refuse); [exact Hone|discriminate|reflexivity..].
  - intros H. apply (server_races [H_close; H_relay; H_refuse] 0 1 H_close H_relay) in H;
      [discriminate H|exact Hone|discriminate|reflexivity..].
Defined.
