(* ===== verification/Programs.v ===== *)
(** * What the programs' [main] functions share

    How a [main] ends, its [try] block, [atoi], the options of the two servers
    and the options and signals of the two clients (chat_server/main.cpp and
    server/main.cpp, chat_client/main.cpp and client/main.cpp declare the same
    ones).
    boost's option parser is not modelled: a [main] gets what the parser makes
    of the command line. *)
From S2P Require Import Prelude.

(** How a [main] ends. *)
Inductive main_end := Main_returned (code : Z) | Main_exited (code : Z).

(** [try { m } catch (std::exception& e) { ... }], after which the result is
    [a]. *)
Definition try_or {W A} (a : A) (m : M W A) : M W A :=
  λ w, match m w with Throws _ w' => Ok a w' | r => r end.

Record server_options := mkServerOptions {
  so_help : bool;
  so_version : bool;
  so_daemon : bool;
  so_threads : option Z               (* int *)
}.

Record client_options := mkClientOptions {
  co_help : bool;
  co_version : bool;
  co_remote : option string;
  co_threads : option Z               (* int *)
}.

(** [numThread] after the options. *)
Definition client_threads (o : client_options) : Z :=
  match co_threads o with Some n => n | None => 1 end.

(** [atoi]: leading spaces, a sign, digits; a value that is no [int] is
    undefined. *)
Fixpoint digits (acc : Z) (l : list Z) : Z :=
  match l with
  | b :: l => if (48 <=? b) && (b <=? 57) then digits (10 * acc + (b - 48)) l else acc
  | [] => acc
  end.
Fixpoint skip_spaces (l : list Z) : list Z :=
  match l with
  | b :: l' => if (b =? 32) || ((9 <=? b) && (b <=? 13)) then skip_spaces l' else l
  | [] => []
  end.
Definition atoi (s : list Z) : cres Z :=
  let z := match skip_spaces s with
           | 45 :: l => - digits 0 l
           | 43 :: l => digits 0 l
           | l => digits 0 l
           end in
  if decide (in_s 32 z) then Val z else Bad UB_signed_overflow.

Definition SIGINT : Z := 2.
Definition SIGSEGV : Z := 11.
Definition SIGTERM : Z := 15.

(** [sprintf(tmp, "%s_%d", s, i)] *)
Definition sprintf_id (tmp : list Z) (s : string) (i : Z) : cres (list Z) :=
  let text := c_str s ++ 95 :: c_str (to_string i) in
  if (length text <? length tmp)%nat then Val (splice 0 (text ++ [0]) tmp)
  else Bad UB_buffer_overflow.

(** [argv[2]]: the element after the last one is a null pointer, which
    [sprintf] dereferences; there is nothing after that. *)
Definition argv_2 (argv : list string) : cres string :=
  match argv !! 2%nat with
  | Some s => Val s
  | None => Bad (if (length argv =? 2)%nat then UB_null else UB_out_of_range)
  end.

(** What the client's [main] has come to: it ended, it is in the loop that
    starts the clients, it waits for a line or for the clients' threads. *)
Inductive main_status :=
  | Main_ended (e : main_end) | Main_starting | Main_reading | Main_joining.

(** The identifier of a client, [argv[2]] and a counter, fits its buffer. *)
Lemma length_to_string_16 i : in_s 16 i → (length (c_str (to_string i)) ≤ 6)%nat.
Proof.
  unfold in_s. intros Hi. etrans; [apply length_c_str|]. apply (length_to_string 5); [lia|]. cbn in *. lia.
Qed.

Lemma sprintf_id_ok s i :
  (length (c_str s) ≤ 24)%nat → in_s 16 i → ∃ tmp, sprintf_id (replicate 32 0) s i = Val tmp.
Proof.
  intros Hs Hi. pose proof (length_to_string_16 i Hi). unfold sprintf_id.
  rewrite length_app, length_replicate. cbn [length].
  destruct (Nat.ltb_spec (length (c_str s) + S (length (c_str (to_string i)))) 32); [by eexists|lia].
Qed.
