(* ===== verification/Redis.v ===== *)
(** * Redis (chat_server/Redis.h, chat_server/Redis.cpp)

    The wrapper around one hiredis connection.  hiredis itself is not part of
    the repository: its functions are the operations of the class [Hiredis],
    with an abstract context. *)
From S2P Require Import Prelude.

(** ** hiredis *)

(** The [REDIS_REPLY_*] types. *)
Inductive reply_type :=
  | REDIS_REPLY_STRING | REDIS_REPLY_ARRAY | REDIS_REPLY_INTEGER
  | REDIS_REPLY_NIL | REDIS_REPLY_STATUS | REDIS_REPLY_ERROR.

#[export] Instance reply_type_eq_dec : EqDecision reply_type.
Proof. solve_decision. Defined.

Record redisReply := mkReply {
  r_type : reply_type;
  r_integer : Z;
  r_str : string;
  r_element : list string      (* the [str] of each element *)
}.

(** [redisConnect] answers null or a context, whose [err] field tells whether
    the connection was made; [redisCommand] sends a command on a context, and
    answers null or a reply. *)
Class Hiredis (Ctx : Type) := {
  redisConnect : string → Z → option Ctx;
  ctx_err : Ctx → bool;
  redisCommand : Ctx → string → option redisReply * Ctx
}.

(** ** The class *)

Definition REDIS_PORT : Z := 6379.

(** The [reply_] member: null, or the reply of the last command, which [send]
    has freed. *)
Inductive reply_ptr := Reply_null | Reply_freed (r : redisReply).

Record Redis (Ctx : Type) := mkRedis {
  host_ : string;
  port_ : Z;                        (* int32_t *)
  context_ : option Ctx;
  reply_ : reply_ptr
}.
Arguments mkRedis {Ctx}.
Arguments host_ {Ctx}.
Arguments port_ {Ctx}.
Arguments context_ {Ctx}.
Arguments reply_ {Ctx}.

(** [Redis()] *)
Definition Redis_new {Ctx} : Redis Ctx := mkRedis EmptyString REDIS_PORT None Reply_null.

(** The return value of [send] for a reply. *)
Definition reply_result (r : redisReply) : bool :=
  if decide (r_type r = REDIS_REPLY_ERROR) then false
  else if decide (r_type r = REDIS_REPLY_STRING) then true
  else if decide (r_type r = REDIS_REPLY_INTEGER) then true
  else if decide (r_type r = REDIS_REPLY_ARRAY) then true
  else false.

Lemma reply_result_true r :
  reply_result r = true ↔
  r_type r = REDIS_REPLY_STRING ∨ r_type r = REDIS_REPLY_INTEGER ∨ r_type r = REDIS_REPLY_ARRAY.
Proof. unfold reply_result. destruct (r_type r); cbn; naive_solver. Qed.

Section Operations.
Context {Ctx : Type} `{HR : !Hiredis Ctx}.
Context {W : Type} `{FR : !Field W (Redis Ctx)}.

Definition redis : M W (Redis Ctx) := fread.
Definition set_redis (f : Redis Ctx → Redis Ctx) : M W unit := fmodify f.

(** [bool connect(const string ip)] *)
Definition Redis_connect (ip : string) : M W bool :=
  set_redis (λ r, mkRedis ip (port_ r) (context_ r) (reply_ r)) ;;
  set_redis (λ r, mkRedis (host_ r) (port_ r) (redisConnect ip (port_ r)) (reply_ r)) ;;
  r ← redis;
  match context_ r with
  | None => mret false
  | Some c => if ctx_err c then mret false else mret true
  end.

(** [bool send(string command)] *)
Definition Redis_send (command : string) : M W bool :=
  r ← redis;
  match context_ r with
  | None => mret false
  | Some c =>
      let '(reply, c') := redisCommand c command in
      match reply with
      | None =>
          set_redis (λ r, mkRedis (host_ r) (port_ r) (Some c') Reply_null) ;;
          mret false
      | Some rp =>
          set_redis (λ r, mkRedis (host_ r) (port_ r) (Some c') (Reply_freed rp)) ;;
          mret (reply_result rp)
      end
  end.

(** [string getHost()], [int32_t getPort()], [redisContext* getRedisContext()]
    and [redisReply* getRedisReply()]: the last hands out a freed pointer after
    a [send] that got a reply. *)
Definition getHost : M W string := r ← redis; mret (host_ r).
Definition getPort : M W Z := r ← redis; mret (port_ r).
Definition getRedisContext : M W (option Ctx) := r ← redis; mret (context_ r).
Definition getRedisReply : M W (option redisReply) :=
  r ← redis;
  match reply_ r with
  | Reply_null => mret None
  | Reply_freed _ => undef UB_dangling
  end.

(** *** Lemmas *)

(** [connect] succeeds exactly when hiredis returns a context without an
    error; it always records the address, and keeps a context that has an
    error. *)
Lemma Redis_connect_ok ip w :
  let r := fget w : Redis Ctx in
  ∃ b, Redis_connect ip w =
    Ok b (fset (mkRedis ip (port_ r) (redisConnect ip (port_ r)) (reply_ r)) w) ∧
    (b = true ↔ ∃ c, redisConnect ip (port_ r) = Some c ∧ ctx_err c = false).
Proof.
  intros r. unfold Redis_connect, redis, fread, set_redis, fmodify, modify, mbind, M_bind, get. cbn.
  rewrite !fget_fset, fset_fset. cbn. subst r.
  destruct (redisConnect ip (port_ (fget w))) as [c|]; [|exists false; split; [done|naive_solver]].
  destruct (ctx_err c) eqn:E; [exists false|exists true]; (split; [done|]); naive_solver.
Qed.

(** What [send] does on a connected wrapper. *)
Definition sent (cmd : string) (c : Ctx) (r : Redis Ctx) : Redis Ctx :=
  mkRedis (host_ r) (port_ r) (Some (redisCommand c cmd).2)
    match (redisCommand c cmd).1 with None => Reply_null | Some rp => Reply_freed rp end.

Lemma Redis_send_run cmd c w :
  context_ (fget w : Redis Ctx) = Some c →
  Redis_send cmd w =
    Ok (match (redisCommand c cmd).1 with None => false | Some rp => reply_result rp end)
       (fset (sent cmd c (fget w)) w).
Proof.
  intros E. unfold Redis_send, redis, fread, set_redis, fmodify, modify, mbind, M_bind, get, sent.
  cbn. rewrite E. by destruct (redisCommand c cmd) as [[rp|] c'].
Qed.

Lemma Redis_send_ok cmd w :
  ∃ b r, Redis_send cmd w = Ok b (fset r w).
Proof.
  destruct (context_ (fget w : Redis Ctx)) as [c|] eqn:E; [by eexists _, _; apply Redis_send_run|].
  exists false, (fget w). rewrite fset_fget.
  unfold Redis_send, redis, fread, mbind, M_bind, get. cbn. by rewrite E.
Qed.

(** The commands sent on a context, one after the other. *)
Fixpoint ctx_after (c : Ctx) (cmds : list string) : Ctx :=
  match cmds with
  | [] => c
  | cmd :: cmds => ctx_after (redisCommand c cmd).2 cmds
  end.

(** ** Properties *)

(** [send] never fails: on a connected wrapper it passes the command to
    hiredis once, keeps the address and the context, and answers [true] exactly
    for a string, integer or array reply (a status reply, as of a successful
    [SET], counts as a failure); without a context it does nothing.  Whatever
    the reply was, it has been freed, so that [getRedisReply] never gives a
    reply that may be read. *)
Theorem Redis_send_spec cmd w :
  let r := fget w : Redis Ctx in
  match context_ r with
  | None => Redis_send cmd w = Ok false w
  | Some c => ∃ b r',
      Redis_send cmd w = Ok b (fset r' w) ∧
      host_ r' = host_ r ∧ port_ r' = port_ r ∧ context_ r' = Some (redisCommand c cmd).2 ∧
      (b = true ↔ ∃ rp, (redisCommand c cmd).1 = Some rp ∧
         (r_type rp = REDIS_REPLY_STRING ∨ r_type rp = REDIS_REPLY_INTEGER ∨
          r_type rp = REDIS_REPLY_ARRAY)) ∧
      (∀ rp w', getRedisReply (fset r' w) ≠ Ok (Some rp) w')
  end.
Proof.
  intros r. destruct (context_ r) as [c|] eqn:E; subst r.
  2:{ unfold Redis_send, redis, fread, mbind, M_bind, get. cbn. by rewrite E. }
  rewrite (Redis_send_run cmd c w E). eexists _, _. split; [done|].
  unfold getRedisReply, redis, fread, mbind, M_bind, get, sent. cbn. rewrite fget_fset. cbn.
  destruct (redisCommand c cmd) as [[rp|] c'] eqn:Er; cbn; split_and!; try done.
  - rewrite reply_result_true. split; [by exists rp|]. by intros (? & [= <-] & ?).
  - split; [done|]. by intros (? & ? & _).
Qed.

(** over any run of commands the wrapper drives the connection as the bare
    hiredis context would be driven: the commands reach it all, in order, each
    once, and none of the replies stops the sequence. *)
Theorem Redis_sends_in_order cmds w c :
  context_ (fget w : Redis Ctx) = Some c →
  ∃ w', forM_ cmds (λ cmd, Redis_send cmd ;; mret tt) w = Ok tt w' ∧
    context_ (fget w' : Redis Ctx) = Some (ctx_after c cmds) ∧
    (∀ U (g : Field W U), Separate g FR → fget (Field := g) w' = fget (Field := g) w).
Proof.
  revert w c. induction cmds as [|cmd cmds IH]; intros w c Hc; cbn [forM_]; [by exists w|].
  pose proof (Redis_send_run cmd c w Hc) as Hrun.
  destruct (IH (fset (sent cmd c (fget w)) w) (redisCommand c cmd).2) as (w' & Hr & Hcw & Hsep);
    [by rewrite fget_fset|].
  exists w'. split_and!; [|done|].
  - unfold mbind, M_bind in *. by rewrite Hrun.
  - intros U g Hg. rewrite Hsep by done. apply (fget_fset_sep (Separate := Hg)).
Qed.
End Operations.

#[global] Arguments redis : simpl never.
#[global] Arguments set_redis : simpl never.

(** ** Instances at concrete inputs *)

(** A server that answers every command with the integer count of commands. *)
#[export] Instance counting_redis : Hiredis nat := {
  redisConnect _ port := if port =? REDIS_PORT then Some 0%nat else None;
  ctx_err _ := false;
  redisCommand n _ := (Some (mkReply REDIS_REPLY_INTEGER (Z.of_nat (S n)) EmptyString []), S n)
}.

#[program] Definition redis_self {Ctx} : Field (Redis Ctx) (Redis Ctx) :=
  {| fget w := w; fset x _ := x |}.
Solve All Obligations with done.

Lemma Redis_sends_in_order_witness :
  ∃ w', @forM_ (Redis nat) _ ["a"; "b"; "c"]%string
      (λ cmd, @Redis_send nat counting_redis (Redis nat) redis_self cmd ;; mret tt)
      (mkRedis "127.0.0.1" REDIS_PORT (Some 0%nat) Reply_null) = Ok tt w' ∧
    context_ w' = Some 3%nat.
Proof.
  destruct (@Redis_sends_in_order nat counting_redis (Redis nat) redis_self ["a"; "b"; "c"]%string
    (mkRedis "127.0.0.1" REDIS_PORT (Some 0%nat) Reply_null) 0%nat) as (w' & Hr & Hc & _).
  - reflexivity.
  - exists w'. split; [exact Hr|exact Hc].
Defined.
