(* ===== verification/HiredisTrials.v ===== *)
(** * The hiredis trials (test_hiredis/test.cpp, test_hiredis/test2.cpp)

    Two programs that try hiredis out.  hiredis is the class [HiredisApi]; what
    the programs have to get right is the life of its objects: a reply may be
    null, has a text only for some types, and it and the context must be freed
    exactly once.  The state holds the live objects. *)
From S2P Require Import Prelude Programs Redis.
#[local] Open Scope string_scope.
#[local] Open Scope list_scope.
#[local] Open Scope Z_scope.

(** ** hiredis *)

(** A reply; [str] is null for the types that have no text. *)
Record redis_reply := mkTrialReply {
  rp_type : reply_type;
  rp_integer : Z;                    (* long long *)
  rp_str : option string;
  rp_element : list (option string)  (* the [str] of each element *)
}.

Inductive redis_arg := Arg_s (s : string) | Arg_b (s : string) (size : Z).
#[export] Instance redis_arg_eq_dec : EqDecision redis_arg.
Proof. solve_decision. Defined.

(** What hiredis answers; [h_free_null]: whether this version's
    [freeReplyObject] accepts a null pointer. *)
Class HiredisApi (Ctx : Type) := {
  h_redisConnect : string → Z → option Ctx;
  h_redisConnectWithTimeout : string → Z → Z * Z → option Ctx;
  h_redisConnectUnixWithTimeout : string → Z * Z → option Ctx;
  h_err : Ctx → bool;
  h_errstr : Ctx → string;
  h_redisCommand : Ctx → string → list redis_arg → option redis_reply * Ctx;
  h_free_null : bool
}.

(** The live objects, what has been printed, and, as history, the commands that
    have been sent. *)
Record trial (Ctx : Type) := mkTrial {
  t_context : option Ctx;
  t_replies : gmap nat redis_reply;
  t_sent : list (string * list redis_arg);
  t_out : list string
}.
Arguments mkTrial {Ctx}.
Arguments t_context {Ctx}.
Arguments t_replies {Ctx}.
Arguments t_sent {Ctx}.
Arguments t_out {Ctx}.

Section Trials.
Context {Ctx : Type} `{HA : !HiredisApi Ctx}.
Abbreviation prog := (M (trial Ctx)).

Definition trial0 : trial Ctx := mkTrial None ∅ [] [].

(** A connecting function has given [c]. *)
Definition trial_connected (c : option Ctx) : prog unit :=
  modify (λ t, mkTrial c (t_replies t) (t_sent t) (t_out t)).
Definition print (line : string) : prog unit :=
  modify (λ t, mkTrial (t_context t) (t_replies t) (t_sent t) (t_out t ++ [line])).
(** [printf("...%s\n", s)]: a null [s] is undefined. *)
Definition print_s (text : string) (s : option string) : prog unit :=
  match s with Some s => print (text +:+ s) | None => undef UB_null end.

(** [c->errstr] *)
Definition errstr : prog string :=
  t ← get; match t_context t with Some c => mret (h_errstr c) | None => undef UB_dangling end.

(** [redisCommand(c, format, ...)] *)
Definition redisCommand (format : string) (args : list redis_arg) : prog (option nat) :=
  t ← get;
  match t_context t with
  | None => undef UB_dangling
  | Some c =>
      let '(r, c') := h_redisCommand c format args in
      let p := fresh (dom (t_replies t)) in
      modify (λ t, mkTrial (Some c') (match r with Some rp => <[p := rp]> (t_replies t) | None => t_replies t end)
                     (t_sent t ++ [(format, args)]) (t_out t)) ;;
      mret (match r with Some _ => Some p | None => None end)
  end.

(** [*reply] *)
Definition the_reply (p : option nat) : prog redis_reply :=
  match p with
  | None => undef UB_null
  | Some p => t ← get; match t_replies t !! p with Some rp => mret rp | None => undef UB_dangling end
  end.

Definition freeReplyObject (p : option nat) : prog unit :=
  match p with
  | None => if h_free_null then mret tt else undef UB_null
  | Some p =>
      t ← get;
      match t_replies t !! p with
      | Some _ => modify (λ t, mkTrial (t_context t) (delete p (t_replies t)) (t_sent t) (t_out t))
      | None => undef UB_dangling
      end
  end.

Definition redisFree : prog unit :=
  t ← get;
  match t_context t with
  | Some _ => modify (λ t, mkTrial None (t_replies t) (t_sent t) (t_out t))
  | None => undef UB_dangling
  end.

(** ** test.cpp *)

(** A command and what follows it; the result tells whether [main] goes on.
    Only the first of the three prints the context's error for a null reply. *)
Definition try_command (format : string) (with_errstr : bool) : prog bool :=
  reply ← redisCommand format [];
  match reply with
  | None =>
      (if with_errstr then e ← errstr; print ("redisCommand reply is NULL: " +:+ e)
       else print "redisCommand reply is NULL") ;;
      mret false
  | Some _ =>
      rp ← the_reply reply;
      if decide (rp_type rp = REDIS_REPLY_ERROR) then
        print_s "Command Error: " (rp_str rp) ;; freeReplyObject reply ;; mret false
      else
        print_s "Command reply: " (rp_str rp) ;; freeReplyObject reply ;; mret true
  end.

(** The connection both programs need; test.cpp does not free a context with an
    error, test2.cpp does. *)
Definition no_connection (c : option Ctx) : bool :=
  match c with Some c => h_err c | None => true end.

(** [int main(int argc, char **argv)] *)
Definition trial_main : prog Z :=
  trial_connected (h_redisConnect "127.0.0.1" 6379) ;;
  t ← get;
  if no_connection (t_context t) then
    match t_context t with
    | Some _ => e ← errstr; print ("Connecting Error: " +:+ e)
    | None => print "Can't allocate redis context"
    end ;;
    mret (-1)
  else
    b ← try_command "SET key Hello" true;
    if negb b then mret (-1) else
    b ← try_command "GET key" false;
    if negb b then mret (-1) else
    b ← try_command "GET XXX" false;
    if negb b then mret (-1) else
    redisFree ;; mret 0.

(** ** test2.cpp *)

(** A command, what is read of its reply, and the reply freed. *)
Definition round (format : string) (args : list redis_arg) (look : option nat → prog unit) : prog unit :=
  reply ← redisCommand format args; look reply ;; freeReplyObject reply.
Definition print_text (text : string) (p : option nat) : prog unit := rp ← the_reply p; print_s text (rp_str rp).
Definition print_integer (text : string) (p : option nat) : prog unit :=
  rp ← the_reply p; print (text +:+ to_string (rp_integer rp)).
Definition not_read (p : option nat) : prog unit := mret tt.

Definition print_elements (p : option nat) : prog unit :=
  rp ← the_reply p;
  if decide (rp_type rp = REDIS_REPLY_ARRAY) then
    forM_ (zip (seq 0 (length (rp_element rp))) (rp_element rp))
      (λ '(j, s), print_s (to_string (Z.of_nat j) +:+ ") ") s)
  else mret tt.

Definition push_element (j : nat) : prog unit :=
  round "LPUSH mylist element-%s" [Arg_s (to_string (Z.of_nat j))] not_read.

Definition test2_rounds : prog unit :=
  round "PING" [] (print_text "PING: ") ;;
  round "SET %s %s" [Arg_s "foo"; Arg_s "hello world"] (print_text "SET: ") ;;
  round "SET %b %b" [Arg_b "bar" 3; Arg_b "hello" 5] (print_text "SET (binary API): ") ;;
  round "GET foo" [] (print_text "GET foo: ") ;;
  round "INCR counter" [] (print_integer "INCR counter: ") ;;
  round "INCR counter" [] (print_integer "INCR counter: ") ;;
  round "DEL mylist" [] not_read ;;
  forM_ (seq 0 10) push_element ;;
  round "LRANGE mylist 0 -1" [] print_elements.

Definition is_unix (argv2 : string) : bool :=
  match argv2 with String a _ => bool_decide (String a EmptyString = "u" ∨ String a EmptyString = "U") | EmptyString => false end.

(** [int main(int argc, char **argv)] *)
Definition test2_main (argv : list string) : prog main_end :=
  let hostname := default "127.0.0.1" (argv !! 1%nat) in
  let isunix := match argv !! 2%nat with Some s => is_unix s | None => false end in
  when isunix (print ("Will connect to unix socket @" +:+ hostname)) ;;
  port ← lift (match argv !! 2%nat with Some s => atoi (bytes_of_string s) | None => Val 6379 end);
  let timeout := (1, 500000) in
  trial_connected (if isunix then h_redisConnectUnixWithTimeout hostname timeout
             else h_redisConnectWithTimeout hostname port timeout) ;;
  t ← get;
  if no_connection (t_context t) then
    match t_context t with
    | Some _ => e ← errstr; print ("Connection error: " +:+ e) ;; redisFree
    | None => print "Connection error: can't allocate redis context"
    end ;;
    mret (Main_exited 1)
  else test2_rounds ;; redisFree ;; mret (Main_returned 0).

(** ** Outcomes

    [outcomes E m Q t]: from [t], [m] returns with [Q], or is undefined for a
    reason [E]; it never throws. *)

Definition outcomes (E : ub → Prop) {A} (m : prog A) (Q : A → trial Ctx → Prop) (t : trial Ctx) : Prop :=
  match m t with Ok a t' => Q a t' | Throws _ _ => False | Undef u => E u end.

Section Outcomes.
Context (E : ub → Prop).
Implicit Types (t : trial Ctx) (rp : redis_reply) (p : option nat).

Lemma outcomes_bind {A B} (m : prog A) (f : A → prog B) Q t :
  outcomes E m (λ a, outcomes E (f a) Q) t → outcomes E (m ≫= f) Q t.
Proof. unfold outcomes, mbind, M_bind. by destruct (m t). Qed.
Lemma outcomes_mono {A} (m : prog A) (P Q : A → trial Ctx → Prop) t :
  outcomes E m P t → (∀ a t', P a t' → Q a t') → outcomes E m Q t.
Proof. unfold outcomes. destruct (m t); naive_solver. Qed.

(** Only what has been printed differs. *)
Definition same_objects t t' : Prop :=
  t_context t' = t_context t ∧ t_replies t' = t_replies t ∧ t_sent t' = t_sent t.

Lemma same_trans t1 t2 t3 : same_objects t1 t2 → same_objects t2 t3 → same_objects t1 t3.
Proof. unfold same_objects. intuition congruence. Qed.

(** [p] is null or the live reply, as hiredis answered. *)
Definition points p (r : option redis_reply) t : Prop :=
  match r, p with
  | Some rp, Some q => t_replies t !! q = Some rp
  | None, None => True
  | _, _ => False
  end.
(** [look] reads such a reply and prints. *)
Definition looks (look : option nat → prog unit) (r : option redis_reply) : Prop :=
  ∀ p t, points p r t → outcomes E (look p) (λ _, same_objects t) t.

(** Answers a command's reader cannot use: a null, a missing text where one is
    printed, an element without text. *)
Definition prints_text (format : string) : Prop :=
  format ∈ ["PING"; "SET %s %s"; "SET %b %b"; "GET foo"]%list.
Definition unfit (format : string) (r : option redis_reply) : Prop :=
  match r with
  | None => True
  | Some rp => (prints_text format ∧ rp_str rp = None) ∨ (format = "LRANGE mylist 0 -1" ∧ None ∈ rp_element rp)
  end.

Lemma print_s_outcomes text s t : (s = None → E UB_null) → outcomes E (print_s text s) (λ _, same_objects t) t.
Proof. destruct s; cbn; [by split|naive_solver]. Qed.

Lemma looks_text format text r : (unfit format r → E UB_null) → prints_text format → looks (print_text text) r.
Proof.
  intros HE Hf [q|] t Hp; destruct r as [rp|]; try done; [|by apply HE].
  cbn in Hp. unfold print_text, the_reply. apply outcomes_bind. unfold outcomes at 1, mbind, M_bind, get. cbn.
  rewrite Hp. apply print_s_outcomes. intros Hs. apply HE. by left.
Qed.
Lemma looks_integer format text r : (unfit format r → E UB_null) → looks (print_integer text) r.
Proof.
  intros HE [q|] t Hp; destruct r as [rp|]; try done; [|by apply HE].
  cbn in Hp. unfold print_integer, the_reply, outcomes, mbind, M_bind, get. cbn. rewrite Hp. by split.
Qed.
Lemma looks_not_read r : looks not_read r.
Proof. intros p t _. by split. Qed.

Lemma forM_same {A} (l : list A) (f : A → prog unit) t :
  (∀ x t', x ∈ l → outcomes E (f x) (λ _, same_objects t') t') → outcomes E (forM_ l f) (λ _, same_objects t) t.
Proof.
  revert t. induction l as [|x l IH]; intros t Hf; [by split|]. apply outcomes_bind.
  eapply outcomes_mono; [apply Hf; by left|]. intros [] t1 H1.
  eapply outcomes_mono; [apply IH; intros; apply Hf; by right|]. intros [] t2 H2. by eapply same_trans.
Qed.

Lemma looks_elements r : (unfit "LRANGE mylist 0 -1" r → E UB_null) → looks print_elements r.
Proof.
  intros HE [q|] t Hp; destruct r as [rp|]; try done; [|by apply HE].
  cbn in Hp. unfold print_elements, the_reply. apply outcomes_bind. unfold outcomes at 1, mbind, M_bind, get. cbn.
  rewrite Hp. cbn. case_decide; [|by split]. apply forM_same. intros [j s] t' Hin%elem_of_zip_r.
  apply print_s_outcomes. intros ->. apply HE. by right.
Qed.

(** *** Rounds *)

(** Between two commands the context is live and no reply is. *)
Definition trial_idle t : Prop := is_Some (t_context t) ∧ t_replies t = ∅.
(** From [t] the commands have been sent, and it is idle again. *)
Definition sends_to (cmds : list (string * list redis_arg)) t t' : Prop :=
  trial_idle t' ∧ t_sent t' = t_sent t ++ cmds.

Lemma round_outcomes format args look t :
  trial_idle t →
  (∀ c r c', h_redisCommand c format args = (r, c') → looks look r ∧ (r = None → E UB_null)) →
  outcomes E (round format args look) (λ _, sends_to [(format, args)] t) t.
Proof.
  intros [[c Hc] Hr] Hlook. unfold round. apply outcomes_bind.
  unfold outcomes at 1, redisCommand, mbind, M_bind, get. cbn. rewrite Hc.
  destruct (h_redisCommand c format args) as [r c'] eqn:Eh. destruct (Hlook c r c' Eh) as [Hl Hn]. cbn.
  set (p := fresh (dom (t_replies t))). apply outcomes_bind.
  eapply outcomes_mono; [apply Hl|].
  { destruct r; cbn; [apply lookup_insert_eq|done]. }
  intros [] t2 (E1 & E2 & E3). cbn in E1, E2, E3. unfold freeReplyObject. destruct r as [rp|].
  - unfold outcomes, mbind, M_bind, get. rewrite E2, lookup_insert_eq. cbn. rewrite E1, E3.
    split; [split; [by eexists|]|done]. cbn. rewrite E2, Hr. apply delete_insert_id. apply lookup_empty.
  - destruct h_free_null; [|by apply Hn]. split; [split; [rewrite E1; by eexists|by rewrite E2]|done].
Qed.

Lemma redisFree_ok t : trial_idle t → redisFree t = Ok tt (mkTrial None ∅ (t_sent t) (t_out t)).
Proof. intros [[c Hc] Hr]. unfold redisFree, mbind, M_bind, get. rewrite Hc. by rewrite <- Hr. Qed.

Lemma sends_seq (m m' : prog unit) l l' t :
  outcomes E m (λ _, sends_to l t) t → (∀ t', trial_idle t' → outcomes E m' (λ _, sends_to l' t') t') →
  outcomes E (m ;; m') (λ _, sends_to (l ++ l') t) t.
Proof.
  intros Hm Hm'. apply outcomes_bind. eapply outcomes_mono; [exact Hm|]. intros [] t1 [Hi H1].
  eapply outcomes_mono; [by apply Hm'|]. intros [] t2 [Hi2 H2]. split; [done|]. by rewrite H2, H1, app_assoc.
Qed.

Lemma sends_forM {A} (ls : list A) (f : A → prog unit) (cmd : A → string * list redis_arg) t :
  trial_idle t → (∀ x t', x ∈ ls → trial_idle t' → outcomes E (f x) (λ _, sends_to [cmd x] t') t') →
  outcomes E (forM_ ls f) (λ _, sends_to (cmd <$> ls) t) t.
Proof.
  revert t. induction ls as [|x ls IH]; intros t Hi Hf; [split; [done|]; by rewrite app_nil_r|].
  cbn. apply (sends_seq _ _ [cmd x]); [apply Hf; [by left|done]|].
  intros t' Hi'. apply IH; [done|]. intros; apply Hf; [by right|done].
Qed.
End Outcomes.

(** ** What the programs do *)

Definition test2_commands : list (string * list redis_arg) :=
  [("PING", []); ("SET %s %s", [Arg_s "foo"; Arg_s "hello world"]);
   ("SET %b %b", [Arg_b "bar" 3; Arg_b "hello" 5]); ("GET foo", []);
   ("INCR counter", []); ("INCR counter", []); ("DEL mylist", [])] ++
  ((λ s, ("LPUSH mylist element-%s", [Arg_s s])) <$> ["0"; "1"; "2"; "3"; "4"; "5"; "6"; "7"; "8"; "9"]) ++
  [("LRANGE mylist 0 -1", [])].

(** An answer to one of the commands that cannot be read. *)
Definition unfit_answer (u : ub) : Prop :=
  u = UB_null ∧ ∃ c format args r c', (format, args) ∈ test2_commands ∧
    h_redisCommand c format args = (r, c') ∧ unfit format r.
(** A port that is no [int]. *)
Definition bad_port (argv : list string) (u : ub) : Prop :=
  ∃ s, argv !! 2%nat = Some s ∧ atoi (bytes_of_string s) = Bad u.

Lemma round_ok format args look t :
  (format, args) ∈ test2_commands → trial_idle t →
  (∀ E r, (unfit format r → E UB_null) → looks E look r) →
  outcomes unfit_answer (round format args look) (λ _, sends_to [(format, args)] t) t.
Proof.
  intros Hin Hi Hl. apply round_outcomes; [done|]. intros c r c' Hh.
  assert (HE : unfit format r → unfit_answer UB_null) by (split; [done|]; by exists c, format, args, r, c').
  split; [by apply Hl|]. intros ->. by apply HE.
Qed.

Lemma test2_rounds_ok t :
  trial_idle t → outcomes unfit_answer test2_rounds (λ _, sends_to test2_commands t) t.
Proof.
  assert (Hin : ∀ cmd, bool_decide (cmd ∈ test2_commands) → cmd ∈ test2_commands)
    by (intros ?; apply bool_decide_unpack).
  intros Hi. unfold test2_rounds.
  change test2_commands with ([("PING", [])] ++ [("SET %s %s", [Arg_s "foo"; Arg_s "hello world"])] ++
    [("SET %b %b", [Arg_b "bar" 3; Arg_b "hello" 5])] ++ [("GET foo", [])] ++ [("INCR counter", [])] ++
    [("INCR counter", [])] ++ [("DEL mylist", [])] ++
    ((λ j, ("LPUSH mylist element-%s", [Arg_s (to_string (Z.of_nat j))])) <$> seq 0 10) ++
    [("LRANGE mylist 0 -1", [])]).
  repeat first
    [ apply sends_seq; [|clear t Hi; intros t Hi]
    | apply sends_forM; [done|]; intros j t' Hj Hi'
    | apply round_ok; [apply Hin|done|] ].
  all: try (intros E r HE; solve [apply (looks_text _ _ _ _ HE); apply (bool_decide_unpack _); exact I
    | by apply (looks_integer _ _ _ _ HE) | apply looks_not_read | by apply looks_elements]).
  all: try exact I.
  apply elem_of_seq in Hj. do 10 (destruct j as [|j]; [vm_compute; exact I|]). lia.
Qed.

(** C38: test2.cpp frees what it gets.  For every hiredis and command line the
    program is undefined only if hiredis answers one of its commands with null
    or without the text it prints, or the port is no [int]; otherwise it ends
    with no reply and no context left, and it has sent its eighteen commands or
    had no connection. *)
Theorem test2_outcome argv :
  outcomes (λ u, unfit_answer u ∨ bad_port argv u) (test2_main argv)
    (λ e t, t_context t = None ∧ t_replies t = ∅ ∧
       (e = Main_returned 0 ∧ t_sent t = test2_commands ∨ e = Main_exited 1 ∧ t_sent t = [])) trial0.
Proof.
  unfold test2_main. set (hostname := default _ _). set (isunix := match _ with Some s => is_unix s | None => false end).
  apply outcomes_bind. eapply (outcomes_mono _ _ (λ _, same_objects trial0)); [by destruct isunix|].
  intros [] t1 (E1 & E2 & E3). cbn in E1, E2, E3. apply outcomes_bind.
  eapply (outcomes_mono _ _ (λ _ t, t = t1)).
  { destruct (argv !! 2%nat) as [s|] eqn:Ea; [|done]. unfold outcomes, lift.
    destruct (atoi _) eqn:Es; [done|]. right. by exists s. }
  intros port ? ->. apply outcomes_bind. set (c := if isunix then _ else _).
  unfold outcomes at 1, trial_connected, modify. cbn. rewrite E2, E3.
  unfold outcomes at 1, get, mbind, M_bind. cbn. destruct (no_connection c) eqn:Ec.
  - destruct c as [x|]; cbn; rewrite ?app_nil_l; split_and!; auto.
  - destruct c as [x|]; [|done]. set (t2 := mkTrial _ _ _ _).
    pose proof (test2_rounds_ok t2 (conj (mk_is_Some _ _ eq_refl) eq_refl)) as Hr. unfold outcomes in Hr.
    destruct (test2_rounds t2) as [[] t3|e t3|u]; [|done|by left].
    destruct Hr as [Hi Hs]. rewrite (redisFree_ok _ Hi). cbn. split_and!; [done..|]. by left.
Qed.

Definition trial_commands : list (string * list redis_arg) :=
  [("SET key Hello", []); ("GET key", []); ("GET XXX", [])].
(** An answer with a type but no text, such as nil. *)
Definition no_text (format : string) (c : Ctx) : Prop :=
  ∃ rp c', h_redisCommand c format [] = (Some rp, c') ∧ rp_str rp = None.
Definition textless_answer (u : ub) : Prop :=
  u = UB_null ∧ ∃ c format args, (format, args) ∈ trial_commands ∧ no_text format c.

Lemma try_command_ok format b t :
  (format, []) ∈ trial_commands → trial_idle t →
  outcomes textless_answer (try_command format b) (λ _, sends_to [(format, [])] t) t.
Proof.
  intros Hin [[c Hc] Hr]. unfold try_command. apply outcomes_bind.
  unfold outcomes at 1, redisCommand, mbind, M_bind, get. cbn. rewrite Hc.
  destruct (h_redisCommand c format []) as [[rp|] c'] eqn:Eh; cbn.
  - set (p := fresh (dom (t_replies t))). unfold outcomes, the_reply, mbind, M_bind, get. cbn.
    rewrite lookup_insert_eq. cbn.
    assert (Hd : delete p (<[p:=rp]> (t_replies t)) = ∅) by (rewrite delete_insert_eq, Hr; apply delete_empty).
    destruct (rp_str rp) as [s|] eqn:Es.
    + case_decide; cbn; rewrite lookup_insert_eq; cbn; rewrite Hd; (split; [split; [by eexists|done]|done]).
    + case_decide; (split; [done|]); exists c, format, []; (split; [done|]); by exists rp, c'.
  - destruct b; cbn; (split; [split; [by eexists|done]|done]).
Qed.

(** What [main] leaves when it returns -1 after some of its commands. *)
Lemma trial_stopped t cmds rest x :
  trial_idle t → t_sent t = cmds → cmds ++ rest = trial_commands →
  t_replies t = ∅ ∧ (∃ rest, t_sent t ++ rest = trial_commands) ∧
    (-1 = 0 ∧ t_context t = None ∧ t_sent t = trial_commands ∨
     -1 = -1 ∧ (is_Some (t_context t) ↔ is_Some (Some (x : Ctx)))).
Proof.
  intros [Hc Hr] -> E. split; [done|]. split; [by exists rest|]. right. split; [done|]. by split.
Qed.

(** test.cpp frees every reply.  For every hiredis it is undefined only if one
    of its commands is answered without a text; otherwise no reply is left, and
    it has sent its three commands and freed the context, or has returned -1
    after some of them with the context, if it got one, not freed. *)
Theorem trial_outcome :
  outcomes textless_answer trial_main
    (λ code t, t_replies t = ∅ ∧ (∃ rest, t_sent t ++ rest = trial_commands) ∧
       (code = 0 ∧ t_context t = None ∧ t_sent t = trial_commands ∨
        code = -1 ∧ (is_Some (t_context t) ↔ is_Some (h_redisConnect "127.0.0.1" 6379)))) trial0.
Proof.
  unfold trial_main. apply outcomes_bind. unfold outcomes at 1, trial_connected, modify. cbn.
  unfold outcomes at 1, get, mbind, M_bind. cbn.
  destruct (h_redisConnect "127.0.0.1" 6379) as [c|]; cbn.
  2:{ split; [done|]. split; [by exists trial_commands|]. right. naive_solver. }
  destruct (h_err c); cbn.
  { split; [done|]. split; [by exists trial_commands|]. by right. }
  set (t0 := mkTrial _ _ _ _). assert (H0 : trial_idle t0) by (split; [by eexists|done]).
  assert (Hnext : ∀ format b t, (format, []) ∈ trial_commands → trial_idle t →
    (∃ go t', try_command format b t = Ok go t' ∧ sends_to [(format, [])] t t') ∨
    (∃ u, try_command format b t = Undef u ∧ textless_answer u)).
  { intros format b t Hin Hi. pose proof (try_command_ok format b t Hin Hi) as Ho. unfold outcomes in Ho.
    destruct (try_command format b t) as [go t'| |u]; [left; by eexists _, _|done|right; by eexists]. }
  destruct (Hnext "SET key Hello" true t0) as [(go & t1 & -> & H1 & E1)|(u & -> & Hu)]; [by left|done| |done].
  destruct go; cbn [negb]; [|by apply (trial_stopped t1 _ [("GET key", []); ("GET XXX", [])] _ H1 E1)].
  destruct (Hnext "GET key" false t1) as [(go & t2 & -> & H2 & E2)|(u & -> & Hu)]; [by right; left|done| |done].
  rewrite E1 in E2. destruct go; cbn [negb]; [|by apply (trial_stopped t2 _ [("GET XXX", [])] _ H2 E2)].
  destruct (Hnext "GET XXX" false t2) as [(go & t3 & -> & H3 & E3)|(u & -> & Hu)]; [by right; right; left|done| |done].
  rewrite E2 in E3. destruct go; cbn [negb]; [|by apply (trial_stopped t3 _ [] _ H3 E3)].
  rewrite (redisFree_ok _ H3). cbn. rewrite E3. split; [done|]. split; [by exists []|]. by left.
Qed.

(** test.cpp prints the text of a nil.  When its first two commands are
    answered with texts and the key [XXX] does not exist, the program prints a
    null pointer as a text. *)
Theorem get_xxx_undefined c c1 c2 c3 r1 r2 r3 s1 s2 :
  h_redisConnect "127.0.0.1" 6379 = Some c → h_err c = false →
  h_redisCommand c "SET key Hello" [] = (Some r1, c1) → rp_type r1 ≠ REDIS_REPLY_ERROR → rp_str r1 = Some s1 →
  h_redisCommand c1 "GET key" [] = (Some r2, c2) → rp_type r2 ≠ REDIS_REPLY_ERROR → rp_str r2 = Some s2 →
  h_redisCommand c2 "GET XXX" [] = (Some r3, c3) → rp_type r3 = REDIS_REPLY_NIL → rp_str r3 = None →
  trial_main trial0 = Undef UB_null.
Proof.
  assert (Htry : ∀ format b c c' r s sent out,
    h_redisCommand c format [] = (Some r, c') → rp_type r ≠ REDIS_REPLY_ERROR → rp_str r = Some s →
    try_command format b (mkTrial (Some c) ∅ sent out) =
      Ok true (mkTrial (Some c') ∅ (sent ++ [(format, [])]) (out ++ ["Command reply: " +:+ s]))).
  { intros format b x x' r s sent out Hx Ht Hs. unfold try_command, redisCommand, the_reply, freeReplyObject, mbind, M_bind, get. cbn.
    rewrite Hx. cbn. rewrite lookup_insert_eq. cbn. rewrite decide_False by done. rewrite Hs. cbn.
    rewrite lookup_insert_eq. cbn. by rewrite delete_insert_eq, delete_empty. }
  intros Hc He H1 T1 S1 H2 T2 S2 H3 T3 S3. unfold trial_main, trial_connected, mbind, M_bind, get, modify. cbn.
  rewrite Hc. cbn. rewrite He. rewrite (Htry _ _ _ _ _ _ _ _ H1 T1 S1). cbn.
  rewrite (Htry _ _ _ _ _ _ _ _ H2 T2 S2). cbn.
  unfold try_command, redisCommand, the_reply, freeReplyObject, mbind, M_bind, get. cbn. rewrite H3. cbn. rewrite lookup_insert_eq. cbn.
  by rewrite T3, S3.
Qed.
End Trials.

(** ** Instances at concrete inputs *)

(** A redis without the key [XXX]: texts for all else, integers for [INCR],
    three elements for [LRANGE]. *)
Definition demo_answer (format : string) : redis_reply :=
  if decide (format = "GET XXX") then mkTrialReply REDIS_REPLY_NIL 0 None []
  else if decide (format = "INCR counter") then mkTrialReply REDIS_REPLY_INTEGER 1 None []
  else if decide (format = "LRANGE mylist 0 -1") then mkTrialReply REDIS_REPLY_ARRAY 0 None [Some "c"; Some "b"; Some "a"]
  else mkTrialReply REDIS_REPLY_STATUS 0 (Some "OK") [].
#[export] Instance demo_hiredis : HiredisApi nat := {|
  h_redisConnect _ _ := Some 0%nat;
  h_redisConnectWithTimeout _ port _ := if port =? 6379 then Some 0%nat else None;
  h_redisConnectUnixWithTimeout _ _ := Some 0%nat;
  h_err _ := false; h_errstr _ := "refused";
  h_redisCommand c format _ := (Some (demo_answer format), S c);
  h_free_null := true
|}.

Lemma get_xxx_undefined_witness : trial_main (trial0 (Ctx := nat)) = Undef UB_null.
Proof.
  apply (get_xxx_undefined 0%nat 1%nat 2%nat 3%nat (demo_answer "SET key Hello") (demo_answer "GET key")
    (demo_answer "GET XXX") "OK" "OK"); done.
Defined.

(** The second program ends with everything freed, or without a connection. *)
Example test2_runs :
  (∃ t, test2_main ["test2"] (trial0 (Ctx := nat)) = Ok (Main_returned 0) t ∧ length (t_out t) = 9%nat) ∧
  (∃ t, test2_main ["test2"; "host"; "6380"] (trial0 (Ctx := nat)) = Ok (Main_exited 1) t).
Proof. split; eexists; [split|]; vm_compute; reflexivity. Qed.
