(* ===== verification/ChatServer.v ===== *)
(** * The chat server (chat_server/ChatServer.h, chat_server/ChatServer.cpp)

    The application behind the server's handlers: it registers users and counts
    messages in redis, and relays every message to the other sessions.  The
    message handlers are written against the session interface of Session.v,
    and their theorems proved against its laws. *)
From S2P Require Import Prelude Config Msg Session TcpSession TcpSend TcpRecv IoServicePool TcpServer ServerInv ServerProps Redis.

(** ** State *)

(** The members that are not components of their own: the index of the service
    behind [ios_] and the two maps, which nothing fills. *)
Record ChatServer := mkChatServer {
  ios_ : nat;
  rooms_ : gmap Z ptr;
  characters_ : gmap Z ptr
}.

(** ** Commands sent to redis *)

Local Open Scope string_scope.

Definition user_cmd (id : Z) : string := "zadd user:ranking 0 session_" +:+ to_string id.
Definition score_cmd (length id : Z) : string :=
  "zincrby user:ranking " +:+ to_string length +:+ " session_" +:+ to_string id.

Local Close Scope string_scope.

(** ** Message handlers *)

Section Handlers.
Context {W : Type} {Ctx : Type} `{HR : !Hiredis Ctx}.
Context `{SES : !Session W} `{FS : !Field W TcpServer} `{FR : !Field W (Redis Ctx)}.

(** [void rqCreateUser(const Ptr<Session>&)]: the id of the message is copied
    into a string (and logged); the command carries the session's id. *)
Definition rqCreateUser (session : ptr) : M W unit :=
  msg ← getMsg session;
  match strlen (msg_body msg) with
  | None => undef UB_unterminated
  | Some _ =>
      id ← getID session;
      Redis_send (user_cmd id) ;;
      mret tt
  end.

(** [void nfMessage(const Ptr<Session>&)] *)
Definition nfMessage (session : ptr) : M W unit :=
  msg ← getMsg session;
  match strlen (msg_body msg) with
  | None => undef UB_unterminated
  | Some n =>
      let length := i32 (Z.of_nat n) in
      id ← getID session;
      Redis_send (score_cmd length id) ;;
      v ← server;
      forM_ (in_order (sv_sessions v)) (λ '(_, q),
        if decide (session = q) then mret tt
        else m ← getMsg session; send q m)
  end.

(** [void messageHandler(const Ptr<Session>&)] *)
Definition messageHandler (session : ptr) : M W unit :=
  msg ← getMsg session;
  let id := i32 (hdr_msgId (msg_hdr msg)) in
  _ ← getID session;
  if id =? MsgId_val RQ_CREATE_USER then rqCreateUser session
  else if id =? MsgId_val NF_MESSAGE then nfMessage session
  else mret tt.

(** [void openedHandler(const Ptr<Session>&)], [void closedHandler(...)]: log
    the session's id. *)
Definition openedHandler (session : ptr) : M W unit :=
  _ ← getID session; mret tt.
Definition closedHandler (session : ptr) (reason : CloseReason) : M W unit :=
  _ ← getID session; mret tt.

(** The closures [start] registers.  The other closures are not of this
    program and are never called in it. *)
Definition chat_callbacks : Callbacks W := {|
  run_opened h p := match h with ChatServer_opened => openedHandler p | _ => mret tt end;
  run_closed h p r := match h with ChatServer_closed => closedHandler p r | _ => mret tt end;
  run_message h p := match h with ChatServer_message => messageHandler p | _ => mret tt end
|}.
End Handlers.

(** ** Construction, start and stop *)

(** [ChatServer(const string name, const ServerConfig& config)]: the members
    and the objects they own. *)
Definition ChatServer_new {Ctx} (name : string) (config : ServerConfig) :
    cres (TcpServer * Redis Ctx * ChatServer) :=
  v ← TcpServer_new name config;
  '(k, pool) ← getIoService (sv_ioServicePool v);
  Val (sv_set_pool (λ _, pool) v, Redis_new, mkChatServer k ∅ ∅).

Section Lifecycle.
Context {W : Type} {Ctx : Type} `{HR : !Hiredis Ctx}.
Context `{FS : !Field W TcpServer} `{FR : !Field W (Redis Ctx)} `{FC : !Field W ChatServer}.

(** [void start(string ip, int port)]; [parsed] and [bound] as in
    [start_address]. *)
Definition chat_start (ip : string) (port : Z) (parsed : option string) (bound : bool) : M W unit :=
  ok ← Redis_connect ip;
  if negb ok then mret tt
  else
    registerSessionOpenedHandler ChatServer_opened ;;
    registerSessionClosedHandler ChatServer_closed ;;
    registerMessageHandler ChatServer_message ;;
    start_address parsed port bound.

(** [void stop(const error_code&, int)]: stops one service. *)
Definition chat_stop : M W unit :=
  c ← fread (T := ChatServer);
  set_server (sv_set_pool (λ pl, mkPool (alter ios_stop (ios_ c) (m_ios pl)) (m_next pl))).

(** [Ptr<Character> getCharacter(int id)]: [None] for a null pointer. *)
Definition getCharacter (id : Z) : M W (option ptr) :=
  c ← fread (T := ChatServer);
  match characters_ c !! id with
  | None => mret None
  | Some p => mret (Some p)
  end.
End Lifecycle.

(** [runServer] of chat_server/main.cpp: the configuration it builds. *)
Definition runServer_config (numThreads : Z) : ServerConfig :=
  set_threadCount (size_t numThreads) ServerConfig_default.

(** ** Correctness of the handlers against the session interface *)

Section Broadcast.
Context {W H : Type} {Ctx : Type} `{HR : !Hiredis Ctx}.
Context `{SES : !Session W} `{FH : !Field W H} `{LAWS : !SessionLaws W H}.
Context `{FS : !Field W TcpServer} `{FR : !Field W (Redis Ctx)}.
Context `{SSH : !Separate FS FH} `{SRH : !Separate FR FH} `{SRS : !Separate FR FS}.
Implicit Types (w : W) (p q : ptr) (v : session_view).

Abbreviation table w := (sv_sessions (fget w : TcpServer)).

(** Every entry of the table is a session with that id. *)
Definition listed_ok w : Prop :=
  ∀ k q, table w !! k = Some q → ∃ v, view w q = Some v ∧ view_id v = k.

Lemma listed_once w :
  listed_ok w → NoDup (in_order (table w)).*2.
Proof.
  intros Hl. apply (NoDup_fmap_fst_inj (in_order (table w))).
  - apply NoDup_in_order.
  - intros k1 k2 q H1%elem_of_in_order H2%elem_of_in_order.
    destruct (Hl _ _ H1) as (v1 & E1 & <-), (Hl _ _ H2) as (v2 & E2 & <-). by simplify_eq.
Qed.

(** The loop of [nfMessage]. *)
Definition relay_body p : Z * ptr → M W unit := λ '(_, q),
  if decide (p = q) then mret tt else m ← getMsg p; send q m.

Lemma relay_loop p v (l : list (Z * ptr)) w :
  view w p = Some v → NoDup l.*2 → (∀ q, q ∈ l.*2 → is_Some (view w q)) →
  ∃ h : H, forM_ l (relay_body p) w = Ok tt (fset h w) ∧
    ∀ q vq, view w q = Some vq →
      view (fset h w) q =
        Some (if decide (q ∈ l.*2 ∧ q ≠ p) then view_push (view_msg v) vq else vq).
Proof.
  revert w v. induction l as [|[k q0] l IH]; intros w v Hp Hnd Hl; cbn [forM_].
  - exists (fget (Field := FH) w). rewrite fset_fget. split; [done|]. intros q vq Hq.
    rewrite decide_False; [done|]. intros [[]%not_elem_of_nil _].
  - apply NoDup_cons in Hnd as [Hnin Hnd]. change (relay_body p (k, q0)) with
      (if decide (p = q0) then mret tt else m ← getMsg p; send q0 m).
    destruct (decide (p = q0)) as [->|Hne].
    + destruct (IH w v Hp Hnd) as (h & Hr & Hv); [intros q Hq; apply Hl; by right|].
      exists h. split; [done|]. intros q vq Hq. rewrite (Hv q vq Hq). f_equal.
      destruct (decide (q ∈ l.*2 ∧ q ≠ q0)) as [[? ?]|Hn].
      * by rewrite decide_True by (split; [by right|done]).
      * rewrite decide_False; [done|]. intros [[->|?]%elem_of_cons ?]; [done|]. by apply Hn.
    + destruct (Hl q0) as [v0 Hv0]; [by left|].
      destruct (send_law q0 v0 (view_msg v) w Hv0) as (h0 & Hs & Hv0' & Hoth).
      destruct (IH (fset h0 w) v) as (h & Hr & Hv).
      { by rewrite Hoth. } { done. }
      { intros q Hq. destruct (decide (q = q0)) as [->|Hq0]; [by rewrite Hv0'|].
        rewrite Hoth by done. apply Hl. by right. }
      exists h. rewrite fset_fset in Hr, Hv. split.
      * unfold mbind, M_bind. rewrite (getMsg_law p v w Hp), Hs. exact Hr.
      * intros q vq Hq. destruct (decide (q = q0)) as [->|Hq0].
        -- rewrite (Hv q0 _ Hv0'). simplify_eq.
           rewrite decide_False by (intros [? _]; done).
           by rewrite decide_True by (split; [by left|done]).
        -- rewrite (Hv q vq) by (by rewrite Hoth). f_equal.
           apply decide_ext. rewrite fmap_cons, elem_of_cons. naive_solver.
Qed.

Lemma redis_keeps_sessions r w p : view (fset (r : Redis Ctx) w) p = view w p.
Proof. apply (view_frame FR r w p SRH). Qed.

Lemma nfMessage_run p v n w :
  view w p = Some v → strlen (msg_body (view_msg v)) = Some n → listed_ok w →
  ∃ b (r : Redis Ctx) (h : H),
    Redis_send (score_cmd (i32 (Z.of_nat n)) (view_id v)) w = Ok b (fset r w) ∧
    nfMessage p w = Ok tt (fset h (fset r w)) ∧
    ∀ q vq, view w q = Some vq →
      view (fset h (fset r w)) q =
        Some (if decide (q ∈ (in_order (table w)).*2 ∧ q ≠ p) then view_push (view_msg v) vq else vq).
Proof.
  intros Hp Hn Hl. set (cmd := score_cmd (i32 (Z.of_nat n)) (view_id v)).
  destruct (Redis_send_ok cmd w) as (b & r & Hsend).
  assert (Hsv : (fget (fset r w) : TcpServer) = fget w) by apply (fget_fset_sep' (Separate := SRS)).
  destruct (relay_loop p v (in_order (table w)) (fset r w)) as (h & Hr & Hv).
  { by rewrite redis_keeps_sessions. } { by apply listed_once. }
  { intros q ([k q'] & -> & Hk%elem_of_in_order)%list_elem_of_fmap.
    destruct (Hl _ _ Hk) as (vq & E & _). rewrite redis_keeps_sessions. by exists vq. }
  exists b, r, h. split_and!; [done| |].
  - unfold nfMessage. erewrite bind_ok by (by apply getMsg_law). rewrite Hn.
    erewrite bind_ok by (by apply getID_law). fold cmd. erewrite bind_ok by exact Hsend.
    unfold server. erewrite bind_ok by reflexivity. rewrite Hsv. exact Hr.
  - intros q vq Hq. apply Hv. by rewrite redis_keeps_sessions.
Qed.

Lemma elem_of_listed w q : q ∈ (in_order (table w)).*2 ↔ ∃ k, table w !! k = Some q.
Proof.
  rewrite list_elem_of_fmap. split.
  - intros ([k q'] & Eq & Hk%elem_of_in_order). cbn in Eq. subst q'. by exists k.
  - intros [k Hk]. exists (k, q). by rewrite elem_of_in_order.
Qed.

(** C15: [nfMessage] relays.  On a session whose message text ends within the
    body, and with every table entry a session with that id, the handler
    appends a copy of the session's message to the queue of every other listed
    session, exactly once, and changes no other session and nothing of the
    server; redis, when connected, is sent the one command that adds the length
    of the text to the sender's score. *)
Theorem nfMessage_broadcast p v n w :
  view w p = Some v → strlen (msg_body (view_msg v)) = Some n → listed_ok w →
  ∃ w', nfMessage p w = Ok tt w' ∧ (fget w' : TcpServer) = fget w ∧
    (∀ k q vq, table w !! k = Some q → q ≠ p → view w q = Some vq →
       view w' q = Some (view_push (view_msg v) vq)) ∧
    (∀ q vq, (q = p ∨ ∀ k, table w !! k ≠ Some q) → view w q = Some vq →
       view w' q = Some vq) ∧
    (∀ c, context_ (fget w : Redis Ctx) = Some c →
       context_ (fget w' : Redis Ctx) =
         Some (redisCommand c (score_cmd (i32 (Z.of_nat n)) (view_id v))).2).
Proof.
  intros Hp Hn Hl. destruct (nfMessage_run p v n w Hp Hn Hl) as (b & r & h & Hsend & Hr & Hv).
  exists (fset h (fset r w)). split_and!; [done| | | |].
  - rewrite (fget_fset_sep (Separate := SSH)). apply (fget_fset_sep' (Separate := SRS)).
  - intros k q vq Hk Hne Hq. rewrite (Hv q vq Hq).
    rewrite decide_True; [done|]. split; [|done]. apply elem_of_listed. by exists k.
  - intros q vq Hor Hq. rewrite (Hv q vq Hq).
    rewrite decide_False; [done|]. intros [[k Hk]%elem_of_listed Hne].
    destruct Hor as [->|Hnk]; [done|]. by apply (Hnk k).
  - intros c Hc. rewrite (Redis_send_run _ c w Hc) in Hsend. injection Hsend as _ E.
    rewrite (fget_fset_sep (Separate := SRH)), <- E, fget_fset. done.
Qed.
End Broadcast.

(** construction takes the first service of the pool for [ios_] and moves
    the round robin past it; without threads there is no service to take.  A
    later [stop] stops that one service: the other ones, the acceptor and the
    sessions go on. *)
Theorem chat_new_then_stop {W Ctx : Type} `{FS : !Field W TcpServer, FC : !Field W ChatServer}
    name config :
  0 <= sc_maxSession config < 2 ^ 31 →
  (0 < sc_threadCount config → ∃ v c, ChatServer_new (Ctx := Ctx) name config = Val (v, Redis_new, c) ∧
     ios_ c = 0%nat ∧ m_next (sv_ioServicePool v) = 1 ∧
     ∀ w : W, (fget w : ChatServer) = c →
       ∃ v', chat_stop w = Ok tt (fset v' w) ∧
         v' = sv_set_pool (λ _, sv_ioServicePool v') (fget w) ∧
         m_ios (sv_ioServicePool v') = alter ios_stop 0%nat (m_ios (sv_ioServicePool (fget w)))) ∧
  (sc_threadCount config = 0 →
     ChatServer_new (Ctx := Ctx) name config = Bad UB_out_of_range).
Proof.
  intros Hm. unfold ChatServer_new. rewrite TcpServer_new_ok by done. cbn [mbind cres_bind sv_ioServicePool].
  split.
  - intros Ht.
    destruct (getIoService_ok 0 (IoServicePool_new (sc_threadCount config))) as (pool & Hg & Hmp & Hn).
    { unfold next_is. rewrite m_ios_new, m_next_new, length_replicate. split; [lia|by left]. }
    rewrite Hg. cbn [mbind cres_bind]. eexists _, _. split; [done|].
    assert (Hnext : m_next pool = 1).
    { unfold getIoService in Hg. rewrite m_next_new, m_ios_new, length_replicate in Hg.
      destruct (Z.leb_spec (Z.of_nat (Z.to_nat (sc_threadCount config))) 0); [lia|].
      rewrite lookup_replicate_2 in Hg by lia. by injection Hg as <-. }
    split_and!; [done|exact Hnext|]. intros w Hc.
    eexists. split; [by unfold chat_stop, fread, mbind, M_bind, get; cbn; rewrite Hc|]. cbn.
    split; [by destruct (fget w : TcpServer)|done].
  - intros ->. done.
Qed.

(** ** A concrete process

    Sessions, server, redis and chat members, with the redis server that counts
    its commands. *)

Record chat_world := mkWorld {
  cw_sessions : heap;
  cw_tcp : TcpServer;
  cw_store : Redis nat;
  cw_members : ChatServer
}.
#[export, refine] Instance cw_heap : Field chat_world heap :=
  {| fget w := cw_sessions w; fset x w := mkWorld x (cw_tcp w) (cw_store w) (cw_members w) |}.
Proof. all: by try intros []. Defined.
#[export, refine] Instance cw_server : Field chat_world TcpServer :=
  {| fget w := cw_tcp w; fset x w := mkWorld (cw_sessions w) x (cw_store w) (cw_members w) |}.
Proof. all: by try intros []. Defined.
#[export, refine] Instance cw_redis : Field chat_world (Redis nat) :=
  {| fget w := cw_store w; fset x w := mkWorld (cw_sessions w) (cw_tcp w) x (cw_members w) |}.
Proof. all: by try intros []. Defined.
#[export, refine] Instance cw_chat : Field chat_world ChatServer :=
  {| fget w := cw_members w; fset x w := mkWorld (cw_sessions w) (cw_tcp w) (cw_store w) x |}.
Proof. all: by try intros []. Defined.
#[export] Instance cw_server_heap : Separate cw_server cw_heap.
Proof. by split. Qed.
#[export] Instance cw_redis_heap : Separate cw_redis cw_heap.
Proof. by split. Qed.
#[export] Instance cw_redis_server : Separate cw_redis cw_server.
Proof. by split. Qed.

(** Session 1, 2 and 3 are in the table; session 1 has received [hello]. *)
Definition demo_entry (id : Z) : TcpSession :=
  set_handlers (Some ChatServer_opened) (Some TcpServer_handleClose) (Some ChatServer_message)
    (mkTcpSession socket_new id Opened (mkEndpoint "10.0.0.1" 5000) hello [] 4096 size_max 0 0 None None None).
Definition demo_world : chat_world :=
  mkWorld {[10%nat := demo_entry 1; 20%nat := demo_entry 2; 30%nat := demo_entry 3]}
    (sv_set_sessions (λ _, {[1 := 10%nat; 2 := 20%nat; 3 := 30%nat]}) plain_v0)
    (mkRedis "127.0.0.1" REDIS_PORT (Some 0%nat) Reply_null) (mkChatServer 0 ∅ ∅).

Lemma nfMessage_broadcast_witness :
  ∃ w', nfMessage (W := chat_world) (Ctx := nat) 10%nat demo_world = Ok tt w' ∧
    (view_outbox <$> view w' 20%nat) = Some [hello] ∧
    (view_outbox <$> view w' 10%nat) = Some [] ∧ context_ (cw_store w') = Some 1%nat.
Proof.
  destruct (nfMessage_broadcast (W := chat_world) (Ctx := nat) 10%nat (session_view_of (demo_entry 1)) 2 demo_world)
    as (w' & Hr & _ & Hto & Hno & Hc).
  - vm_compute. reflexivity.
  - vm_compute. reflexivity.
  - intros k q Hk. change (sv_sessions (fget demo_world)) with ({[1 := 10%nat; 2 := 20%nat; 3 := 30%nat]} : gmap Z ptr) in Hk.
    apply lookup_insert_Some in Hk as [[<- <-]|[_ Hk]];
      [exists (session_view_of (demo_entry 1)); vm_compute; by split|].
    apply lookup_insert_Some in Hk as [[<- <-]|[_ Hk]];
      [exists (session_view_of (demo_entry 2)); vm_compute; by split|].
    apply lookup_singleton_Some in Hk as [<- <-].
    exists (session_view_of (demo_entry 3)); vm_compute; by split.
  - exists w'. split_and!; [exact Hr| | |].
    + rewrite (Hto 2 20%nat (session_view_of (demo_entry 2))); [reflexivity|vm_compute; reflexivity|done|vm_compute; reflexivity].
    + rewrite (Hno 10%nat (session_view_of (demo_entry 1))); [reflexivity|by left|vm_compute; reflexivity].
    + exact (Hc 0%nat eq_refl).
Defined.

Lemma chat_new_then_stop_witness :
  ChatServer_new (Ctx := nat) "chat" (runServer_config 0) = Bad UB_out_of_range ∧
  ∃ v c, ChatServer_new (Ctx := nat) "chat" (runServer_config 2) = Val (v, Redis_new, c).
Proof.
  split.
  - exact (proj2 (chat_new_then_stop (W := chat_world) (Ctx := nat) "chat" (runServer_config 0)
      ltac:(vm_compute; split; congruence)) eq_refl).
  - destruct (proj1 (chat_new_then_stop (W := chat_world) (Ctx := nat) "chat" (runServer_config 2)
      ltac:(vm_compute; split; congruence)) eq_refl) as (v & c & Hr & _). exists v, c. exact Hr.
Defined.
