(* ===== verification/ChatProps.v ===== *)
(** * Properties of the chat server process

    The chat server as an application of the TCP server: its handlers keep the
    server's laws, so that every theorem of ServerProps.v holds of it; what
    [start] sets up; what reaches redis; which input breaks it. *)
From S2P Require Import Prelude Config Msg Session TcpSession TcpSend TcpRecv IoServicePool TcpServer ServerInv ServerProps Redis ChatServer.

Create HintDb keeps.

Section Chat.
Context {W : Type} {Ctx : Type} `{HR : !Hiredis Ctx}.
Context `{FH : !Field W heap} `{FS : !Field W TcpServer} `{FR : !Field W (Redis Ctx)}.
Context `{SEP : !Separate FS FH} `{SRH : !Separate FR FH} `{SRS : !Separate FR FS}.
Implicit Types (w : W) (s : TcpSession) (p q : ptr).

Abbreviation chat := (chat_callbacks (W := W) (Ctx := Ctx)).

(** ** The handlers keep the server's laws *)

(** When [m] returns, all it did was to send. *)
Definition keeps {A} (m : M W A) : Prop := ∀ w a w', m w = Ok a w' → app_rel w w'.

Lemma keeps_ret {A} (a : A) : keeps (mret a).
Proof. intros w a' w' [= _ <-]. apply app_rel_refl. Qed.
Lemma keeps_undef {A} u : keeps (undef u : M W A).
Proof. by intros w a w' ?. Qed.
Lemma keeps_bind {A B} (m : M W A) (f : A → M W B) :
  keeps m → (∀ a, keeps (f a)) → keeps (m ≫= f).
Proof.
  intros Hm Hf w b w' Hrun. unfold mbind, M_bind in Hrun.
  destruct (m w) as [a w1| |] eqn:E; [|done..].
  eapply app_rel_trans; [by eapply Hm|by eapply Hf].
Qed.
Lemma keeps_forM {A} (l : list A) (f : A → M W unit) :
  (∀ x, keeps (f x)) → keeps (forM_ l f).
Proof. intros Hf. induction l; [apply keeps_ret|]. by apply keeps_bind. Qed.
Lemma keeps_deref p : keeps (deref p).
Proof.
  intros w s w' Hrun. unfold deref, fread, mbind, M_bind, get in Hrun. cbn in Hrun.
  destruct (hp w !! p); [|done]. injection Hrun as _ <-. apply app_rel_refl.
Qed.
Lemma keeps_send p m : keeps (TcpSession_send p m).
Proof.
  intros w [] w' Hrun. destruct (hp w !! p) as [s|] eqn:Hs.
  - destruct (send_app_rel p m w) as (w1 & Hr & Hrel); [by rewrite Hs|].
    rewrite Hr in Hrun. by injection Hrun as <-.
  - unfold TcpSession_send, deref, fread, mbind, M_bind, get in Hrun. cbn in Hrun.
    by rewrite Hs in Hrun.
Qed.
Lemma keeps_getID p : keeps (getID p).
Proof. apply keeps_bind; [apply keeps_deref|intros; apply keeps_ret]. Qed.
Lemma keeps_getMsg p : keeps (getMsg p).
Proof. apply keeps_bind; [apply keeps_deref|intros; apply keeps_ret]. Qed.

Lemma redis_app_rel (r : Redis Ctx) w : app_rel w (fset r w).
Proof.
  split; [apply (fget_fset_sep' (Separate := SRS))|]. intros q. exists [].
  rewrite (fget_fset_sep' (Separate := SRH)). by destruct (hp w !! q).
Qed.
Lemma keeps_redis cmd : keeps (Redis_send cmd).
Proof.
  intros w b w' Hrun. destruct (Redis_send_ok cmd w) as (b' & r & E).
  rewrite E in Hrun. injection Hrun as _ <-. apply redis_app_rel.
Qed.
Lemma keeps_server : keeps server.
Proof. intros w v w' [= _ <-]. apply app_rel_refl. Qed.

#[local] Hint Resolve keeps_ret keeps_undef keeps_bind keeps_forM keeps_getID keeps_getMsg
  keeps_redis keeps_server keeps_send : keeps.

Lemma keeps_rqCreateUser p : keeps (rqCreateUser p).
Proof.
  apply keeps_bind; [auto with keeps|]. intros m.
  destruct (strlen (msg_body m)); auto 6 with keeps.
Qed.

Lemma keeps_nfMessage p : keeps (nfMessage p).
Proof.
  apply keeps_bind; [auto with keeps|]. intros m. destruct (strlen (msg_body m)); [|apply keeps_undef].
  repeat (apply keeps_bind; [auto with keeps|]; intros ?). apply keeps_forM. intros [k q].
  destruct (decide (p = q)); [apply keeps_ret|].
  apply keeps_bind; [auto with keeps|]. intros m'. apply keeps_send.
Qed.

Lemma keeps_messageHandler p : keeps (messageHandler p).
Proof.
  repeat (apply keeps_bind; [auto with keeps|]; intros ?).
  destruct (_ =? _); [apply keeps_rqCreateUser|].
  destruct (_ =? _); [apply keeps_nfMessage|apply keeps_ret].
Qed.

Lemma listed_ok_inv w : server_inv w → listed_ok (H := heap) w.
Proof.
  intros (_ & [Ht _] & _) k q Hk. destruct (Ht k q Hk) as (s & Hs & Hid).
  exists (session_view_of s). cbn. by rewrite Hs.
Qed.

Lemma log_id_ok p w : is_Some (hp w !! p) → (_ ← getID p; mret tt) w = Ok tt w.
Proof. intros [s Hs]. cbn. unfold TcpSession_getID. by sess_run. Qed.

#[export] Instance chat_laws : AppLaws chat.
Proof.
  split.
  - intros h p w Hs. exists w. split; [|apply app_rel_refl].
    destruct h; try done. by apply log_id_ok.
  - intros h p r w Hs. exists w. split; [|apply app_rel_refl].
    destruct h; try done. by apply log_id_ok.
  - intros h p w w' Hrun. destruct h; cbn in Hrun;
      solve [injection Hrun as <-; apply app_rel_refl | by eapply keeps_messageHandler].
Qed.

(** ** Start *)

Lemma sv_redis (r : Redis Ctx) w : sv (fset r w) = sv w.
Proof. apply (proj1 (redis_app_rel r w)). Qed.
Lemma hp_redis (r : Redis Ctx) w : hp (fset r w) = hp w.
Proof. apply (fget_fset_sep' (Separate := SRH)). Qed.
Lemma redis_upd_sv v w : (fget (upd_sv v w) : Redis Ctx) = fget w.
Proof. apply (fget_fset_sep (Separate := SRS)). Qed.

Definition with_chat_handlers (v : TcpServer) : TcpServer :=
  sv_set_handlers (Some ChatServer_opened) (Some ChatServer_closed) (Some ChatServer_message) v.

(** [start] of the chat server.  When redis cannot be reached it gives up:
    nothing of the TCP server changes, and the three callbacks are not even
    registered.  Otherwise a newly constructed server with at least one thread
    listens on the address, with the three callbacks registered and redis
    connected, in a state from which every theorem on a running server holds. *)
Theorem chat_start_spec ip port a name config v0 w :
  TcpServer_new name config = Val v0 → in_u 64 (sc_maxSession config) →
  sc_maxSession config < 2 ^ 31 → 0 < sc_threadCount config →
  (∃ k pool, getIoService (sv_ioServicePool v0) = Val (k, pool) ∧
     sv w = sv_set_pool (λ _, pool) v0) →
  hp w = ∅ →
  let reply := redisConnect ip (port_ (fget w : Redis Ctx)) in
  (¬ (∃ c, reply = Some c ∧ ctx_err c = false) →
     ∃ w', chat_start ip port (Some a) true w = Ok tt w' ∧ sv w' = sv w ∧ hp w' = hp w) ∧
  (∀ c, reply = Some c → ctx_err c = false →
     ∃ w', chat_start ip port (Some a) true w = Ok tt w' ∧ running chat w' ∧
       hp w' = ∅ ∧ sv_sessions (sv w') = ∅ ∧ sv_state (sv w') = Server_Start ∧ sv_accepts (sv w') = 1%nat ∧
       sv_messageHandler (sv w') = Some ChatServer_message ∧
       (ac_ep <$> sv_acceptor (sv w')) = Some (mkEndpoint a (u16 port)) ∧
       context_ (fget w' : Redis Ctx) = Some c).
Proof.
  intros Hnew Hu Hmax Hth (k0 & pool0 & Hg & Hsv) Hh reply.
  destruct (Redis_connect_ok ip w) as (b & Hc & Hb). set (r := mkRedis _ _ _ _) in Hc.
  unfold chat_start. erewrite !bind_ok by exact Hc. split.
  - intros Hno. destruct b; [by destruct Hno; apply Hb|]. exists (fset r w). cbn [negb].
    rewrite sv_redis, hp_redis. done.
  - intros c Hrc Hce. replace b with true by (symmetry; apply Hb; by exists c). cbn [negb].
    unfold registerSessionOpenedHandler, registerSessionClosedHandler, registerMessageHandler.
    rewrite !bind_set_server, !sv_upd_sv, !upd_sv_upd_sv, sv_redis.
    set (v1 := sv_set_handlers _ _ _ _). set (w1 := upd_sv v1 (fset r w)).
    assert (Ev1 : v1 = with_chat_handlers (sv_set_pool (λ _, pool0) v0)).
    { unfold v1. by rewrite Hsv. }
    pose proof (TcpServer_new_fresh name config v0 ChatServer_opened (Some ChatServer_closed)
      (Some ChatServer_message) Hnew ltac:(destruct Hu; lia) Hth) as Hfr.
    assert (Hf1 : fresh_server (sv w1)).
    { unfold w1. rewrite sv_upd_sv, Ev1. destruct Hfr as (H1 & H2 & H3 & H4 & H5 & i & Hi).
      unfold fresh_server. split_and!; try done.
      destruct (getIoService_ok i _ Hi) as (pool' & Hp & _ & Hn'). cbn in Hp.
      rewrite Hg in Hp. injection Hp as _ <-. by eexists. }
    assert (Hh1 : hp w1 = ∅) by (unfold w1; by rewrite hp_upd_sv, hp_redis).
    pose proof Hf1 as (_ & _ & Hacc & _ & _ & i & Hi).
    destruct (listen_ok (mkEndpoint a (u16 port)) i w1 Hi) as (k & pool1 & pool2 & Hl & _).
    cbn [start_address]. eexists. split; [exact Hl|]. rewrite !sv_upd_sv. split_and!; try done.
    + eexists _, w1, _. split_and!; [done|done|exact Hl|constructor].
    + by rewrite hp_upd_sv.
    + apply Hf1.
    + cbn. by rewrite Hacc.
    + cbn. unfold w1. by rewrite sv_upd_sv, Ev1.
    + rewrite redis_upd_sv. unfold w1. by rewrite redis_upd_sv, fget_fset.
Qed.
End Chat.

(** ** A chat server with three sessions *)

Abbreviation demo_chat := (chat_callbacks (W := chat_world) (Ctx := nat)).

Definition demo_config : ServerConfig := mkServerConfig 1 4 true 4096 size_max.
Definition chat0 : chat_world :=
  match ChatServer_new "chat" demo_config with
  | Val (v, r, c) => mkWorld ∅ v r c
  | Bad _ => demo_world
  end.
Definition chat_ep : endpoint := mkEndpoint "127.0.0.1" 20000.
Definition chat1 : chat_world := after (chat_start "127.0.0.1" 20000 (Some "127.0.0.1"%string) true chat0) chat0.
Definition connected (w : chat_world) : chat_world :=
  after (complete_accept demo_chat Success (Some chat_ep) uninit0 w) w.
Definition chat2 : chat_world := connected (connected (connected chat1)).

Lemma chat_start_spec_witness :
  ∃ w', chat_start "127.0.0.1" 20000 (Some "127.0.0.1"%string) true chat0 = Ok tt w' ∧
    running demo_chat w' ∧ context_ (fget w' : Redis nat) = Some 0%nat.
Proof.
  destruct (chat_start_spec (W := chat_world) (Ctx := nat) "127.0.0.1" 20000 "127.0.0.1" "chat" demo_config
    (mkTcpServer "chat" demo_config Server_Ready (IoServicePool_new 1) [1; 2; 3; 4] ∅ None None None None None 0)
    chat0) as [_ Hs].
  - vm_compute. reflexivity.
  - vm_compute. split; congruence.
  - vm_compute. reflexivity.
  - vm_compute. reflexivity.
  - eexists _, _. split; vm_compute; reflexivity.
  - vm_compute. reflexivity.
  - destruct (Hs 0%nat eq_refl eq_refl) as (w' & Hr & Hrn & _ & _ & _ & _ & _ & _ & Hc).
    exists w'. split; [exact Hr|]. split; [exact Hrn|exact Hc].
Defined.

Lemma chat1_running : running demo_chat chat1.
Proof.
  exists chat_ep, (fset (with_chat_handlers (fget chat0))
    (fset (mkRedis "127.0.0.1" REDIS_PORT (Some 0%nat) Reply_null) chat0)), chat1.
  split_and!; [|vm_compute; reflexivity|vm_compute; reflexivity|constructor].
  unfold fresh_server. split_and!; try (vm_compute; reflexivity); try done.
  exists 0%nat. split; [vm_compute; lia|right; split; vm_compute; reflexivity].
Qed.

Lemma connected_running w :
  running demo_chat w → sv_accepts (sv w) ≠ 0%nat →
  complete_accept demo_chat Success (Some chat_ep) uninit0 w = Ok tt (connected w) →
  running demo_chat (connected w).
Proof.
  intros Hw Ha Hr. eapply running_step; [exact Hw|].
  split; [|instantiate (1 := Ev_accept Success (Some chat_ep) uninit0); exact Hr].
  split; [exact Ha|exact demo_msg_ok].
Qed.

Lemma chat2_running : running demo_chat chat2.
Proof.
  unfold chat2. repeat (apply connected_running; [|vm_compute; congruence|vm_compute; reflexivity]).
  exact chat1_running.
Qed.
