(* ===== verification/ChatRoom.v ===== *)
(** * The chat server as a room

    What the chat server promises, without sockets, buffers, headers and
    completion handlers: a room with members, and for every session the
    messages that are still to be sent to it.  The theorems say that every
    execution of the chat server is an execution of the room, and so what a
    session is sent over any execution. *)
From S2P Require Import Prelude Config Msg Session TcpSession TcpSend TcpRecv ByteStream IoServicePool TcpServer ServerInv ServerProps Redis ChatServer ChatProps.

(** ** The specification *)

(** [members]: the sessions listed, by id; [outbox]: all sessions there are,
    with what is still to be sent to them. *)
Record room := mkRoom { members : gmap Z ptr; outbox : gmap ptr (list Msg) }.

Inductive room_label :=
  | L_join (id : Z) (p : ptr)    (* a new session [p] with id [id] *)
  | L_leave (id : Z)             (* the member with this id is removed *)
  | L_say (p : ptr) (m : Msg)    (* [p] says [m] to all other members *)
  | L_sent (p : ptr)             (* the oldest message to [p] has been sent *)
  | L_silent.

(** Who hears [p]: the other members. *)
Definition hears (r : room) (p q : ptr) : Prop :=
  q ∈ (map_img (members r) : gset ptr) ∧ q ≠ p.

#[export] Instance hears_dec r p q : Decision (hears r p q).
Proof. unfold hears. apply _. Defined.

(** [None]: the room does not do this.  A newcomer whose id is taken is no
    member; a session need not be a member to speak. *)
Definition room_exec (r : room) (l : room_label) : option room :=
  match l with
  | L_join id p =>
      match outbox r !! p with
      | Some _ => None
      | None =>
          Some (mkRoom (match members r !! id with Some _ => members r | None => <[id := p]> (members r) end)
                       (<[p := []]> (outbox r)))
      end
  | L_leave id => Some (mkRoom (delete id (members r)) (outbox r))
  | L_say p m =>
      match outbox r !! p, strlen (msg_body m) with
      | Some _, Some _ =>
          Some (mkRoom (members r) (map_imap (λ q l, Some (if decide (hears r p q) then l ++ [m] else l)) (outbox r)))
      | _, _ => None
      end
  | L_sent p =>
      match outbox r !! p with
      | Some (_ :: l) => Some (mkRoom (members r) (<[p := l]> (outbox r)))
      | _ => None
      end
  | L_silent => Some r
  end.

Fixpoint room_run (r : room) (ls : list room_label) : option room :=
  match ls with
  | [] => Some r
  | l :: ls => r' ← room_exec r l; room_run r' ls
  end.

(** What [q] is told, and what has been sent to it, over a run. *)
Definition heard_now (q : ptr) (r : room) (l : room_label) : list Msg :=
  match l with L_say p m => if decide (hears r p q) then [m] else [] | _ => [] end.
Definition sent_now (q : ptr) (r : room) (l : room_label) : list Msg :=
  match l with
  | L_sent p => if decide (p = q) then take 1 (default [] (outbox r !! p)) else []
  | _ => []
  end.
Fixpoint over (f : room → room_label → list Msg) (r : room) (ls : list room_label) : list Msg :=
  match ls with
  | [] => []
  | l :: ls => f r l ++ match room_exec r l with Some r' => over f r' ls | None => [] end
  end.
Abbreviation heard q := (over (heard_now q)).
Abbreviation sent_over q := (over (sent_now q)).

Lemma room_exec_history r l r' q b :
  room_exec r l = Some r' → outbox r !! q = Some b →
  ∃ b', outbox r' !! q = Some b' ∧ b ++ heard_now q r l = sent_now q r l ++ b'.
Proof.
  intros He Hb. destruct l as [id p|id|p m|p|]; cbn in He |- *.
  - destruct (outbox r !! p) eqn:Ep; [done|]. injection He as <-. exists b. cbn.
    rewrite lookup_insert_ne, app_nil_r by (by intros ->; rewrite Hb in Ep). done.
  - injection He as <-. exists b. by rewrite app_nil_r.
  - destruct (outbox r !! p); [|done]. destruct (strlen _); [|done]. injection He as <-. cbn.
    rewrite map_lookup_imap, Hb. cbn. eexists. split; [done|].
    destruct (decide _); [done|by rewrite app_nil_r].
  - destruct (outbox r !! p) as [[|m l]|] eqn:Ep; [done| |done]. injection He as <-. cbn.
    rewrite app_nil_r. destruct (decide (p = q)) as [->|Hne].
    + rewrite lookup_insert_eq. rewrite Hb in Ep. injection Ep as ->. by exists l.
    + rewrite lookup_insert_ne by done. by exists b.
  - injection He as <-. exists b. by rewrite app_nil_r.
Qed.

(** What a session had to be sent and hears is what has been sent to it and
    what is still to be sent, in this order. *)
Lemma room_history r ls r' q b :
  room_run r ls = Some r' → outbox r !! q = Some b →
  ∃ b', outbox r' !! q = Some b' ∧ b ++ heard q r ls = sent_over q r ls ++ b'.
Proof.
  revert r b. induction ls as [|l ls IH]; intros r b Hr Hb; cbn in Hr |- *.
  - injection Hr as <-. exists b. by rewrite app_nil_r.
  - destruct (room_exec r l) as [r1|] eqn:He; [|done]. cbn in Hr.
    destruct (room_exec_history r l r1 q b He Hb) as (b1 & Hb1 & E1).
    destruct (IH r1 b1 Hr Hb1) as (b' & Hb' & E'). exists b'. split; [done|].
    by rewrite app_assoc, E1, <- app_assoc, E', app_assoc.
Qed.

(** *** Runs, one label at a time *)

Lemma room_run_app r ls ls' : room_run r (ls ++ ls') = room_run r ls ≫= λ r', room_run r' ls'.
Proof.
  revert r. induction ls as [|l ls IH]; intros r; cbn; [done|].
  destruct (room_exec r l); cbn; [apply IH|done].
Qed.

Lemma room_run_snoc r ls r1 l r2 :
  room_run r ls = Some r1 → room_exec r1 l = Some r2 → room_run r (ls ++ [l]) = Some r2.
Proof. intros Hr He. rewrite room_run_app, Hr. cbn. by rewrite He. Qed.

Lemma over_snoc f r ls r1 l : room_run r ls = Some r1 → over f r (ls ++ [l]) = over f r ls ++ f r1 l.
Proof.
  revert r. induction ls as [|l0 ls IH]; intros r Hr; cbn in *.
  - injection Hr as ->. by destruct (room_exec r1 l); rewrite app_nil_r.
  - destruct (room_exec r l0) as [r0|]; [|done]. by rewrite (IH r0 Hr), app_assoc.
Qed.

(** Sessions never disappear, and the members are among them. *)
Lemma room_exec_dom r l r' p :
  room_exec r l = Some r' → is_Some (outbox r !! p) → is_Some (outbox r' !! p).
Proof.
  intros He Hp. destruct l as [id q|id|q m|q|]; cbn in He.
  - destruct (outbox r !! q); [done|]. injection He as <-. cbn. by apply lookup_insert_is_Some'; right.
  - by injection He as <-.
  - destruct (outbox r !! q), (strlen (msg_body m)); try done. injection He as <-. cbn. rewrite map_lookup_imap.
    by destruct (outbox r !! p).
  - destruct (outbox r !! q) as [[|? ?]|]; try done. injection He as <-. cbn. by apply lookup_insert_is_Some'; right.
  - by injection He as <-.
Qed.

Definition members_wf (r : room) : Prop := ∀ k q, members r !! k = Some q → is_Some (outbox r !! q).

Lemma room_exec_wf r l r' : room_exec r l = Some r' → members_wf r → members_wf r'.
Proof.
  intros He Hwf k q Hk. destruct l as [id p|id|p m|p|].
  2-5: apply (room_exec_dom r _ r' q He); cbn in He.
  - cbn in He. destruct (outbox r !! p) eqn:Ep; [done|]. injection He as <-. cbn in *.
    apply lookup_insert_is_Some'. destruct (members r !! id) eqn:Eid; [right; by eapply Hwf|].
    apply lookup_insert_Some in Hk as [[_ <-]|[_ Hk]]; [by left|right; by eapply Hwf].
  - injection He as <-. cbn in Hk. apply lookup_delete_Some in Hk as [_ Hk]. by eapply Hwf.
  - destruct (outbox r !! p), (strlen (msg_body m)); try done. injection He as <-. by eapply Hwf.
  - destruct (outbox r !! p) as [[|? ?]|]; try done. injection He as <-. by eapply Hwf.
  - injection He as <-. by eapply Hwf.
Qed.

Lemma room_run_dom r ls r' p : room_run r ls = Some r' → is_Some (outbox r !! p) → is_Some (outbox r' !! p).
Proof.
  revert r. induction ls as [|l ls IH]; intros r Hr Hp; cbn in Hr; [by injection Hr as <-|].
  destruct (room_exec r l) as [r1|] eqn:He; [|done]. apply (IH r1 Hr). by eapply room_exec_dom.
Qed.

(** Who has spoken is a session; one that is none has heard nothing; what a
    session hears has been said by another. *)
Lemma said_dom r ls r' p m : room_run r ls = Some r' → L_say p m ∈ ls → is_Some (outbox r' !! p).
Proof.
  revert r. induction ls as [|l ls IH]; intros r Hr Hin; [by apply not_elem_of_nil in Hin|].
  cbn in Hr. destruct (room_exec r l) as [r1|] eqn:He; [|done].
  apply elem_of_cons in Hin as [<-|Hin]; [|by eapply IH].
  apply (room_run_dom r1 ls); [done|]. apply (room_exec_dom r (L_say p m)); [done|].
  cbn in He. by destruct (outbox r !! p).
Qed.
Lemma heard_fresh r ls r' q :
  members_wf r → room_run r ls = Some r' → outbox r' !! q = None → heard q r ls = [].
Proof.
  revert r. induction ls as [|l ls IH]; intros r Hwf Hr Hq; [done|].
  cbn in Hr |- *. destruct (room_exec r l) as [r1|] eqn:He; [|done].
  rewrite (IH r1); [|by eapply room_exec_wf|done..]. rewrite app_nil_r.
  destruct l as [| |p m| |]; try done. cbn. rewrite decide_False; [done|]. intros [Hin _].
  apply elem_of_map_img in Hin as [k Hk]. assert (Hs : is_Some (outbox r' !! q)).
  { apply (room_run_dom r1 ls); [done|]. by eapply room_exec_dom, Hwf. }
  rewrite Hq in Hs. by destruct Hs.
Qed.
Lemma heard_said r ls q m : m ∈ heard q r ls → ∃ p, L_say p m ∈ ls ∧ p ≠ q.
Proof.
  revert r. induction ls as [|l ls IH]; intros r Hin; cbn in Hin; [by apply not_elem_of_nil in Hin|].
  apply elem_of_app in Hin as [Hin|Hin].
  - destruct l as [| |p m'| |]; cbn in Hin; try by apply not_elem_of_nil in Hin.
    destruct (decide (hears r p q)) as [[_ Hne]|]; [|by apply not_elem_of_nil in Hin].
    apply list_elem_of_singleton in Hin as ->. exists p. split; [by left|done].
  - destruct (room_exec r l) as [r1|]; [|by apply not_elem_of_nil in Hin].
    destruct (IH r1 Hin) as (p & Hp & Hne). exists p. split; [by right|done].
Qed.

(** What a session says, over a run. *)
Definition said (p : ptr) (ls : list room_label) : list Msg :=
  omap (λ l, match l with L_say q m => if decide (q = p) then Some m else None | _ => None end) ls.

Lemma said_app p ls ls' : said p (ls ++ ls') = said p ls ++ said p ls'.
Proof. apply omap_app. Qed.
Lemma elem_of_said p ls m : m ∈ said p ls ↔ L_say p m ∈ ls.
Proof.
  unfold said. rewrite list_elem_of_omap. split.
  - intros ([| |q m'| |] & Hin & E); try done. destruct (decide (q = p)); [|done]. by simplify_eq.
  - intros Hin. exists (L_say p m). split; [done|]. by rewrite decide_True.
Qed.

(** ** The refinement *)

Section Refinement.
Context {W : Type} {Ctx : Type} `{HR : !Hiredis Ctx}.
Context `{FH : !Field W heap} `{FS : !Field W TcpServer} `{FR : !Field W (Redis Ctx)}.
Context `{SEP : !Separate FS FH} `{SRH : !Separate FR FH} `{SRS : !Separate FR FS}.
Implicit Types (w : W) (s : TcpSession) (p q : ptr).

Abbreviation chat := (chat_callbacks (W := W) (Ctx := Ctx)).

Definition room_of w : room := mkRoom (sv_sessions (sv w)) (ts_sendQue <$> hp w).

(** What an event means for the room. *)
Definition label_of w (e : server_event) : room_label :=
  match e with
  | Ev_accept error peer uninit =>
      if is_error error || (max_of (sv w) <=? Z.of_nat (size (sv_sessions (sv w)))) then L_silent
      else L_join (default 0 (head (sv_free_session_id (sv w)))) (fresh (dom (hp w)))
  | Ev_read p ec bs =>
      match hp w !! p with
      | None => L_silent
      | Some s =>
          match head (sk_reads (ts_socket s)) with
          | Some (RdBody, _) =>
              if is_error ec then L_leave (ts_id s)
              else match store hdrLength bs (ts_msg s) with
                   | Val m => if hdr_msgId (msg_hdr m) =? MsgId_val NF_MESSAGE then L_say p m else L_silent
                   | Bad _ => L_silent
                   end
          | _ => L_silent
          end
      end
  | Ev_write p ec n =>
      match hp w !! p with
      | None => L_silent
      | Some s => if is_error ec then L_leave (ts_id s) else L_sent p
      end
  end.

(** The server runs and every session has the chat server's message handler. *)
Definition handlers_ok w : Prop :=
  sv_messageHandler (sv w) = Some ChatServer_message ∧
  ∀ p s, hp w !! p = Some s → ts_messageHandler s = Some ChatServer_message.
Definition chat_running w : Prop := running chat w ∧ handlers_ok w.

(** Executions of the server, with what their events mean. *)
Inductive behaves w : list room_label → W → Prop :=
  | behaves_refl : behaves w [] w
  | behaves_step ls w1 e w' :
      behaves w ls w1 → server_step chat w1 e w' → behaves w (ls ++ [label_of w1 e]) w'.

(** *** The handlers that log change nothing *)

Lemma chat_opened_quiet h p w : is_Some (hp w !! p) → run_opened (Callbacks := chat) h p w = Ok tt w.
Proof. intros Hs. destruct h; try done. by apply log_id_ok. Qed.
Lemma chat_closed_quiet h p r w : is_Some (hp w !! p) → run_closed (Callbacks := chat) h p r w = Ok tt w.
Proof. intros Hs. destruct h; try done. by apply log_id_ok. Qed.

Lemma close_quiet p r s w :
  hp w !! p = Some s → handleClose chat p r w = Ok tt (upd_sv (give_id (ts_id s) (sv w)) w).
Proof.
  intros Hs. unfold handleClose. rewrite bind_server.
  rewrite (bind_ok _ _ tt w w) by (destruct (sv_closedHandler (sv w)); [by apply chat_closed_quiet|done]).
  unfold TcpSession_getID. rewrite bind_assoc. erewrite bind_deref by exact Hs.
  by rewrite bind_ret, bind_set_server, set_server_ok, sv_upd_sv, upd_sv_upd_sv.
Qed.

Lemma accept_quiet ep uninit w :
  server_inv w → sv_accepts (sv w) = 1%nat → msg_ok uninit.1.1 →
  Z.of_nat (size (sv_sessions (sv w))) < max_of (sv w) →
  let p := fresh (dom (hp w)) in
  ∃ id rest pool w' s,
    sv_free_session_id (sv w) = id :: rest ∧
    complete_accept chat Success (Some ep) uninit w = Ok tt w' ∧
    sv w' = accepted pool id rest p (sv w) ∧ hp w' = <[p := s]> (hp w) ∧
    tx_part s = ([], [], [], id) ∧ rx_part s = ([(RdHeader, hdrLength)], uninit.1.1, 0%nat) ∧
    ts_messageHandler s = sv_messageHandler (sv w).
Proof.
  intros (Hi & _ & (Hac & Hst & Hop & [i Hn] & _ & Hsk) & _) Hacc Hm Hlt p.
  destruct (free_nonempty _ Hi Hlt) as (id & rest & Hf).
  set (v0 := sv_set_accepts Nat.pred (sv w)). set (w0 := upd_sv v0 w).
  destruct (sv_openedHandler (sv w)) as [h|] eqn:Eh; [|done].
  set (s0 := new_session v0 socket_new ep id uninit).
  set (w1 := upd_sv (take_id id rest p (sv_set_socket None v0)) (upd p s0 w0)).
  assert (Hs0 : hp w1 !! p = Some s0) by (unfold w1; rewrite hp_upd_sv; apply lookup_upd).
  set (s2 := add_read (RdHeader, hdrLength) (set_state Opened s0)).
  assert (Hstart : TcpSession_start (CB := server_callbacks chat) p w1 = Ok tt (upd p s2 w1)).
  { rewrite (start_ok chat p s0 h w1 (upd p (set_state Opened s0) w1) (set_state Opened s0));
      [by rewrite upd_upd|done|exact Eh|apply chat_opened_quiet; by rewrite lookup_upd|apply lookup_upd]. }
  assert (Hsv2 : sv (upd p s2 w1) = take_id id rest p (sv_set_socket None v0)).
  { rewrite sv_upd. apply sv_upd_sv. }
  destruct (startAccept_ok (ac_ios <$> sv_acceptor (sv w)) i (upd p s2 w1))
    as (pool & _ & _ & _ & Hsa); [by rewrite Hsv2|by rewrite Hsv2|]. rewrite Hsv2 in Hsa.
  eexists id, rest, pool, _, s2. split_and!; [done| | | |done..].
  - unfold complete_accept. rewrite bind_server, Hacc, bind_set_server. fold v0. fold w0.
    assert (Hw0 : sv w0 = v0) by apply sv_upd_sv.
    rewrite (on_accept_start chat ep uninit id rest socket_new); rewrite ?Hw0;
      [|unfold v0; cbn; by rewrite Hst|done|done|by apply Hsk].
    assert (Hhp0 : hp w0 = hp w) by apply hp_upd_sv. rewrite Hhp0. fold p. fold s0. fold w1.
    by rewrite (bind_ok _ _ _ _ _ Hstart).
  - by rewrite sv_upd_sv.
  - rewrite hp_upd_sv. unfold upd. rewrite fget_fset. unfold w1. rewrite hp_upd_sv.
    unfold upd. rewrite fget_fset, insert_insert_eq. unfold w0. by rewrite hp_upd_sv.
Qed.

(** *** The message handler says the message *)

Lemma i32_small_eqb x z : in_u 32 x → 0 <= z < 2 ^ 31 → (i32 x =? z) = (x =? z).
Proof.
  unfold in_u. intros Hx Hz. destruct (decide (x < 2 ^ 31)).
  - rewrite wrapS_id; [done|done|]. unfold in_s. cbn. lia.
  - assert (Hw : i32 x = x - 2 ^ 32).
    { unfold wrapS. rewrite <- (Z.mod_unique (x + 2 ^ (32 - 1)) (2 ^ 32) 1 (x - 2 ^ 31)); cbn in *; lia. }
    rewrite Hw. cbn in *. destruct (Z.eqb_spec (x - 4294967296) z), (Z.eqb_spec x z); lia || done.
Qed.

Lemma room_of_app w w' :
  app_rel w w' → (∀ q s s', hp w !! q = Some s → hp w' !! q = Some s' → ts_sendQue s' = ts_sendQue s) →
  room_of w' = room_of w.
Proof.
  intros [Hsv Hq] Hsame. unfold room_of. rewrite Hsv. f_equal. apply map_eq. intros q.
  rewrite !lookup_fmap. destruct (Hq q) as [ms E]. destruct (hp w !! q) as [s|] eqn:Es; rewrite E; [|done].
  cbn. f_equal. by apply (Hsame q s).
Qed.

Lemma message_says p s w w' :
  server_inv w → hp w !! p = Some s → msg_ok (ts_msg s) → messageHandler (Ctx := Ctx) p w = Ok tt w' →
  room_exec (room_of w)
    (if hdr_msgId (msg_hdr (ts_msg s)) =? MsgId_val NF_MESSAGE then L_say p (ts_msg s) else L_silent) =
    Some (room_of w').
Proof.
  intros Hinv Hs [Hh _] Hrun. pose proof (keeps_messageHandler p _ _ _ Hrun) as Hrel.
  assert (Hid : in_u 32 (hdr_msgId (msg_hdr (ts_msg s)))) by apply Hh.
  assert (Hm : messageHandler (Ctx := Ctx) p w =
    (if hdr_msgId (msg_hdr (ts_msg s)) =? MsgId_val RQ_CREATE_USER then rqCreateUser p
     else if hdr_msgId (msg_hdr (ts_msg s)) =? MsgId_val NF_MESSAGE then nfMessage p else mret tt) w).
  { unfold messageHandler. cbn [getMsg getID TcpSession_Session].
    unfold TcpSession_getMsg, TcpSession_getID. sess_run. by rewrite !i32_small_eqb. }
  rewrite Hm in Hrun. clear Hm. destruct (_ =? MsgId_val RQ_CREATE_USER) eqn:Erq.
  - apply Z.eqb_eq in Erq. rewrite Erq. cbn. f_equal. symmetry. apply room_of_app; [done|].
    unfold rqCreateUser in Hrun. cbn [getMsg getID TcpSession_Session] in Hrun.
    unfold TcpSession_getMsg, TcpSession_getID in Hrun.
    rewrite bind_assoc in Hrun. erewrite bind_deref in Hrun by exact Hs. rewrite bind_ret in Hrun.
    destruct (strlen _); [|done].
    rewrite bind_assoc in Hrun. erewrite bind_deref in Hrun by exact Hs. rewrite bind_ret in Hrun.
    destruct (Redis_send_ok (user_cmd (ts_id s)) w) as (b & r & Hr). rewrite (bind_ok _ _ _ _ _ Hr) in Hrun.
    injection Hrun as <-. intros q s1 s1'. rewrite hp_redis. by intros -> [= ->].
  - destruct (_ =? MsgId_val NF_MESSAGE) eqn:Enf.
    2:{ injection Hrun as <-. done. }
    assert (Hv : view w p = Some (session_view_of s)) by (cbn; by rewrite Hs).
    destruct (strlen (msg_body (ts_msg s))) as [n|] eqn:En.
    2:{ unfold nfMessage in Hrun. cbn [getMsg TcpSession_Session] in Hrun. unfold TcpSession_getMsg in Hrun.
        rewrite bind_assoc in Hrun. erewrite bind_deref in Hrun by exact Hs. rewrite bind_ret in Hrun.
        by rewrite En in Hrun. }
    destruct (nfMessage_run p _ n w Hv En (listed_ok_inv w Hinv)) as (b & r & h & _ & Hnf & Hviews).
    rewrite Hnf in Hrun. injection Hrun as Hw'.
    unfold room_exec. cbn [outbox room_of]. rewrite lookup_fmap, Hs, En. cbn [fmap option_fmap option_map].
    f_equal. change (room_of w') with (mkRoom (sv_sessions (sv w')) (ts_sendQue <$> hp w')). rewrite (proj1 Hrel). f_equal. apply map_eq. intros q.
    rewrite map_lookup_imap, !lookup_fmap. destruct (proj2 Hrel q) as [l E].
    destruct (hp w !! q) as [sq|] eqn:Eq; rewrite E; [|done]. cbn. f_equal.
    pose proof (Hviews q (session_view_of sq)) as Hvq. cbn [view TcpSession_SessionLaws] in Hvq.
    rewrite Hw' in Hvq. specialize (Hvq ltac:(by rewrite Eq)). rewrite E in Hvq. cbn in Hvq.
    injection Hvq as Hvq. apply (f_equal view_outbox) in Hvq. cbn [view_outbox session_view_of] in Hvq.
    rewrite Hvq. assert (Hiff : hears (room_of w) p q ↔
      q ∈ (in_order (sv_sessions (fget w : TcpServer))).*2 ∧ q ≠ p).
    { unfold hears. by rewrite elem_of_map_img, elem_of_listed. }
    destruct (decide (hears (room_of w) p q)) as [Hy|Hn].
    + rewrite decide_True by by apply Hiff. done.
    + rewrite decide_False by (by intros ?%Hiff). done.
Qed.

(** *** Every event is what its label says *)

Lemma room_of_upd p s s' w :
  hp w !! p = Some s → ts_sendQue s' = ts_sendQue s → room_of (upd p s' w) = room_of w.
Proof.
  intros Hs Hq. unfold room_of. rewrite sv_upd. f_equal. unfold upd. rewrite fget_fset, fmap_insert, Hq.
  apply insert_id. by rewrite lookup_fmap, Hs.
Qed.
Lemma room_of_upd_sv v w :
  room_of (upd_sv v w) = mkRoom (sv_sessions v) (outbox (room_of w)).
Proof. unfold room_of. by rewrite sv_upd_sv, hp_upd_sv. Qed.

Lemma handlers_upd p s s' w :
  handlers_ok w → hp w !! p = Some s → ts_messageHandler s' = ts_messageHandler s → handlers_ok (upd p s' w).
Proof.
  intros [Hv Hh] Hs E. split; [by rewrite sv_upd|]. intros q s0 Hq.
  destruct (decide (p = q)) as [<-|]; [|rewrite lookup_upd_ne in Hq by done; by eapply Hh].
  rewrite lookup_upd in Hq. injection Hq as <-. rewrite E. by eapply Hh.
Qed.
Lemma handlers_upd_sv v w :
  handlers_ok w → sv_messageHandler v = sv_messageHandler (sv w) → handlers_ok (upd_sv v w).
Proof. intros [Hv Hh] E. split; [by rewrite sv_upd_sv, E|]. by rewrite hp_upd_sv. Qed.
Lemma handlers_app w w' : handlers_ok w → app_rel w w' → handlers_ok w'.
Proof.
  intros [Hv Hh] [Hsv Hq]. split; [by rewrite Hsv|]. intros p s' Hs'.
  destruct (Hq p) as [ms E]. rewrite E in Hs'. destruct (hp w !! p) as [s|] eqn:Es; [|done].
  injection Hs' as <-. rewrite (pushes_proj ts_messageHandler); [by eapply Hh|].
  intros m s1. apply push_send_handlers.
Qed.

Lemma accept_room error peer uninit w w' :
  server_inv w → handlers_ok w → server_step chat w (Ev_accept error peer uninit) w' →
  room_exec (room_of w) (label_of w (Ev_accept error peer uninit)) = Some (room_of w') ∧ handlers_ok w'.
Proof.
  intros Hinv Hh [[Hne Hm] Hrun]. cbn in Hrun. change (sv_accepts (sv w) ≠ 0%nat) in Hne.
  assert (H1 : sv_accepts (sv w) = 1%nat) by (destruct Hinv as (_ & _ & (_ & _ & _ & _ & ? & _) & _); lia).
  assert (Hdrop : ∀ k, room_of (upd_sv (accept_dropped k (sv w)) w) = room_of w ∧
    handlers_ok (upd_sv (accept_dropped k (sv w)) w)).
  { intros k. by split; [rewrite room_of_upd_sv|apply handlers_upd_sv]. }
  unfold label_of. destruct (is_error error) eqn:He.
  { rewrite accept_error_ok in Hrun by done. injection Hrun as <-. destruct (Hdrop (sv_socket (sv w))) as [-> ?]. done. }
  destruct error; try done. cbn [orb].
  destruct (Z.leb_spec (max_of (sv w)) (Z.of_nat (size (sv_sessions (sv w))))) as [Hfull|Hlt].
  { erewrite accept_full_ok in Hrun; [|done|by apply Hinv|by right]. injection Hrun as <-.
    destruct (Hdrop None) as [-> ?]. done. }
  destruct peer as [ep|].
  2:{ destruct (accept_gone_throws chat uninit w) as [? E]; [done..|]. by rewrite E in Hrun. }
  destruct (accept_quiet ep uninit w) as (id & rest & pool & w1 & s & Hf & Hr & Hv & Hhp & [= Hq _ _ _] & _ & Hmh); [done..|].
  rewrite Hr in Hrun. injection Hrun as <-. rewrite Hf. cbn [default head from_option]. split.
  - unfold room_exec, room_of. cbn [outbox members]. rewrite lookup_fmap.
    replace (hp w !! fresh (dom (hp w))) with (@None TcpSession)
      by (symmetry; apply not_elem_of_dom, is_fresh).
    cbn. rewrite Hhp, fmap_insert, Hq, Hv. done.
  - destruct Hh as [Hvh Hh]. split; [by rewrite Hv|]. intros q s0. rewrite Hhp.
    intros [[_ <-]|[_ ?]]%lookup_insert_Some; [by rewrite Hmh|by eapply Hh].
Qed.

Lemma leave_room_of id s p r w w' :
  call (Some TcpServer_handleClose) (λ h, run_closed (Callbacks := server_callbacks chat) h p r) w = Ok tt w' →
  hp w !! p = Some s → ts_id s = id → handlers_ok w →
  room_exec (room_of w) (L_leave id) = Some (room_of w') ∧ handlers_ok w'.
Proof.
  intros Hrun Hs <- Hh. cbn [call] in Hrun. change (run_closed TcpServer_handleClose p r) with (handleClose chat p r) in Hrun.
  rewrite (close_quiet p r s w Hs) in Hrun. injection Hrun as <-. split.
  - by rewrite room_of_upd_sv.
  - by apply handlers_upd_sv.
Qed.

Lemma read_room p ec bs w w' :
  server_inv w → handlers_ok w → server_step chat w (Ev_read p ec bs) w' →
  room_exec (room_of w) (label_of w (Ev_read p ec bs)) = Some (room_of w') ∧ handlers_ok w'.
Proof.
  intros Hinv Hh [He Hrun]. cbn in Hrun.
  destruct (read_cases chat p ec bs w w' Hinv He Hrun)
    as (s & m & t & size & rest & Hs & Hsi & Hti & Htn & Hr & Hc).
  unfold label_of. rewrite Hs, Hr. cbn [head].
  destruct Hc as [[-> ->]|[[-> ->]|[([-> Herr] & -> & Hcall)|[(-> & Herr & Hst) Hcall]]]].
  - rewrite (room_of_upd p s) by done. split; [done|]. by apply (handlers_upd p s).
  - rewrite (room_of_upd p s) by done. split; [done|]. by apply (handlers_upd p s).
  - rewrite Herr. rewrite <- (room_of_upd p s (took_read (ts_msg s) s) w) by done.
    destruct Hsi as (_ & _ & _ & _ & Hcl). rewrite Hcl in Hcall.
    by eapply (leave_room_of _ (took_read (ts_msg s) s)); [exact Hcall|apply lookup_upd| |apply (handlers_upd p s)].
  - rewrite Herr, Hst. set (s2 := set_rx _ _) in Hcall. set (w1 := upd p s2 w) in *.
    assert (Hs2 : hp w1 !! p = Some s2) by apply lookup_upd.
    assert (Hinv1 : server_inv w1) by (by apply (server_inv_upd p s); [..|apply set_rx_inv|]).
    assert (Hh1 : handlers_ok w1) by by apply (handlers_upd p s).
    rewrite <- (room_of_upd p s s2 w) by done. fold w1.
    rewrite (proj2 Hh p s Hs) in Hcall. cbn [call] in Hcall. unfold mbind, M_bind in Hcall.
    change (run_message ChatServer_message p) with (messageHandler (W := W) (Ctx := Ctx) p) in Hcall.
    destruct (messageHandler p w1) as [[] w2| |] eqn:Em; [|done..].
    pose proof (message_says p s2 w1 w2 Hinv1 Hs2 ltac:(apply Hti) Em) as Hsay.
    pose proof (keeps_messageHandler p _ _ _ Em) as Hrel.
    destruct (proj2 Hrel p) as [ms E]. rewrite Hs2 in E. cbn in E.
    unfold TcpSession_read, async_read_some in Hcall. erewrite assign_ok in Hcall by exact E.
    injection Hcall as <-. erewrite room_of_upd by done. split; [exact Hsay|].
    eapply handlers_upd; [by eapply handlers_app|exact E|done].
Qed.

Lemma write_room p ec n w w' :
  server_inv w → handlers_ok w → server_step chat w (Ev_write p ec n) w' →
  room_exec (room_of w) (label_of w (Ev_write p ec n)) = Some (room_of w') ∧ handlers_ok w'.
Proof.
  intros Hinv Hh [He Hrun]. cbn in Hrun.
  destruct (write_cases chat p ec n w w' Hinv He Hrun)
    as (s & bs & m & rest & Hs & Hsi & Hq & [[Herr ->]|[Herr Hcall]]); unfold label_of; rewrite Hs, Herr.
  - split; [|by apply (handlers_upd p s); [..|unfold write_done; destruct rest]].
    unfold room_exec. cbn [outbox room_of]. rewrite lookup_fmap, Hs. cbn. rewrite Hq. f_equal.
    unfold room_of. rewrite sv_upd. f_equal. unfold upd. rewrite fget_fset, fmap_insert. f_equal.
    unfold write_done. by destruct rest.
  - rewrite <- (room_of_upd p s (write_failed bs s) w) by done.
    destruct Hsi as (_ & _ & _ & _ & Hcl). rewrite Hcl in Hcall.
    by eapply (leave_room_of _ (write_failed bs s)); [exact Hcall|apply lookup_upd| |apply (handlers_upd p s)].
Qed.

Lemma chat_step_room w e w' :
  chat_running w → server_step chat w e w' →
  room_exec (room_of w) (label_of w e) = Some (room_of w') ∧ chat_running w'.
Proof.
  intros [Hrn Hh] Hst. pose proof (running_inv chat w Hrn) as Hinv.
  assert (room_exec (room_of w) (label_of w e) = Some (room_of w') ∧ handlers_ok w') as [Hx Hh'].
  { destruct e; [by apply accept_room|by apply read_room|by apply write_room]. }
  split; [done|]. split; [by eapply running_step|done].
Qed.

Lemma behaves_room w ls w' :
  chat_running w → behaves w ls w' → room_run (room_of w) ls = Some (room_of w') ∧ chat_running w'.
Proof.
  intros Hw. induction 1 as [|ls w1 e w' _ [IH Hw1] Hst]; [done|].
  destruct (chat_step_room w1 e w' Hw1 Hst) as [Hx Hw']. split; [|done].
  by eapply room_run_snoc.
Qed.

(** ** Properties *)

(** C8: the chat server implements the room.  A new chat server that reaches redis
    starts as an empty room, and every execution from there - any order of
    accepts, reads and writes, with any bytes and any errors the network may
    deliver - is an execution of the room in which each event does exactly what
    its label says: a connection below capacity joins under the first free id,
    an error on a body read or on a write makes an id leave, a completed
    notification is said to all other members, a completed write is one message
    sent, and every other event is silent. *)
Theorem chat_refines_room ip port a name config v0 c w :
  TcpServer_new name config = Val v0 → in_u 64 (sc_maxSession config) →
  sc_maxSession config < 2 ^ 31 → 0 < sc_threadCount config →
  (∃ k pool, getIoService (sv_ioServicePool v0) = Val (k, pool) ∧
     sv w = sv_set_pool (λ _, pool) v0) →
  hp w = ∅ → redisConnect ip (port_ (fget w : Redis Ctx)) = Some c → ctx_err c = false →
  ∃ w0, chat_start (Ctx := Ctx) ip port (Some a) true w = Ok tt w0 ∧
    room_of w0 = mkRoom ∅ ∅ ∧ chat_running w0 ∧
    ∀ ls w', behaves w0 ls w' → room_run (mkRoom ∅ ∅) ls = Some (room_of w').
Proof.
  intros Hnew Hu Hmax Hth Hsv Hh Hc Herr.
  destruct (proj2 (chat_start_spec ip port a name config v0 w Hnew Hu Hmax Hth Hsv Hh) c Hc Herr)
    as (w0 & Hr & Hrn & Hh0 & Hs0 & _ & _ & Hm & _).
  assert (E : room_of w0 = mkRoom ∅ ∅) by (unfold room_of; by rewrite Hs0, Hh0, fmap_empty).
  assert (Hw0 : chat_running w0) by (split; [done|split; [done|by rewrite Hh0]]).
  exists w0. split_and!; [done..|]. intros ls w' Hb. rewrite <- E. by apply behaves_room.
Qed.

(** C9: what a session is sent.  Over any execution of a running chat server,
    what was queued for a session at the start followed by what the others
    have said while it was listed is what has been sent to it followed by what
    is queued at the end: nothing is lost, duplicated or reordered, nothing is
    made up, and nothing it says itself comes back. *)
Theorem chat_delivers_what_is_said w ls w' q s :
  chat_running w → behaves w ls w' → hp w !! q = Some s →
  ∃ s', hp w' !! q = Some s' ∧
    ts_sendQue s ++ heard q (room_of w) ls = sent_over q (room_of w) ls ++ ts_sendQue s'.
Proof.
  intros Hw Hb Hs. destruct (behaves_room w ls w' Hw Hb) as [Hrun _].
  destruct (room_history _ ls _ q (ts_sendQue s) Hrun) as (b' & Hb' & E); [cbn; by rewrite lookup_fmap, Hs|].
  cbn in Hb'. rewrite lookup_fmap in Hb'. destruct (hp w' !! q) as [s'|]; [|done].
  injection Hb' as <-. by exists s'.
Qed.
End Refinement.

(** ** Instances at concrete inputs *)

(** Session 0 sends its header and its body, and the message is written to session 1. *)
Definition say_header : server_event := Ev_read 0%nat Success [1; 0; 3; 0; 3; 0; 0; 0].
Definition say_body : server_event := Ev_read 0%nat Success [104; 105; 0].
Definition say_written : server_event := Ev_write 1%nat Success 11.

Definition next_world (e : server_event) (w : chat_world) : chat_world := after (server_run demo_chat e w) w.
Definition said1 : chat_world := next_world say_header chat2.
Definition said2 : chat_world := next_world say_body said1.
Definition said3 : chat_world := next_world say_written said2.
Definition chat_entry (w : chat_world) (p : ptr) : TcpSession :=
  match cw_sessions w !! p with Some s => s | None => demo_entry 0 end.

Lemma read_step (w : chat_world) p bs t size rest :
  hp w !! p = Some (chat_entry w p) → sk_reads (ts_socket (chat_entry w p)) = (t, size) :: rest →
  Forall byte_ok bs → bs ≠ [] → Z.of_nat (length bs) <= size →
  server_run demo_chat (Ev_read p Success bs) w = Ok tt (next_world (Ev_read p Success bs) w) →
  server_step demo_chat w (Ev_read p Success bs) (next_world (Ev_read p Success bs) w).
Proof.
  intros Hs Hr Hb Hne Hl Hrun. split; [|exact Hrun]. eexists. split; [exact Hs|].
  exists t, size, rest. by split_and!.
Qed.

Lemma said_step1 : server_step demo_chat chat2 say_header said1.
Proof.
  eapply read_step; [vm_compute; reflexivity|vm_compute; reflexivity
    |apply (bool_decide_unpack _); vm_compute; exact I|done|vm_compute; congruence|vm_compute; reflexivity].
Qed.
Lemma said_step2 : server_step demo_chat said1 say_body said2.
Proof.
  eapply read_step; [vm_compute; reflexivity|vm_compute; reflexivity
    |apply (bool_decide_unpack _); vm_compute; exact I|done|vm_compute; congruence|vm_compute; reflexivity].
Qed.
Lemma said_step3 : server_step demo_chat said2 say_written said3.
Proof.
  split; [|vm_compute; reflexivity]. exists (chat_entry said2 1%nat). split; [vm_compute; reflexivity|].
  exists 11, []. split_and!; [vm_compute; reflexivity|lia|lia|done].
Qed.

Lemma said_behaves :
  behaves (W := chat_world) (Ctx := nat) chat2
    [label_of chat2 say_header; label_of said1 say_body; label_of said2 say_written] said3.
Proof.
  exact (behaves_step _ [_; _] said2 say_written _ (behaves_step _ [_] said1 say_body _
    (behaves_step _ [] chat2 say_header _ (behaves_refl _) said_step1) said_step2) said_step3).
Qed.

Lemma chat_running_of (w : chat_world) :
  running demo_chat w → sv_messageHandler (sv w) = Some ChatServer_message →
  bool_decide (map_Forall (λ _ s, ts_messageHandler s = Some ChatServer_message) (cw_sessions w)) = true →
  chat_running (Ctx := nat) w.
Proof.
  intros Hr Hv Hall%bool_decide_eq_true. split; [exact Hr|]. split; [exact Hv|]. intros p s Hs. exact (Hall p s Hs).
Qed.
Lemma chat2_room : chat_running (W := chat_world) (Ctx := nat) chat2.
Proof. apply chat_running_of; [exact chat2_running|vm_compute; reflexivity..]. Qed.

Definition said_labels : list room_label :=
  [label_of chat2 say_header; label_of said1 say_body; label_of said2 say_written].

Lemma chat_delivers_what_is_said_witness :
  ∃ s', hp said3 !! 1%nat = Some s' ∧
    ts_sendQue (chat_entry chat2 1%nat) ++ heard 1%nat (room_of chat2) said_labels =
      sent_over 1%nat (room_of chat2) said_labels ++ ts_sendQue s' ∧
    (frame <$> heard 1%nat (room_of chat2) said_labels) = [[1; 0; 3; 0; 3; 0; 0; 0; 104; 105; 0]].
Proof.
  destruct (chat_delivers_what_is_said (W := chat_world) (Ctx := nat) chat2 said_labels said3 1%nat
    (chat_entry chat2 1%nat) chat2_room said_behaves) as (s' & Hs & E).
  - vm_compute. reflexivity.
  - exists s'. split; [exact Hs|]. split; [exact E|]. vm_compute. reflexivity.
Defined.

Lemma chat_refines_room_witness :
  ∃ w0, chat_start "127.0.0.1" 20000 (Some "127.0.0.1"%string) true chat0 = Ok tt w0 ∧
    room_of w0 = mkRoom ∅ ∅ ∧
    ∀ ls w', behaves (W := chat_world) (Ctx := nat) w0 ls w' → room_run (mkRoom ∅ ∅) ls = Some (room_of w').
Proof.
  destruct (chat_refines_room (W := chat_world) (Ctx := nat) "127.0.0.1" 20000 "127.0.0.1" "chat" demo_config
    (mkTcpServer "chat" demo_config Server_Ready (IoServicePool_new 1) [1; 2; 3; 4] ∅ None None None None None 0)
    0%nat chat0) as (w0 & Hr & He & _ & Hb).
  - vm_compute. reflexivity.
  - vm_compute. split; congruence.
  - vm_compute. reflexivity.
  - vm_compute. reflexivity.
  - eexists _, _. split; vm_compute; reflexivity.
  - vm_compute. reflexivity.
  - reflexivity.
  - reflexivity.
  - exists w0. split; [exact Hr|]. split; [exact He|exact Hb].
Defined.
