(* ===== verification/ChatRelay.v ===== *)
(** * End to end: what one client writes, the others are sent

    The bytes of chat messages arriving at one session of the chat server, and
    the frames queued for the others, through the receive path (TcpRecv), the
    chat handlers (ChatServer) and the send path (TcpSend). *)
From S2P Require Import Prelude Config Msg Session TcpSession TcpSend TcpRecv IoServicePool TcpServer ServerInv ServerProps Redis ChatServer ChatProps.

(** ** Texts *)

(** A frame the chat server relays: an acceptable notification whose text ends
    within its announced length. *)
Definition chat_text (m : Msg) : option nat := strlen (take (Z.to_nat (bodyLength m)) (msg_body m)).
Definition relayable (m : Msg) : Prop :=
  acceptable m ∧ hdr_msgId (msg_hdr m) = MsgId_val NF_MESSAGE ∧ is_Some (chat_text m).

#[export] Instance relayable_dec m : Decision (relayable m).
Proof. unfold relayable. apply _. Defined.

Lemma strlen_app_l l1 l2 n : strlen l1 = Some n → strlen (l1 ++ l2) = Some n.
Proof.
  revert n. induction l1 as [|b l1 IH]; intros n; cbn; [done|].
  destruct (b =? 0); [done|]. destruct (strlen l1) as [k|]; cbn; [|done].
  intros [= <-]. by rewrite (IH k).
Qed.

Lemma strlen_app_r l1 l2 : no_nul l1 → strlen (l1 ++ l2) = Nat.add (length l1) <$> strlen l2.
Proof.
  induction 1 as [|b l1 Hb _ IH]; cbn; [by destruct (strlen l2)|].
  destruct (Z.eqb_spec b 0); [done|]. rewrite IH. by destruct (strlen l2).
Qed.

Lemma strlen_received m old :
  strlen (msg_body (received m old)) =
  strlen (take (Z.to_nat (bodyLength m)) (msg_body m) ++
          drop (length (take (Z.to_nat (bodyLength m)) (msg_body m))) (msg_body old)).
Proof. unfold received, splice. cbn [msg_body]. by rewrite take_0, app_nil_l, Nat.add_0_l. Qed.

Lemma chat_text_received m old n :
  chat_text m = Some n → strlen (msg_body (received m old)) = Some n.
Proof. intros Hn. rewrite strlen_received. by apply strlen_app_l. Qed.

Section Relay.
Context {W : Type} {Ctx : Type} `{HR : !Hiredis Ctx}.
Context `{FH : !Field W heap} `{FS : !Field W TcpServer} `{FR : !Field W (Redis Ctx)}.
Context `{SEP : !Separate FS FH} `{SRH : !Separate FR FH} `{SRS : !Separate FR FS}.
Implicit Types (w : W) (s : TcpSession) (p q : ptr).

Abbreviation chat := (chat_callbacks (W := W) (Ctx := Ctx)).

Definition frames s : list (list Z) := frame <$> ts_sendQue s.

(** The redis commands a run of messages from the session with id [id] causes. *)
Definition score_cmds (id : Z) (ms : list Msg) : list string :=
  (λ m, score_cmd (i32 (Z.of_nat (default 0%nat (chat_text m)))) id) <$> ms.

(** What holds after the messages [done] of session [p], started from [w0]:
    every other session has had messages pushed on its queue and is otherwise
    unchanged; a listed one those with the frames of [done]. *)
Definition relayed w0 p (id : Z) (done : list Msg) w : Prop :=
  sv w = sv w0 ∧
  (∀ q s0, hp w0 !! q = Some s0 → ∃ s, hp w !! q = Some s ∧ ts_id s = ts_id s0 ∧
     (q ≠ p → ∃ l, s = pushes l s0 ∧ Forall sendable l ∧
        frame <$> l = if decide (q ∈ (in_order (sv_sessions (sv w0))).*2) then frame <$> done else [])) ∧
  (∀ c, context_ (fget w0 : Redis Ctx) = Some c →
     context_ (fget w : Redis Ctx) = Some (ctx_after c (score_cmds id done))).

Lemma ctx_after_app c l1 l2 : ctx_after c (l1 ++ l2) = ctx_after (ctx_after c l1) l2.
Proof. revert c. induction l1; intros c; cbn; auto. Qed.

Lemma messageHandler_nf p s w :
  hp w !! p = Some s → hdr_msgId (msg_hdr (ts_msg s)) = MsgId_val NF_MESSAGE →
  messageHandler (Ctx := Ctx) p w = nfMessage p w.
Proof.
  intros Hs Hid. unfold messageHandler. cbn [getMsg getID TcpSession_Session].
  unfold TcpSession_getMsg, TcpSession_getID. sess_run. by rewrite Hid.
Qed.

Lemma relay_deliver w0 p s0 done m rest all old s w :
  server_inv w0 → hp w0 !! p = Some s0 →
  Forall relayable all → all = done ++ m :: rest →
  relayed w0 p (ts_id s0) done w → hp w !! p = Some s → msg_ok old → ts_msg s = received m old →
  ∃ w' l, messageHandler (Ctx := Ctx) p w = Ok tt w' ∧
    relayed w0 p (ts_id s0) (done ++ [m]) w' ∧ hp w' !! p = Some (pushes l s).
Proof.
  intros Hw0 Hs0 Hall Eall (Hsv & Hq & Hc) Hs Hold Hm.
  assert (relayable m) as (Hacc & Hid & n & Hn).
  { apply (proj1 (Forall_forall _ all) Hall). rewrite Eall. apply elem_of_app. right. by left. }
  assert (Hl : listed_ok (H := heap) w).
  { intros k q Hk. change (sv_sessions (sv w) !! k = Some q) in Hk. rewrite Hsv in Hk.
    destruct (proj1 (proj1 (proj2 Hw0)) k q Hk) as (s1 & Hs1 & <-).
    destruct (Hq q s1 Hs1) as (s2 & Hs2 & Hid2 & _). exists (session_view_of s2).
    cbn. rewrite Hs2. by split. }
  assert (Hv : view w p = Some (session_view_of s)) by (cbn; by rewrite Hs).
  assert (Hstr : strlen (msg_body (view_msg (session_view_of s))) = Some n)
    by (cbn; rewrite Hm; by apply chat_text_received).
  destruct (nfMessage_run p _ n w Hv Hstr Hl) as (b & r & h & Hsend & Hrun & Hviews).
  assert (Hrun' : messageHandler (Ctx := Ctx) p w = Ok tt (fset h (fset r w))).
  { rewrite (messageHandler_nf p s w Hs); [exact Hrun|]. by rewrite Hm. }
  pose proof (keeps_messageHandler p _ _ _ Hrun') as [Hsv' Hpush].
  destruct (Hpush p) as [l El]. rewrite Hs in El. cbn [fmap option_fmap option_map] in El.
  exists (fset h (fset r w)), l. split_and!; [done| |done]. split_and!.
  - by rewrite Hsv', Hsv.
  - intros q s1 Hs1. destruct (Hq q s1 Hs1) as (s2 & Hs2 & Hid2 & Hf2).
    pose proof (Hviews q (session_view_of s2)) as Hvq. cbn [view TcpSession_SessionLaws] in Hvq.
    specialize (Hvq ltac:(by rewrite Hs2)).
    destruct (Hpush q) as [l3 E3]. rewrite Hs2 in E3. cbn [fmap option_fmap option_map] in E3.
    rewrite E3 in Hvq. injection Hvq as Hvq.
    exists (pushes l3 s2). split_and!; [done|by rewrite (pushes_proj ts_id) by apply push_send_id|].
    intros Hne. destruct (Hf2 Hne) as (l2 & -> & Hl2 & Hfr2). exists (l2 ++ l3).
    rewrite pushes_app. split; [done|]. apply (f_equal view_outbox) in Hvq. revert Hvq.
    change (fget w : TcpServer) with (sv w). rewrite Hsv.
    destruct (decide (q ∈ (in_order (sv_sessions (sv w0))).*2)) as [Hin|Hnin].
    + rewrite decide_True by done. cbn [session_view_of view_push view_outbox view_msg].
      rewrite !pushes_queue, <- !app_assoc. intros [= ->%app_inv_head%app_inv_head].
      split; [apply Forall_app_2; [done|]; constructor; [|constructor]|].
      * cbn. rewrite Hm. by apply sendable_received; [apply Hacc|].
      * rewrite !fmap_app, Hfr2. cbn. by rewrite Hm, frame_received by apply Hacc.
    + rewrite decide_False by (by intros [? _]). cbn [session_view_of view_outbox].
      rewrite !pushes_queue. intros E. rewrite <- app_assoc in E. apply app_inv_head in E.
      assert (l3 = []) as -> by (apply (f_equal length) in E; rewrite length_app in E; apply length_zero_iff_nil; lia).
      by rewrite app_nil_r.
  - intros c Hc0. specialize (Hc c Hc0). rewrite (Redis_send_run _ _ w Hc) in Hsend.
    injection Hsend as _ E. rewrite (fget_fset_sep (Separate := SRH)), <- E, fget_fset. cbn.
    unfold score_cmds. rewrite fmap_app, ctx_after_app. cbn. rewrite Hn. cbn.
    destruct (Hq p s0 Hs0) as (s' & Hs' & Hid' & _). simplify_eq. by rewrite Hid'.
Qed.

Lemma relayed_upd w0 p id done s s' w :
  relayed w0 p id done w → hp w !! p = Some s → ts_id s' = ts_id s →
  relayed w0 p id done (upd p s' w).
Proof.
  intros (Hsv & Hq & Hc) Hs Hid. split_and!.
  - by rewrite sv_upd.
  - intros q s0 Hs0. destruct (Hq q s0 Hs0) as (s1 & Hs1 & Hid1 & Hf1).
    destruct (decide (p = q)) as [<-|Hne].
    + exists s'. rewrite lookup_upd. simplify_eq. split_and!; [done|congruence|done].
    + exists s1. by rewrite lookup_upd_ne.
  - intros c Hc0. rewrite (upd_sep FR) by done. by apply Hc.
Qed.

(** Reading a stream of notifications, with what it leaves in [relayed]. *)
Lemma relay_stream w p s ms :
  running chat w → hp w !! p = Some s → waiting_header s →
  ts_messageHandler s = Some ChatServer_message → ts_rx s = u64 (ts_rx s) →
  Forall relayable ms →
  ∃ w' s', pump (CB := server_callbacks chat) (whole_reads ms) p (wire ms) w = Ok [] w' ∧
    relayed w p (ts_id s) ms w' ∧ hp w' !! p = Some s' ∧ waiting_header s'.
Proof.
  intros Hrn Hs Hwh Hh Hrx Hms. pose proof (running_inv chat w Hrn) as Hw.
  assert (Hacc : Forall acceptable ms) by (eapply Forall_impl; [done|by intros m [? _]]).
  assert (Hok : msg_ok (ts_msg s)) by apply (session_at _ _ _ Hw Hs).
  destruct (pump_delivers (CB := server_callbacks chat) (relayed w p (ts_id s)) p ChatServer_message ms)
    with (ms := ms) (done := @nil Msg) (s := s) (w := w)
    as (w' & s' & Hp & Hrel & Hs' & Hwh' & _); try done.
  - intros done m rest old s1 w1 Eall Hrel Hs1 Hold Hm _.
    destruct (relay_deliver w p s done m rest ms old s1 w1 Hw Hs Hms Eall Hrel Hs1 Hold Hm)
      as (w2 & l & Hrun & Hrel2 & Hs2). by exists w2, l.
  - intros done s1 s1' w1. apply relayed_upd.
  - split_and!; [done| |done]. intros q s0 Hs0. exists s0. split_and!; [done..|]. intros _.
    exists []. split_and!; [done|constructor|]. by destruct (decide _).
  - by exists w', s'.
Qed.

(** ** Properties *)

End Relay.

(** ** Instance at a concrete input *)

Definition chat_session (w : chat_world) (p : ptr) : TcpSession :=
  match cw_sessions w !! p with Some s => s | None => demo_entry 0 end.

Lemma hello_bye_relayable : Forall relayable [hello; bye].
Proof. apply (bool_decide_unpack _). vm_compute. exact I. Qed.

