(* ===== verification/ChatFaults.v ===== *)
(** * Commands, dispatch and the inputs the chat server does not survive

    The exact redis commands, what each message id does, and the messages that
    break the relay: unterminated texts, short texts, negative lengths. *)
From Stdlib Require Import Ascii.
From S2P Require Import Prelude Config Msg Session TcpSession TcpSend TcpRecv IoServicePool TcpServer ServerInv ServerProps Redis ChatServer ChatProps ChatRelay.

(** ** The words of a command *)

Local Open Scope string_scope.

(** The arguments [redisCommand] makes of a command without conversions: the
    pieces between spaces. *)
Fixpoint words (s : string) : list string :=
  match s with
  | EmptyString => [EmptyString]
  | String a s =>
      if decide (a = " "%char) then EmptyString :: words s
      else match words s with w :: ws => String a w :: ws | [] => [] end
  end.

Fixpoint has_char (c : Ascii.ascii) (s : string) : bool :=
  match s with
  | EmptyString => false
  | String a s => bool_decide (a = c) || has_char c s
  end.

Lemma has_char_app c s1 s2 : has_char c (s1 +:+ s2) = has_char c s1 || has_char c s2.
Proof. induction s1 as [|a s1 IH]; simpl; [done|]. by rewrite IH, orb_assoc. Qed.

Lemma words_plain s : has_char " "%char s = false → words s = [s].
Proof.
  induction s as [|a s IH]; simpl; [done|]. intros [Ha Hs]%orb_false_elim.
  rewrite decide_False by (by apply bool_decide_eq_false in Ha). by rewrite IH.
Qed.

Lemma words_app s1 s2 : has_char " "%char s1 = false → words (s1 +:+ String " "%char s2) = s1 :: words s2.
Proof.
  induction s1 as [|a s IH]; simpl; [done|]. intros [Ha Hs]%orb_false_elim.
  rewrite decide_False by (by apply bool_decide_eq_false in Ha). by rewrite IH.
Qed.

(** A decimal number has neither spaces nor conversions. *)
Lemma pretty_N_go_chars c x s :
  (∀ d, pretty_N_char d ≠ c) → has_char c (pretty_N_go x s) = has_char c s.
Proof.
  intros Hc. revert s. induction (N.lt_wf_0 x) as [x _ IH]; intros s.
  destruct (decide (0 < x)%N) as [Hx|Hx].
  - rewrite pretty_N_go_step by done. rewrite IH by (apply N.div_lt; lia). cbn.
    by rewrite bool_decide_eq_false_2 by apply Hc.
  - replace x with 0%N by lia. by rewrite pretty_N_go_0.
Qed.

Lemma to_string_chars c z :
  (∀ d, pretty_N_char d ≠ c) → c ≠ "-"%char → has_char c (to_string z) = false.
Proof.
  intros Hc Hm.
  assert (H1 : ∀ a s, a ≠ c → has_char c (String a s) = has_char c s).
  { intros a s Ha. change (has_char c (String a s)) with (bool_decide (a = c) || has_char c s).
    by rewrite bool_decide_eq_false_2. }
  assert (H0 : has_char c "0" = false) by (by rewrite H1 by apply (Hc 0%N)).
  assert (HN : ∀ x : N, has_char c (pretty x) = false).
  { intros x. unfold pretty, pretty_N. destruct (decide (x = 0)%N); [done|].
    by rewrite pretty_N_go_chars. }
  unfold to_string. destruct z as [|x|x]; [done|apply HN|].
  change (has_char c (String "-" (pretty (Npos x))) = false). by rewrite H1.
Qed.

Lemma to_string_no_space z : has_char " "%char (to_string z) = false.
Proof. apply to_string_chars; [|done]. intros d. unfold pretty_N_char. by repeat case_match. Qed.
Lemma to_string_no_percent z : has_char "%"%char (to_string z) = false.
Proof. apply to_string_chars; [|done]. intros d. unfold pretty_N_char. by repeat case_match. Qed.

Lemma to_string_inj z1 z2 : to_string z1 = to_string z2 → z1 = z2.
Proof. unfold to_string. apply (inj (pretty : Z → string)). Qed.

Lemma score_cmd_words n id :
  words (score_cmd n id) = ["zincrby"; "user:ranking"; to_string n; "session_" +:+ to_string id].
Proof.
  unfold score_cmd.
  change ("zincrby user:ranking " +:+ to_string n +:+ " session_" +:+ to_string id) with
    ("zincrby" +:+ String " " ("user:ranking" +:+ String " "
       (to_string n +:+ String " " ("session_" +:+ to_string id)))).
  rewrite words_app by done. rewrite words_app by done.
  rewrite words_app by apply to_string_no_space.
  rewrite words_plain by (rewrite has_char_app; by rewrite to_string_no_space). done.
Qed.

Lemma user_cmd_words id :
  words (user_cmd id) = ["zadd"; "user:ranking"; "0"; "session_" +:+ to_string id].
Proof.
  unfold user_cmd.
  change ("zadd user:ranking 0 session_" +:+ to_string id) with
    ("zadd" +:+ String " " ("user:ranking" +:+ String " " ("0" +:+ String " " ("session_" +:+ to_string id)))).
  rewrite !words_app by done.
  rewrite words_plain by (rewrite has_char_app; by rewrite to_string_no_space). done.
Qed.

(** nothing a client sends can change the shape of a redis command.  Every
    command has exactly four arguments, names the session by its id and
    contains no conversion of [redisCommand]'s format language; the score
    command determines the amount and the session it counts for. *)
Theorem redis_commands_well_formed :
  (∀ n id,
     words (score_cmd n id) = ["zincrby"; "user:ranking"; to_string n; "session_" +:+ to_string id] ∧
     has_char "%"%char (score_cmd n id) = false) ∧
  (∀ id,
     words (user_cmd id) = ["zadd"; "user:ranking"; "0"; "session_" +:+ to_string id] ∧
     has_char "%"%char (user_cmd id) = false) ∧
  (∀ n1 id1 n2 id2, score_cmd n1 id1 = score_cmd n2 id2 ↔ n1 = n2 ∧ id1 = id2) ∧
  (∀ id1 id2, user_cmd id1 = user_cmd id2 ↔ id1 = id2).
Proof.
  split_and!.
  - intros n id. split; [apply score_cmd_words|]. unfold score_cmd.
    rewrite !has_char_app, !to_string_no_percent. done.
  - intros id. split; [apply user_cmd_words|]. unfold user_cmd.
    by rewrite has_char_app, to_string_no_percent.
  - intros n1 id1 n2 id2. split; [|by intros [-> ->]]. intros E.
    pose proof (score_cmd_words n1 id1) as H1. rewrite E, score_cmd_words in H1.
    injection H1 as Hn Hi. by rewrite (to_string_inj _ _ Hn), (to_string_inj _ _ Hi).
  - intros id1 id2. split; [|by intros ->]. intros E.
    pose proof (user_cmd_words id1) as H1. rewrite E, user_cmd_words in H1.
    injection H1 as Hi. by apply to_string_inj.
Qed.

Local Close Scope string_scope.

Section Faults.
Context {W : Type} {Ctx : Type} `{HR : !Hiredis Ctx}.
Context `{FH : !Field W heap} `{FS : !Field W TcpServer} `{FR : !Field W (Redis Ctx)}.
Context `{SEP : !Separate FS FH} `{SRH : !Separate FR FH} `{SRS : !Separate FR FS}.
Implicit Types (w : W) (s : TcpSession) (p q : ptr).

Abbreviation chat := (chat_callbacks (W := W) (Ctx := Ctx)).

Lemma messageHandler_ok p s w :
  hp w !! p = Some s →
  messageHandler (Ctx := Ctx) p w =
    (if i32 (hdr_msgId (msg_hdr (ts_msg s))) =? MsgId_val RQ_CREATE_USER then rqCreateUser p
     else if i32 (hdr_msgId (msg_hdr (ts_msg s))) =? MsgId_val NF_MESSAGE then nfMessage p
     else mret tt) w.
Proof.
  intros Hs. unfold messageHandler. cbn [getMsg getID TcpSession_Session].
  unfold TcpSession_getMsg, TcpSession_getID. by sess_run.
Qed.

Lemma rqCreateUser_ok p s w :
  hp w !! p = Some s →
  rqCreateUser (Ctx := Ctx) p w =
    match strlen (msg_body (ts_msg s)) with
    | None => Undef UB_unterminated
    | Some _ => (Redis_send (user_cmd (ts_id s)) ;; mret tt) w
    end.
Proof.
  intros Hs. unfold rqCreateUser. cbn [getMsg getID TcpSession_Session].
  unfold TcpSession_getMsg, TcpSession_getID. sess_run.
  destruct (strlen (msg_body (ts_msg s))); [|done]. by sess_run.
Qed.

Lemma nfMessage_unterminated p s w :
  hp w !! p = Some s → strlen (msg_body (ts_msg s)) = None →
  nfMessage (Ctx := Ctx) p w = Undef UB_unterminated.
Proof.
  intros Hs Hn. unfold nfMessage. cbn [getMsg getID TcpSession_Session].
  unfold TcpSession_getMsg. sess_run. by rewrite Hn.
Qed.

(** what each message id does.  [RQ_CREATE_USER] with a terminated id sends
    redis the one command that enters the session in the ranking and touches
    nothing else; every id other than that and [NF_MESSAGE] is ignored. *)
Theorem messageHandler_dispatch p s w :
  hp w !! p = Some s →
  let id := i32 (hdr_msgId (msg_hdr (ts_msg s))) in
  (id = 1 → is_Some (strlen (msg_body (ts_msg s))) →
     ∃ r : Redis Ctx, messageHandler (Ctx := Ctx) p w = Ok tt (fset r w) ∧
       ∀ c, context_ (fget w : Redis Ctx) = Some c →
         context_ r = Some (redisCommand c (user_cmd (ts_id s))).2) ∧
  (id = 3 → messageHandler (Ctx := Ctx) p w = nfMessage (Ctx := Ctx) p w) ∧
  (id ≠ 1 → id ≠ 3 → messageHandler (Ctx := Ctx) p w = Ok tt w).
Proof.
  intros Hs id. rewrite (messageHandler_ok p s w Hs). fold id. cbn [MsgId_val]. split_and!.
  - intros -> [n Hn]. cbn [Z.eqb Pos.eqb]. rewrite (rqCreateUser_ok p s w Hs), Hn.
    destruct (Redis_send_ok (user_cmd (ts_id s)) w) as (b & r & Hr). exists r.
    split; [by erewrite bind_ok by exact Hr|]. intros c Hc.
    rewrite (Redis_send_run _ c w Hc) in Hr. injection Hr as _ E.
    assert (Er : r = sent (user_cmd (ts_id s)) c (fget w)).
    { rewrite <- (fget_fset (Field := FR) r w), <- E. apply fget_fset. }
    by rewrite Er.
  - by intros ->.
  - intros H1 H3. destruct (Z.eqb_spec id 1); [done|]. by destruct (Z.eqb_spec id 3).
Qed.

(** one message can bring the server down.  On any session of a running chat
    server that has announced a full body for a known message id, a body of
    1024 bytes without a zero is an input the connection may deliver, and the
    handler's string functions run past the object. *)
Theorem unterminated_text_undefined w p s bs :
  running chat w → hp w !! p = Some s → waiting_body s →
  bodyLength (ts_msg s) = MAX_CP_MSG_DATA →
  hdr_msgId (msg_hdr (ts_msg s)) = MsgId_val RQ_CREATE_USER ∨
    hdr_msgId (msg_hdr (ts_msg s)) = MsgId_val NF_MESSAGE →
  ts_messageHandler s = Some ChatServer_message →
  length bs = Z.to_nat MAX_CP_MSG_DATA → Forall byte_ok bs → no_nul bs →
  enabled w (Ev_read p Success bs) ∧
  server_run chat (Ev_read p Success bs) w = Undef UB_unterminated.
Proof.
  intros Hrn Hs Hwb Hbl Hid Hh Hlen Hbs Hnul.
  pose proof (running_inv chat w Hrn) as Hw. destruct (session_at _ _ _ Hw Hs) as [Hsi _].
  split.
  - exists s. split; [done|]. exists RdBody, (size_t (bodyLength (ts_msg s))), [].
    split_and!; [done|done| |done|by intros _ _ ->].
    rewrite Hbl, Hlen. vm_compute. congruence.
  - cbn. erewrite complete_body_ok; [|done|exact Hwb|apply store_body; [apply Hsi|lia]].
    set (m := mkMsg _ _). rewrite Hh. cbn [call].
    set (s1 := set_rx _ _). unfold mbind, M_bind.
    assert (Hm : ts_msg s1 = m) by (by destruct s).
    assert (Hn : strlen (msg_body (ts_msg s1)) = None).
    { rewrite Hm. apply strlen_None. unfold m. cbn [msg_body]. unfold splice.
      rewrite take_0, app_nil_l, drop_ge, app_nil_r; [done|].
      destruct Hsi as ((_ & Hb & _) & _). lia. }
    change (run_message ChatServer_message p ?x) with (messageHandler (Ctx := Ctx) p x).
    rewrite (messageHandler_ok p s1) by apply lookup_upd. rewrite Hm.
    change (hdr_msgId (msg_hdr m)) with (hdr_msgId (msg_hdr (ts_msg s))).
    destruct Hid as [-> | ->]; cbn [MsgId_val].
    + change (i32 1 =? 1) with true. cbn iota.
      by rewrite (rqCreateUser_ok p s1) by apply lookup_upd; rewrite Hn.
    + change (i32 3 =? 1) with false. change (i32 3 =? 3) with true. cbn iota.
      by rewrite (nfMessage_unterminated p s1); [|apply lookup_upd|].
Qed.

(** the score counts what is in the object, not what was received.  A text
    that is not terminated within its announced length is counted on into what
    an earlier, longer message left behind it. *)
Theorem score_counts_stale_bytes w p s m old k c :
  running chat w → hp w !! p = Some s → ts_msg s = received m old → sendable m →
  no_nul (take (Z.to_nat (bodyLength m)) (msg_body m)) →
  strlen (drop (Z.to_nat (bodyLength m)) (msg_body old)) = Some k →
  context_ (fget w : Redis Ctx) = Some c →
  ∃ w', nfMessage (Ctx := Ctx) p w = Ok tt w' ∧
    context_ (fget w' : Redis Ctx) =
      Some (redisCommand c (score_cmd (bodyLength m + Z.of_nat k) (ts_id s))).2.
Proof.
  intros Hrn Hs Hm Hsend Hnul Hk Hc.
  pose proof (running_inv chat w Hrn) as Hw. pose proof (listed_ok_inv w Hw) as Hl.
  assert (Hlen := length_take_body m Hsend). destruct Hsend as [_ Hb].
  assert (Hn : strlen (msg_body (ts_msg s)) = Some (Z.to_nat (bodyLength m) + k)%nat).
  { rewrite Hm, strlen_received, strlen_app_r by done. by rewrite Hlen, Hk. }
  assert (Hsmall : i32 (Z.of_nat (Z.to_nat (bodyLength m) + k)) = bodyLength m + Z.of_nat k).
  { destruct (session_at _ _ _ Hw Hs) as [((_ & Hlb & _) & _) _].
    apply strlen_Some in Hn as [Hn%lookup_lt_Some _].
    unfold MAX_CP_MSG_DATA in *. rewrite wrapS_id by (unfold in_s; lia). lia. }
  assert (Hv : view w p = Some (session_view_of s)) by (cbn; by rewrite Hs).
  destruct (nfMessage_run p (session_view_of s) _ w Hv Hn Hl) as (b & r & h & Hsd & Hr & _).
  eexists. split; [exact Hr|]. rewrite (Redis_send_run _ c w Hc) in Hsd. injection Hsd as _ E.
  rewrite (fget_fset_sep (Separate := SRH)), <- E, fget_fset. cbn [sent context_].
  by rewrite Hsmall.
Qed.

(** a negative length is relayed to the other clients.  When a message whose
    body length is below -8 reaches the handler, every other listed session
    that was idle starts a write of more than 2^63 bytes from its 1032-byte
    message: the connection may send any number of them before it fails, and
    sending more than 1032 reads past the object. *)
Theorem negative_length_overread w p s n q k s1 ec :
  running chat w → hp w !! p = Some s → strlen (msg_body (ts_msg s)) = Some n →
  bodyLength (ts_msg s) < -8 →
  sv_sessions (sv w) !! k = Some q → q ≠ p → hp w !! q = Some s1 → ts_sendQue s1 = [] →
  is_error ec = true →
  ∃ w' size, nfMessage (Ctx := Ctx) p w = Ok tt w' ∧ 2 ^ 63 < size ∧
    ∀ sent, sizeof_Msg < sent <= size →
      enabled w' (Ev_write q ec sent) ∧
      server_run chat (Ev_write q ec sent) w' = Undef UB_buffer_overread.
Proof.
  intros Hrn Hs Hn Hneg Hk Hne Hs1 Hq1 He. pose proof (running_inv chat w Hrn) as Hw.
  assert (Hv : view w p = Some (session_view_of s)) by (cbn; by rewrite Hs).
  destruct (nfMessage_run p (session_view_of s) n w Hv Hn (listed_ok_inv w Hw))
    as (b & r & h & Hsd & Hr & Hview).
  set (w' := fset h (fset r w)) in *. set (m := ts_msg s).
  assert (Hpush : hp w' !! q = Some (push_send m s1)).
  { destruct (proj2 (keeps_nfMessage p _ _ _ Hr) q) as [l El]. rewrite Hs1 in El.
    specialize (Hview q (session_view_of s1)). cbn [view TcpSession_SessionLaws] in Hview.
    rewrite El, Hs1, decide_True in Hview by (split; [|done]; apply (elem_of_listed w); by exists k).
    specialize (Hview eq_refl). cbn in Hview. injection Hview as _ _ Hl.
    rewrite pushes_queue, Hq1 in Hl. cbn in Hl. subst l. exact El. }
  destruct (session_at _ _ _ Hw Hs1) as [(_ & _ & _ & Htx & _) _].
  unfold tx_inv in Htx. rewrite Hq1 in Htx.
  assert (Hwr : sk_writes (ts_socket (push_send m s1)) = [size_t (msg_length m)]).
  { unfold push_send. rewrite Hq1. destruct s1 as [[] ? ? ? ? ? ? ? ? ? ? ? ?]; cbn in *. by rewrite Htx. }
  assert (Hque : ts_sendQue (push_send m s1) = [m]) by (by rewrite push_send_queue, Hq1).
  exists w', (size_t (msg_length m)).
  assert (Hrange : in_s 16 (bodyLength m)).
  { destruct (session_at _ _ _ Hw Hs) as [(((_ & _ & Hb & _) & _) & _) _]. exact Hb. }
  assert (Hbig : 2 ^ 63 < size_t (msg_length m)).
  { unfold msg_length, hdrLength. change (hdr_bodyLength (msg_hdr m)) with (bodyLength m).
    fold m in Hneg. unfold wrapU, in_s in *.
    rewrite <- (Z_mod_plus_full _ 1), Z.mod_small; lia. }
  split_and!; [done|done|]. intros n' Hn'. split.
  - exists (push_send m s1). split; [done|]. eexists _, []. unfold sizeof_Msg, hdrLength, MAX_CP_MSG_DATA in Hn'.
    split_and!; [exact Hwr|lia|lia|by rewrite He].
  - cbn. unfold complete_write. erewrite bind_deref by exact Hpush. rewrite Hwr, Hque.
    unfold load. destruct (Z.leb_spec n' sizeof_Msg); [lia|]. done.
Qed.
End Faults.

(** ** Instances at concrete inputs *)

Lemma redis_commands_well_formed_witness :
  words (score_cmd 12 3) = ["zincrby"; "user:ranking"; "12"; "session_3"]%string.
Proof. exact (proj1 (proj1 redis_commands_well_formed 12 3)). Defined.

(** Session 1 has received a [RQ_CREATE_USER]. *)
Definition demo_create : TcpSession := set_msg (mkMsg (mkHdr 1 0 36 1) zero_body) (demo_entry 1).
Definition demo_world2 : chat_world :=
  mkWorld {[10%nat := demo_create]} (cw_tcp demo_world) (cw_store demo_world) (cw_members demo_world).

Lemma messageHandler_dispatch_witness :
  ∃ r : Redis nat, messageHandler (W := chat_world) (Ctx := nat) 10%nat demo_world2 =
    Ok tt (fset r demo_world2) ∧ context_ r = Some 1%nat.
Proof.
  destruct (messageHandler_dispatch (W := chat_world) (Ctx := nat) 10%nat demo_create demo_world2) as [H1 _].
  - vm_compute. reflexivity.
  - destruct H1 as (r & Hr & Hc); [vm_compute; reflexivity|vm_compute; eauto|].
    exists r. split; [exact Hr|]. exact (Hc 0%nat eq_refl).
Defined.

(** What the server does with bytes received on session [p]. *)
Definition got (p : ptr) (bs : list Z) (w : chat_world) : chat_world :=
  after (complete_read (CB := server_callbacks demo_chat) p Success bs w) w.

Lemma got_header_running w p bs :
  running demo_chat w → hp w !! p = Some (chat_session w p) → waiting_header (chat_session w p) →
  Forall byte_ok bs → length bs = 8%nat →
  complete_read (CB := server_callbacks demo_chat) p Success bs w = Ok tt (got p bs w) →
  running demo_chat (got p bs w).
Proof.
  intros Hw Hs Hwh Hbs Hlen Hr. eapply running_step; [exact Hw|].
  split; [|instantiate (1 := Ev_read p Success bs); exact Hr].
  eexists. split; [exact Hs|]. exists RdHeader, hdrLength, []. split_and!; [exact Hwh|done| |done|].
  - by rewrite Hlen.
  - by intros _ _ ->.
Qed.

(** A header announcing a full body, and one announcing -16 bytes. *)
Definition chat3 : chat_world := got 0%nat [1; 0; 0; 4; 3; 0; 0; 0] chat2.
Definition chat4 : chat_world := got 0%nat [1; 0; 240; 255; 3; 0; 0; 0] chat2.

Lemma chat3_running : running demo_chat chat3.
Proof.
  apply got_header_running;
    [exact chat2_running|vm_compute; reflexivity|vm_compute; reflexivity
    |apply (bool_decide_unpack _); vm_compute; exact I|reflexivity|vm_compute; reflexivity].
Qed.

Lemma chat4_running : running demo_chat chat4.
Proof.
  apply got_header_running;
    [exact chat2_running|vm_compute; reflexivity|vm_compute; reflexivity
    |apply (bool_decide_unpack _); vm_compute; exact I|reflexivity|vm_compute; reflexivity].
Qed.

Lemma unterminated_text_undefined_witness :
  enabled chat3 (Ev_read 0%nat Success (replicate 1024 65)) ∧
  server_run demo_chat (Ev_read 0%nat Success (replicate 1024 65)) chat3 = Undef UB_unterminated.
Proof.
  apply (unterminated_text_undefined (W := chat_world) (Ctx := nat) chat3 0%nat (chat_session chat3 0%nat)).
  - exact chat3_running.
  - vm_compute. reflexivity.
  - vm_compute. reflexivity.
  - vm_compute. reflexivity.
  - right. vm_compute. reflexivity.
  - vm_compute. reflexivity.
  - reflexivity.
  - apply Forall_replicate. split; lia.
  - apply Forall_replicate. lia.
Defined.

(** A three-byte text without terminator, after a six-byte one. *)
Definition stale_old : Msg := demo_msg 6 [97; 98; 99; 100; 101; 102].
Definition stale_new : Msg := demo_msg 3 [120; 121; 122].
Definition chat5 : chat_world :=
  got 0%nat [120; 121; 122] (got 0%nat [1; 0; 3; 0; 3; 0; 0; 0]
    (got 0%nat [97; 98; 99; 100; 101; 102] (got 0%nat [1; 0; 6; 0; 3; 0; 0; 0] chat2))).

Lemma got_body_running w p bs :
  running demo_chat w → hp w !! p = Some (chat_session w p) → waiting_body (chat_session w p) →
  Forall byte_ok bs → size_t (bodyLength (ts_msg (chat_session w p))) = Z.of_nat (length bs) → bs ≠ [] →
  complete_read (CB := server_callbacks demo_chat) p Success bs w = Ok tt (got p bs w) →
  running demo_chat (got p bs w).
Proof.
  intros Hw Hs Hwb Hbs Hlen Hne Hr. eapply running_step; [exact Hw|].
  split; [|instantiate (1 := Ev_read p Success bs); exact Hr].
  eexists. split; [exact Hs|]. eexists RdBody, _, []. split_and!; [exact Hwb|done| |done|done].
  by rewrite Hlen.
Qed.

Lemma chat5_running : running demo_chat chat5.
Proof.
  unfold chat5.
  repeat first
    [ exact chat2_running
    | apply got_header_running;
        [|vm_compute; reflexivity|vm_compute; reflexivity
         |apply (bool_decide_unpack _); vm_compute; exact I|reflexivity|vm_compute; reflexivity]
    | apply got_body_running;
        [|vm_compute; reflexivity|vm_compute; reflexivity
         |apply (bool_decide_unpack _); vm_compute; exact I|vm_compute; reflexivity|done|vm_compute; reflexivity] ].
Qed.

Lemma score_counts_stale_bytes_witness :
  ∃ w', nfMessage (W := chat_world) (Ctx := nat) 0%nat chat5 = Ok tt w' ∧
    (redisCommand 2%nat (score_cmd (3 + 3) 1)).2 = 3%nat ∧ context_ (cw_store w') = Some 3%nat.
Proof.
  destruct (score_counts_stale_bytes (W := chat_world) (Ctx := nat) chat5 0%nat (chat_session chat5 0%nat)
    stale_new stale_old 3 2%nat) as (w' & Hr & Hc).
  - exact chat5_running.
  - vm_compute. reflexivity.
  - vm_compute. reflexivity.
  - apply (bool_decide_unpack _). vm_compute. exact I.
  - vm_compute. repeat constructor; congruence.
  - vm_compute. reflexivity.
  - vm_compute. reflexivity.
  - exists w'. split; [exact Hr|]. split; [reflexivity|exact Hc].
Defined.

(** After the negative header nothing but a relay remains to be done. *)
Lemma negative_length_overread_witness :
  ∃ w' size, nfMessage (W := chat_world) (Ctx := nat) 0%nat chat4 = Ok tt w' ∧ 2 ^ 63 < size ∧
    ∀ sent, sizeof_Msg < sent <= size →
      enabled w' (Ev_write 1%nat Error_eof sent) ∧
      server_run demo_chat (Ev_write 1%nat Error_eof sent) w' = Undef UB_buffer_overread.
Proof.
  refine (negative_length_overread (W := chat_world) (Ctx := nat) chat4 0%nat (chat_session chat4 0%nat) 0 1%nat 2
    (chat_session chat4 1%nat) Error_eof chat4_running _ _ _ _ _ _ _ _).
  - vm_compute. reflexivity.
  - vm_compute. reflexivity.
  - vm_compute. reflexivity.
  - vm_compute. reflexivity.
  - congruence.
  - vm_compute. reflexivity.
  - vm_compute. reflexivity.
  - reflexivity.
Defined.
