(* ===== verification/ChatClient.v ===== *)
(** * The chat client (chat_client/Client.h, Client.cpp, Cli.h, Cli.cpp, main.cpp)

    The client objects around a [TcpSession] each, the command table, the three
    commands and the loop that reads them. *)
From S2P Require Import Prelude Config Msg Session TcpSession TcpSend TcpRecv IoServicePool TcpServer ServerInv ServerProps Redis ChatServer ChatRelay.

(** ** State *)

(** A [Client]: its session, and whether its [m_ios] has been stopped. *)
Record Client := mkClient { m_session : ptr; m_pid : Z; m_ios_stopped : bool }.

(** The commands of the table, one class each. *)
Inductive command := CmdCreateUser | CmdSendMessge | CmdStop.

#[export] Instance command_eq_dec : EqDecision command.
Proof. solve_decision. Defined.

(** The globals of main.cpp: [g_clientVec], [g_cmdFactory->m_table] and
    [g_bTerm]. *)
Record client_globals := mkGlobals {
  g_clientVec : list Client;
  g_table : gmap string command;
  g_bTerm : bool
}.

(** ** Text buffers *)

(** [strcpy(dst, s.c_str())] into a [char] array. *)
Definition strcpy (dst : list Z) (s : string) : cres (list Z) :=
  if (length (c_str s) <? length dst)%nat
  then Val (splice 0 (c_str s ++ [0]) dst)
  else Bad UB_buffer_overflow.

(** [sprintf(dst, "%d", z)] *)
Definition sprintf_d (dst : list Z) (z : Z) : cres (list Z) := strcpy dst (to_string z).

(** ** Operations of a client *)

Section Operations.
Context {W : Type} `{FH : !Field W heap} `{FG : !Field W client_globals}.

(** [Client(const string& host, const int port)]; [parsed] is the address text
    [from_string] makes of the host, [pid] what [getpid] answers. *)
Definition Client_new (parsed : option string) (port pid : Z) (uninit : Msg * Z * Z) : M W Client :=
  match parsed with
  | None => throw system_error
  | Some a =>
      h ← fread (T := heap);
      let p := fresh (dom h) in
      fmodify (T := heap)
        (<[p := TcpSession_client socket_new ClientConfig_default (mkEndpoint a (u16 port)) uninit]>) ;;
      mret (mkClient p pid false)
  end.

(** [void registerHandler()] *)
Definition registerHandler (c : Client) : M W unit :=
  assign (m_session c)
    (set_handlers (Some Client_opened) (Some Client_closed) (Some Client_message)).

(** [void start()], up to [m_ios.run()], whose events are the completions of
    the session's operations. *)
Definition Client_start (c : Client) : M W unit :=
  registerHandler c ;;
  TcpSession_connect (m_session c).

(** [void stop()] *)
Definition Client_stop (c : Client) : Client := mkClient (m_session c) (m_pid c) true.
Definition Client_close (c : Client) : M W unit := TcpSession_close (m_session c).
Definition Client_send (c : Client) (msg : Msg) : M W unit := TcpSession_send (m_session c) msg.

(** [void openedHandler(...)], [closedHandler(...)] log the session's id. *)
Definition Client_openedHandler (session : ptr) : M W unit :=
  _ ← TcpSession_getID session; mret tt.
Definition Client_closedHandler (session : ptr) (reason : CloseReason) : M W unit :=
  _ ← TcpSession_getID session; mret tt.

(** [void messageHandler(const Ptr<Session>&)]: the switch is on the session's
    id, and each of its branches does nothing. *)
Definition Client_messageHandler (session : ptr) : M W unit :=
  msg ← TcpSession_getMsg session;
  id ← TcpSession_getID session;
  if id =? MsgId_val RQ_CREATE_USER then mret tt
  else if id =? MsgId_val NF_MESSAGE then mret tt
  else mret tt.

Definition client_callbacks : Callbacks W := {|
  run_opened h p := match h with Client_opened => Client_openedHandler p | _ => mret tt end;
  run_closed h p r := match h with Client_closed => Client_closedHandler p r | _ => mret tt end;
  run_message h p := match h with Client_message => Client_messageHandler p | _ => mret tt end
|}.

(** ** The commands *)

Definition globals : M W client_globals := fread.
Definition set_globals (f : client_globals → client_globals) : M W unit := fmodify f.

(** The body of the loop of [CmdCreateUser::handle]; [uninit] is what the
    automatic [Msg] of an iteration holds before it is encoded. *)
Definition CmdCreateUser_body (uninit : Client → Msg) (client : Client) : M W unit :=
  id ← TcpSession_getID (m_session client);
  buf ← lift (sprintf_d (rq_id RqCreateUser_init) id);
  let req := mkRqCreateUser buf in
  msg ← lift (encodeMsg RQ_CREATE_USER (Some (rq_id req)) (Z.of_nat (length (rq_id req))) (uninit client));
  Client_send client msg.

(** [bool CmdCreateUser::handle(string&, SplitVector&)] *)
Definition CmdCreateUser_handle (uninit : Client → Msg) : M W bool :=
  g ← globals;
  forM_ (g_clientVec g) (CmdCreateUser_body uninit) ;;
  mret true.

(** The body of the loop of [CmdSendMessge::handle]. *)
Definition CmdSendMessge_body (split : list string) (uninit : Client → Msg) (client : Client) : M W unit :=
  text ← lift (match split !! 1%nat with Some t => Val t | None => Bad UB_out_of_range end);
  buf ← lift (strcpy (nf_message NfMessage_init) text);
  let nf := mkNfMessage buf in
  msg ← lift (encodeMsg NF_MESSAGE (Some (nf_message nf)) (Z.of_nat (length (nf_message nf))) (uninit client));
  Client_send client msg.

(** [bool CmdSendMessge::handle(string&, SplitVector&)] *)
Definition CmdSendMessge_handle (split : list string) (uninit : Client → Msg) : M W bool :=
  g ← globals;
  forM_ (g_clientVec g) (CmdSendMessge_body split uninit) ;;
  mret true.

(** [bool CmdStop::handle(string&, SplitVector&)]: [stop] on every client. *)
Definition CmdStop_handle : M W bool :=
  set_globals (λ g, mkGlobals (Client_stop <$> g_clientVec g) (g_table g) (g_bTerm g)) ;;
  mret true.

Definition handle (c : command) (split : list string) (uninit : Client → Msg) : M W bool :=
  match c with
  | CmdCreateUser => CmdCreateUser_handle uninit
  | CmdSendMessge => CmdSendMessge_handle split uninit
  | CmdStop => CmdStop_handle
  end.

(** [bool registerCommand<T>(const std::string& cmd)] *)
Definition registerCommand (c : command) (cmd : string) : M W bool :=
  g ← globals;
  match g_table g !! cmd with
  | Some _ => mret false
  | None =>
      set_globals (λ g, mkGlobals (g_clientVec g) (<[cmd := c]> (g_table g)) (g_bTerm g)) ;;
      mret true
  end.

(** The registrations of [main]. *)
Definition register_commands : M W unit :=
  registerCommand CmdCreateUser "create" ;;
  registerCommand CmdSendMessge "send" ;;
  registerCommand CmdStop "stop" ;;
  mret tt.

(** The client of one iteration of [main]'s loop: constructed, its thread
    started, and pushed on [g_clientVec]. *)
Definition add_client (parsed : option string) (port pid : Z) (uninit : Msg * Z * Z) : M W unit :=
  c ← Client_new parsed port pid uninit;
  Client_start c ;;
  set_globals (λ g, mkGlobals (g_clientVec g ++ [c]) (g_table g) (g_bTerm g)).

(** One iteration of [readLine] on the line [str]; [split] is boost's, and
    [None] for the result of a loop that goes on, [Some tt] for [return]. *)
Definition readLine_step (split : string → list string) (uninit : Client → Msg) (str : string) :
    M W (option unit) :=
  if decide (str = EmptyString) then mret None
  else if decide (str = "quit"%string) then
    set_globals (λ g, mkGlobals (g_clientVec g) (g_table g) true) ;;
    mret (Some tt)
  else if decide (str = "?"%string ∨ str = "help"%string) then mret None
  else
    let splitVec := split str in
    cmd ← lift (match splitVec !! 0%nat with Some c => Val c | None => Bad UB_out_of_range end);
    g ← globals;
    match g_table g !! cmd with
    | Some c => handle c splitVec uninit ;; mret None
    | None => mret None
    end.

(** [void readLine()] on the lines typed so far; the result says whether the
    loop has ended. *)
Fixpoint readLine (split : string → list string) (uninit : Client → Msg) (lines : list string) :
    M W bool :=
  g ← globals;
  if g_bTerm g then mret true
  else
    match lines with
    | [] => mret false
    | str :: lines =>
        r ← readLine_step split uninit str;
        match r with
        | Some _ => mret true
        | None => readLine split uninit lines
        end
    end.
End Operations.

#[global] Arguments globals : simpl never.
#[global] Arguments set_globals : simpl never.

(** ** Lemmas: texts *)

Lemma strcpy_ok n s :
  (length (c_str s) < n)%nat →
  ∃ buf, strcpy (replicate n 0) s = Val buf ∧ length buf = n ∧ Forall byte_ok buf ∧
    buf = c_str s ++ 0 :: drop (length (c_str s) + 1) (replicate n 0).
Proof.
  intros Hl. unfold strcpy. rewrite length_replicate.
  destruct (Nat.ltb_spec (length (c_str s)) n); [|lia]. eexists. split; [done|].
  assert (Hz : Forall byte_ok (replicate n 0)) by (apply Forall_replicate; unfold byte_ok; lia).
  split_and!.
  - rewrite length_splice; rewrite length_replicate; [done|]. rewrite length_app. cbn. lia.
  - apply splice_bytes; [|done]. apply Forall_app_2; [apply c_str_ok|].
    constructor; [unfold byte_ok; lia|constructor].
  - unfold splice. rewrite take_0, app_nil_l, Nat.add_0_l, length_app, <- app_assoc. done.
Qed.

Lemma strcpy_overflow n s :
  (n ≤ length (c_str s))%nat → strcpy (replicate n 0) s = Bad UB_buffer_overflow.
Proof.
  intros Hl. unfold strcpy. rewrite length_replicate. by destruct (Nat.ltb_spec (length (c_str s)) n); [lia|].
Qed.

(** The message a client makes of a filled [char] buffer. *)
Definition client_msg (id : MsgId_t) (buf : list Z) (old : Msg) : Msg :=
  mkMsg (mkHdr version 0 (Z.of_nat (length buf)) (MsgId_val id)) (buf ++ drop (length buf) (msg_body old)).

Lemma client_msg_encoded id buf old :
  body_ok (msg_body old) → (length buf ≤ 1024)%nat →
  encodeMsg id (Some buf) (Z.of_nat (length buf)) old = Val (client_msg id buf old).
Proof.
  intros Hb Hl. rewrite encodeMsg_Val by (done || (unfold MAX_CP_MSG_DATA; lia)).
  unfold client_msg. by rewrite Nat2Z.id, take_ge.
Qed.

Lemma client_msg_acceptable id buf old :
  body_ok (msg_body old) → Forall byte_ok buf → (length buf ≤ 1024)%nat →
  acceptable (client_msg id buf old).
Proof.
  intros Hb Hbuf Hl. unfold acceptable, sendable, client_msg, bodyLength. cbn.
  assert (H : 0 <= Z.of_nat (length buf) <= MAX_CP_MSG_DATA) by (unfold MAX_CP_MSG_DATA; lia).
  split; [split; [split; cbn [msg_hdr msg_body]|done]|].
  - by apply encoded_hdr_ok.
  - pose proof (encoded_body_ok buf (Z.of_nat (length buf)) _ Hb Hbuf H ltac:(lia)) as Hok.
    by rewrite Nat2Z.id, take_ge in Hok.
  - unfold checkHeader. cbn. case_cmp; try done; lia.
Qed.

Lemma client_msg_body id buf old :
  take (Z.to_nat (bodyLength (client_msg id buf old))) (msg_body (client_msg id buf old)) = buf.
Proof. unfold bodyLength, client_msg. cbn. by rewrite Nat2Z.id, take_app_length. Qed.

Lemma client_msg_text id s rest old :
  chat_text (client_msg id (c_str s ++ 0 :: rest) old) = Some (length (c_str s)).
Proof. unfold chat_text. rewrite client_msg_body. apply strlen_terminated, c_str_ok. Qed.

Lemma length_to_string_32 z : in_s 32 z → (String.length (to_string z) ≤ 11)%nat.
Proof. unfold in_s. intros. apply (length_to_string 10); [lia|]. cbn. lia. Qed.

(** The [RqCreateUser::id] written for the session id [z]. *)
Definition id_buf (z : Z) : list Z :=
  c_str (to_string z) ++ 0 :: drop (length (c_str (to_string z)) + 1) (replicate 36 0).

Lemma id_buf_ok z :
  in_s 32 z →
  sprintf_d (rq_id RqCreateUser_init) z = Val (id_buf z) ∧ length (id_buf z) = 36%nat ∧
  Forall byte_ok (id_buf z) ∧
  id_buf z = c_str (to_string z) ++ 0 :: drop (length (c_str (to_string z)) + 1) (replicate 36 0).
Proof.
  intros Hz. pose proof (length_to_string_32 z Hz). pose proof (length_c_str (to_string z)).
  destruct (strcpy_ok 36 (to_string z)) as (buf & Hc & Hl & Hb & Heq); [lia|].
  fold (id_buf z) in Heq. subst buf. done.
Qed.

(** ** Lemmas: a loop over the clients *)

Section Loops.
Context {W : Type} `{FH : !Field W heap} `{FG : !Field W client_globals} `{SGH : !Separate FG FH}.
Implicit Types (w : W) (s : TcpSession) (p : ptr) (c : Client).

Definition vec w : list Client := g_clientVec (fget w).

(** The clients have a session each. *)
Definition clients_ok w : Prop :=
  NoDup (m_session <$> vec w) ∧ ∀ c, c ∈ vec w → is_Some (hp w !! m_session c).

Lemma globals_upd p s w : (fget (upd p s w) : client_globals) = fget w.
Proof. by apply (upd_sep FG). Qed.

Lemma client_loop (P : Z → Prop) (f : Client → M W unit) (mk : Client → Z → Msg) cs w :
  (∀ c s w, hp w !! m_session c = Some s → P (ts_id s) →
     f c w = Ok tt (upd (m_session c) (push_send (mk c (ts_id s)) s) w)) →
  NoDup (m_session <$> cs) → (∀ c, c ∈ cs → ∃ s, hp w !! m_session c = Some s ∧ P (ts_id s)) →
  ∃ w', forM_ cs f w = Ok tt w' ∧ (fget w' : client_globals) = fget w ∧
    (∀ c s, c ∈ cs → hp w !! m_session c = Some s →
       hp w' !! m_session c = Some (push_send (mk c (ts_id s)) s)) ∧
    (∀ p, p ∉ m_session <$> cs → hp w' !! p = hp w !! p).
Proof.
  intros Hf. revert w. induction cs as [|c cs IH]; intros w Hnd Hex; cbn [forM_].
  - exists w. split_and!; try done. intros c s Hc. by apply not_elem_of_nil in Hc.
  - rewrite fmap_cons in Hnd. apply NoDup_cons in Hnd as [Hnin Hnd].
    destruct (Hex c) as (s & Hs & HP); [by left|].
    destruct (IH (upd (m_session c) (push_send (mk c (ts_id s)) s) w) Hnd) as (w' & Hr & Hg & Hin & Hout).
    { intros c' Hc'. rewrite lookup_upd_ne; [apply Hex; by right|].
      intros E. apply Hnin. rewrite E. by apply list_elem_of_fmap_2. }
    exists w'. split_and!.
    + by erewrite bind_ok by (by apply Hf).
    + by rewrite Hg, globals_upd.
    + intros c' s' [->|Hc']%elem_of_cons Hs'.
      * rewrite Hout by done. rewrite lookup_upd. congruence.
      * apply Hin; [done|]. rewrite lookup_upd_ne; [done|].
        intros E. apply Hnin. rewrite E. by apply list_elem_of_fmap_2.
    + intros p Hp. rewrite fmap_cons, not_elem_of_cons in Hp. destruct Hp as [Hp1 Hp2].
      rewrite Hout by done. by rewrite lookup_upd_ne.
Qed.

Lemma bind_globals {B} (k : client_globals → M W B) w : (globals ≫= k) w = k (fget w) w.
Proof. done. Qed.

(** ** Properties *)

(** the client's [send] command produces exactly what the server relays.
    With a text of fewer than 256 bytes, every client's session is sent one
    [NF_MESSAGE] of 256 bytes whose text is the second word of the line: a
    message the server's relay accepts and counts with the length of the text;
    no other session is touched. *)
Theorem send_command_relayable split text uninit w :
  clients_ok w → (∀ c, body_ok (msg_body (uninit c))) →
  split !! 1%nat = Some text → (length (c_str text) < 256)%nat →
  ∃ w', CmdSendMessge_handle split uninit w = Ok true w' ∧ (fget w' : client_globals) = fget w ∧
    (∀ c s, c ∈ vec w → hp w !! m_session c = Some s →
       ∃ m, hp w' !! m_session c = Some (push_send m s) ∧ relayable m ∧
         bodyLength m = 256 ∧ chat_text m = Some (length (c_str text)) ∧
         take (length (c_str text)) (msg_body m) = c_str text) ∧
    (∀ p, p ∉ m_session <$> vec w → hp w' !! p = hp w !! p).
Proof.
  intros [Hnd Hex] Hu Hsp Hlen.
  destruct (strcpy_ok 256 text Hlen) as (buf & Hcpy & Hbl & Hbb & Hbuf).
  destruct (client_loop (λ _, True) (CmdSendMessge_body split uninit) (λ c _, client_msg NF_MESSAGE buf (uninit c)) (vec w) w)
    as (w' & Hr & Hg & Hin & Hout); [|done|by intros c [s Hs]%Hex; exists s|].
  { intros c s w1 Hs _. unfold CmdSendMessge_body. rewrite Hsp, (bind_lift _ text) by done.
    rewrite (bind_lift _ buf) by exact Hcpy. cbn [nf_message].
    rewrite (bind_lift _ _ _ _ (client_msg_encoded NF_MESSAGE buf (uninit c) (Hu c) ltac:(lia))).
    by apply send_ok. }
  exists w'. split_and!; [|done| |done].
  - unfold CmdSendMessge_handle. rewrite bind_globals. by erewrite bind_ok by exact Hr.
  - intros c s Hc Hs. exists (client_msg NF_MESSAGE buf (uninit c)).
    assert (Ht : chat_text (client_msg NF_MESSAGE buf (uninit c)) = Some (length (c_str text)))
      by (rewrite Hbuf; apply client_msg_text).
    split_and!; [by apply Hin| |unfold bodyLength; cbn; by rewrite Hbl|done|].
    + split_and!; [apply client_msg_acceptable; [done|done|lia]|done|by eexists].
    + cbn [client_msg msg_body]. rewrite Hbuf, <- app_assoc. apply take_app_length.
Qed.

(** what the [send] command does not survive: a line without a second word
    indexes past the split line, and a text of 256 bytes or more overflows the
    message buffer - as soon as there is a client at all. *)
Theorem send_command_undefined split uninit w c cs :
  vec w = c :: cs →
  (length split ≤ 1 → CmdSendMessge_handle split uninit w = Undef UB_out_of_range)%nat ∧
  (∀ text, split !! 1%nat = Some text → (256 ≤ length (c_str text))%nat →
     CmdSendMessge_handle split uninit w = Undef UB_buffer_overflow) ∧
  (∀ w0 : W, vec w0 = [] → CmdSendMessge_handle split uninit w0 = Ok true w0).
Proof.
  intros Hv. unfold CmdSendMessge_handle.
  assert (Hfail : ∀ u, CmdSendMessge_body split uninit c w = Undef u →
    CmdSendMessge_handle split uninit w = Undef u).
  { intros u E. unfold CmdSendMessge_handle. rewrite bind_globals.
    change (g_clientVec (fget w)) with (vec w). rewrite Hv. cbn [forM_].
    unfold mbind, M_bind. by rewrite E. }
  split_and!.
  - intros Hl. apply Hfail. unfold CmdSendMessge_body. by rewrite (lookup_ge_None_2 split 1) by done.
  - intros text Hsp Hl. apply Hfail. unfold CmdSendMessge_body. rewrite Hsp, (bind_lift _ text) by done.
    by rewrite (bind_lift_bad _ _ _ _ (strcpy_overflow 256 text Hl)).
  - intros w0 H0. rewrite bind_globals. change (g_clientVec (fget w0)) with (vec w0). by rewrite H0.
Qed.

(** the [create] command.  Every client's session is sent one acceptable
    [RQ_CREATE_USER] of 36 bytes that carries the session's id in decimal,
    terminated within its length; the buffer never overflows, whatever the
    [int] id.  A session made by [Client] has id 0, so every user is created
    as "0". *)
Theorem create_command_spec uninit w :
  clients_ok w → (∀ c, body_ok (msg_body (uninit c))) →
  (∀ p s, hp w !! p = Some s → in_s 32 (ts_id s)) →
  ∃ w', CmdCreateUser_handle uninit w = Ok true w' ∧ (fget w' : client_globals) = fget w ∧
    (∀ c s, c ∈ vec w → hp w !! m_session c = Some s →
       ∃ m, hp w' !! m_session c = Some (push_send m s) ∧ acceptable m ∧ bodyLength m = 36 ∧
         hdr_msgId (msg_hdr m) = MsgId_val RQ_CREATE_USER ∧
         chat_text m = Some (length (c_str (to_string (ts_id s)))) ∧
         take (length (c_str (to_string (ts_id s)))) (msg_body m) = c_str (to_string (ts_id s))) ∧
    (∀ p, p ∉ m_session <$> vec w → hp w' !! p = hp w !! p).
Proof.
  intros [Hnd Hex] Hu Hids.
  destruct (client_loop (in_s 32) (CmdCreateUser_body uninit)
      (λ c id, client_msg RQ_CREATE_USER (id_buf id) (uninit c)) (vec w) w)
    as (w' & Hr & Hg & Hin & Hout); [|done|by intros c Hc; destruct (Hex c Hc) as [s Hs]; eauto|].
  { intros c s w1 Hs Hid. destruct (id_buf_ok _ Hid) as (Hcpy & Hbl & _).
    unfold CmdCreateUser_body, TcpSession_getID. sess_run.
    rewrite (bind_lift _ _ _ _ Hcpy). cbn [rq_id].
    rewrite (bind_lift _ _ _ _ (client_msg_encoded RQ_CREATE_USER (id_buf (ts_id s)) (uninit c) (Hu c) ltac:(lia))).
    by apply send_ok. }
  exists w'. split_and!; [|done| |done].
  - unfold CmdCreateUser_handle. rewrite bind_globals. by erewrite bind_ok by exact Hr.
  - intros c s Hc Hs. exists (client_msg RQ_CREATE_USER (id_buf (ts_id s)) (uninit c)).
    destruct (id_buf_ok _ (Hids _ _ Hs)) as (_ & Hbl & Hbb & Hbuf).
    split_and!; [by apply Hin|apply client_msg_acceptable; [done|done|lia]
      |unfold bodyLength; cbn; by rewrite Hbl|done| |].
    + rewrite Hbuf. apply client_msg_text.
    + cbn [client_msg msg_body]. rewrite Hbuf, <- app_assoc. apply take_app_length.
Qed.

(** a client shows nothing of what it receives.  The dispatch looks at the
    session's id, which is no message id, and every branch is empty: reading
    any stream of acceptable messages, each read taking all it asked for,
    succeeds, leaves the client's globals,
    its other sessions and its outgoing queue as they are, and waits for more. *)
Theorem client_discards_stream p s ms w :
  hp w !! p = Some s → waiting_header s → msg_ok (ts_msg s) →
  ts_messageHandler s = Some Client_message → ts_rx s = u64 (ts_rx s) → Forall acceptable ms →
  ∃ w' s', pump (CB := client_callbacks) (whole_reads ms) p (wire ms) w = Ok [] w' ∧
    (fget w' : client_globals) = fget w ∧ (∀ q, q ≠ p → hp w' !! q = hp w !! q) ∧
    hp w' !! p = Some s' ∧ waiting_header s' ∧ ts_rx s' = u64 (ts_rx s + Z.of_nat (length (wire ms))).
Proof.
  intros Hs Hwh Hok Hh Hrx Hms.
  destruct (pump_delivers (CB := client_callbacks)
    (λ _ w', (fget w' : client_globals) = fget w ∧ ∀ q, q ≠ p → hp w' !! q = hp w !! q)
    p Client_message ms) with (ms := ms) (done := @nil Msg) (s := s) (w := w)
    as (w' & s' & Hr & [Hg Hq] & Hs' & Hwh' & Hrx' & _); try done.
  - intros done m rest old s1 w1 _ Hinv Hs1 _ _ _. exists w1, [].
    split; [|split; [exact Hinv|exact Hs1]].
    cbn. unfold Client_messageHandler, TcpSession_getMsg, TcpSession_getID. sess_run.
    by repeat case_match.
  - intros done s1 s1' w1 [Hg Hq] Hs1 _. rewrite globals_upd. split; [done|].
    intros q Hne. by rewrite lookup_upd_ne; [apply Hq|].
  - by exists w', s'.
Qed.

(** a client's connection.  A new client waits in its own session for the
    connection; when the connection succeeds the session is [Opened], with
    both socket options set, and waits for a header; when it fails nothing
    happens, then or later: there is no read, no retry and no report. *)
Theorem client_connection a port pid uninit w :
  ∃ c w1 s, Client_new (Some a) port pid uninit w = Ok c w1 ∧
    hp w !! m_session c = None ∧ hp w1 !! m_session c = Some s ∧ ts_id s = 0 ∧
    ts_remoteEndpoint s = mkEndpoint a (u16 port) ∧
    ∃ w2, Client_start c w1 = Ok tt w2 ∧
      (∃ w3 s3, complete_connect (CB := client_callbacks) (m_session c) Success w2 = Ok tt w3 ∧
         hp w3 !! m_session c = Some s3 ∧ ts_state s3 = Opened ∧ waiting_header s3 ∧
         sk_reuse_address (ts_socket s3) = true ∧ sk_no_delay (ts_socket s3) = true ∧
         ts_messageHandler s3 = Some Client_message ∧ ts_sendQue s3 = []) ∧
      (∀ ec, is_error ec = true →
         ∃ w3 s3, complete_connect (CB := client_callbacks) (m_session c) ec w2 = Ok tt w3 ∧
           hp w3 !! m_session c = Some s3 ∧ ts_state s3 = Ready ∧
           sk_reads (ts_socket s3) = [] ∧ sk_connects (ts_socket s3) = 0%nat).
Proof.
  set (p := fresh (dom (hp w))).
  set (s := TcpSession_client socket_new ClientConfig_default (mkEndpoint a (u16 port)) uninit).
  assert (Hp : hp w !! p = None) by (apply not_elem_of_dom, is_fresh).
  exists (mkClient p pid false), (upd p s w), s.
  split_and!; [done|done|apply lookup_upd|done|done|].
  set (s2 := set_socket (sk_set_connects S)
    (set_handlers (Some Client_opened) (Some Client_closed) (Some Client_message) s)).
  exists (upd p s2 w). split_and!.
  - unfold Client_start, registerHandler, TcpSession_connect. cbn [m_session]. by sess_run.
  - eexists _, _. cbn [m_session]. unfold complete_connect. sess_run. cbn.
    unfold TcpSession_start. sess_run. cbn. unfold Client_openedHandler, TcpSession_getID. sess_run.
    unfold TcpSession_read, async_read_some. sess_run. split; [done|].
    split; [apply lookup_upd|]. done.
  - intros ec He. eexists _, (set_socket (sk_set_connects Nat.pred) s2).
    cbn [m_session]. unfold complete_connect. sess_run.
    change (sk_connects (ts_socket s2)) with 1%nat. cbn iota. sess_run. rewrite He. cbn [negb].
    split; [reflexivity|]. split; [apply lookup_upd|]. done.
Qed.

(** [quit] ends the command loop.  Once the lines before it have been read
    without ending the loop, [quit] sets [g_bTerm] and returns, and no line
    after it is looked at. *)
Theorem readLine_quit split uninit lines1 lines2 w w1 :
  readLine split uninit lines1 w = Ok false w1 →
  ∃ w2, readLine split uninit (lines1 ++ "quit"%string :: lines2) w = Ok true w2 ∧
    g_bTerm (fget w2) = true ∧ g_clientVec (fget w2) = g_clientVec (fget w1) ∧
    hp w2 = hp w1.
Proof.
  revert w. induction lines1 as [|l lines1 IH]; intros w Hr; cbn [readLine app] in *;
    rewrite bind_globals in *; destruct (g_bTerm (fget w)) eqn:Et; try done.
  - injection Hr as <-. unfold readLine_step. rewrite decide_False, decide_True by done.
    eexists. split; [reflexivity|]. unfold set_globals, fmodify, modify. rewrite fget_fset.
    by rewrite (fget_fset_sep' (Separate := SGH)).
  - unfold mbind at 1, M_bind in Hr. unfold mbind at 1, M_bind.
    destruct (readLine_step split uninit l w) as [[[]|] w'| |]; [done| |done..]. by apply IH.
Qed.
End Loops.

(** ** Instances at concrete inputs *)

Record client_world := mkClientWorld { clw_sessions : heap; clw_globals : client_globals }.
#[export, refine] Instance clw_heap : Field client_world heap :=
  {| fget w := clw_sessions w; fset x w := mkClientWorld x (clw_globals w) |}.
Proof. all: by try intros []. Defined.
#[export, refine] Instance clw_glob : Field client_world client_globals :=
  {| fget w := clw_globals w; fset x w := mkClientWorld (clw_sessions w) x |}.
Proof. all: by try intros []. Defined.
#[export] Instance clw_separate : Separate clw_glob clw_heap.
Proof. by split. Qed.

(** Two clients, as [main] makes them, connected. *)
Definition client0 : client_world := mkClientWorld ∅ (mkGlobals [] ∅ false).
Definition client1 : client_world :=
  after ((register_commands ;;
          add_client (Some "127.0.0.1"%string) 20000 100 uninit0 ;;
          add_client (Some "127.0.0.1"%string) 20000 100 uninit0 ;;
          complete_connect (CB := client_callbacks) 0%nat Success ;;
          complete_connect (CB := client_callbacks) 1%nat Success) client0) client0.
Definition any_msg : Client → Msg := λ _, demo_msg 9 [9; 9; 9].
Definition client_session (p : ptr) : TcpSession :=
  match clw_sessions client1 !! p with Some s => s | None => demo_session socket_new [] end.

Lemma vec_client1 : vec client1 = [mkClient 0 100 false; mkClient 1 100 false].
Proof. vm_compute. reflexivity. Qed.

Lemma client1_ok : clients_ok client1.
Proof.
  split; [vm_compute; repeat constructor; set_solver|].
  intros c Hc. rewrite vec_client1 in Hc.
  apply elem_of_cons in Hc as [->|Hc]; [by exists (client_session 0%nat); vm_compute|].
  apply list_elem_of_singleton in Hc as ->. by exists (client_session 1%nat); vm_compute.
Qed.

Lemma any_msg_ok c : body_ok (msg_body (any_msg c)).
Proof. apply (bool_decide_unpack _). vm_compute. exact I. Qed.

Lemma send_command_relayable_witness :
  ∃ w' m, CmdSendMessge_handle ["send"; "hello"]%string any_msg client1 = Ok true w' ∧
    hp w' !! 1%nat = Some (push_send m (client_session 1%nat)) ∧ relayable m ∧ chat_text m = Some 5%nat.
Proof.
  destruct (send_command_relayable ["send"; "hello"]%string "hello" any_msg client1 client1_ok any_msg_ok)
    as (w' & Hr & _ & Hin & _); [reflexivity|apply Nat.ltb_lt; vm_compute; reflexivity|].
  destruct (Hin (mkClient 1 100 false) (client_session 1%nat)) as (m & Hm & Hrel & _ & Ht & _).
  - rewrite vec_client1. right. left.
  - vm_compute. reflexivity.
  - exists w', m. split; [exact Hr|]. split; [exact Hm|]. split; [exact Hrel|exact Ht].
Defined.

Lemma send_command_undefined_witness :
  CmdSendMessge_handle ["send"]%string any_msg client1 = Undef UB_out_of_range.
Proof.
  refine (proj1 (send_command_undefined ["send"]%string any_msg client1 (mkClient 0 100 false)
    [mkClient 1 100 false] _) _); [vm_compute; reflexivity|cbn; lia].
Defined.

Lemma create_command_spec_witness :
  ∃ w' m, CmdCreateUser_handle any_msg client1 = Ok true w' ∧
    hp w' !! 0%nat = Some (push_send m (client_session 0%nat)) ∧ bodyLength m = 36 ∧
    take 1 (msg_body m) = [48].
Proof.
  destruct (create_command_spec any_msg client1 client1_ok any_msg_ok) as (w' & Hr & _ & Hin & _).
  - intros p s Hs. change (hp client1) with (clw_sessions client1) in Hs.
    assert (Hall : map_Forall (λ _ s, ts_id s = 0) (clw_sessions client1)).
    { apply (bool_decide_unpack _). vm_compute. exact I. }
    rewrite (Hall p s Hs). split; cbn; lia.
  - destruct (Hin (mkClient 0 100 false) (client_session 0%nat)) as (m & Hm & _ & Hb & _ & _ & Ht).
    + rewrite vec_client1. left.
    + vm_compute. reflexivity.
    + exists w', m. split; [exact Hr|]. split; [exact Hm|]. split; [exact Hb|exact Ht].
Defined.

Lemma client_discards_stream_witness :
  ∃ w' s', pump (CB := client_callbacks) [8; 3; 8; 2]%nat 0%nat (wire [hello; bye]) client1 = Ok [] w' ∧
    hp w' !! 0%nat = Some s' ∧ waiting_header s'.
Proof.
  destruct (client_discards_stream 0%nat (client_session 0%nat) [hello; bye] client1)
    as (w' & s' & Hr & _ & _ & Hs & Hwh & _).
  - vm_compute. reflexivity.
  - vm_compute. reflexivity.
  - apply (bool_decide_unpack _). vm_compute. exact I.
  - vm_compute. reflexivity.
  - vm_compute. reflexivity.
  - exact (Forall_cons_2 _ _ _ hello_acceptable (Forall_cons_2 _ _ _ bye_acceptable (Forall_nil_2 _))).
  - exists w', s'. split; [exact Hr|]. split; [exact Hs|exact Hwh].
Defined.

Lemma client_connection_witness :
  ∃ c w1 w2 w3 s3, Client_new (Some "127.0.0.1"%string) 20000 100 uninit0 client0 = Ok c w1 ∧
    Client_start c w1 = Ok tt w2 ∧
    complete_connect (CB := client_callbacks) (m_session c) (Error_other 111) w2 = Ok tt w3 ∧
    hp w3 !! m_session c = Some s3 ∧ ts_state s3 = Ready.
Proof.
  destruct (client_connection "127.0.0.1" 20000 100 uninit0 client0)
    as (c & w1 & s & H1 & _ & _ & _ & _ & w2 & H2 & _ & H3).
  destruct (H3 (Error_other 111) eq_refl) as (w3 & s3 & Hr & Hs & Hst & _).
  exists c, w1, w2, w3, s3. split_and!; [exact H1|exact H2|exact Hr|exact Hs|exact Hst].
Defined.

(** A splitter for lines of at most two words. *)
Definition split2 (s : string) : list string :=
  if decide (s = "send hi"%string) then ["send"; "hi"]%string else [s].

Lemma readLine_quit_witness :
  ∃ w2, readLine split2 any_msg ["send hi"; "what"; "quit"; "stop"]%string client1 = Ok true w2 ∧
    (length ∘ ts_sendQue <$> hp w2 !! 0%nat) = Some 1%nat.
Proof.
  destruct (readLine_quit split2 any_msg ["send hi"; "what"]%string ["stop"]%string client1
    (after (readLine split2 any_msg ["send hi"; "what"]%string client1) client1)) as (w2 & Hr & _ & _ & Hh).
  - vm_compute. reflexivity.
  - exists w2. split; [exact Hr|]. rewrite Hh. vm_compute. reflexivity.
Defined.
