(* ===== verification/ChatMain.v ===== *)
(** * The two programs (chat_server/main.cpp, chat_client/main.cpp)

    [main] of the server and of the client, from the parsed options on, and the
    client's signal handler.  boost's option parser, the logger's set-up and
    the output are not modelled: [main] gets what the parser makes of the
    command line, [None] where it throws. *)
From S2P Require Import Prelude Config Msg Session TcpSession TcpSend IoServicePool TcpServer ServerInv ServerProps Redis ChatServer ChatProps ChatClient Programs.

(** ** The chat server *)

(** [numThreads] after the options. *)
Definition server_threads (o : server_options) : Z :=
  match so_threads o with Some n => n | None => 1 end.

Section ServerMain.
Context {W : Type} {Ctx : Type} `{HR : !Hiredis Ctx}.
Context `{FS : !Field W TcpServer} `{FR : !Field W (Redis Ctx)} `{FC : !Field W ChatServer}.

(** [void runServer(string address, int port, int numThreads)]; the objects
    [new ChatServer] makes become the process's. *)
Definition runServer (address : string) (port numThreads : Z) (parsed : option string)
    (bound : bool) : M W unit :=
  '(v, r, c) ← lift (ChatServer_new (Ctx := Ctx) "chatServer" (runServer_config numThreads));
  fmodify (T := TcpServer) (λ _, v) ;;
  fmodify (T := Redis Ctx) (λ _, r) ;;
  fmodify (T := ChatServer) (λ _, c) ;;
  chat_start (Ctx := Ctx) address port parsed bound.

(** [int main(int argc, char* argv[])]; [pid] is what [fork] returns.  When the
    server listens, [runServer] returns once the threads of the pool end. *)
Definition server_main (options : option server_options) (pid : Z) (parsed : option string)
    (bound : bool) : M W main_end :=
  match options with
  | None => mret (Main_returned 0)
  | Some o =>
      if so_help o then mret (Main_returned 0)
      else if so_version o then mret (Main_returned 0)
      else
        let numThreads := server_threads o in
        if so_daemon o && negb (pid =? 0) then
          if 0 <? pid then mret (Main_exited 0) else mret (Main_returned 1)
        else
          try_or (Main_returned 0) (runServer "127.0.0.1" 20000 numThreads parsed bound ;; mret (Main_returned 0))
  end.
End ServerMain.

(** ** The chat client *)

Section ClientMain.
Context {W : Type} `{FH : !Field W heap} `{FG : !Field W client_globals}.
(** [address::from_string], and what [getpid] answers. *)
Context (from_string : string → option string) (pid : Z).

(** [static void sigHandler(int sig)]: the clients, stopped, that their threads
    still own, and the code it exits with ([None]: it returns). *)
Definition sigHandler (sig : Z) : M W (list Client * option Z) :=
  set_globals (λ g, mkGlobals (g_clientVec g) (g_table g) true) ;;
  g ← globals;
  let stopped := Client_stop <$> g_clientVec g in
  set_globals (λ g, mkGlobals [] (g_table g) (g_bTerm g)) ;;
  if sig =? SIGSEGV then mret (stopped, None) else mret (stopped, Some 0).

(** One iteration of the loop [for( int16_t i=0; i<numThread; i++ )]. *)
Definition start_client (argv : list string) (uninit : Z → Msg * Z * Z) (i : Z) : M W unit :=
  s ← lift (argv_2 argv);
  _ ← lift (sprintf_id (replicate 32 0) s i);
  add_client (from_string "127.0.0.1"%string) 20000 pid (uninit i).

(** The loop from counter [i], [fuel] iterations of it: [true] when it ends. *)
Definition start_clients (fuel : nat) (argv : list string) (numThread i : Z)
    (uninit : Z → Msg * Z * Z) : M W bool :=
  for_int16 fuel numThread i (start_client argv uninit).

(** [int main(int argc, char* argv[])] on the lines typed so far.  [host] is
    computed and not used. *)
Definition client_main (fuel : nat) (argv : list string) (options : option client_options)
    (split : string → list string) (lines : list string)
    (uninit : Z → Msg * Z * Z) (uninit_msg : Client → Msg) : M W main_status :=
  match options with
  | None => mret (Main_ended (Main_returned 0))
  | Some o =>
      if co_help o then mret (Main_ended (Main_returned 0))
      else if co_version o then mret (Main_ended (Main_returned 0))
      else
        let numThread := client_threads o in
        try_or (Main_ended (Main_returned 0)) (
          set_globals (λ g, mkGlobals (g_clientVec g) ∅ (g_bTerm g)) ;;
          register_commands ;;
          ended ← start_clients fuel argv numThread 0 uninit;
          if negb ended then mret Main_starting
          else
            set_globals (λ g, mkGlobals (g_clientVec g) (g_table g) false) ;;
            quit ← readLine split uninit_msg lines;
            if negb quit then mret Main_reading
            else if numThread <=? 0 then mret (Main_ended (Main_returned 0))
            else mret Main_joining)
  end.
End ClientMain.

(** ** Lemmas *)

Section Clients.
Context {W : Type} `{FH : !Field W heap} `{FG : !Field W client_globals} `{SGH : !Separate FG FH}.
Context (from_string : string → option string) (pid : Z).
Context (parses : is_Some (from_string "127.0.0.1"%string)).
Implicit Types (w : W).

Lemma hp_globals (g : client_globals) w : hp (fset g w) = hp w.
Proof. apply (fget_fset_sep' (Separate := SGH)). Qed.

Lemma add_client_ok uninit w :
  clients_ok w → ∃ c w', add_client (from_string "127.0.0.1"%string) 20000 pid uninit w = Ok tt w' ∧
    vec w' = vec w ++ [c] ∧ g_table (fget w') = g_table (fget w) ∧ clients_ok w' ∧
    hp w !! m_session c = None ∧ ∀ p, is_Some (hp w !! p) → hp w' !! p = hp w !! p.
Proof.
  intros [Hnd Hex]. destruct parses as [a Ha]. set (p := fresh (dom (hp w))).
  assert (Hp : hp w !! p = None) by (apply not_elem_of_dom, is_fresh).
  set (s := TcpSession_client socket_new ClientConfig_default (mkEndpoint a (u16 20000)) uninit).
  set (s2 := set_socket (sk_set_connects S)
    (set_handlers (Some Client_opened) (Some Client_closed) (Some Client_message) s)).
  set (c := mkClient p pid false).
  set (g := mkGlobals (vec w ++ [c]) (g_table (fget w)) (g_bTerm (fget w))).
  assert (Hfr : ∀ q, is_Some (hp w !! q) → hp (upd p s2 w) !! q = hp w !! q).
  { intros q [x Hx]. apply lookup_upd_ne. intros ->. by rewrite Hp in Hx. }
  exists c, (fset g (upd p s2 w)). unfold clients_ok, vec. rewrite fget_fset, hp_globals.
  split_and!; try done.
  - unfold add_client. rewrite Ha.
    rewrite (bind_ok (Client_new _ _ _ _) _ c w (upd p s w)) by done.
    rewrite (bind_ok (Client_start c) _ tt _ (upd p s2 w)).
    + unfold set_globals, fmodify, modify. by rewrite globals_upd.
    + unfold Client_start, registerHandler, TcpSession_connect. cbn [m_session c]. by sess_run.
  - cbn. rewrite fmap_app. apply NoDup_app. split_and!; [done| |apply NoDup_singleton].
    intros q Hq ->%list_elem_of_singleton. apply list_elem_of_fmap in Hq as (c' & Hcq & Hc).
    destruct (Hex c' Hc) as [x Hx]. cbn in Hcq. by rewrite <- Hcq, Hp in Hx.
  - cbn. intros c' [Hc| ->%list_elem_of_singleton]%elem_of_app.
    + rewrite Hfr by by apply Hex. by apply Hex.
    + exists s2. apply lookup_upd.
Qed.

Lemma start_client_ok argv s i uninit w :
  argv !! 2%nat = Some s → (length (c_str s) ≤ 24)%nat → in_s 16 i → clients_ok w →
  ∃ c w1, start_client from_string pid argv uninit i w = Ok tt w1 ∧
    vec w1 = vec w ++ [c] ∧ g_table (fget w1) = g_table (fget w) ∧ clients_ok w1.
Proof.
  intros Hargv Hs Hi Hok. destruct (sprintf_id_ok s i Hs Hi) as [tmp Htmp].
  destruct (add_client_ok (uninit i) w Hok) as (c & w1 & Hr & Hv & Ht & Hok1 & _).
  exists c, w1. split_and!; try done. unfold start_client.
  rewrite (bind_lift _ s) by (unfold argv_2; by rewrite Hargv). by rewrite (bind_lift _ tmp).
Qed.

(** [k] iterations make [k] clients. *)
Lemma start_clients_run (fuel k : nat) argv s numThread uninit w :
  argv !! 2%nat = Some s → (length (c_str s) ≤ 24)%nat → clients_ok w →
  (∀ j : nat, (j < k)%nat → i16 (0 + Z.of_nat j) < numThread) →
  ∃ cs w', vec w' = vec w ++ cs ∧ length cs = k ∧ g_table (fget w') = g_table (fget w) ∧
    clients_ok w' ∧
    start_clients from_string pid (k + fuel) argv numThread 0 uninit w =
    start_clients from_string pid fuel argv numThread (i16 (0 + Z.of_nat k)) uninit w'.
Proof.
  intros Hargv Hs Hok Hlt. unfold start_clients.
  destruct (for_int16_run (λ j w', ∃ cs, vec w' = vec w ++ cs ∧ length cs = j ∧
      g_table (fget w') = g_table (fget w) ∧ clients_ok w')
    (start_client from_string pid argv uninit) fuel k numThread 0 w)
    as (w' & (cs & Hv & Hl & Ht & Hok') & Hr); [done|done|exists []; by rewrite app_nil_r| |].
  - intros j w1 _ (cs & Hv & Hl & Ht & Hok1).
    destruct (start_client_ok argv s (i16 (0 + Z.of_nat j)) uninit w1)
      as (c & w2 & Hr & Hv2 & Ht2 & Hok2); [done|done|by apply wrapS_range|done|].
    exists w2. split; [done|]. exists (cs ++ [c]). split_and!; [|rewrite length_app; cbn; lia|by rewrite Ht2|done].
    by rewrite Hv2, Hv, app_assoc.
  - by exists cs, w'.
Qed.

Lemma start_clients_all fuel argv s numThread uninit w :
  argv !! 2%nat = Some s → (length (c_str s) ≤ 24)%nat → clients_ok w →
  numThread < 2 ^ 15 → (Z.to_nat numThread ≤ fuel)%nat →
  ∃ cs w', start_clients from_string pid fuel argv numThread 0 uninit w = Ok true w' ∧
    vec w' = vec w ++ cs ∧ Z.of_nat (length cs) = Z.max 0 numThread ∧
    g_table (fget w') = g_table (fget w) ∧ clients_ok w'.
Proof.
  intros Hargv Hs Hok Hn Hf. unfold start_clients.
  destruct (for_int16_all (λ j w', ∃ cs, vec w' = vec w ++ cs ∧ length cs = j ∧
      g_table (fget w') = g_table (fget w) ∧ clients_ok w')
    (start_client from_string pid argv uninit) fuel numThread w)
    as (w' & (cs & Hv & Hl & Ht & Hok') & Hr); [done|done|exists []; by rewrite app_nil_r| |].
  - intros j w1 Hj (cs & Hv & Hl & Ht & Hok1).
    destruct (start_client_ok argv s (Z.of_nat j) uninit w1) as (c & w2 & Hr & Hv2 & Ht2 & Hok2);
      [done|done|unfold in_s; cbn; lia|done|].
    exists w2. split; [done|]. exists (cs ++ [c]). split_and!; [|rewrite length_app; cbn; lia|by rewrite Ht2|done].
    by rewrite Hv2, Hv, app_assoc.
  - exists cs, w'. split_and!; try done. lia.
Qed.

(** The commands the table of the chat client has. *)
Definition chat_commands : gmap string command :=
  {["create" := CmdCreateUser; "send" := CmdSendMessge; "stop" := CmdStop]}%string.

Lemma registerCommand_ok c cmd w :
  g_table (fget w) !! cmd = None →
  registerCommand c cmd w =
    Ok true (fset (mkGlobals (vec w) (<[cmd := c]> (g_table (fget w))) (g_bTerm (fget w))) w).
Proof. intros Hc. unfold registerCommand. rewrite bind_globals. by rewrite Hc. Qed.

Lemma register_commands_ok w :
  g_table (fget w) = ∅ →
  register_commands w = Ok tt (fset (mkGlobals (vec w) chat_commands (g_bTerm (fget w))) w).
Proof.
  intros Ht. unfold register_commands.
  rewrite (bind_ok _ _ _ _ _ (registerCommand_ok CmdCreateUser "create" w ltac:(by rewrite Ht))).
  set (w1 := fset _ w).
  assert (H1 : fget w1 = mkGlobals (vec w) (<["create"%string := CmdCreateUser]> (g_table (fget w))) (g_bTerm (fget w)))
    by apply fget_fset.
  rewrite (bind_ok _ _ _ _ _ (registerCommand_ok CmdSendMessge "send" w1 ltac:(by rewrite H1, Ht))).
  set (w2 := fset _ w1).
  assert (H2 : fget w2 = mkGlobals (vec w1) (<["send"%string := CmdSendMessge]> (g_table (fget w1))) (g_bTerm (fget w1)))
    by apply fget_fset.
  rewrite (bind_ok _ _ _ _ _ (registerCommand_ok CmdStop "stop" w2 ltac:(by rewrite H2, H1, Ht))).
  unfold mret, M_ret. f_equal. unfold w2, w1, vec. rewrite !fget_fset, !fset_fset. cbn.
  f_equal. f_equal. rewrite Ht. apply (bool_decide_unpack _). by vm_compute.
Qed.

Lemma bind_set_globals {B} f (k : unit → M W B) w :
  (set_globals f ≫= k) w = k tt (fset (f (fget w)) w).
Proof. done. Qed.

(** What [main] has done before the loop. *)
Definition registered w : W := fset (mkGlobals (vec w) chat_commands (g_bTerm (fget w))) w.

Lemma client_main_loop fuel argv o split lines uninit uninit_msg w :
  co_help o = false → co_version o = false →
  let n := client_threads o in
  client_main from_string pid fuel argv (Some o) split lines uninit uninit_msg w =
    try_or (Main_ended (Main_returned 0)) (
      ended ← start_clients from_string pid fuel argv n 0 uninit;
      if negb ended then mret Main_starting
      else
        set_globals (λ g, mkGlobals (g_clientVec g) (g_table g) false) ;;
        quit ← readLine split uninit_msg lines;
        if negb quit then mret Main_reading
        else if n <=? 0 then mret (Main_ended (Main_returned 0)) else mret Main_joining) (registered w).
Proof.
  intros Hh Hv n. unfold client_main. rewrite Hh, Hv. fold n. unfold try_or.
  rewrite bind_set_globals. fold (vec w).
  set (w0 := fset (mkGlobals (vec w) ∅ (g_bTerm (fget w))) w).
  assert (H0 : fget w0 = mkGlobals (vec w) ∅ (g_bTerm (fget w))) by apply fget_fset.
  rewrite (bind_ok _ _ _ _ _ (register_commands_ok w0 ltac:(by rewrite H0))).
  unfold vec at 1. rewrite H0. cbn [g_clientVec g_bTerm]. unfold w0. by rewrite fset_fset.
Qed.

(** After the signal handler the table of clients is empty, the clients it held
    are stopped, and a command loop it returns to ends at its next test. *)
Lemma sigHandler_ends_loop sig split uninit_msg lines w :
  ∃ w', sigHandler sig w = Ok (Client_stop <$> vec w, if sig =? SIGSEGV then None else Some 0) w' ∧
    vec w' = [] ∧ readLine split uninit_msg lines w' = Ok true w'.
Proof.
  unfold sigHandler. rewrite bind_set_globals, bind_globals, bind_set_globals.
  set (w1 := fset _ w). set (w2 := fset _ w1).
  assert (H1 : fget w1 = mkGlobals (vec w) (g_table (fget w)) true) by apply fget_fset.
  assert (H2 : fget w2 = mkGlobals [] (g_table (fget w1)) (g_bTerm (fget w1))) by apply fget_fset.
  exists w2. rewrite H1. split_and!.
  - by destruct (sig =? SIGSEGV).
  - unfold vec. by rewrite H2.
  - destruct lines; cbn [readLine]; rewrite bind_globals, H2, H1; done.
Qed.

(** ** Properties *)

(** C22: the loop that starts the clients ends exactly for a thread count an
    [int16_t] can reach.  With a second argument of at most 24 characters, up
    to 32767 threads make as many clients, each with a session of its own,
    in as many iterations; from 32768 on the counter wraps around before it
    reaches the count, and however many iterations are allowed the loop goes
    on making clients. *)
Theorem start_clients_ends argv s numThread uninit w :
  argv !! 2%nat = Some s → (length (c_str s) ≤ 24)%nat → clients_ok w →
  (numThread < 2 ^ 15 → ∀ fuel, (Z.to_nat numThread ≤ fuel)%nat →
     ∃ cs w', start_clients from_string pid fuel argv numThread 0 uninit w = Ok true w' ∧
       vec w' = vec w ++ cs ∧ Z.of_nat (length cs) = Z.max 0 numThread ∧ clients_ok w') ∧
  (2 ^ 15 <= numThread → ∀ fuel,
     ∃ cs w', start_clients from_string pid fuel argv numThread 0 uninit w = Ok false w' ∧
       vec w' = vec w ++ cs ∧ length cs = fuel ∧ clients_ok w').
Proof.
  intros Hargv Hs Hok. split; intros Hn fuel.
  - intros Hf. destruct (start_clients_all fuel argv s numThread uninit w) as (cs & w' & ?); try done.
    exists cs, w'. naive_solver.
  - assert (Hlt : ∀ j, i16 (0 + j) < numThread).
    { intros j. pose proof (wrapS_range 16 (0 + j) ltac:(lia)) as Hr. unfold in_s in Hr. cbn in Hr. lia. }
    destruct (start_clients_run 0 fuel argv s numThread uninit w) as (cs & w' & Hv & Hl & _ & Hok' & Hr);
      try done.
    exists cs, w'. rewrite Nat.add_0_r in Hr. split_and!; try done. rewrite Hr. unfold start_clients; cbn [for_int16].
    specialize (Hlt (Z.of_nat fuel)). by destruct (Z.ltb_spec (i16 (0 + Z.of_nat fuel)) numThread); [|lia].
Qed.

(** what the client's [main] sets up.  From the start of the process, with a
    second argument of at most 24 characters and at most 32767 threads, it
    waits for a line with the three commands registered, the termination flag
    cleared and as many clients as asked for, each with its own session;
    [quit] makes it wait for their threads, or return 0 if there are none. *)
Theorem client_main_ready fuel argv s o split uninit uninit_msg w :
  co_help o = false → co_version o = false →
  argv !! 2%nat = Some s → (length (c_str s) ≤ 24)%nat → vec w = [] →
  let n := client_threads o in
  n < 2 ^ 15 → (Z.to_nat n ≤ fuel)%nat →
  ∃ w', client_main from_string pid fuel argv (Some o) split [] uninit uninit_msg w = Ok Main_reading w' ∧
    g_table (fget w') = chat_commands ∧ g_bTerm (fget w') = false ∧
    Z.of_nat (length (vec w')) = Z.max 0 n ∧ clients_ok w' ∧
    ∃ w2, client_main from_string pid fuel argv (Some o) split ["quit"%string] uninit uninit_msg w =
        Ok (if n <=? 0 then Main_ended (Main_returned 0) else Main_joining) w2 ∧
      g_bTerm (fget w2) = true ∧ vec w2 = vec w'.
Proof.
  intros Hh Hv Hargv Hs Hnil n Hn Hf.
  assert (Hg : fget (registered w) = mkGlobals (vec w) chat_commands (g_bTerm (fget w))) by apply fget_fset.
  assert (Hvr : vec (registered w) = []) by (unfold vec; by rewrite Hg).
  assert (Hok : clients_ok (registered w)).
  { split; rewrite Hvr; [constructor|]. by intros c Hc%not_elem_of_nil. }
  destruct (start_clients_all fuel argv s n uninit (registered w)) as (cs & w' & Hr & Hvec & Hl & Ht & Hok');
    try done.
  set (w2 := fset (mkGlobals (vec w') (g_table (fget w')) false) w').
  assert (H2 : fget w2 = mkGlobals (vec w') (g_table (fget w')) false) by apply fget_fset.
  assert (Hm : ∀ lines,
    client_main from_string pid fuel argv (Some o) split lines uninit uninit_msg w =
    try_or (Main_ended (Main_returned 0)) (
      quit ← readLine split uninit_msg lines;
      if negb quit then mret Main_reading
      else if n <=? 0 then mret (Main_ended (Main_returned 0)) else mret Main_joining) w2).
  { intros lines. rewrite client_main_loop by done. fold n. unfold try_or.
    by rewrite (bind_ok _ _ _ _ _ Hr). }
  rewrite !Hm. unfold try_or. cbn [readLine]. rewrite !bind_assoc, !bind_globals, H2. cbn [g_bTerm].
  exists w2. split_and!; [done|by rewrite H2, Ht, Hg|by rewrite H2| | |].
  - unfold vec. rewrite H2. cbn. by rewrite Hvec, Hvr.
  - unfold clients_ok, vec, w2. rewrite fget_fset, hp_globals. exact Hok'.
  - unfold readLine_step. rewrite decide_False, decide_True by done.
    rewrite !bind_assoc, bind_set_globals, H2.
    set (w3 := fset (mkGlobals _ _ _) w2).
    assert (H3 : fget w3 = mkGlobals (vec w') (g_table (fget w')) true) by apply fget_fset.
    exists w3. unfold vec at 1 2. rewrite H3, H2. split; [by destruct (n <=? 0)|done].
Qed.

(** [argv[2]] is used whatever the command line is.  With at least one client
    to start, [main] reads past the argument vector when it is run without an
    argument, dereferences the null pointer that ends the vector when it is
    run with one, and overflows its 32-byte buffer when the second one has 30
    characters or more. *)
Theorem client_main_argument fuel argv o split lines uninit uninit_msg w :
  co_help o = false → co_version o = false →
  0 < client_threads o →
  let main := client_main from_string pid (S fuel) argv (Some o) split lines uninit uninit_msg w in
  (length argv = 1%nat → main = Undef UB_out_of_range) ∧
  (length argv = 2%nat → main = Undef UB_null) ∧
  (∀ s, argv !! 2%nat = Some s → (30 ≤ length (c_str s))%nat → main = Undef UB_buffer_overflow).
Proof.
  intros Hh Hv Hn main.
  assert (Hbad : ∀ u, (s ← argv_2 argv; sprintf_id (replicate 32 0) s 0) = Bad u → main = Undef u).
  { intros u Hu. unfold main. rewrite client_main_loop by done.
    assert (E : start_clients from_string pid (S fuel) argv (client_threads o) 0 uninit (registered w) = Undef u).
    { unfold start_clients, start_client. cbn [for_int16].
      destruct (Z.ltb_spec 0 (client_threads o)); [|lia]. rewrite bind_assoc.
      destruct (argv_2 argv) as [s|u']; cbn in Hu; [|by injection Hu as ->].
      rewrite (bind_lift _ s) by done. by rewrite bind_assoc, (bind_lift_bad _ u). }
    unfold try_or, mbind, M_bind. by rewrite E. }
  clearbody main. unfold argv_2 in Hbad. split_and!.
  - intros Hl. apply Hbad. rewrite lookup_ge_None_2 by lia. by rewrite Hl.
  - intros Hl. apply Hbad. rewrite lookup_ge_None_2 by lia. by rewrite Hl.
  - intros s Hs Hlen. apply Hbad. rewrite Hs. cbn [mbind cres_bind].
    unfold sprintf_id. rewrite length_app, length_replicate. cbn [length].
    change (length (c_str (to_string 0))) with 1%nat.
    by destruct (Nat.ltb_spec (length (c_str s) + 2) 32); [lia|].
Qed.
End Clients.

(** ** The chat server's [main] *)

Section Server.
Context {W : Type} {Ctx : Type} `{HR : !Hiredis Ctx}.
Context `{FH : !Field W heap} `{FS : !Field W TcpServer} `{FR : !Field W (Redis Ctx)}.
Context `{FC : !Field W ChatServer}.
Context `{SEP : !Separate FS FH} `{SRH : !Separate FR FH} `{SRS : !Separate FR FS}.
Context `{SCH : !Separate FC FH} `{SCS : !Separate FC FS} `{SCR : !Separate FC FR}.
Implicit Types (w : W).

(** The process after [new ChatServer(name, config)]. *)
Definition constructed (v : TcpServer) (c : ChatServer) w : W :=
  fset c (fset (Redis_new (Ctx := Ctx)) (fset v w)).

Lemma constructed_fields v c w :
  hp (constructed v c w) = hp w ∧ sv (constructed v c w) = v ∧
  (fget (constructed v c w) : Redis Ctx) = Redis_new ∧ (fget (constructed v c w) : ChatServer) = c.
Proof.
  unfold constructed, hp, sv. split_and!.
  - rewrite (fget_fset_sep' (Separate := SCH)), (fget_fset_sep' (Separate := SRH)).
    apply (fget_fset_sep' (Separate := SEP)).
  - rewrite (fget_fset_sep' (Separate := SCS)), (fget_fset_sep' (Separate := SRS)). apply fget_fset.
  - rewrite (fget_fset_sep' (Separate := SCR)). apply fget_fset.
  - apply fget_fset.
Qed.

Lemma runServer_zero port parsed bound w :
  runServer (Ctx := Ctx) "127.0.0.1" port 0 parsed bound w = Undef UB_out_of_range.
Proof.
  unfold runServer. rewrite (bind_lift_bad _ UB_out_of_range); [done|].
  unfold ChatServer_new. rewrite TcpServer_new_ok by (split; done). done.
Qed.

(** What [runServer] constructs with [n] threads. *)
Lemma runServer_constructed n port parsed bound w :
  0 < n < 2 ^ 31 →
  ∃ pool k v c, TcpServer_new "chatServer" (runServer_config n) = Val v ∧
    getIoService (sv_ioServicePool v) = Val (k, pool) ∧ sv_acceptor v = None ∧
    runServer (Ctx := Ctx) "127.0.0.1" port n parsed bound w =
      chat_start (Ctx := Ctx) "127.0.0.1" port parsed bound
        (constructed (sv_set_pool (λ _, pool) v) c w).
Proof.
  intros Hn. set (config := runServer_config n).
  assert (Ht : sc_threadCount config = n) by (cbn; apply wrapU_id; unfold in_u; lia).
  destruct (getIoService_ok 0 (IoServicePool_new n)) as (pool & Hg & _).
  { unfold next_is. rewrite m_ios_new, m_next_new, length_replicate. split; [lia|by left]. }
  eexists pool, 0%nat, _, _. rewrite TcpServer_new_ok by done. rewrite Ht.
  split_and!; [done|exact Hg|done|]. unfold runServer.
  rewrite (bind_lift _ (sv_set_pool (λ _, pool) (mkTcpServer "chatServer" config Server_Ready
    (IoServicePool_new n) (seqZ 1 (sc_maxSession config)) ∅ None None None None None 0),
    Redis_new, mkChatServer 0 ∅ ∅)).
  - rewrite !bind_fmodify. reflexivity.
  - unfold ChatServer_new. fold config. rewrite TcpServer_new_ok by done. rewrite Ht. cbn [mbind cres_bind sv_ioServicePool].
    by rewrite Hg.
Qed.

Lemma runServer_listens n a w :
  0 < n < 2 ^ 31 → hp w = ∅ →
  ∃ w', runServer (Ctx := Ctx) "127.0.0.1" 20000 n (Some a) true w = Ok tt w' ∧
    match redisConnect "127.0.0.1" REDIS_PORT with
    | Some c =>
        if ctx_err c then sv_acceptor (sv w') = None
        else running (chat_callbacks (Ctx := Ctx)) w' ∧ sv_state (sv w') = Server_Start ∧
          sv_accepts (sv w') = 1%nat ∧
          sv_messageHandler (sv w') = Some ChatServer_message ∧
          (ac_ep <$> sv_acceptor (sv w')) = Some (mkEndpoint a 20000) ∧
          context_ (fget w' : Redis Ctx) = Some c
    | None => sv_acceptor (sv w') = None
    end.
Proof.
  intros Hn Hh.
  destruct (runServer_constructed n 20000 (Some a) true w Hn) as (pool & k & v & c & Hnew & Hg & Hac & ->).
  set (w0 := constructed _ _ _).
  destruct (constructed_fields (sv_set_pool (λ _, pool) v) c w) as (Hhp & Hsv & Hred & _). fold w0 in Hhp, Hsv, Hred.
  assert (Ht : sc_threadCount (runServer_config n) = n) by (cbn; apply wrapU_id; unfold in_u; lia).
  destruct (chat_start_spec (Ctx := Ctx) "127.0.0.1" 20000 a "chatServer" (runServer_config n) v w0)
    as [Hno Hyes].
  { exact Hnew. }
  { by apply (bool_decide_unpack _). }
  { cbn. lia. }
  { rewrite Ht. lia. }
  { exists k, pool. by split. }
  { by rewrite Hhp. }
  rewrite Hred in *. cbn [port_ Redis_new] in *.
  destruct (redisConnect "127.0.0.1" REDIS_PORT) as [x|] eqn:Ex; [destruct (ctx_err x) eqn:Ee|].
  - destruct Hno as (w' & Hr & Hs & _); [by intros (y & [= <-] & Hy); rewrite Ee in Hy|].
    exists w'. split; [exact Hr|]. rewrite Hs, Hsv. exact Hac.
  - destruct (Hyes x eq_refl Ee) as (w' & Hr & Hrn & _ & _ & Hw'). exists w'. split; [exact Hr|exact (conj Hrn Hw')].
  - destruct Hno as (w' & Hr & Hs & _); [by intros (y & [=] & _)|].
    exists w'. split; [exact Hr|]. rewrite Hs, Hsv. exact Hac.
Qed.

(** the server program from its options to the running server.  It ends with
    status 0 for [help], for [version], for a command line that does not parse
    and in the parent of a daemon, and with 1 only when the fork fails.
    Otherwise it is undefined for zero threads; with at least one it constructs
    the chat server, and either redis cannot be reached, and it returns 0
    without having listened, or the process is a running chat server that
    listens on port 20000 of the address, with redis connected and one accept
    outstanding. *)
Theorem server_main_spec options pid a w :
  hp w = ∅ →
  let main := server_main (Ctx := Ctx) options pid (Some a) true in
  match options with
  | None => main w = Ok (Main_returned 0) w
  | Some o =>
      if so_help o || so_version o then main w = Ok (Main_returned 0) w
      else if so_daemon o && (pid <? 0) then main w = Ok (Main_returned 1) w
      else if so_daemon o && (0 <? pid) then main w = Ok (Main_exited 0) w
      else
        (server_threads o = 0 → main w = Undef UB_out_of_range) ∧
        (0 < server_threads o < 2 ^ 31 →
           ∃ w', main w = Ok (Main_returned 0) w' ∧
             match redisConnect "127.0.0.1" REDIS_PORT with
             | Some c =>
                 if ctx_err c then sv_acceptor (sv w') = None
                 else running (chat_callbacks (Ctx := Ctx)) w' ∧ sv_state (sv w') = Server_Start ∧
                   sv_accepts (sv w') = 1%nat ∧
                   sv_messageHandler (sv w') = Some ChatServer_message ∧
                   (ac_ep <$> sv_acceptor (sv w')) = Some (mkEndpoint a 20000) ∧
                   context_ (fget w' : Redis Ctx) = Some c
             | None => sv_acceptor (sv w') = None
             end)
  end.
Proof.
  intros Hh main. unfold main, server_main. destruct options as [o|]; [|done].
  destruct (so_help o); [done|]. destruct (so_version o); [done|]. cbn [orb].
  assert (Hrun := λ Hn, runServer_listens (server_threads o) a w Hn Hh).
  destruct (so_daemon o); cbn [andb]; [case_cmp; try lia; try done; cbn [negb]|].
  all: split; [intros ->; unfold try_or, mbind, M_bind; by rewrite runServer_zero|].
  all: intros Hn; destruct (Hrun Hn) as (w' & Hr & Hw'); exists w'; split; [|exact Hw'].
  all: unfold try_or; by rewrite (bind_ok _ _ _ _ _ Hr).
Qed.
End Server.

(** ** Instances at concrete inputs *)

Definition two_clients : client_options := mkClientOptions false false None (Some 2).
Definition client_argv : list string := ["client"; "-t"; "2"]%string.

Lemma client0_ok : clients_ok client0.
Proof. split; [constructor|]. by intros c Hc%not_elem_of_nil. Qed.

Lemma start_clients_ends_witness :
  (∃ cs w', start_clients Some 100 5 client_argv 2 0 (λ _, uninit0) client0 = Ok true w' ∧
     vec w' = cs ∧ Z.of_nat (length cs) = 2) ∧
  ∃ cs w', start_clients Some 100 4 client_argv 40000 0 (λ _, uninit0) client0 = Ok false w' ∧
     length cs = 4%nat ∧ vec w' = cs.
Proof.
  split.
  - destruct (proj1 (start_clients_ends Some 100 ltac:(by eexists) client_argv "2" 2 (λ _, uninit0) client0
      eq_refl ltac:(apply Nat.leb_le; vm_compute; reflexivity) client0_ok) ltac:(done) 5%nat)
      as (cs & w' & Hr & Hv & Hl & _); [apply Nat.leb_le; vm_compute; reflexivity|].
    exists cs, w'. split; [exact Hr|]. split; [exact Hv|exact Hl].
  - destruct (proj2 (start_clients_ends Some 100 ltac:(by eexists) client_argv "2" 40000 (λ _, uninit0) client0
      eq_refl ltac:(apply Nat.leb_le; vm_compute; reflexivity) client0_ok) ltac:(done) 4%nat)
      as (cs & w' & Hr & Hv & Hl & _).
    exists cs, w'. split; [exact Hr|]. split; [exact Hl|exact Hv].
Defined.

Lemma client_main_ready_witness :
  ∃ w', client_main Some 100 2 client_argv (Some two_clients) split2 [] (λ _, uninit0) any_msg client0 =
      Ok Main_reading w' ∧ g_table (fget w') = chat_commands ∧ Z.of_nat (length (vec w')) = 2.
Proof.
  destruct (client_main_ready Some 100 ltac:(by eexists) 2 client_argv "2" two_clients split2 (λ _, uninit0)
    any_msg client0) as (w' & Hr & Ht & _ & Hl & _).
  - reflexivity.
  - reflexivity.
  - reflexivity.
  - apply Nat.leb_le. vm_compute. reflexivity.
  - vm_compute. reflexivity.
  - vm_compute. reflexivity.
  - apply Nat.leb_le. vm_compute. reflexivity.
  - exists w'. split; [exact Hr|]. split; [exact Ht|exact Hl].
Defined.

Lemma client_main_argument_witness :
  client_main Some 100 1 ["client"]%string (Some (mkClientOptions false false None None)) split2 []
    (λ _, uninit0) any_msg client0 = Undef UB_out_of_range.
Proof.
  refine (proj1 (client_main_argument Some 100 0 ["client"]%string
    (mkClientOptions false false None None) split2 [] (λ _, uninit0) any_msg client0 _ _ _) _);
    try reflexivity.
Defined.

#[export] Instance cw_chat_heap : Separate cw_chat cw_heap.
Proof. by split. Qed.
#[export] Instance cw_chat_server : Separate cw_chat cw_server.
Proof. by split. Qed.
#[export] Instance cw_chat_redis : Separate cw_chat cw_redis.
Proof. by split. Qed.

Definition daemon_options : server_options := mkServerOptions false false true (Some 2).

Lemma chat0_no_session : hp chat0 = ∅.
Proof. vm_compute. reflexivity. Qed.

Lemma server_main_spec_witness :
  server_main (W := chat_world) (Ctx := nat) (Some daemon_options) 7 (Some "127.0.0.1"%string) true chat0 =
    Ok (Main_exited 0) chat0 ∧
  ∃ w', server_main (W := chat_world) (Ctx := nat) (Some daemon_options) 0 (Some "127.0.0.1"%string) true chat0 =
    Ok (Main_returned 0) w' ∧ running demo_chat w' ∧ sv_accepts (sv w') = 1%nat.
Proof.
  split.
  - exact (server_main_spec (W := chat_world) (Ctx := nat) (Some daemon_options) 7 "127.0.0.1" chat0 chat0_no_session).
  - destruct (proj2 (server_main_spec (W := chat_world) (Ctx := nat) (Some daemon_options) 0 "127.0.0.1" chat0 chat0_no_session))
      as (w' & Hr & Hw'); [by vm_compute|].
    cbn in Hw'. destruct Hw' as (Hrun & _ & Ha & _). exists w'. split; [exact Hr|]. split; [exact Hrun|exact Ha].
Defined.
