(* ===== verification/ChatSystem.v ===== *)
(** * The chat system: from a line typed at one client to the others' objects

    The programs composed: the command loop and the send path of a client
    process (ChatClient, TcpSend), the network, the receive path, the relay and
    the send path of the chat server (TcpRecv, ChatServer, ChatRelay), the
    network again, and the receive path of another client.  The processes have
    separate states; what one socket sends is what the other one's reads get. *)
From S2P Require Import Prelude Config Msg Session TcpSession TcpSend TcpRecv IoServicePool TcpServer ServerInv ServerProps Redis ChatServer ChatProps ChatRelay ChatClient ChatMain.

(** ** Sending what is queued *)

(** Nothing is queued and no write is outstanding. *)
Definition tx_idle (s : TcpSession) : Prop := ts_sendQue s = [] ∧ sk_writes (ts_socket s) = [].

#[export] Instance tx_idle_dec s : Decision (tx_idle s).
Proof. unfold tx_idle. apply _. Defined.

(** [n] completions of the session's outstanding write. *)
Definition drain {W} `{FH : !Field W heap, CB : !Callbacks W} (n : nat) (p : ptr) : M W unit :=
  forM_ (replicate n Tx_done) (tx_exec p).

Section Drain.
Context {W : Type} `{FH : !Field W heap} `{CB : !Callbacks W}.

Lemma pushes_steps l s : pushes l s = foldl tx_step s (Tx_send <$> l).
Proof. revert s. induction l as [|m l IH]; intros s; cbn; [done|]. by rewrite <- IH. Qed.

Lemma tx_sends_sends l : tx_sends (Tx_send <$> l) = l.
Proof. induction l as [|m l IH]; cbn; [done|]. by rewrite <- IH at 2. Qed.

(** Messages queued on an idle session are on the wire after as many completions. *)
Lemma drain_pushes p l s w :
  tx_idle s → Forall sendable l → hp w !! p = Some (pushes l s) →
  ∃ s', drain (length l) p w = Ok tt (upd p s' w) ∧ tx_idle s' ∧
    sk_out (ts_socket s') = sk_out (ts_socket s) ++ wire l.
Proof.
  intros [Hq Hw] Hl Hs.
  assert (Hok : queue_ok s) by (unfold queue_ok, tx_ok; by rewrite Hq, Hw).
  assert (Hok' : queue_ok (pushes l s)).
  { rewrite pushes_steps. apply tx_steps_queue_ok; [done|]. by rewrite tx_sends_sends. }
  set (evs := replicate (length l) Tx_done). set (s' := foldl tx_step (pushes l s) evs).
  assert (Hs0 : Forall sendable (tx_sends evs)) by (unfold evs; rewrite tx_sends_done; constructor).
  assert (Hdr : ts_sendQue s' = []) by (apply drain_steps; by rewrite pushes_queue, Hq).
  exists s'. split; [by apply tx_run_ok|]. split.
  - split; [done|]. destruct (tx_steps_queue_ok _ evs Hok' Hs0) as [Htx _].
    unfold tx_ok in Htx. fold s' in Htx. by rewrite Hdr in Htx.
  - pose proof (tx_steps_wire (pushes l s) evs) as E. cbn zeta in E. fold s' in E.
    unfold evs in E. rewrite Hdr, tx_sends_done, pushes_queue, Hq in E.
    unfold wire in E at 1 3. cbn in E. rewrite !app_nil_r in E. rewrite E. f_equal.
    by rewrite (pushes_proj (λ s, sk_out (ts_socket s))) by apply push_send_out.
Qed.
End Drain.

(** ** Lines typed at a client *)

(** A line the command loop takes for a [send] of [text]. *)
Definition sends (split : string → list string) (str text : string) : Prop :=
  str ≠ EmptyString ∧ str ≠ "quit"%string ∧ str ≠ "?"%string ∧ str ≠ "help"%string ∧
  split str !! 0%nat = Some "send"%string ∧ split str !! 1%nat = Some text ∧
  (length (c_str text) < 256)%nat.

(** A message the server relays whose text is [text]. *)
Definition carries (text : string) (m : Msg) : Prop :=
  relayable m ∧ bodyLength m = 256 ∧ chat_text m = Some (length (c_str text)) ∧
  take (length (c_str text)) (msg_body m) = c_str text.

Lemma carries_sendable texts ms : Forall2 carries texts ms → Forall sendable ms ∧ Forall relayable ms.
Proof.
  induction 1 as [|t m texts ms (Hr & _) _ [IH1 IH2]]; [by split|].
  split; constructor; try done. apply Hr.
Qed.

Section Client.
Context {W : Type} `{FH : !Field W heap} `{FG : !Field W client_globals} `{SGH : !Separate FG FH}.
Implicit Types (w : W) (c : Client).

Lemma sends_step split uninit str text w :
  sends split str text → g_table (fget w) !! "send"%string = Some CmdSendMessge →
  readLine_step split uninit str w =
    (CmdSendMessge_handle (split str) uninit ;; mret None) w.
Proof.
  intros (H1 & H2 & H3 & H4 & H0 & _) Ht. unfold readLine_step.
  rewrite !decide_False by (by first [done|intros [?|?]]).
  rewrite (bind_lift _ "send"%string) by by rewrite H0. rewrite bind_globals. by rewrite Ht.
Qed.

(** The command loop on [send] lines: every client's session is sent one message per line. *)
Lemma readLine_sends split uninit lines texts w :
  Forall2 (sends split) lines texts → clients_ok w → (∀ c, body_ok (msg_body (uninit c))) →
  g_bTerm (fget w) = false → g_table (fget w) !! "send"%string = Some CmdSendMessge →
  ∃ w', readLine split uninit lines w = Ok false w' ∧ (fget w' : client_globals) = fget w ∧
    ∀ c s, c ∈ vec w → hp w !! m_session c = Some s →
      ∃ ms, hp w' !! m_session c = Some (pushes ms s) ∧ Forall2 carries texts ms.
Proof.
  intros Hl Hok Hu. revert w Hok. induction Hl as [|str text lines texts Hs _ IH]; intros w Hok Hb Ht.
  - exists w. cbn [readLine]. rewrite bind_globals, Hb. split_and!; [done..|].
    intros c s _ Hc. exists []. by split; [|constructor].
  - pose proof Hs as (_ & _ & _ & _ & _ & H1 & Hlen).
    destruct (send_command_relayable (split str) text uninit w Hok Hu H1 Hlen)
      as (w1 & Hr & Hg & Hin & _).
    assert (Hok1 : clients_ok w1).
    { destruct Hok as [Hnd Hex]. unfold clients_ok, vec. rewrite Hg. split; [done|].
      intros c Hc. destruct (Hex c Hc) as [s Hcs]. destruct (Hin c s Hc Hcs) as (m & Hm & _). by eexists. }
    destruct (IH w1 Hok1) as (w' & Hr' & Hg' & Hin'); [by rewrite Hg..|].
    exists w'. split_and!; [|by rewrite Hg'|].
    + cbn [readLine]. rewrite bind_globals, Hb.
      rewrite (bind_ok _ _ None w w1); [done|]. rewrite (sends_step split uninit str text) by done.
      by rewrite (bind_ok _ _ _ _ _ Hr).
    + intros c s Hc Hcs. destruct (Hin c s Hc Hcs) as (m & Hm & Hcar).
      destruct (Hin' c (push_send m s)) as (ms & Hms & Hall); [by unfold vec; rewrite Hg|done|].
      exists (m :: ms). split; [done|]. by constructor.
Qed.

(** The receiving client, with what its object holds in the end. *)
Lemma client_reads p s ms w :
  hp w !! p = Some s → waiting_header s → msg_ok (ts_msg s) →
  ts_messageHandler s = Some Client_message → ts_rx s = u64 (ts_rx s) → Forall acceptable ms →
  ∃ w' s', pump (CB := client_callbacks) (whole_reads ms) p (wire ms) w = Ok [] w' ∧
    hp w' !! p = Some s' ∧ waiting_header s' ∧
    ts_msg s' = foldl (λ old m, received m old) (ts_msg s) ms.
Proof.
  intros Hs Hwh Hok Hh Hrx Hms.
  destruct (pump_delivers (CB := client_callbacks) (λ _ _, True) p Client_message ms)
    with (ms := ms) (done := @nil Msg) (s := s) (w := w)
    as (w' & s' & Hr & _ & Hs' & Hwh' & _ & Hlast); try done; [|by exists w', s'].
  intros done m rest old s1 w1 _ _ Hs1 _ _ _. exists w1, [].
  split; [|split; [done|exact Hs1]].
  cbn. unfold Client_messageHandler, TcpSession_getMsg, TcpSession_getID. sess_run.
  by repeat case_match.
Qed.
End Client.


(** The last message read determines the text in the object. *)
Lemma received_carries text m old :
  carries text m → strlen (msg_body (received m old)) = Some (length (c_str text)) ∧
    take (length (c_str text)) (msg_body (received m old)) = c_str text.
Proof.
  intros (Hrel & Hb & Ht & Htk). split; [by apply chat_text_received|].
  pose proof (length_take_body m (proj1 (proj1 Hrel))) as Hl.
  assert (Hle : (length (c_str text) < Z.to_nat (bodyLength m))%nat).
  { unfold chat_text in Ht. apply strlen_Some in Ht as [Ht%lookup_lt_Some _]. lia. }
  unfold received, splice. cbn [msg_body]. rewrite take_0, app_nil_l.
  rewrite take_app_le by (rewrite Hl; lia). rewrite take_take, Nat.min_l by lia. done.
Qed.

Lemma fold_received texts ms old text :
  Forall2 carries texts ms → last texts = Some text →
  let m := foldl (λ old m, received m old) old ms in
  strlen (msg_body m) = Some (length (c_str text)) ∧ take (length (c_str text)) (msg_body m) = c_str text.
Proof.
  intros Hc. revert old. induction Hc as [|t m texts ms Hm Hms IH]; intros old Hlast; [done|].
  destruct texts as [|t' texts].
  - inversion Hms; subst. injection Hlast as ->. by apply received_carries.
  - by apply IH.
Qed.

(** ** The whole way *)

Section System.
Context {WC : Type} `{FHC : !Field WC heap} `{FGC : !Field WC client_globals} `{SGC : !Separate FGC FHC}.
Context {WS : Type} {Ctx : Type} `{HR : !Hiredis Ctx}.
Context `{FH : !Field WS heap} `{FS : !Field WS TcpServer} `{FR : !Field WS (Redis Ctx)}.
Context `{SEP : !Separate FS FH} `{SRH : !Separate FR FH} `{SRS : !Separate FR FS}.

Abbreviation chat := (chat_callbacks (W := WS) (Ctx := Ctx)).

(** A client process whose command loop is ready for a [send]. *)
Definition client_ready (w : WC) : Prop :=
  clients_ok w ∧ g_bTerm (fget w) = false ∧ g_table (fget w) !! "send"%string = Some CmdSendMessge.

(** The reads of the frames of [n] lines when each takes all that it asked for. *)
Definition line_reads (n : nat) : list nat := concat (replicate n [8; 256]%nat).

Lemma whole_reads_carries texts ms : Forall2 carries texts ms → whole_reads ms = line_reads (length ms).
Proof.
  unfold whole_reads, line_reads. induction 1 as [|t m texts ms (_ & Hb & _) _ IH]; [done|].
  cbn [fmap list_fmap concat length replicate]. by rewrite Hb, IH.
Qed.

(** A session that has read everything and waits for a header, with [h] to call. *)
Definition reads_with (h : handler) (s : TcpSession) : Prop :=
  waiting_header s ∧ msg_ok (ts_msg s) ∧ ts_messageHandler s = Some h ∧ ts_rx s = u64 (ts_rx s).

(** C6: lines typed at one client arrive at the others, if the texts have fewer
    than 256 bytes (a longer one overflows the [strcpy] of the command:
    [send_command_undefined]) and if every read takes all it asked for, eight
    bytes and 256 bytes in turn ([async_read_some] does not promise it:
    [short_header_read]).  Any number of such [send] lines makes the client's
    session transmit, in as many write completions, one frame per line; a
    running chat server that reads these bytes on the session of this client
    transmits exactly the same bytes on every other listed idle session; and a
    client that reads those has been given every message, and ends with the
    last text typed in its message object, waiting for more.  On this way no
    step throws, blocks or is undefined. *)
Theorem chat_end_to_end split uninit lines texts c s (wc : WC) p sp q sq (ws : WS) r sr (wr : WC) :
  Forall2 (sends split) lines texts → (∀ c, body_ok (msg_body (uninit c))) → client_ready wc →
  c ∈ vec wc → hp wc !! m_session c = Some s → tx_idle s →
  running chat ws → hp ws !! p = Some sp → reads_with ChatServer_message sp →
  hp ws !! q = Some sq → q ≠ p → (∃ k, sv_sessions (sv ws) !! k = Some q) → tx_idle sq →
  hp wr !! r = Some sr → reads_with Client_message sr →
  let n := length lines in
  ∃ bytes ms, bytes = wire ms ∧ Forall2 carries texts ms ∧
    (∃ wc1 wc2 s2, readLine split uninit lines wc = Ok false wc1 ∧
       drain (CB := client_callbacks) n (m_session c) wc1 = Ok tt wc2 ∧
       hp wc2 !! m_session c = Some s2 ∧ tx_idle s2 ∧
       sk_out (ts_socket s2) = sk_out (ts_socket s) ++ bytes) ∧
    (∃ ws1 ws2 sq2, pump (CB := server_callbacks chat) (line_reads n) p bytes ws = Ok [] ws1 ∧
       drain (CB := server_callbacks chat) n q ws1 = Ok tt ws2 ∧
       hp ws2 !! q = Some sq2 ∧ tx_idle sq2 ∧
       sk_out (ts_socket sq2) = sk_out (ts_socket sq) ++ bytes) ∧
    (∃ wr1 sr1, pump (CB := client_callbacks) (line_reads n) r bytes wr = Ok [] wr1 ∧
       hp wr1 !! r = Some sr1 ∧ waiting_header sr1 ∧
       ∀ text, last texts = Some text →
         strlen (msg_body (ts_msg sr1)) = Some (length (c_str text)) ∧
         take (length (c_str text)) (msg_body (ts_msg sr1)) = c_str text).
Proof.
  intros Hl Hu (Hok & Hb & Ht) Hc Hs Hidle Hrun Hsp (Hwp & Hmp & Hhp & Hxp) Hsq Hne [k Hk] Hidq
    Hsr (Hwr & Hmr & Hhr & Hxr) n.
  destruct (readLine_sends split uninit lines texts wc Hl Hok Hu Hb Ht) as (wc1 & Hr & _ & Hin).
  destruct (Hin c s Hc Hs) as (ms & Hms & Hcar).
  destruct (carries_sendable texts ms Hcar) as [Hsend Hrel].
  assert (Hn : n = length ms) by (unfold n; rewrite (Forall2_length _ _ _ Hl); by eapply Forall2_length).
  exists (wire ms), ms. rewrite Hn, <- (whole_reads_carries texts) by done. split_and!; [done|done|..].
  - destruct (drain_pushes (CB := client_callbacks) (m_session c) ms s wc1 Hidle Hsend Hms)
      as (s2 & Hd & Hid2 & Hout).
    exists wc1, (upd (m_session c) s2 wc1), s2. split_and!; try done; apply lookup_upd || apply Hid2.
  - destruct (relay_stream ws p sp ms Hrun Hsp Hwp Hhp Hxp Hrel) as (ws1 & sp1 & Hp & (_ & Hq & _) & _).
    destruct (Hq q sq Hsq) as (sq1 & Hsq1 & _ & Hfr). destruct (Hfr Hne) as (l & -> & Hsl & Efr).
    rewrite decide_True in Efr by (apply (elem_of_listed ws); by exists k).
    assert (El : length l = length ms) by (apply (f_equal length) in Efr; by rewrite !length_fmap in Efr).
    destruct (drain_pushes (CB := server_callbacks chat) q l sq ws1 Hidq Hsl Hsq1) as (sq2 & Hd & Hid2 & Hout).
    rewrite El in Hd. unfold wire in Hout at 1. rewrite Efr in Hout.
    exists ws1, (upd q sq2 ws1), sq2. split_and!; try done; apply lookup_upd || apply Hid2.
  - assert (Hacc : Forall acceptable ms) by (eapply Forall_impl; [done|by intros m [? _]]).
    destruct (client_reads r sr ms wr Hsr Hwr Hmr Hhr Hxr Hacc) as (wr1 & sr1 & Hp & Hsr1 & Hw1 & Hlast).
    exists wr1, sr1. split_and!; [done..|]. intros text Htext. rewrite Hlast.
    by apply (fold_received texts).
Qed.
End System.

(** ** Instance at a concrete input *)

(** A splitter at single spaces. *)
Fixpoint demo_split (str : string) : list string :=
  match str with
  | EmptyString => [EmptyString]
  | String a str =>
      if decide (String a EmptyString = " "%string) then EmptyString :: demo_split str
      else
        match demo_split str with
        | word :: words => String a word :: words
        | [] => [String a EmptyString]
        end
  end.

(** The first client types two lines; the second one reads them. *)
Lemma chat_end_to_end_witness :
  ∃ bytes wc1 ws1 wr1 sr1,
    readLine demo_split any_msg ["send hello"; "send bye"]%string client1 = Ok false wc1 ∧
    pump (CB := server_callbacks demo_chat) [8; 256; 8; 256]%nat 0%nat bytes chat2 = Ok [] ws1 ∧
    pump (CB := client_callbacks) [8; 256; 8; 256]%nat 1%nat bytes client1 = Ok [] wr1 ∧
    hp wr1 !! 1%nat = Some sr1 ∧ take 4 (msg_body (ts_msg sr1)) = [98; 121; 101; 0].
Proof.
  destruct (chat_end_to_end (WC := client_world) (WS := chat_world) (Ctx := nat) demo_split any_msg
    ["send hello"; "send bye"]%string ["hello"; "bye"]%string (mkClient 0 100 false) (client_session 0%nat) client1
    0%nat (chat_session chat2 0%nat) 1%nat (chat_session chat2 1%nat) chat2
    1%nat (client_session 1%nat) client1)
    as (bytes & ms & _ & _ & (wc1 & _ & _ & Hr & _) & (ws1 & _ & _ & Hp & _) & (wr1 & sr1 & Hp2 & Hsr & _ & Ht)).
  - repeat constructor; try discriminate; apply Nat.ltb_lt; vm_compute; reflexivity.
  - exact any_msg_ok.
  - split; [exact client1_ok|]. split; vm_compute; reflexivity.
  - rewrite vec_client1. left.
  - vm_compute. reflexivity.
  - apply (bool_decide_unpack _). vm_compute. exact I.
  - exact chat2_running.
  - vm_compute. reflexivity.
  - split; [vm_compute; reflexivity|]. split; [apply (bool_decide_unpack _); vm_compute; exact I|].
    split; vm_compute; reflexivity.
  - vm_compute. reflexivity.
  - discriminate.
  - exists 2. vm_compute. reflexivity.
  - apply (bool_decide_unpack _). vm_compute. exact I.
  - vm_compute. reflexivity.
  - split; [vm_compute; reflexivity|]. split; [apply (bool_decide_unpack _); vm_compute; exact I|].
    split; vm_compute; reflexivity.
  - exists bytes, wc1, ws1, wr1, sr1. destruct (Ht "bye"%string eq_refl) as [Hlen Htk].
    split_and!; [exact Hr|exact Hp|exact Hp2|exact Hsr|].
    apply strlen_Some in Hlen as [Hz _].
    change (length (c_str "bye")) with 3%nat in *. rewrite (take_S_r _ _ _ Hz), Htk. reflexivity.
Defined.
