(* ===== verification/ChatNetwork.v ===== *)
(** * The chat system as a network

    One chat server, any number of client processes with any number of sessions
    each, and a byte stream in each direction of every connection.  Lines are
    typed, connections are made and accepted, reads and writes complete or
    fail, in any order, and a read takes any part of what has arrived, as
    [async_read_some] may ([net_step]).  What the framing of the sessions needs
    is recorded per connection and direction: whether every read so far took
    all that it asked for. *)
From S2P Require Import Prelude Config Msg Session TcpSession TcpSend TcpRecv ByteStream IoServicePool TcpServer ServerInv ServerProps Redis ChatServer ChatProps ChatRelay ChatRoom ChatFaults ChatClient ChatMain ChatSystem.

(** ** The network *)

(** A connection: the client's process and session, and how many bytes of what
    the other side has handed to the network each side has read.  [lk_said] and
    [lk_got] are history: what the message callbacks of the server and of the
    client have been given; and so are [lk_up_whole] and [lk_down_whole]: that
    no read of the server's, of the client's, has completed with fewer bytes
    than it asked for. *)
Record link := mkLink {
  lk_client : nat; lk_session : ptr;
  lk_up : nat; lk_said : list Msg; lk_up_whole : bool;
  lk_down : nat; lk_got : list Msg; lk_down_whole : bool
}.

Definition link_new (i : nat) (r : ptr) : link := mkLink i r 0 [] true 0 [] true.

(** The processes and the connections, by the server's session.  [n_room] (what
    the server's events meant for the room) and [n_lines] (what has been typed
    at each client) are history. *)
Record network (WS WC : Type) := mkNetwork {
  n_server : WS;
  n_clients : gmap nat WC;
  n_links : gmap ptr link;
  n_room : list room_label;
  n_lines : gmap nat (list string)
}.
Arguments mkNetwork {WS WC}.
Arguments n_server {WS WC}.
Arguments n_clients {WS WC}.
Arguments n_links {WS WC}.
Arguments n_room {WS WC}.
Arguments n_lines {WS WC}.

Inductive net_action :=
  | A_line (i : nat) (str : string) (uninit : Client → Msg)
  | A_connect (i : nat) (r : ptr) (ec : error_code)
  | A_accept (error : error_code) (peer : option endpoint) (uninit : Msg * Z * Z) (i : nat) (r : ptr)
  | A_up (p : ptr) (ec : error_code) (k : nat)      (* the server reads [k] bytes *)
  | A_down (p : ptr) (ec : error_code) (k : nat)    (* the client reads [k] bytes *)
  | A_server_write (p : ptr) (ec : error_code) (n : Z)
  | A_client_write (i : nat) (r : ptr) (ec : error_code) (n : Z).

(** The next [k] bytes of the stream, if a read may take them ([async_read_some]):
    none on error; otherwise at most what it asked for and has arrived, and at
    least one unless its buffer is empty. *)
Definition read_bytes (stream : list Z) (pos : nat) (s : TcpSession) (ec : error_code) (k : nat) : option (list Z) :=
  match sk_reads (ts_socket s) with
  | [] => None
  | (_, size) :: _ =>
      let bs := take k (drop pos stream) in
      if is_error ec then if (k =? 0)%nat then Some [] else None
      else if may_take size k (length (drop pos stream)) then Some bs else None
  end.

(** The read failed, or took all that it asked for. *)
Definition whole_read (s : TcpSession) (ec : error_code) (bs : list Z) : bool :=
  is_error ec ||
  match sk_reads (ts_socket s) with [] => true | (_, size) :: _ => Z.of_nat (length bs) =? size end.

(** A connection after a read of session [s] of the server, of the client. *)
Definition up_read (s : TcpSession) (ec : error_code) (bs : list Z) (l : link) : link :=
  mkLink (lk_client l) (lk_session l)
    (lk_up l + length bs) (lk_said l ++ message_of s ec bs) (lk_up_whole l && whole_read s ec bs)
    (lk_down l) (lk_got l) (lk_down_whole l).
Definition down_read (s : TcpSession) (ec : error_code) (bs : list Z) (l : link) : link :=
  mkLink (lk_client l) (lk_session l) (lk_up l) (lk_said l) (lk_up_whole l)
    (lk_down l + length bs) (lk_got l ++ message_of s ec bs) (lk_down_whole l && whole_read s ec bs).

Definition write_allowed (k : socket) (ec : error_code) (n : Z) : bool :=
  match sk_writes k with
  | [] => false
  | size :: _ => (0 <=? n) && (n <=? size) && (is_error ec || (n =? size))
  end.

(** The state after a command that returns. *)
Definition returned {W A} (r : outcome W A) : option W := match r with Ok _ w => Some w | _ => None end.

Section Network.
Context {WC : Type} `{FHC : !Field WC heap} `{FGC : !Field WC client_globals} `{SGC : !Separate FGC FHC}.
Context {WS : Type} {Ctx : Type} `{HR : !Hiredis Ctx}.
Context `{FH : !Field WS heap} `{FS : !Field WS TcpServer} `{FR : !Field WS (Redis Ctx)}.
Context `{SEP : !Separate FS FH} `{SRH : !Separate FR FH} `{SRS : !Separate FR FS}.
(** Boost's [split], which the command loop cuts its lines with. *)
Context (split : string → list string).
Implicit Types (n : network WS WC) (ws : WS) (wc : WC) (l : link).

Abbreviation chat := (chat_callbacks (W := WS) (Ctx := Ctx)).
Abbreviation empty_room := (mkRoom ∅ ∅).

Definition lines_of n (i : nat) : list string := default [] (n_lines n !! i).

(** Every read of the server's so far failed or took all it asked for. *)
Definition up_whole n : Prop := map_Forall (λ _ l, lk_up_whole l = true) (n_links n).

(** No connection has session [r] of client [i] at its end. *)
Definition unlinked n (i : nat) (r : ptr) : Prop :=
  map_Forall (λ _ l, ¬ (lk_client l = i ∧ lk_session l = r)) (n_links n).

#[export] Instance unlinked_dec n i r : Decision (unlinked n i r).
Proof. unfold unlinked. apply _. Defined.

Definition with_server (ws : WS) (e : server_event) n : network WS WC :=
  mkNetwork ws (n_clients n) (n_links n) (n_room n ++ [label_of (n_server n) e]) (n_lines n).
Definition with_client (i : nat) (wc : WC) n : network WS WC :=
  mkNetwork (n_server n) (<[i := wc]> (n_clients n)) (n_links n) (n_room n) (n_lines n).
Definition with_line (i : nat) (str : string) n : network WS WC :=
  mkNetwork (n_server n) (n_clients n) (n_links n) (n_room n) (<[i := lines_of n i ++ [str]]> (n_lines n)).
Definition with_link (p : ptr) (l : link) n : network WS WC :=
  mkNetwork (n_server n) (n_clients n) (<[p := l]> (n_links n)) (n_room n) (n_lines n).

(** What the other end of a connection has handed to the network. *)
Definition up_stream n l : option (list Z) :=
  wc ← n_clients n !! lk_client l; s ← hp wc !! lk_session l; Some (sk_out (ts_socket s)).
Definition down_stream n (p : ptr) : option (list Z) :=
  s ← hp (n_server n) !! p; Some (sk_out (ts_socket s)).

(** The server runs the handler of an event. *)
Definition server_does n (e : server_event) : option (network WS WC) :=
  ws ← returned (server_run chat e (n_server n)); Some (with_server ws e n).

(** One step: [None] if the action is not possible, or throws or is undefined. *)
Definition net_exec n (a : net_action) : option (network WS WC) :=
  match a with
  | A_line i str uninit =>
      wc ← n_clients n !! i;
      if g_bTerm (fget wc) then None
      else wc' ← returned (readLine_step split uninit str wc); Some (with_line i str (with_client i wc' n))
  | A_connect i r ec =>
      wc ← n_clients n !! i; s ← hp wc !! r;
      if decide (sk_connects (ts_socket s) = 0%nat) then None
      else wc' ← returned (complete_connect (CB := client_callbacks) r ec wc); Some (with_client i wc' n)
  | A_accept error peer uninit i r =>
      wc ← n_clients n !! i; _ ← hp wc !! r;
      if decide (unlinked n i r ∧ sv_accepts (fget (n_server n) : TcpServer) ≠ 0%nat) then
        let p := fresh (dom (hp (n_server n))) in
        n' ← server_does n (Ev_accept error peer uninit);
        match hp (n_server n') !! p with
        | Some _ => Some (with_link p (link_new i r) n')
        | None => Some n'
        end
      else None
  | A_up p ec k =>
      l ← n_links n !! p; s ← hp (n_server n) !! p;
      stream ← up_stream n l; bs ← read_bytes stream (lk_up l) s ec k;
      n' ← server_does n (Ev_read p ec bs); Some (with_link p (up_read s ec bs l) n')
  | A_down p ec k =>
      l ← n_links n !! p; wc ← n_clients n !! lk_client l; s ← hp wc !! lk_session l;
      stream ← down_stream n p; bs ← read_bytes stream (lk_down l) s ec k;
      wc' ← returned (complete_read (CB := client_callbacks) (lk_session l) ec bs wc);
      Some (with_link p (down_read s ec bs l) (with_client (lk_client l) wc' n))
  | A_server_write p ec k =>
      s ← hp (n_server n) !! p;
      if write_allowed (ts_socket s) ec k then server_does n (Ev_write p ec k) else None
  | A_client_write i r ec k =>
      wc ← n_clients n !! i; s ← hp wc !! r;
      if write_allowed (ts_socket s) ec k
      then wc' ← returned (complete_write (CB := client_callbacks) r ec k wc); Some (with_client i wc' n)
      else None
  end.

(** Memory that has not been initialised holds bytes. *)
Definition action_ok (a : net_action) : Prop :=
  match a with
  | A_line _ _ uninit => ∀ c, body_ok (msg_body (uninit c))
  | A_accept _ _ uninit _ _ => msg_ok uninit.1.1
  | _ => True
  end.
Definition net_step n (a : net_action) n' : Prop := action_ok a ∧ net_exec n a = Some n'.

(** ** The start *)

(** A client whose [main] is at its command loop and whose sessions wait for
    their connections. *)
Definition client_starts wc : Prop :=
  clients_ok wc ∧ g_table (fget wc) = chat_commands ∧
  ∀ r s, hp wc !! r = Some s →
    r ∈ m_session <$> vec wc ∧ in_s 32 (ts_id s) ∧ msg_ok (ts_msg s) ∧
    tx_part s = ([], [], [], ts_id s) ∧ sk_reads (ts_socket s) = [] ∧ sk_connects (ts_socket s) = 1%nat.

(** The server listens, nobody is connected. *)
Definition net_start n : Prop :=
  chat_running (Ctx := Ctx) (n_server n) ∧ room_of (n_server n) = empty_room ∧
  (∀ i wc, n_clients n !! i = Some wc → client_starts wc) ∧
  n_links n = ∅ ∧ n_room n = [] ∧ n_lines n = ∅.

(** ** What has been typed *)

(** What a typed line makes a client send on each of its sessions. *)
Definition line_makes (str : string) (ms : list Msg) : Prop :=
  (∀ text, sends split str text → ∃ m, ms = [m] ∧ carries text m) ∧
  ∀ m, m ∈ ms → acceptable m ∧ is_Some (chat_text m) ∧
    (hdr_msgId (msg_hdr m) = MsgId_val NF_MESSAGE → ∃ text, sends split str text ∧ carries text m).
Definition typed (lines : list string) (ms : list Msg) : Prop :=
  ∃ mss, Forall2 line_makes lines mss ∧ ms = concat mss.

Lemma typed_snoc lines ms str ms' : typed lines ms → line_makes str ms' → typed (lines ++ [str]) (ms ++ ms').
Proof.
  intros (mss & Hf & ->) Hl. exists (mss ++ [ms']). rewrite concat_app. cbn. rewrite app_nil_r. split; [|done].
  apply Forall2_app; [done|]. constructor; [done|constructor].
Qed.
Lemma typed_all lines ms : typed lines ms → Forall (λ m, acceptable m ∧ is_Some (chat_text m)) ms.
Proof.
  intros (mss & Hf & ->). apply Forall_concat. induction Hf as [|str l lines mss Hl _ IH]; constructor; [|done].
  apply Forall_forall. intros m Hm. destruct (proj2 Hl m Hm) as (? & ? & _). done.
Qed.
Lemma typed_nf lines ms m :
  typed lines ms → m ∈ ms → hdr_msgId (msg_hdr m) = MsgId_val NF_MESSAGE →
  ∃ str text, str ∈ lines ∧ sends split str text ∧ carries text m.
Proof.
  intros (mss & Hf & ->) Hm Hid. induction Hf as [|str l lines mss Hl _ IH]; [by apply not_elem_of_nil in Hm|].
  cbn in Hm. apply elem_of_app in Hm as [Hm|Hm].
  - destruct (proj2 Hl m Hm) as (_ & _ & H). destruct (H Hid) as (text & ? & ?).
    exists str, text. split; [by left|done].
  - destruct (IH Hm) as (str' & text & ? & ?). exists str', text. split; [by right|done].
Qed.
End Network.
