(* ===== verification/NetworkInv.v ===== *)
(** * The invariant of the chat network

    Every connection of a reachable network is a pair of byte streams.  The
    sending client is in order whatever happens ([ByteStream]); the server's end
    is in order as long as its reads take all they ask for, and the way to the
    client as long as the reads of both sides do.  What the server hands on is
    what the room of ChatRoom says. *)
From S2P Require Import Prelude Config Msg Session TcpSession TcpSend TcpRecv ByteStream IoServicePool TcpServer ServerInv ServerProps Redis ChatServer ChatProps ChatRelay ChatRoom ChatFaults ChatClient ChatMain ChatSystem ChatNetwork.

(** ** The two kinds of process are endpoints *)

Section Client.
Context {WC : Type} `{FHC : !Field WC heap} `{FGC : !Field WC client_globals} `{SGC : !Separate FGC FHC}.
Context (split : string → list string).
Implicit Types (wc : WC).

Lemma log_same {W} `{FH : !Field W heap} p (w w' : W) : (_ ← TcpSession_getID p; mret tt) w = Ok tt w' → w' = w.
Proof.
  unfold TcpSession_getID, deref, fread, mbind, M_bind, get. cbn.
  destruct (hp w !! p); [by intros [= ->]|done].
Qed.

(** A client never sends from a callback. *)
#[export] Instance client_endpoint : Endpoint WC client_callbacks (λ _, False).
Proof.
  split.
  - intros [] p w w'; cbn; try (by intros [= ->]). by intros ->%log_same.
  - intros [] p r w w'; cbn; try (by intros [= ->]). by intros ->%log_same.
  - intros h p w w' Hr. enough (w' = w) as -> by (intros q; exists []; split; [constructor|by destruct (hp w !! q)]).
    revert Hr. destruct h; cbn; try (by intros [= ->]).
    destruct (hp w !! p) as [s|] eqn:Hs.
    + unfold Client_messageHandler, TcpSession_getMsg, TcpSession_getID. sess_run.
      by repeat case_match; intros [= ->].
    + unfold Client_messageHandler, TcpSession_getMsg, deref, fread, mbind, M_bind, get. cbn. by rewrite Hs.
Qed.

(** *** A line at a client *)

Lemma line_makes_nothing str : (∀ text, ¬ sends split str text) → line_makes split str [].
Proof. intros Hn. split; [by intros text Ht%Hn|]. by intros m Hm%not_elem_of_nil. Qed.

(** What a line leaves as it was, and the messages [l] every session is sent. *)
Definition line_effect (l : list Msg → Prop) wc wc' : Prop :=
  m_session <$> vec wc' = m_session <$> vec wc ∧ g_table (fget wc') = g_table (fget wc) ∧
  ∀ q, match hp wc !! q with
       | Some s => ∃ ms, l ms ∧ hp wc' !! q = Some (pushes ms s)
       | None => hp wc' !! q = None
       end.

Lemma line_effect_globals g wc (l : list Msg → Prop) :
  m_session <$> g_clientVec g = m_session <$> vec wc → g_table g = g_table (fget wc) → l [] →
  line_effect l wc (fset g wc).
Proof.
  intros Hv Ht Hl. unfold line_effect, vec. rewrite fget_fset, hp_globals. split_and!; [done..|].
  intros q. destruct (hp wc !! q) as [s|]; [|done]. by exists [].
Qed.
Lemma line_effect_none wc (l : list Msg → Prop) : l [] → line_effect l wc wc.
Proof. rewrite <- (fset_fget wc) at 2. intros. by apply line_effect_globals. Qed.

Lemma command_is_send cmd : chat_commands !! cmd = Some CmdSendMessge → cmd = "send"%string.
Proof.
  unfold chat_commands. rewrite !lookup_insert_Some, lookup_singleton_Some. naive_solver.
Qed.

(** The sessions of a client are those of its vector. *)
Definition own_sessions wc : Prop :=
  ∀ r s, hp wc !! r = Some s → r ∈ m_session <$> vec wc ∧ in_s 32 (ts_id s).

Lemma vector_effect str wc wc' :
  clients_ok wc → own_sessions wc → (fget wc' : client_globals) = fget wc →
  (∀ c s, c ∈ vec wc → hp wc !! m_session c = Some s →
     ∃ m, hp wc' !! m_session c = Some (push_send m s) ∧ line_makes split str [m]) →
  (∀ p, p ∉ m_session <$> vec wc → hp wc' !! p = hp wc !! p) →
  line_effect (line_makes split str) wc wc'.
Proof.
  intros [_ Hex] Hown Hg Hin Hout. split_and!; [by unfold vec; rewrite Hg|by rewrite Hg|].
  intros q. destruct (hp wc !! q) as [s|] eqn:Hs.
  - destruct (Hown q s Hs) as [(c & -> & Hc)%list_elem_of_fmap _].
    destruct (Hin c s Hc Hs) as (m & Hm & Hl). by exists [m].
  - rewrite Hout; [done|]. intros (c & -> & Hc)%list_elem_of_fmap. destruct (Hex c Hc) as [s Hs']. congruence.
Qed.

Lemma create_effect str uninit wc wc' b :
  clients_ok wc → own_sessions wc → (∀ c, body_ok (msg_body (uninit c))) →
  (∀ text, ¬ sends split str text) →
  CmdCreateUser_handle uninit wc = Ok b wc' → line_effect (line_makes split str) wc wc'.
Proof.
  intros Hok Hown Hu Hns Hrun.
  destruct (create_command_spec uninit wc Hok Hu (λ p s Hs, proj2 (Hown p s Hs))) as (w1 & Hr & Hg & Hin & Hout).
  rewrite Hr in Hrun. injection Hrun as _ <-. apply vector_effect; try done.
  intros c s Hc Hs. destruct (Hin c s Hc Hs) as (m & Hm & Ha & _ & Hid & Ht & _). exists m. split; [done|].
  split; [by intros text Hs'%Hns|]. intros m' ->%list_elem_of_singleton. split_and!; [done|by eexists|].
  intros Hnf. by rewrite Hid in Hnf.
Qed.

Lemma send_effect str uninit wc wc' b :
  clients_ok wc → own_sessions wc → (∀ c, body_ok (msg_body (uninit c))) →
  str ≠ EmptyString → str ≠ "quit"%string → ¬ (str = "?" ∨ str = "help")%string →
  split str !! 0%nat = Some "send"%string →
  CmdSendMessge_handle (split str) uninit wc = Ok b wc' → line_effect (line_makes split str) wc wc'.
Proof.
  intros Hok Hown Hu H1 H2 H3 H0 Hrun.
  destruct (vec wc) as [|c0 cs] eqn:Hv.
  { unfold CmdSendMessge_handle in Hrun. rewrite bind_globals in Hrun. change (g_clientVec (fget wc)) with (vec wc) in Hrun.
    rewrite Hv in Hrun. injection Hrun as _ <-. apply vector_effect; try done.
    intros c s Hc. rewrite Hv in Hc. by apply not_elem_of_nil in Hc. }
  destruct (send_command_undefined (split str) uninit wc c0 cs Hv) as (Hshort & Hlong & _).
  destruct (split str !! 1%nat) as [text|] eqn:Et.
  2:{ rewrite Hshort in Hrun; [done|]. by apply lookup_ge_None. }
  destruct (decide (length (c_str text) < 256)%nat) as [Hl|Hl]; [|by rewrite (Hlong text) in Hrun by (done || lia)].
  destruct (send_command_relayable (split str) text uninit wc Hok Hu Et Hl) as (w1 & Hr & Hg & Hin & Hout).
  rewrite Hr in Hrun. injection Hrun as _ <-. apply vector_effect; try done.
  assert (Hsends : sends split str text) by (split_and!; naive_solver).
  intros c s Hc Hs. destruct (Hin c s Hc Hs) as (m & Hm & Hcar). exists m. split; [done|].
  pose proof Hcar as ((Ha & _ & Ht) & _). split.
  - intros text' (_ & _ & _ & _ & _ & Et' & _). exists m. split; [done|]. by replace text' with text by congruence.
  - intros m' ->%list_elem_of_singleton. split_and!; [done|done|]. intros _. by exists text.
Qed.

Lemma line_step_effect str uninit wc wc' r :
  clients_ok wc → own_sessions wc → g_table (fget wc) = chat_commands →
  (∀ c, body_ok (msg_body (uninit c))) → readLine_step split uninit str wc = Ok r wc' →
  line_effect (line_makes split str) wc wc'.
Proof.
  intros Hok Hown Ht Hu Hrun. unfold readLine_step in Hrun.
  destruct (decide (str = _)) as [->|H1].
  { injection Hrun as _ <-. apply line_effect_none, line_makes_nothing. by intros text (? & _). }
  destruct (decide (str = _)) as [->|H2].
  { rewrite bind_set_globals in Hrun. injection Hrun as _ <-.
    apply line_effect_globals; [done..|]. apply line_makes_nothing. by intros text (_ & ? & _). }
  destruct (decide (_ ∨ _)) as [H3|H3].
  { injection Hrun as _ <-. apply line_effect_none, line_makes_nothing. intros text (_ & _ & ? & ? & _). naive_solver. }
  destruct (split str !! 0%nat) as [cmd|] eqn:H0; [|done].
  rewrite (bind_lift _ cmd) in Hrun by done. rewrite bind_globals, Ht in Hrun.
  assert (Hno : cmd ≠ "send"%string → ∀ text, ¬ sends split str text).
  { intros Hne text (_ & _ & _ & _ & H0' & _). congruence. }
  destruct (chat_commands !! cmd) as [c|] eqn:Hc.
  2:{ injection Hrun as _ <-. apply line_effect_none, line_makes_nothing, Hno. by intros ->. }
  unfold mbind, M_bind in Hrun. destruct (handle c (split str) uninit wc) as [b w1| |] eqn:Eh; [|done..].
  injection Hrun as _ <-. destruct c; cbn in Eh.
  - eapply create_effect; [done..| |exact Eh]. apply Hno. by intros ->.
  - apply command_is_send in Hc as ->. by eapply send_effect.
  - unfold CmdStop_handle in Eh. rewrite bind_set_globals in Eh. injection Eh as _ <-.
    apply line_effect_globals; [|done|].
    + cbn. rewrite <- list_fmap_compose. by apply list_fmap_ext.
    + apply line_makes_nothing, Hno. by intros ->.
Qed.
End Client.

Section Server.
Context {WS : Type} {Ctx : Type} `{HR : !Hiredis Ctx}.
Context `{FH : !Field WS heap} `{FS : !Field WS TcpServer} `{FR : !Field WS (Redis Ctx)}.
Context `{SEP : !Separate FS FH} `{SRH : !Separate FR FH} `{SRS : !Separate FR FS}.
Implicit Types (ws : WS).

Abbreviation chat := (chat_callbacks (W := WS) (Ctx := Ctx)).

Lemma deref_none {W} `{FW : !Field W heap} p (w : W) : hp w !! p = None → deref p w = Undef UB_dangling.
Proof. intros Hs. unfold deref, fread, mbind, M_bind, get. cbn. by rewrite Hs. Qed.

Lemma close_needs_session p r w w' : handleClose chat p r w = Ok tt w' → is_Some (hp w !! p).
Proof.
  destruct (hp w !! p) as [s|] eqn:Hs; [done|]. unfold handleClose. rewrite bind_server.
  assert (Hid : TcpSession_getID p w = Undef UB_dangling).
  { unfold TcpSession_getID, mbind, M_bind. by rewrite deref_none. }
  unfold mbind at 1, M_bind at 1.
  destruct (sv_closedHandler (sv w)) as [[]|]; cbn; unfold mbind, M_bind; by rewrite Hid.
Qed.

(** The chat server sends from its message callback only. *)
#[export] Instance server_endpoint : Endpoint WS (server_callbacks chat) (λ _, True).
Proof.
  split.
  - intros [] p w w'; cbn; try (by intros [= ->]). by intros ->%log_same.
  - intros h p r w w' Hr. destruct h; try by injection Hr as <-.
    + destruct (close_needs_session p r w w' Hr) as [s Hs]. cbn in Hr.
      rewrite (close_quiet p r s w Hs) in Hr. injection Hr as <-. apply hp_upd_sv.
    + cbn in Hr. by apply log_same in Hr as ->.
  - intros h p w w'. destruct h; cbn.
    4: { intros Hr. destruct (keeps_messageHandler p w tt w' Hr) as [_ Hq].
      intros q. destruct (Hq q) as [ms E]. exists ms. split; [by apply Forall_true|done]. }
    all: intros [= <-] q; exists []; split; [constructor|by destruct (hp _ !! q)].
Qed.
End Server.

(** ** The invariant *)

(** A notification. *)
Definition is_nf (m : Msg) : Prop := hdr_msgId (msg_hdr m) = MsgId_val NF_MESSAGE.
#[export] Instance is_nf_dec m : Decision (is_nf m).
Proof. unfold is_nf. apply _. Defined.

Section Invariant.
Context {WC : Type} `{FHC : !Field WC heap} `{FGC : !Field WC client_globals} `{SGC : !Separate FGC FHC}.
Context {WS : Type} {Ctx : Type} `{HR : !Hiredis Ctx}.
Context `{FH : !Field WS heap} `{FS : !Field WS TcpServer} `{FR : !Field WS (Redis Ctx)}.
Context `{SEP : !Separate FS FH} `{SRH : !Separate FR FH} `{SRS : !Separate FR FS}.
Context (split : string → list string).
Implicit Types (n : network WS WC) (ws : WS) (wc : WC) (l : link) (s : TcpSession) (p q r : ptr).

Abbreviation chat := (chat_callbacks (W := WS) (Ctx := Ctx)).
Abbreviation empty_room := (mkRoom ∅ ∅).

(** What the others have said to the server's session [p] while it was listed. *)
Definition heard_by n p : list Msg := heard p empty_room (n_room n).

Definition client_ok wc : Prop :=
  clients_ok wc ∧ g_table (fget wc) = chat_commands ∧ own_sessions wc.

(** A connection: [wc] and [sc] are the client's process and session, [s] is the
    server's session, [ms] what has been typed. *)
Record link_ok n p l wc sc s (ms : list Msg) : Prop := {
  lo_client : n_clients n !! lk_client l = Some wc;
  lo_session : hp wc !! lk_session l = Some sc;
  lo_server : hp (n_server n) !! p = Some s;
  lo_typed : typed split (lines_of n (lk_client l)) ms;
  lo_up_out : out_sync ms sc;
  lo_connecting : connecting sc;
  lo_said : said p (n_room n) = filter is_nf (lk_said l);
  lo_up_in : lk_up_whole l = true → in_sync ms (lk_up l) (lk_said l) s;
  lo_down_out : up_whole n → out_sync (heard_by n p) s;
  lo_down_in : up_whole n → lk_down_whole l = true → in_sync (heard_by n p) (lk_down l) (lk_got l) sc
}.

Definition net_inv n : Prop :=
  (chat_running (Ctx := Ctx) (n_server n) ∧ room_run empty_room (n_room n) = Some (room_of (n_server n))) ∧
  (∀ i wc, n_clients n !! i = Some wc → client_ok wc) ∧
  (∀ p l, n_links n !! p = Some l → ∃ wc sc s ms, link_ok n p l wc sc s ms) ∧
  (∀ i wc r s, n_clients n !! i = Some wc → hp wc !! r = Some s → unlinked n i r →
     ∃ ms, typed split (lines_of n i) ms ∧ out_sync ms s ∧ in_sync [] 0 [] s) ∧
  (∀ p, is_Some (n_links n !! p) ↔ is_Some (hp (n_server n) !! p)) ∧
  (∀ p q l l', n_links n !! p = Some l → n_links n !! q = Some l' →
     lk_client l = lk_client l' → lk_session l = lk_session l' → p = q).

(** The other half of a connection is not touched by an event of one half, and
    no read is made whole afterwards. *)
Definition same_up l l' : Prop :=
  lk_client l' = lk_client l ∧ lk_session l' = lk_session l ∧ lk_up l' = lk_up l ∧ lk_said l' = lk_said l ∧
  lk_up_whole l' = lk_up_whole l ∧ (lk_down_whole l' = true → lk_down_whole l = true).
Definition same_down l l' : Prop :=
  lk_client l' = lk_client l ∧ lk_session l' = lk_session l ∧ lk_down l' = lk_down l ∧ lk_got l' = lk_got l ∧
  lk_down_whole l' = lk_down_whole l ∧ (lk_up_whole l' = true → lk_up_whole l = true).

(** The connections [m'] are those of [m], related by [R]. *)
Definition links_rel (R : ptr → link → link → Prop) (m m' : gmap ptr link) : Prop :=
  ∀ q, match m !! q, m' !! q with
       | Some l, Some l' => R q l l'
       | None, None => True
       | _, _ => False
       end.

Lemma links_rel_refl (R : ptr → link → link → Prop) m : (∀ q l, R q l l) → links_rel R m m.
Proof. intros HR' q. by destruct (m !! q). Qed.
Lemma links_rel_insert (R : ptr → link → link → Prop) m p l l' :
  (∀ q l, R q l l) → m !! p = Some l → R p l l' → links_rel R m (<[p := l']> m).
Proof.
  intros HR' Hl H q. destruct (decide (p = q)) as [<-|Hne].
  - by rewrite Hl, lookup_insert_eq.
  - rewrite lookup_insert_ne by done. by destruct (m !! q).
Qed.
Lemma links_rel_l R m m' q l : links_rel R m m' → m !! q = Some l → ∃ l', m' !! q = Some l' ∧ R q l l'.
Proof. intros Hr Hl. specialize (Hr q). rewrite Hl in Hr. destruct (m' !! q) as [l'|]; [by exists l'|done]. Qed.
Lemma links_rel_r R m m' q l' : links_rel R m m' → m' !! q = Some l' → ∃ l, m !! q = Some l ∧ R q l l'.
Proof. intros Hr Hl. specialize (Hr q). rewrite Hl in Hr. destruct (m !! q) as [l|]; [by exists l|done]. Qed.

Lemma up_whole_rel (R : ptr → link → link → Prop) n n' :
  (∀ q l l', R q l l' → lk_up_whole l' = true → lk_up_whole l = true) →
  links_rel R (n_links n) (n_links n') → up_whole n' → up_whole n.
Proof.
  intros HR' Hl Hu q l Hq. destruct (links_rel_l _ _ _ _ _ Hl Hq) as (l' & Hq' & H).
  eapply HR'; [exact H|]. exact (Hu q l' Hq').
Qed.

Lemma unlinked_rel (R : ptr → link → link → Prop) n n' i r :
  (∀ q l l', R q l l' → lk_client l' = lk_client l ∧ lk_session l' = lk_session l) →
  links_rel R (n_links n) (n_links n') → unlinked n' i r → unlinked n i r.
Proof.
  intros HR' Hl Hu q l Hq [E1 E2]. destruct (links_rel_l _ _ _ _ _ Hl Hq) as (l' & Hq' & H).
  apply (Hu q l' Hq'). destruct (HR' _ _ _ H) as [-> ->]. done.
Qed.

Lemma links_inj_rel (R : ptr → link → link → Prop) n n' :
  (∀ q l l', R q l l' → lk_client l' = lk_client l ∧ lk_session l' = lk_session l) →
  links_rel R (n_links n) (n_links n') →
  (∀ p q l l', n_links n !! p = Some l → n_links n !! q = Some l' →
     lk_client l = lk_client l' → lk_session l = lk_session l' → p = q) →
  ∀ p q l l', n_links n' !! p = Some l → n_links n' !! q = Some l' →
     lk_client l = lk_client l' → lk_session l = lk_session l' → p = q.
Proof.
  intros HR' Hl Hinj p q l l' Hp Hq E1 E2.
  destruct (links_rel_r _ _ _ _ _ Hl Hp) as (l0 & Hp0 & H0), (links_rel_r _ _ _ _ _ Hl Hq) as (l1 & Hq1 & H1).
  apply HR' in H0 as [? ?], H1 as [? ?]. eapply (Hinj p q l0 l1); congruence.
Qed.

(** A client moves: each of its sessions may have been sent messages, and may
    have read on its connection. *)
Lemma client_moves n n' i wc wc' :
  net_inv n → n_clients n !! i = Some wc → client_ok wc' →
  n_server n' = n_server n → n_room n' = n_room n → n_clients n' = <[i := wc']> (n_clients n) →
  (∀ j, j ≠ i → lines_of n' j = lines_of n j) →
  links_rel (λ _ l l', same_up l l' ∧ (lk_client l ≠ i → l' = l)) (n_links n) (n_links n') →
  dom (hp wc') = dom (hp wc) →
  (∀ r s s' ms, hp wc !! r = Some s → hp wc' !! r = Some s' → typed split (lines_of n i) ms → out_sync ms s →
     ∃ ms', typed split (lines_of n' i) (ms ++ ms') ∧ out_sync (ms ++ ms') s') →
  (∀ r s s', hp wc !! r = Some s → hp wc' !! r = Some s' → unlinked n i r →
     in_sync [] 0 [] s → in_sync [] 0 [] s') →
  (∀ q l l' s s', n_links n !! q = Some l → n_links n' !! q = Some l' → lk_client l = i →
     hp wc !! lk_session l = Some s → hp wc' !! lk_session l = Some s' →
     (connecting s → connecting s') ∧
     (up_whole n → lk_down_whole l' = true →
      in_sync (heard_by n q) (lk_down l) (lk_got l) s → in_sync (heard_by n q) (lk_down l') (lk_got l') s')) →
  net_inv n'.
Proof.
  intros (Hsrv & Hcl & Hlk & Hun & Hdom & Hinj) Hi Hok Es Er Ec El Hrel Hd Htx Hrx0 Hrx.
  assert (Hsome : ∀ r s, hp wc !! r = Some s → ∃ s', hp wc' !! r = Some s').
  { intros r s Hr. apply elem_of_dom. rewrite Hd. apply elem_of_dom. by eexists. }
  assert (HR' : ∀ (q : ptr) l l', same_up l l' ∧ (lk_client l ≠ i → l' = l) →
    lk_client l' = lk_client l ∧ lk_session l' = lk_session l) by (by intros q l l' [(? & ? & _) _]).
  assert (Hw : up_whole n' → up_whole n).
  { refine (up_whole_rel _ n n' _ Hrel). by intros q l l' [(_ & _ & _ & _ & -> & _) _]. }
  assert (Hh : ∀ p, heard_by n' p = heard_by n p) by (intros p; unfold heard_by; by rewrite Er).
  split; [by rewrite Es, Er|]. split; [|split; [|split; [|split]]].
  - intros j wcj Hj. rewrite Ec in Hj. apply lookup_insert_Some in Hj as [[_ <-]|[_ Hj]]; [done|by eapply Hcl].
  - intros p l' Hp. destruct (links_rel_r _ _ _ _ _ Hrel Hp) as (l & Hl & (E1 & E2 & E3 & E4 & E5 & E6) & Hsame).
    destruct (Hlk p l Hl) as (wc1 & sc & s & ms & [H1 H2 H3 H4 H5 H6 H7 H8 H9 H10]).
    destruct (decide (lk_client l = i)) as [Ei|Hne].
    + rewrite Ei in *. replace wc1 with wc in * by congruence. destruct (Hsome _ _ H2) as [sc' Hsc'].
      destruct (Htx _ _ _ _ H2 Hsc' H4 H5) as (ms' & Ht' & Ho'). destruct (Hrx p l l' sc sc') as [Hcn Hin]; [done..|].
      exists wc', sc', s, (ms ++ ms'). split; rewrite ?Es, ?Er, ?Ec, ?E1, ?E2, ?E3, ?E4, ?E5, ?Hh; try done.
      * by rewrite lookup_insert_eq.
      * by apply Hcn.
      * intros Hu. by apply in_sync_more, H8.
      * intros Hu%Hw. by apply H9.
      * intros Hu%Hw Hd'. apply Hin; [done..|]. by apply H10, E6.
    + rewrite (Hsame Hne) in *. exists wc1, sc, s, ms. split; rewrite ?Es, ?Er, ?Ec, ?Hh; try done.
      * by rewrite lookup_insert_ne.
      * by rewrite El.
      * intros Hu%Hw. by apply H9.
      * intros Hu%Hw. by apply H10.
  - intros j wcj r s' Hj Hs' Hu. pose proof (unlinked_rel _ n n' j r HR' Hrel Hu) as Hu0.
    rewrite Ec in Hj. apply lookup_insert_Some in Hj as [[<- <-]|[Hne Hj]].
    + assert (Hr : is_Some (hp wc !! r)) by (apply elem_of_dom; rewrite <- Hd; apply elem_of_dom; by eexists).
      destruct Hr as [s Hs]. destruct (Hun i wc r s Hi Hs Hu0) as (ms & Ht & Ho & Hin).
      destruct (Htx _ _ _ _ Hs Hs' Ht Ho) as (ms' & Ht' & Ho'). exists (ms ++ ms'). split_and!; [done..|by eapply Hrx0].
    + rewrite El by done. by eapply Hun.
  - intros p. rewrite Es, <- Hdom. specialize (Hrel p). by destruct (n_links n !! p), (n_links n' !! p).
  - exact (links_inj_rel _ n n' HR' Hrel Hinj).
Qed.

(** The server moves: [p] reads or writes. *)
Lemma server_moves n n' e ws' :
  net_inv n → server_step chat (n_server n) e ws' →
  n_server n' = ws' → n_room n' = n_room n ++ [label_of (n_server n) e] → n_clients n' = n_clients n →
  n_lines n' = n_lines n →
  links_rel (λ _ l l', same_down l l') (n_links n) (n_links n') →
  dom (hp ws') = dom (hp (n_server n)) →
  (∀ q s s', hp (n_server n) !! q = Some s → hp ws' !! q = Some s' → up_whole n → out_sync (heard_by n q) s →
     out_sync (heard_by n q ++ heard_now q (room_of (n_server n)) (label_of (n_server n) e)) s') →
  (∀ q l l' wc sc s s' ms, n_links n !! q = Some l → n_links n' !! q = Some l' →
     link_ok n q l wc sc s ms → hp ws' !! q = Some s' →
     (lk_up_whole l' = true → in_sync ms (lk_up l') (lk_said l') s') ∧
     said q (n_room n') = filter is_nf (lk_said l')) →
  net_inv n'.
Proof.
  intros ([Hrun Hroom] & Hcl & Hlk & Hun & Hdom & Hinj) Hstep Es Er Ec El Hrel Hd Htx Hrx.
  destruct (chat_step_room _ _ _ Hrun Hstep) as [Hx Hrun'].
  assert (HR' : ∀ (q : ptr) l l', same_down l l' → lk_client l' = lk_client l ∧ lk_session l' = lk_session l)
    by (by intros q l l' (? & ? & _)).
  assert (Hw : up_whole n' → up_whole n).
  { refine (up_whole_rel _ n n' _ Hrel). by intros q l l' (_ & _ & _ & _ & _ & ?). }
  assert (Hh : ∀ p, heard_by n' p = heard_by n p ++ heard_now p (room_of (n_server n)) (label_of (n_server n) e)).
  { intros p. unfold heard_by. rewrite Er. by apply over_snoc. }
  assert (Hln : ∀ i, lines_of n' i = lines_of n i) by (intros i; unfold lines_of; by rewrite El).
  split; [rewrite Er, Es; split; [done|by eapply room_run_snoc]|]. split; [by rewrite Ec|split; [|split; [|split]]].
  - intros p l' Hp. destruct (links_rel_r _ _ _ _ _ Hrel Hp) as (l & Hl & E1 & E2 & E3 & E4 & E5 & E6).
    destruct (Hlk p l Hl) as (wc & sc & s & ms & Hlok). pose proof Hlok as [H1 H2 H3 H4 H5 H6 H7 H8 H9 H10].
    assert (Hs' : is_Some (hp ws' !! p)) by (apply elem_of_dom; rewrite Hd; apply elem_of_dom; by eexists).
    destruct Hs' as [s' Hs']. destruct (Hrx p l l' wc sc s s' ms Hl Hp Hlok Hs') as [Hin Hsaid].
    exists wc, sc, s', ms. split; rewrite ?Es, ?Ec, ?E1, ?E2, ?E3, ?E4, ?E5, ?Hh, ?Hln; try done.
    + intros Hu%Hw. by eapply Htx; [..|apply H9].
    + intros Hu%Hw Hdw. by apply in_sync_more, H10.
  - intros i wc r s Hi Hs Hu. rewrite Ec in Hi. rewrite Hln. eapply Hun; [done..|].
    exact (unlinked_rel _ n n' i r HR' Hrel Hu).
  - intros p. rewrite Es. transitivity (is_Some (n_links n !! p)).
    + specialize (Hrel p). by destruct (n_links n !! p), (n_links n' !! p).
    + rewrite Hdom, <- !elem_of_dom. by rewrite Hd.
  - exact (links_inj_rel _ n n' HR' Hrel Hinj).
Qed.
End Invariant.

(** ** Client processes between lines *)

Section ClientSteps.
Context {WC : Type} `{FHC : !Field WC heap} `{FGC : !Field WC client_globals} `{SGC : !Separate FGC FHC}.
Implicit Types (wc : WC) (p r : ptr).
Context (g : client_globals).
Definition has_globals wc : Prop := fget wc = g.

Lemma globals_deref p : preserves has_globals (deref p).
Proof.
  intros w s w' Hw Hr. unfold deref, fread, mbind, M_bind, get in Hr. cbn in Hr.
  destruct (hp w !! p); [|done]. by injection Hr as _ <-.
Qed.
Lemma globals_assign p f : preserves has_globals (assign p f).
Proof.
  intros w [] w' Hw [= <-]. unfold has_globals. by rewrite (fget_fset_sep (Separate := SGC)).
Qed.
Lemma globals_call (h : option handler) (k : handler → M WC unit) :
  (∀ h, preserves has_globals (k h)) → preserves has_globals (call h k).
Proof. intros Hk. destruct h; [apply Hk|]. by intros w a w' _ Hr. Qed.
Lemma globals_log p : preserves has_globals (_ ← TcpSession_getID p; mret tt).
Proof. intros w [] w' Hw Hr. by apply log_same in Hr as ->. Qed.

Ltac globals_step :=
  match goal with
  | |- preserves _ (_ ≫= _) => apply preserves_bind; [|intros]
  | |- preserves _ (mret _) => apply preserves_ret
  | |- preserves _ (undef _) => apply preserves_undef
  | |- preserves _ (lift _) => apply preserves_lift
  | |- preserves _ (deref _) => apply globals_deref
  | |- preserves _ (assign _ _) => apply globals_assign
  | |- preserves _ (call _ _) => apply globals_call; intros
  | |- preserves _ (when ?b _) => destruct b; cbn [when]
  | |- preserves _ (match ?x with _ => _ end) => destruct x
  end.
Ltac keeps_globals := repeat globals_step.

Lemma globals_opened h p : preserves has_globals (run_opened (Callbacks := client_callbacks) h p).
Proof. destruct h; cbn; try apply preserves_ret. apply globals_log. Qed.
Lemma globals_closed h p c : preserves has_globals (run_closed (Callbacks := client_callbacks) h p c).
Proof. destruct h; cbn; try apply preserves_ret. apply globals_log. Qed.
Lemma globals_message h p : preserves has_globals (run_message (Callbacks := client_callbacks) h p).
Proof.
  destruct h; cbn; try apply preserves_ret.
  unfold Client_messageHandler, TcpSession_getMsg, TcpSession_getID. keeps_globals.
Qed.

Lemma globals_read p ec bs : preserves has_globals (complete_read (CB := client_callbacks) p ec bs).
Proof.
  unfold complete_read, on_read_header, on_read_body, handleReadHeader, handleReadBody, close_on_error, handleError,
    TcpSession_read, async_read_some.
  keeps_globals; apply globals_closed || apply globals_message.
Qed.
Lemma globals_write p ec k : preserves has_globals (complete_write (CB := client_callbacks) p ec k).
Proof.
  unfold complete_write, handleWrite, close_on_error, handleError, async_write_front.
  keeps_globals; apply globals_closed.
Qed.
Lemma globals_connect p ec : preserves has_globals (complete_connect (CB := client_callbacks) p ec).
Proof.
  unfold complete_connect, TcpSession_start, TcpSession_read, async_read_some. keeps_globals; apply globals_opened.
Qed.
End ClientSteps.

(** ** Every step keeps the invariant *)

Section Steps.
Context {WC : Type} `{FHC : !Field WC heap} `{FGC : !Field WC client_globals} `{SGC : !Separate FGC FHC}.
Context {WS : Type} {Ctx : Type} `{HR : !Hiredis Ctx}.
Context `{FH : !Field WS heap} `{FS : !Field WS TcpServer} `{FR : !Field WS (Redis Ctx)}.
Context `{SEP : !Separate FS FH} `{SRH : !Separate FR FH} `{SRS : !Separate FR FS}.
Context (split : string → list string).
Implicit Types (n : network WS WC) (ws : WS) (wc : WC) (l : link) (s : TcpSession) (p q r : ptr).

Abbreviation chat := (chat_callbacks (W := WS) (Ctx := Ctx)).
Abbreviation inv := (net_inv (WC := WC) (WS := WS) (Ctx := Ctx) split).

Lemma net_start_inv n : net_start (WC := WC) (Ctx := Ctx) n → inv n.
Proof.
  intros (Hrun & Hroom & Hcl & Hl & Hr & Hln).
  assert (Hnone : ∀ p, n_links n !! p = None) by (intros p; by rewrite Hl).
  split; [by rewrite Hr, Hroom|]. split; [|split; [|split; [|split]]].
  - intros i wc Hi. destruct (Hcl i wc Hi) as (Hok & Ht & Hs). split_and!; try done.
    intros r s Hrs. by destruct (Hs r s Hrs) as (? & ? & _).
  - intros p l Hp. by rewrite Hnone in Hp.
  - intros i wc r s Hi Hs _. destruct (Hcl i wc Hi) as (_ & _ & Hss).
    destruct (Hss r s Hs) as (_ & _ & Hm & [= Eq Ew Eo] & Er & Ec). exists []. split; [|split].
    + exists []. split; [|done]. unfold lines_of. rewrite Hln, lookup_empty. constructor.
    + exists []. rewrite Eq. split; [done|]. left. by unfold tx_ok; rewrite Eq, Ew.
    + split; [done|]. split; [by right|]. exists [], []. auto.
  - intros p. rewrite Hnone. assert (Hh : ts_sendQue <$> hp (n_server n) = (∅ : gmap ptr (list Msg))) by (by injection Hroom).
    apply fmap_empty_inv in Hh. by rewrite Hh, lookup_empty.
  - intros p q l l' Hp. by rewrite Hnone in Hp.
Qed.

(** *** What the connections carry *)

Lemma said_link n p m :
  inv n → L_say p m ∈ n_room n → ∃ l wc sc s ms, n_links n !! p = Some l ∧ link_ok split n p l wc sc s ms ∧
    m ∈ lk_said l ∧ is_nf m.
Proof.
  intros ([_ Hroom] & _ & Hlk & _ & Hdom & _) Hsay.
  pose proof (said_dom _ _ _ _ _ Hroom Hsay) as Hd. cbn in Hd. rewrite lookup_fmap, fmap_is_Some, <- Hdom in Hd.
  destruct Hd as [l Hl]. destruct (Hlk p l Hl) as (wc & sc & s & ms & Hok). exists l, wc, sc, s, ms.
  split_and!; [done|done| |]; apply elem_of_said in Hsay; rewrite (lo_said _ _ _ _ _ _ _ _ Hok) in Hsay; by apply list_elem_of_filter in Hsay as [? ?].
Qed.

Lemma typed_acceptable n p l wc sc s ms : link_ok split n p l wc sc s ms → Forall acceptable ms.
Proof.
  intros Hok. eapply Forall_impl; [exact (typed_all split _ _ (lo_typed _ _ _ _ _ _ _ _ Hok))|]. by intros m [? _].
Qed.

Lemma said_acceptable n p l wc sc s ms :
  link_ok split n p l wc sc s ms → lk_up_whole l = true → Forall acceptable (lk_said l).
Proof.
  intros Hok Hu. pose proof (typed_acceptable _ _ _ _ _ _ _ Hok) as Hall.
  destruct (in_sync_got _ _ _ _ (lo_up_in _ _ _ _ _ _ _ _ Hok Hu)) as (past & rest & Ems & Ha).
  rewrite Ems in Hall. apply Forall_app in Hall as [Hall _]. by eapply arrived_all.
Qed.

Lemma heard_acceptable n q : inv n → up_whole n → Forall acceptable (heard_by n q).
Proof.
  intros Hinv Hu. apply Forall_forall. intros m (p & Hsay & _)%heard_said.
  destruct (said_link n p m Hinv Hsay) as (l & wc & sc & s & ms & Hl & Hok & Hin & _).
  pose proof (said_acceptable _ _ _ _ _ _ _ Hok (Hu p l Hl)) as Hs. rewrite Forall_forall in Hs. by apply Hs.
Qed.

Lemma heard_sendable n q : inv n → up_whole n → Forall sendable (heard_by n q).
Proof. intros Hinv Hu. eapply Forall_impl; [by apply heard_acceptable|]. by intros m [? _]. Qed.

Lemma write_allowed_spec k ec m : write_allowed k ec m = true → write_completion k ec m.
Proof.
  unfold write_allowed, write_completion. destruct (sk_writes k) as [|size rest]; [done|].
  rewrite !andb_true_iff, orb_true_iff, !Z.leb_le, Z.eqb_eq. intros [[H1 H2] H3].
  exists size, rest. split_and!; [done..|]. intros He. rewrite He in H3. by destruct H3.
Qed.

(** *** Client steps *)

Lemma client_ok_moves wc wc' :
  client_ok wc → (fget wc' : client_globals) = fget wc → dom (hp wc') = dom (hp wc) →
  (∀ r s s', hp wc !! r = Some s → hp wc' !! r = Some s' → ts_id s' = ts_id s) → client_ok wc'.
Proof.
  intros ([Hnd Hex] & Ht & Hown) Hg Hd Hid. split; [split|split].
  - unfold vec. by rewrite Hg.
  - unfold vec. rewrite Hg. intros c Hc. apply elem_of_dom. rewrite Hd. by apply elem_of_dom, Hex.
  - by rewrite Hg.
  - intros r s' Hs'. assert (Hr : is_Some (hp wc !! r)) by (apply elem_of_dom; rewrite <- Hd; apply elem_of_dom; by eexists).
    destruct Hr as [s Hs]. unfold vec. rewrite Hg, (Hid r s s' Hs Hs'). by apply Hown.
Qed.

Lemma client_ok_line (P : list Msg → Prop) wc wc' : client_ok wc → line_effect P wc wc' → client_ok wc'.
Proof.
  intros ([Hnd Hex] & Ht & Hown) (Hv & Ht' & Hq). split; [split|split].
  - by rewrite Hv.
  - intros c Hc. assert (Hin : m_session c ∈ m_session <$> vec wc) by (rewrite <- Hv; by apply list_elem_of_fmap_2).
    apply list_elem_of_fmap in Hin as (c' & -> & Hc'). destruct (Hex c' Hc') as [s Hs].
    specialize (Hq (m_session c')). rewrite Hs in Hq. destruct Hq as (ms & _ & ->). by eexists.
  - by rewrite Ht'.
  - intros r s' Hs'. specialize (Hq r). destruct (hp wc !! r) as [s|] eqn:Hs; [|congruence].
    destruct Hq as (ms & _ & E). rewrite Hs' in E. injection E as ->. rewrite Hv.
    rewrite (pushes_proj ts_id) by apply push_send_id. by apply Hown.
Qed.

Lemma line_step n i str uninit n' :
  inv n → action_ok (A_line i str uninit) →
  net_exec (Ctx := Ctx) split n (A_line i str uninit) = Some n' → inv n'.
Proof.
  intros Hinv Hu Hx. cbn in Hx, Hu. destruct (n_clients n !! i) as [wc|] eqn:Hi; [|done]. cbn in Hx.
  destruct (g_bTerm (fget wc)); [done|].
  destruct (readLine_step split uninit str wc) as [res wc'| |] eqn:Hr; cbn in Hx; [|done..]. injection Hx as <-.
  pose proof Hinv as (_ & Hcl & _). destruct (Hcl i wc Hi) as (Hok & Ht & Hown).
  pose proof (line_step_effect split str uninit wc wc' res Hok Hown Ht Hu Hr) as Heff.
  pose proof Heff as (_ & _ & Hq).
  assert (Hpush : ∀ r s s', hp wc !! r = Some s → hp wc' !! r = Some s' →
    ∃ ms, line_makes split str ms ∧ s' = pushes ms s).
  { intros r s s' Hs Hs'. specialize (Hq r). rewrite Hs in Hq. destruct Hq as (ms & Hl & E). exists ms. split; [done|congruence]. }
  eapply (client_moves split n _ i wc wc'); try done.
  - eapply client_ok_line; [|done]. done.
  - intros j Hj. unfold lines_of. cbn. by rewrite lookup_insert_ne.
  - apply links_rel_refl. done.
  - apply set_eq. intros r. rewrite !elem_of_dom. specialize (Hq r).
    destruct (hp wc !! r); [destruct Hq as (? & _ & ->)|rewrite Hq]; done.
  - intros r s s' ms Hs Hs' Hty Ho. destruct (Hpush r s s' Hs Hs') as (ms' & Hl & ->). exists ms'. split.
    + unfold lines_of at 1. cbn. rewrite lookup_insert_eq. cbn. by apply typed_snoc.
    + by apply out_sync_pushes.
  - intros r s s' Hs Hs' _ Hin. destruct (Hpush r s s' Hs Hs') as (ms' & _ & ->).
    eapply in_sync_part; [|done]. by rewrite pushes_rx_part.
  - intros q l l' s s' Hl Hl' _ Hs Hs'. cbn in Hl'. replace l' with l by congruence.
    destruct (Hpush _ s s' Hs Hs') as (ms' & _ & ->).
    split; [intros Hcn; eapply connecting_part; [|done]|intros _ _ Hin; eapply in_sync_part; [|done]]; by rewrite pushes_rx_part.
Qed.

(** A client's session is in order at both of its ends. *)
Lemma linked_or_not n i r : unlinked n i r ∨ ∃ p l, n_links n !! p = Some l ∧ lk_client l = i ∧ lk_session l = r.
Proof.
  destruct (decide (unlinked n i r)) as [|Hn]; [by left|right].
  apply map_not_Forall in Hn as (p & l & Hp & Hnn); [|apply _]. exists p, l.
  split; [done|]. by apply dec_stable in Hnn.
Qed.

Lemma client_sync n i wc r s :
  inv n → n_clients n !! i = Some wc → hp wc !! r = Some s →
  ∃ ms, typed split (lines_of n i) ms ∧ out_sync ms s ∧ connecting s.
Proof.
  intros (_ & _ & Hlk & Hun & _) Hi Hs. destruct (linked_or_not n i r) as [Hu|(p & l & Hl & <- & <-)].
  - destruct (Hun i wc r s Hi Hs Hu) as (ms & Ht & Ho & Hin). exists ms. split_and!; [done..|by eapply in_sync_connecting].
  - destruct (Hlk p l Hl) as (wc1 & sc & s1 & ms & [H1 H2 _ H4 H5 H6 _ _ _ _]).
    replace wc1 with wc in * by congruence. replace sc with s in * by congruence. by exists ms.
Qed.

(** A step at one session of a client that only changes what it sends or reads,
    and keeps its history. *)
Lemma quiet_client_step n i wc wc' r s s' :
  inv n → n_clients n !! i = Some wc → hp wc !! r = Some s → (fget wc' : client_globals) = fget wc →
  hp wc' = <[r := s']> (hp wc) → ts_id s' = ts_id s →
  (∀ ms, typed split (lines_of n i) ms → out_sync ms s → out_sync ms s') →
  (connecting s → connecting s') →
  (∀ all k got, in_sync all k got s → in_sync all k got s') →
  inv (with_client i wc' n).
Proof.
  intros Hinv Hi Hs Hg Hhp Hid Hout Hcn Hin. pose proof Hinv as (_ & Hcl & _).
  assert (Hd : dom (hp wc') = dom (hp wc)) by (rewrite Hhp; apply dom_insert_lookup_L; by eexists).
  assert (Hcase : ∀ q sq sq', hp wc !! q = Some sq → hp wc' !! q = Some sq' →
    q = r ∧ sq = s ∧ sq' = s' ∨ sq' = sq).
  { intros q sq sq' Hq Hq'. rewrite Hhp in Hq'. apply lookup_insert_Some in Hq' as [[<- <-]|[_ Hq']]; [left|right]; naive_solver congruence. }
  eapply (client_moves split n _ i wc wc'); try done.
  - eapply client_ok_moves; [by eapply Hcl|done..|]. intros q sq sq' Hq Hq'.
    by destruct (Hcase q sq sq' Hq Hq') as [(-> & -> & ->)| ->].
  - by apply links_rel_refl.
  - intros q sq sq' ms Hq Hq' Ht Ho. exists []. rewrite app_nil_r.
    destruct (Hcase q sq sq' Hq Hq') as [(-> & -> & ->)| ->]; [|done]. split; [done|]. by apply Hout.
  - intros q sq sq' Hq Hq' _ H. destruct (Hcase q sq sq' Hq Hq') as [(-> & -> & ->)| ->]; [by apply Hin|done].
  - intros q l l' sq sq' Hl Hl' _ Hq Hq'. cbn in Hl'. replace l' with l by congruence.
    destruct (Hcase _ sq sq' Hq Hq') as [(_ & -> & ->)| ->]; [|done].
    split; [exact Hcn|]. intros _ _ H. by apply Hin.
Qed.

Lemma connect_step n i r ec n' :
  inv n → net_exec (Ctx := Ctx) split n (A_connect i r ec) = Some n' → inv n'.
Proof.
  intros Hinv Hx. cbn in Hx. destruct (n_clients n !! i) as [wc|] eqn:Hi; [|done]. cbn in Hx.
  destruct (hp wc !! r) as [s|] eqn:Hs; [|done]. cbn in Hx. destruct (decide _) as [|Hne]; [done|].
  destruct (complete_connect r ec wc) as [[] wc'| |] eqn:Hr; cbn in Hx; [|done..]. injection Hx as <-.
  destruct (client_sync n i wc r s Hinv Hi Hs) as (ms & _ & _ & Hcn).
  destruct (endpoint_connect (CB := client_callbacks) (λ _, False) r s ec wc wc' Hs Hcn Hne Hr)
    as (s' & Hhp & Htx & Hcn' & Hin).
  eapply (quiet_client_step n i wc wc' r s s'); try done.
  - by apply (globals_connect (fget wc) r ec wc tt).
  - by injection Htx.
  - intros ms' _ Ho. by eapply out_sync_part.
Qed.

Lemma client_write_step n i r ec k n' :
  inv n → net_exec (Ctx := Ctx) split n (A_client_write i r ec k) = Some n' → inv n'.
Proof.
  intros Hinv Hx. cbn in Hx. destruct (n_clients n !! i) as [wc|] eqn:Hi; [|done]. cbn in Hx.
  destruct (hp wc !! r) as [s|] eqn:Hs; [|done]. cbn in Hx. destruct (write_allowed _ _ _) eqn:Hw; [|done].
  destruct (complete_write r ec k wc) as [[] wc'| |] eqn:Hr; cbn in Hx; [|done..]. injection Hx as <-.
  apply write_allowed_spec in Hw.
  assert (Hwr : ∀ ms, typed split (lines_of n i) ms → out_sync ms s →
    ∃ s', hp wc' = <[r := s']> (hp wc) ∧ out_sync ms s' ∧ rx_part s' = rx_part s ∧ ts_id s' = ts_id s).
  { intros ms Ht Ho. eapply (endpoint_write (CB := client_callbacks) (λ _, False)); try done.
    eapply Forall_impl; [by eapply typed_all|]. by intros m [[? _] _]. }
  destruct (client_sync n i wc r s Hinv Hi Hs) as (ms & Ht & Ho & _).
  destruct (Hwr ms Ht Ho) as (s' & Hhp & _ & Hrx & Hid).
  eapply (quiet_client_step n i wc wc' r s s'); try done.
  - by apply (globals_write (fget wc) r ec k wc tt).
  - intros ms' Ht' Ho'. destruct (Hwr ms' Ht' Ho') as (s2 & Hhp2 & Ho2 & _).
    assert (Some s' = Some s2) as [= <-]; [|done].
    rewrite <- (lookup_insert_eq (hp wc) r s'), <- (lookup_insert_eq (hp wc) r s2). by rewrite <- Hhp, Hhp2.
  - by apply connecting_part.
  - intros all' k2 got' Hin. by eapply in_sync_part.
Qed.

(** What a read takes: something the network may give it, and everything it
    asked for if it is a whole one. *)
Lemma read_bytes_reads stream pos s ec k bs :
  read_bytes stream pos s ec k = Some bs → sk_reads (ts_socket s) ≠ [].
Proof. unfold read_bytes. by destruct (sk_reads (ts_socket s)). Qed.

Lemma read_bytes_allowed stream pos s ec k bs :
  read_bytes stream pos s ec k = Some bs → Forall byte_ok stream → rx_inv s → read_completion (ts_socket s) ec bs.
Proof.
  unfold read_bytes, may_take. intros Hb Hst Hrx. destruct (sk_reads (ts_socket s)) as [|[t size] rest] eqn:Hr; [done|].
  assert (Hsize : 0 <= size).
  { destruct Hrx as [Hx|[Hx|[Hx _]]]; unfold waiting_header, waiting_body in Hx; rewrite Hr in Hx; [done|..];
      injection Hx as -> -> ->; [done|]. apply Z.mod_pos_bound. lia. }
  exists t, size, rest. split; [done|]. destruct (is_error ec).
  - destruct (k =? 0)%nat; [|done]. injection Hb as <-. by split_and!; [constructor|..].
  - destruct (_ && _) eqn:Hk; [|done]. injection Hb as <-.
    rewrite !andb_true_iff, orb_true_iff, Nat.leb_le, Z.leb_le, Nat.ltb_lt, Z.eqb_eq in Hk.
    assert (Hl : length (take k (drop pos stream)) = k) by (rewrite length_take; lia).
    split_and!; [by apply Forall_take, Forall_drop|lia|done|]. intros _ Hpos Hnil. rewrite Hnil in Hl. cbn in Hl. lia.
Qed.

Lemma read_bytes_whole stream pos s ec k bs :
  read_bytes stream pos s ec k = Some bs → whole_read s ec bs = true →
  if is_error ec then bs = [] else arriving stream pos s = Some bs.
Proof.
  unfold read_bytes, whole_read, arriving, may_take.
  destruct (sk_reads (ts_socket s)) as [|[t size] rest] eqn:Hr; [done|]. destruct (is_error ec).
  - destruct (k =? 0)%nat; [|done]. by intros [= <-].
  - destruct (_ && _) eqn:Hk; [|done]. intros [= <-] Hw. cbn in Hw. apply Z.eqb_eq in Hw.
    rewrite !andb_true_iff, Nat.leb_le in Hk. rewrite length_take in Hw.
    replace (Z.to_nat size) with k by lia. rewrite length_take.
    destruct (Z.eqb_spec (Z.of_nat (k `min` length (drop pos stream))) size); [done|lia].
Qed.

Lemma moved_silent {W} `{FW : !Field W heap} p (w w' : W) q s s' :
  moved (λ _, False) p w w' → hp w !! q = Some s → hp w' !! q = Some s' →
  tx_part s' = tx_part s ∧ (q ≠ p → rx_part s' = rx_part s).
Proof.
  intros [_ Hm] Hs Hs'. destruct (Hm q s s' Hs Hs') as [(ms & Hms & Ht) Hr]. split; [|done].
  destruct ms as [|m ms]; [done|]. by inversion Hms.
Qed.

Lemma down_step n p ec k n' :
  inv n → net_exec (Ctx := Ctx) split n (A_down p ec k) = Some n' → inv n'.
Proof.
  intros Hinv Hx. cbn in Hx. destruct (n_links n !! p) as [l|] eqn:Hl; [|done]. cbn in Hx.
  pose proof Hinv as (_ & Hcl & Hlk & _ & _ & Hinj).
  destruct (Hlk p l Hl) as (wc & sc & s & ms & Hlok). pose proof Hlok as [H1 H2 H3 _ _ _ _ _ _ _].
  rewrite H1 in Hx. cbn in Hx. rewrite H2 in Hx. cbn in Hx. unfold down_stream in Hx. rewrite H3 in Hx. cbn in Hx.
  destruct (read_bytes _ _ _ _ _) as [bs|] eqn:Hb; [|done]. cbn in Hx. pose proof (read_bytes_reads _ _ _ _ _ _ Hb) as Hne.
  destruct (complete_read _ _ _ wc) as [[] wc'| |] eqn:Hr; cbn in Hx; [|done..]. injection Hx as <-.
  destruct (endpoint_read_any (CB := client_callbacks) (λ _, False) (lk_session l) sc ec bs wc wc' H2 Hr)
    as (Hmv & sc' & Hsc' & Hcs).
  pose proof Hmv as [Hd _].
  assert (Hok : client_ok wc').
  { eapply client_ok_moves; [by eapply Hcl|by apply (globals_read (fget wc) _ _ _ wc tt _ eq_refl Hr)|done|].
    intros r s0 s1 Hs0 Hs1. destruct (moved_silent _ _ _ _ _ _ Hmv Hs0 Hs1) as [[= _ _ _ E] _]. done. }
  eapply (client_moves split n _ (lk_client l) wc wc'); try done.
  - eapply links_rel_insert; [done|done|]. split; [|done]. split_and!; try done. by intros [? _]%andb_true_iff.
  - intros r s0 s1 ms0 Hs0 Hs1 Ht Ho. exists []. rewrite app_nil_r. split; [done|].
    eapply out_sync_part; [|done]. by destruct (moved_silent _ _ _ _ _ _ Hmv Hs0 Hs1) as [-> _].
  - intros r s0 s1 Hs0 Hs1 Hu Hin. eapply in_sync_part; [|done].
    destruct (moved_silent _ _ _ _ _ _ Hmv Hs0 Hs1) as [_ ->]; [done|]. intros ->. by apply (Hu p l Hl).
  - intros q lq lq' s0 s1 Hq Hq' Hqi Hs0 Hs1. cbn in Hq'. destruct (decide (p = q)) as [<-|Hpq].
    + rewrite lookup_insert_eq in Hq'. injection Hq' as <-. replace lq with l in * by congruence.
      replace s0 with sc in * by congruence. replace s1 with sc' by congruence. split.
      { unfold connecting. rewrite Hcs. intros [?|[_ ?]]; [by left|done]. }
      cbn. intros Hu [_ Hw]%andb_true_iff Hin.
      destruct (endpoint_read (CB := client_callbacks) (λ _, False) (sk_out (ts_socket s)) (heard_by n p)
        (lk_down l) (lk_got l) (lk_session l) sc ec bs wc wc' H2 Hin (heard_acceptable n p Hinv Hu)
        (out_sync_prefix _ _ (lo_down_out _ _ _ _ _ _ _ _ Hlok Hu)) Hne (read_bytes_whole _ _ _ _ _ _ Hb Hw) Hr)
        as (_ & _ & s2 & Hs2 & Hin').
      by replace sc' with s2 by congruence.
    + rewrite lookup_insert_ne in Hq' by done. replace lq' with lq by congruence.
      assert (Hrx : rx_part s1 = rx_part s0).
      { destruct (moved_silent _ _ _ _ _ _ Hmv Hs0 Hs1) as [_ ->]; [done|]. intros E. apply Hpq. by apply (Hinj p q l lq). }
      split; [by apply connecting_part|]. intros _ _. by apply in_sync_part.
Qed.

(** *** Server steps *)

(** What a session's own read adds to what it has said. *)
Lemma said_read ws p s ec bs q :
  hp ws !! p = Some s →
  said q [label_of ws (Ev_read p ec bs)] = if decide (p = q) then filter is_nf (message_of s ec bs) else [].
Proof.
  intros Hs. unfold label_of, message_of. rewrite Hs.
  destruct (sk_reads (ts_socket s)) as [|[[] size] rest]; cbn [head]; try by destruct (decide (p = q)).
  destruct (is_error ec); [by destruct (decide (p = q))|].
  destruct (store hdrLength bs (ts_msg s)) as [m|]; [|by destruct (decide (p = q))].
  rewrite filter_cons, filter_nil. unfold is_nf. destruct (Z.eqb_spec (hdr_msgId (msg_hdr m)) (MsgId_val NF_MESSAGE)).
  - rewrite (decide_True (P := hdr_msgId _ = _)) by done. unfold said. cbn. by destruct (decide (p = q)).
  - rewrite (decide_False (P := hdr_msgId _ = _)) by done. by destruct (decide (p = q)).
Qed.

(** The messages queued in a step are those heard in it. *)
Lemma queued_is_heard ws e ws' q s s' ms :
  chat_running (Ctx := Ctx) ws → server_step chat ws e ws' → (∀ p', label_of ws e ≠ L_sent p') →
  hp ws !! q = Some s → hp ws' !! q = Some s' → tx_part s' = tx_part (pushes ms s) →
  ms = heard_now q (room_of ws) (label_of ws e).
Proof.
  intros Hrun Hstep Hns Hs Hs' [= Eq _ _ _]. destruct (chat_step_room ws e ws' Hrun Hstep) as [Hx _].
  destruct (room_exec_history _ _ _ q (ts_sendQue s) Hx) as (b & Hb & E); [cbn; by rewrite lookup_fmap, Hs|].
  cbn in Hb. rewrite lookup_fmap, Hs' in Hb. injection Hb as <-. rewrite Eq, pushes_queue in E.
  replace (sent_now q (room_of ws) (label_of ws e)) with (@nil Msg) in E.
  - rewrite app_nil_l in E. by apply app_inv_head in E.
  - destruct (label_of ws e) as [| | |p'|]; try done. by destruct (Hns p').
Qed.

Lemma read_label ws p ec bs p' : label_of ws (Ev_read p ec bs) ≠ L_sent p'.
Proof. unfold label_of. by repeat case_match. Qed.

Lemma up_step n p ec k n' :
  inv n → net_exec (Ctx := Ctx) split n (A_up p ec k) = Some n' → inv n'.
Proof.
  intros Hinv Hx. cbn in Hx. destruct (n_links n !! p) as [l|] eqn:Hl; [|done]. cbn in Hx.
  pose proof Hinv as ([Hrun _] & _ & Hlk & _ & Hdom & _).
  destruct (Hlk p l Hl) as (wc & sc & s & ms & Hlok). pose proof Hlok as [H1 H2 H3 _ Ho _ _ _ _ _].
  rewrite H3 in Hx. cbn in Hx. unfold up_stream in Hx. rewrite H1 in Hx. cbn in Hx. rewrite H2 in Hx. cbn in Hx.
  destruct (read_bytes _ _ _ _ _) as [bs|] eqn:Hb; [|done]. cbn in Hx. pose proof (read_bytes_reads _ _ _ _ _ _ Hb) as Hne.
  unfold server_does in Hx. cbn [server_run] in Hx.
  destruct (complete_read _ _ _ _) as [[] ws'| |] eqn:Hr; cbn in Hx; [|done..]. injection Hx as <-.
  destruct (endpoint_read_any (CB := server_callbacks chat) (λ _, True) p s ec bs (n_server n) ws' H3 Hr)
    as (Hmv & s' & Hs' & _).
  assert (Hc : read_completion (ts_socket s) ec bs).
  { eapply read_bytes_allowed; [done| |apply (session_at _ _ _ (running_inv chat _ (proj1 Hrun)) H3)].
    eapply out_sync_bytes; [exact Ho|]. eapply Forall_impl; [by eapply typed_acceptable|]. by intros m [? _]. }
  assert (Hstep : server_step chat (n_server n) (Ev_read p ec bs) ws') by (split; [by exists s|done]).
  pose proof Hmv as [Hd Hm].
  eapply (server_moves split n _ (Ev_read p ec bs) ws'); try done.
  - eapply links_rel_insert; [done..|]. split_and!; try done. by intros [? _]%andb_true_iff.
  - intros q s0 s1 Hs0 Hs1 _ Hoq. destruct (Hm q s0 s1 Hs0 Hs1) as [(msq & _ & Ht) _].
    rewrite <- (queued_is_heard _ _ _ q s0 s1 msq Hrun Hstep (read_label _ p ec bs) Hs0 Hs1 Ht).
    eapply out_sync_part; [done|]. by apply out_sync_pushes.
  - intros q lq lq' wq sq s0 s1 msq Hq Hq' Hlq Hs1. cbn [n_links with_link] in Hq'. cbn [n_room with_link with_server].
    pose proof Hlq as [H1' H2' H3' _ Ho' _ H7' H8' _ _].
    rewrite said_app, (said_read (n_server n) p s ec bs q H3), H7'. destruct (decide (p = q)) as [<-|Hpq].
    + rewrite lookup_insert_eq in Hq'. injection Hq' as <-. replace lq with l in * by congruence.
      unfold up_read. cbn [lk_up lk_said lk_up_whole]. rewrite filter_app. split; [|done]. intros [Hu Hw]%andb_true_iff.
      replace s0 with s in * by congruence. replace s1 with s' by congruence. replace wq with wc in * by congruence.
      replace sq with sc in * by congruence.
      destruct (endpoint_read (CB := server_callbacks chat) (λ _, True) (sk_out (ts_socket sc)) msq (lk_up l) (lk_said l)
        p s ec bs (n_server n) ws' H3 (H8' Hu) (typed_acceptable _ _ _ _ _ _ _ Hlq)
        (out_sync_prefix _ _ Ho') Hne (read_bytes_whole _ _ _ _ _ _ Hb Hw) Hr) as (_ & _ & s2 & Hs2 & Hin').
      by replace s' with s2 by congruence.
    + rewrite lookup_insert_ne in Hq' by done. cbn in Hq'. replace lq' with lq by congruence. rewrite app_nil_r. split; [|done].
      intros Hu. eapply in_sync_part; [|exact (H8' Hu)]. symmetry. by apply (Hm q s0 s1 H3' Hs1).
Qed.

(** Labels that say nothing. *)
Definition says_nothing (lab : room_label) : Prop := match lab with L_say _ _ => False | _ => True end.
Lemma nothing_heard q rm lab : says_nothing lab → heard_now q rm lab = [].
Proof. by destruct lab. Qed.
Lemma nothing_said q ls lab : says_nothing lab → said q (ls ++ [lab]) = said q ls.
Proof. intros H. rewrite said_app. destruct lab; [..|]; by rewrite ?app_nil_r. Qed.
Lemma write_label ws p ec k : says_nothing (label_of ws (Ev_write p ec k)).
Proof. unfold label_of. destruct (hp ws !! p); [|done]. by destruct (is_error ec). Qed.
Lemma accept_label ws error peer uninit : says_nothing (label_of ws (Ev_accept error peer uninit)).
Proof. unfold label_of. by destruct (_ || _). Qed.

Lemma server_write_step n p ec k n' :
  inv n → net_exec (Ctx := Ctx) split n (A_server_write p ec k) = Some n' → inv n'.
Proof.
  intros Hinv Hx. cbn in Hx. destruct (hp (n_server n) !! p) as [s|] eqn:Hs; [|done]. cbn in Hx.
  destruct (write_allowed _ _ _) eqn:Hw; [|done]. apply write_allowed_spec in Hw.
  pose proof Hinv as ([Hrun _] & _ & Hlk & _ & Hdom & _).
  assert (Hl : is_Some (n_links n !! p)) by (apply Hdom; by eexists). destruct Hl as [l Hl].
  unfold server_does in Hx. cbn [server_run] in Hx.
  destruct (complete_write _ _ _ _) as [[] ws'| |] eqn:Hr; cbn in Hx; [|done..]. injection Hx as <-.
  destruct (endpoint_write_any (CB := server_callbacks chat) (λ _, True) p s ec k (n_server n) ws' Hs Hr)
    as (s' & Hhp & Hrx & Hid).
  assert (Hstep : server_step chat (n_server n) (Ev_write p ec k) ws') by (split; [by exists s|done]).
  assert (Hcase : ∀ q sq sq', hp (n_server n) !! q = Some sq → hp ws' !! q = Some sq' →
    q = p ∧ sq = s ∧ sq' = s' ∨ sq' = sq).
  { intros q sq sq' Hq Hq'. rewrite Hhp in Hq'. apply lookup_insert_Some in Hq' as [[<- <-]|[_ Hq']]; [left|right]; naive_solver congruence. }
  pose proof (write_label (n_server n) p ec k) as Hlab.
  eapply (server_moves split n _ (Ev_write p ec k) ws'); try done.
  - by apply links_rel_refl.
  - rewrite Hhp. apply dom_insert_lookup_L. by eexists.
  - intros q s0 s1 Hs0 Hs1 Hu Ho. rewrite nothing_heard, app_nil_r by done.
    destruct (Hcase q s0 s1 Hs0 Hs1) as [(-> & -> & ->)| ->]; [|done].
    destruct (endpoint_write (CB := server_callbacks chat) (λ _, True) (heard_by n p) p s ec k (n_server n) ws' Hs Ho
      (heard_sendable n p Hinv Hu) Hw Hr) as (s2 & Hhp2 & Ho2 & _).
    replace s' with s2; [done|]. rewrite Hhp2 in Hs1. rewrite lookup_insert_eq in Hs1. congruence.
  - intros q lq lq' wq sq s0 s1 msq Hq Hq' [_ _ H3' _ _ _ H7' H8' _ _] Hs1. cbn in Hq'.
    replace lq' with lq by congruence. cbn [n_room with_server]. rewrite nothing_said by done. split; [|done].
    intros Hu. destruct (Hcase q s0 s1 H3' Hs1) as [(_ & -> & ->)| ->]; [eapply in_sync_part; [done|]|]; by apply H8'.
Qed.

(** *** Accepting *)

Lemma accept_effect ws error peer uninit ws' :
  server_inv ws → server_step chat ws (Ev_accept error peer uninit) ws' →
  hp ws' = hp ws ∨ ∃ s id, hp ws' = <[fresh (dom (hp ws)) := s]> (hp ws) ∧
    tx_part s = ([], [], [], id) ∧ rx_part s = ([(RdHeader, hdrLength)], uninit.1.1, 0%nat).
Proof.
  intros Hinv [[Hne Hm] Hrun]. cbn in Hrun. change (sv_accepts (sv ws) ≠ 0%nat) in Hne.
  assert (H1 : sv_accepts (sv ws) = 1%nat) by (destruct Hinv as (_ & _ & (_ & _ & _ & _ & ? & _) & _); lia).
  destruct (is_error error) eqn:He.
  { rewrite accept_error_ok in Hrun by done. injection Hrun as <-. left. apply hp_upd_sv. }
  destruct error; try done.
  destruct (Z.leb_spec (max_of (sv ws)) (Z.of_nat (size (sv_sessions (sv ws))))) as [Hfull|Hlt].
  { erewrite accept_full_ok in Hrun; [|done|by apply Hinv|by right]. injection Hrun as <-. left. apply hp_upd_sv. }
  destruct peer as [ep|].
  2:{ destruct (accept_gone_throws chat uninit ws) as [? E]; [done..|]. by rewrite E in Hrun. }
  destruct (accept_quiet ep uninit ws) as (id & rest & pool & w1 & s & _ & Hr & _ & Hhp & Htx & Hrx & _); [done..|].
  rewrite Hr in Hrun. injection Hrun as <-. right. by exists s, id.
Qed.

(** A session nobody had is in order. *)
Lemma new_session_sync s id m all :
  tx_part s = ([], [], [], id) → rx_part s = ([(RdHeader, hdrLength)], m, 0%nat) → msg_ok m →
  out_sync [] s ∧ in_sync all 0 [] s.
Proof.
  intros [= Eq Ew Eo _] [= Er Em Ec] Hm. split.
  - exists []. rewrite Eq. split; [done|]. left. by unfold tx_ok; rewrite Eq, Ew.
  - split; [by rewrite Em|]. split; [by left|]. exists [], all. auto.
Qed.

Lemma accepted_inv n error peer uninit i r wc sc ws' s id :
  inv n → n_clients n !! i = Some wc → hp wc !! r = Some sc → unlinked n i r → msg_ok uninit.1.1 →
  server_step chat (n_server n) (Ev_accept error peer uninit) ws' →
  let p := fresh (dom (hp (n_server n))) in
  hp ws' = <[p := s]> (hp (n_server n)) →
  tx_part s = ([], [], [], id) → rx_part s = ([(RdHeader, hdrLength)], uninit.1.1, 0%nat) →
  inv (with_link p (link_new i r) (with_server ws' (Ev_accept error peer uninit) n)).
Proof.
  intros Hinv Hi Hs Hu Hm Hstep p Hhp Htx Hrx.
  pose proof Hinv as ([Hrun Hroom] & Hcl & Hlk & Hun & Hdom & Hinj).
  destruct (chat_step_room _ _ _ Hrun Hstep) as [Hx Hrun'].
  assert (Hp : hp (n_server n) !! p = None) by (apply not_elem_of_dom, is_fresh).
  assert (Hpl : n_links n !! p = None) by (apply eq_None_not_Some; rewrite Hdom, Hp; by intros []).
  pose proof (accept_label (n_server n) error peer uninit) as Hlab. set (lab := label_of _ _) in *.
  set (n' := with_link _ _ _).
  assert (Hh : ∀ q, heard_by n' q = heard_by n q).
  { intros q. unfold heard_by. cbn. by rewrite (over_snoc _ _ _ _ _ Hroom), nothing_heard, app_nil_r. }
  assert (Hsd : ∀ q, said q (n_room n') = said q (n_room n)) by (intros q; by apply nothing_said).
  assert (Hob : outbox (room_of (n_server n)) !! p = None) by (cbn; by rewrite lookup_fmap, Hp).
  assert (Hne : ∀ q l, n_links n !! q = Some l → p ≠ q) by (intros q l Hq ->; congruence).
  assert (Hw : up_whole n' → up_whole n).
  { intros Hu' q l Hq. apply (Hu' q). cbn. rewrite lookup_insert_ne; [done|by eapply Hne]. }
  split; [split; [done|exact (room_run_snoc _ _ _ _ _ Hroom Hx)]|]. split; [done|split; [|split; [|split]]].
  - intros q l Hq. cbn in Hq. apply lookup_insert_Some in Hq as [[<- <-]|[Hpq Hq]].
    + destruct (Hun i wc r sc Hi Hs Hu) as (ms & Ht & Ho & Hin). exists wc, sc, s, ms.
      destruct (new_session_sync s id _ ms Htx Hrx Hm) as [Hos His].
      assert (Hhe : heard_by n p = []) by (eapply heard_fresh; [|done..]; by intros k q).
      split; rewrite ?Hh, ?Hsd, ?Hhe; cbn; rewrite ?Hhp, ?lookup_insert_eq; try done; [by eapply in_sync_connecting|].
      destruct (said p (n_room n)) as [|m l] eqn:E; [done|].
      assert (Hin' : m ∈ said p (n_room n)) by (rewrite E; by left). apply elem_of_said in Hin'.
      destruct (said_dom _ _ _ _ _ Hroom Hin') as [? Hsm]. congruence.
    + destruct (Hlk q l Hq) as (wq & sq & s0 & ms & [H1 H2 H3 H4 H5 H6 H7 H8 H9 H10]).
      exists wq, sq, s0, ms. split; rewrite ?Hh, ?Hsd; cbn; rewrite ?Hhp, ?lookup_insert_ne by done; try done.
      * intros Hu'%Hw. by apply H9.
      * intros Hu'%Hw. by apply H10.
  - intros j wj q sq Hj Hq Hu'. apply (Hun j wj q sq Hj Hq). intros q' l Hq'. apply (Hu' q').
    cbn. rewrite lookup_insert_ne; [done|by eapply Hne].
  - intros q. cbn. rewrite Hhp, !lookup_insert_is_Some'. by rewrite Hdom.
  - intros q1 q2 l1 l2 Hq1 Hq2 E1 E2. cbn in Hq1, Hq2.
    apply lookup_insert_Some in Hq1 as [[<- <-]|[_ Hq1]], Hq2 as [[<- <-]|[_ Hq2]]; [done|..|by eapply Hinj].
    + destruct (Hu q2 l2 Hq2). by split.
    + destruct (Hu q1 l1 Hq1). by split.
Qed.

Lemma accept_step n error peer uninit i r n' :
  inv n → action_ok (A_accept error peer uninit i r) →
  net_exec (Ctx := Ctx) split n (A_accept error peer uninit i r) = Some n' → inv n'.
Proof.
  intros Hinv Hm Hx. cbn in Hx, Hm. destruct (n_clients n !! i) as [wc|] eqn:Hi; [|done]. cbn in Hx.
  destruct (hp wc !! r) as [sc|] eqn:Hs; [|done]. cbn in Hx. destruct (decide _) as [[Hu Hacc]|]; [|done].
  unfold server_does in Hx. cbn [server_run] in Hx.
  destruct (complete_accept _ _ _ _ _) as [[] ws'| |] eqn:Hr; cbn in Hx; [|done..].
  assert (Hstep : server_step chat (n_server n) (Ev_accept error peer uninit) ws') by done.
  pose proof Hinv as ([Hrun _] & _ & _ & _ & Hdom & _).
  destruct (accept_effect _ _ _ _ _ (running_inv chat _ (proj1 Hrun)) Hstep) as [Hhp|(s & id & Hhp & Htx & Hrx)].
  - rewrite Hhp in Hx. replace (hp (n_server n) !! fresh (dom (hp (n_server n)))) with (@None TcpSession) in Hx
      by (symmetry; apply not_elem_of_dom, is_fresh).
    injection Hx as <-. pose proof (accept_label (n_server n) error peer uninit) as Hlab.
    eapply (server_moves split n _ (Ev_accept error peer uninit) ws'); try done.
    + by apply links_rel_refl.
    + by rewrite Hhp.
    + intros q s0 s1 Hs0 Hs1 _. rewrite Hhp in Hs1. replace s1 with s0 by congruence.
      by rewrite nothing_heard, app_nil_r.
    + intros q l l' wq sq s0 s1 ms Hq Hq' [_ _ H3 _ _ _ H7 H8 _ _] Hs1. rewrite Hhp in Hs1.
      cbn in Hq'. replace l' with l by congruence. replace s1 with s0 by congruence. split; [done|].
      cbn [n_room with_server]. by rewrite nothing_said.
  - rewrite Hhp, lookup_insert_eq in Hx. injection Hx as <-. by eapply accepted_inv.
Qed.

Lemma net_step_inv n a n' : inv n → net_step (Ctx := Ctx) split n a n' → inv n'.
Proof.
  intros Hinv [Hok Hx]. destruct a.
  - by eapply line_step.
  - by eapply connect_step.
  - by eapply accept_step.
  - by eapply up_step.
  - by eapply down_step.
  - by eapply server_write_step.
  - by eapply client_write_step.
Qed.

Lemma net_reach_inv n0 n :
  net_start (WC := WC) (Ctx := Ctx) n0 → reach (net_step (Ctx := Ctx) split) n0 n → inv n.
Proof. intros H0. apply reach_inv; [by apply net_start_inv|]. intros. by eapply net_step_inv. Qed.
End Steps.
