(* ===== verification/NetworkProps.v ===== *)
(** * What the chat network does

    The properties of every reachable network, from its invariant (NetworkInv),
    and a run of a concrete one. *)
From S2P Require Import Prelude Config Msg Session TcpSession TcpSend TcpRecv ByteStream IoServicePool TcpServer ServerInv ServerProps Redis ChatServer ChatProps ChatRelay ChatRoom ChatFaults ChatClient ChatMain ChatSystem ChatNetwork NetworkInv.

(** ** Texts on their way *)

Lemma arrived_text g m :
  sendable m → arrived g m → bodyLength g = bodyLength m ∧ chat_text g = chat_text m.
Proof.
  intros Hm (old & _ & ->). split; [done|]. unfold chat_text.
  change (bodyLength (received m old)) with (bodyLength m). f_equal. unfold received. cbn [msg_body].
  apply take_splice_0. by rewrite length_take_body.
Qed.

Lemma arrived_carries text g m : carries text m → arrived g m → carries text g.
Proof.
  intros Hc Ha. pose proof Hc as ((Hacc & Hid & Ht) & Hb & Hct & _).
  destruct (arrived_text g m (proj1 Hacc) Ha) as [Eb Et].
  split; [split; [|split]|split; [|split]].
  - by eapply arrived_acceptable.
  - by destruct (arrived_frame g m (proj1 Hacc) Ha) as [_ ->].
  - by rewrite Et.
  - by rewrite Eb.
  - by rewrite Et.
  - destruct Ha as (old & _ & ->). by apply received_carries.
Qed.

Section Properties.
Context {WC : Type} `{FHC : !Field WC heap} `{FGC : !Field WC client_globals} `{SGC : !Separate FGC FHC}.
Context {WS : Type} {Ctx : Type} `{HR : !Hiredis Ctx}.
Context `{FH : !Field WS heap} `{FS : !Field WS TcpServer} `{FR : !Field WS (Redis Ctx)}.
Context `{SEP : !Separate FS FH} `{SRH : !Separate FR FH} `{SRS : !Separate FR FS}.
Context (split : string → list string).
Implicit Types (n : network WS WC) (ws : WS) (wc : WC) (l : link) (s : TcpSession) (p q r : ptr).

Abbreviation chat := (chat_callbacks (W := WS) (Ctx := Ctx)).
Abbreviation step := (net_step (WC := WC) (WS := WS) (Ctx := Ctx) split).

(** C1: the network is the room, as far as the framing holds.  In every state the
    network can reach, whatever has been interleaved, delayed, cut short or
    read in parts: the server is the abstract room after the labels of its
    events, and what the room has heard a session say is the notifications its
    callback has been given.  On a connection on which no read of the server's
    has completed with fewer bytes than asked for ([async_read_some] may), the
    server's callback has been given, in order and once each, the messages that
    the first lines typed at that client make.  If that is so of every
    connection and no read of this client's was short either, its callback has
    been given, in order and once each, a beginning of what the others have
    said while the session was listed. *)
Theorem network_is_room n0 n p l :
  net_start (WC := WC) (Ctx := Ctx) n0 → reach step n0 n → n_links n !! p = Some l →
  room_run (mkRoom ∅ ∅) (n_room n) = Some (room_of (n_server n)) ∧
  said p (n_room n) = filter is_nf (lk_said l) ∧
  (lk_up_whole l = true →
     ∃ past rest, typed split (lines_of n (lk_client l)) (past ++ rest) ∧ Forall2 arrived (lk_said l) past) ∧
  (up_whole n → lk_down_whole l = true →
     ∃ past rest, heard p (mkRoom ∅ ∅) (n_room n) = past ++ rest ∧ Forall2 arrived (lk_got l) past).
Proof.
  intros H0 Hr Hl. pose proof (net_reach_inv split n0 n H0 Hr) as ([_ Hroom] & _ & Hlk & _).
  destruct (Hlk p l Hl) as (wc & sc & s & ms & [_ _ _ Ht _ _ Hsaid Hup _ Hdown]).
  split_and!; [done|done| |].
  - intros Hu. destruct (in_sync_got _ _ _ _ (Hup Hu)) as (past & rest & -> & Ha). by exists past, rest.
  - intros Hu Hd. exact (in_sync_got _ _ _ _ (Hdown Hu Hd)).
Qed.

(** C2: nothing is made up unless a read was short.  In every state the network
    can reach, if no read of the server's and none of this client's has
    completed with fewer bytes than asked for, every message the client's
    callback has been given carries the text of a [send] line that was typed at
    a client with another connection: a notification of 256 bytes with exactly
    that text, terminated.  ([network_short_read] is what one short read does.) *)
Theorem network_authentic n0 n p l m :
  net_start (WC := WC) (Ctx := Ctx) n0 → reach step n0 n → n_links n !! p = Some l →
  up_whole n → lk_down_whole l = true → m ∈ lk_got l →
  ∃ q l' str text, q ≠ p ∧ n_links n !! q = Some l' ∧ str ∈ lines_of n (lk_client l') ∧
    sends split str text ∧ carries text m.
Proof.
  intros H0 Hr Hl Hup Hdw Hm. pose proof (net_reach_inv split n0 n H0 Hr) as Hinv.
  pose proof Hinv as (_ & _ & Hlk & _).
  destruct (Hlk p l Hl) as (? & ? & ? & ? & Hok).
  destruct (in_sync_got _ _ _ _ (lo_down_in _ _ _ _ _ _ _ _ Hok Hup Hdw)) as (past & rest & Eh & Ha).
  destruct (arrived_elem _ _ _ Ha Hm) as (m1 & Hm1 & Ham).
  assert (Hh : m1 ∈ heard_by n p) by (rewrite Eh; apply elem_of_app; by left).
  destruct (heard_said _ _ _ _ Hh) as (q & Hsay & Hne).
  destruct (said_link split n q m1 Hinv Hsay) as (l' & wc & sc & s & ms & Hl' & Hok' & Hs & Hnf).
  pose proof (lo_typed _ _ _ _ _ _ _ _ Hok') as Ht.
  destruct (in_sync_got _ _ _ _ (lo_up_in _ _ _ _ _ _ _ _ Hok' (Hup q l' Hl'))) as (past' & rest' & Ems & Ha').
  destruct (arrived_elem _ _ _ Ha' Hs) as (m2 & Hm2 & Ham').
  assert (Hin : m2 ∈ ms) by (rewrite Ems; apply elem_of_app; by left).
  pose proof (typed_all split _ _ Ht) as Hall. rewrite Forall_forall in Hall. destruct (Hall m2 Hin) as [[Hsm _] _].
  assert (Hnf2 : is_nf m2) by (unfold is_nf; by destruct (arrived_frame m1 m2 Hsm Ham') as [_ <-]).
  destruct (typed_nf split _ _ _ Ht Hin Hnf2) as (str & text & Hstr & Hsends & Hcar).
  exists q, l', str, text. split_and!; try done. eapply arrived_carries; [|done]. by eapply arrived_carries.
Qed.

(** *** The server's handlers return *)

Lemma messageHandler_returns p s ws :
  server_inv ws → hp ws !! p = Some s → is_Some (strlen (msg_body (ts_msg s))) →
  ∃ ws', messageHandler (Ctx := Ctx) p ws = Ok tt ws'.
Proof.
  intros Hinv Hs [k Hk]. rewrite (messageHandler_ok p s ws Hs).
  destruct (_ =? MsgId_val RQ_CREATE_USER); [|destruct (_ =? MsgId_val NF_MESSAGE)].
  - rewrite (rqCreateUser_ok p s ws Hs), Hk.
    destruct (Redis_send_ok (user_cmd (ts_id s)) ws) as (b & r & E). rewrite (bind_ok _ _ _ _ _ E). by eexists.
  - assert (Hv : view ws p = Some (session_view_of s)) by (cbn; by rewrite Hs).
    destruct (nfMessage_run p _ k ws Hv Hk (listed_ok_inv ws Hinv)) as (b & r & h & _ & E & _). by eexists.
  - by eexists.
Qed.

Lemma error_returns p s t size rest ec ws :
  server_inv ws → hp ws !! p = Some s → sk_reads (ts_socket s) = (t, size) :: rest → is_error ec = true →
  ∃ ws', server_run chat (Ev_read p ec []) ws = Ok tt ws'.
Proof.
  intros Hinv Hs Hr He. destruct (session_at _ _ _ Hinv Hs) as [Hsi _]. cbn. destruct t.
  - eexists. by eapply header_error_ok; [|apply Hsi| |].
  - rewrite (body_error_ok p s ec size rest ws Hs (proj1 Hsi) Hr He).
    destruct Hsi as (_ & _ & _ & _ & ->). cbn. eexists. eapply close_quiet. apply lookup_upd.
Qed.

Lemma message_returns p s m ws :
  chat_running (Ctx := Ctx) ws → hp ws !! p = Some s → msg_ok m → is_Some (strlen (msg_body m)) →
  ∃ ws', (call (ts_messageHandler s) (λ h, run_message (Callbacks := server_callbacks chat) h p) ;;
          TcpSession_read p hdrLength)
    (upd p (set_rx (λ rx, u64 (rx + msg_length m)) (took_read m s)) ws) = Ok tt ws'.
Proof.
  intros [Hrun Hh] Hs Hm Hstr. pose proof (running_inv chat ws Hrun) as Hinv.
  destruct (session_at _ _ _ Hinv Hs) as [Hsi _]. destruct (took_read_inv m s Hsi Hm) as [Hti _].
  set (s2 := set_rx _ _). set (w1 := upd p s2 ws).
  assert (Hinv1 : server_inv w1) by (by apply (server_inv_upd p s); [..|apply set_rx_inv|by destruct s]).
  rewrite (proj2 Hh p s Hs). cbn [call].
  destruct (messageHandler_returns p s2 w1 Hinv1 (lookup_upd _ _ _)) as [w2 E]; [by destruct s|].
  change (run_message ChatServer_message p) with (messageHandler (W := WS) (Ctx := Ctx) p).
  rewrite (bind_ok _ _ _ _ _ E). by eexists.
Qed.

Lemma write_returns p s all ec k ws :
  server_inv ws → hp ws !! p = Some s → out_sync all s → Forall sendable all → write_completion (ts_socket s) ec k →
  ∃ ws', server_run chat (Ev_write p ec k) ws = Ok tt ws'.
Proof.
  intros Hinv Hs (sent & Eall & Hout) Hall (size & rest & Hw & Hk & Hsize).
  destruct Hout as [[Htx _]|[Hw' _]]; [|by rewrite Hw' in Hw].
  unfold tx_ok in Htx. destruct (ts_sendQue s) as [|m q] eqn:Eq; [by rewrite Htx in Hw|].
  assert (Hm : sendable m) by (rewrite Eall in Hall; apply Forall_app in Hall as [_ Hall]; by inversion Hall).
  rewrite Htx in Hw. injection Hw as <- <-. rewrite size_t_length in * by done. cbn.
  destruct (is_error ec) eqn:He.
  - erewrite complete_write_error; [|done|done|done|by apply load_sendable|done].
    destruct (session_at _ _ _ Hinv Hs) as [(_ & _ & _ & _ & ->) _]. cbn. eexists. eapply close_quiet. apply lookup_upd.
  - destruct ec; try done. rewrite (Hsize eq_refl). eexists.
    eapply complete_write_ok; [done|done|done|by rewrite size_t_length].
Qed.

(** A header read of any size returns. *)
Lemma header_returns p s bs ws :
  hp ws !! p = Some s → waiting_header s → msg_ok (ts_msg s) → (length bs ≤ 8)%nat →
  ∃ ws', server_run chat (Ev_read p Success bs) ws = Ok tt ws'.
Proof.
  intros Hs Hwh [Hh Hb] Hl. cbn. eexists. eapply complete_header_ok; [done|exact Hwh|].
  unfold store. case_cmp; [done|]. unfold sizeof_Msg, hdrLength, MAX_CP_MSG_DATA in *; cbn in *; lia.
Qed.

(** C3: when the server's handlers return, its clients being this program.  In
    every state the network can reach: a read of the server's that fails, or
    that is for a header and takes any of its bytes, runs a handler that
    returns; so does a read that takes a whole body, as long as no read on that
    connection has been short; and, as long as none has been short on any
    connection, a write that fails or is complete.  Then no handler of the server
    throws or is undefined, although the same server is for peers that send
    other bytes.  (After a short header read a body may have any length:
    [body_read_bounds] has what a negative one does.) *)
Theorem network_server_safe n0 n p l s :
  net_start (WC := WC) (Ctx := Ctx) n0 → reach step n0 n →
  n_links n !! p = Some l → hp (n_server n) !! p = Some s →
  (∀ ec k stream bs, up_stream n l = Some stream → read_bytes stream (lk_up l) s ec k = Some bs →
     is_error ec = true ∨ waiting_header s ∨ (lk_up_whole l = true ∧ whole_read s ec bs = true) →
     ∃ ws', server_run chat (Ev_read p ec bs) (n_server n) = Ok tt ws') ∧
  (∀ ec k, up_whole n → write_allowed (ts_socket s) ec k = true →
     ∃ ws', server_run chat (Ev_write p ec k) (n_server n) = Ok tt ws').
Proof.
  intros H0 Hr Hl Hs. pose proof (net_reach_inv split n0 n H0 Hr) as Hinv.
  pose proof Hinv as ([Hrun _] & _ & Hlk & _). pose proof (running_inv chat _ (proj1 Hrun)) as Hsinv.
  destruct (Hlk p l Hl) as (wc & sc & s' & ms & Hok). pose proof Hok as [H1 H2 H3 Ht Ho _ _ Hin Hos _].
  replace s' with s in * by congruence. pose proof (typed_acceptable split _ _ _ _ _ _ _ Hok) as Hacc.
  destruct (session_at _ _ _ Hsinv Hs) as [Hsi _].
  split; [|intros ec k Hu Hw%write_allowed_spec; eapply write_returns; [done|done|by apply Hos|by apply (heard_sendable split n p Hinv)|done]].
  intros ec k stream bs Hst Hb Hcase. unfold up_stream in Hst. rewrite H1 in Hst. cbn in Hst. rewrite H2 in Hst.
  injection Hst as <-. pose proof (read_bytes_reads _ _ _ _ _ _ Hb) as Hne.
  pose proof (read_bytes_allowed _ _ _ _ _ _ Hb (out_sync_bytes _ _ Ho (Forall_impl _ _ _ Hacc (λ m H, proj1 H)))
    (proj1 (proj2 (proj2 Hsi)))) as (t & size & rest & Er & _ & Hsize & Herr & _).
  destruct (is_error ec) eqn:He; [rewrite (Herr eq_refl); by eapply error_returns|]. destruct ec; try done.
  destruct Hcase as [?|[Hwh|[Hu Hw]]]; [done| |].
  { apply (header_returns p s); [done|done|apply Hsi|]. unfold waiting_header in Hwh. rewrite Hwh in Er.
    injection Er as <- <- <-. unfold hdrLength in Hsize. lia. }
  specialize (Hin Hu). pose proof (read_bytes_whole _ _ _ _ _ _ Hb Hw) as Harr. cbn in Harr. destruct t.
  - destruct (in_sync_reads _ _ _ _ _ _ _ Hin Hacc Er) as (_ & _ & Hwh).
    destruct (header_arrives _ _ _ _ _ _ Hin Hacc (out_sync_prefix _ _ Ho) (Hwh eq_refl) Harr) as (m & Hm & _).
    eexists. by eapply complete_header_ok.
  - destruct (body_arrives _ _ _ _ _ _ _ _ Hin Hacc (out_sync_prefix _ _ Ho) Er Harr)
      as (m0 & m & Hm0 & -> & Hm & _ & _). cbn [server_run].
    rewrite (complete_body_ok p s bs _ size rest _ Hs Er Hm).
    pose proof (typed_all split _ _ Ht) as Hall. rewrite Forall_forall in Hall.
    destruct (Hall m0 Hm0) as [[Hsm _] [k' Hk]]. apply message_returns; [done..| |].
    + apply received_ok; [done|apply Hin].
    + exists k'. by apply chat_text_received.
Qed.
End Properties.

(** ** A run *)

(** Executed actions are steps. *)
Section Runs.
Context {WC : Type} `{FHC : !Field WC heap} `{FGC : !Field WC client_globals} `{SGC : !Separate FGC FHC}.
Context {WS : Type} {Ctx : Type} `{HR : !Hiredis Ctx}.
Context `{FH : !Field WS heap} `{FS : !Field WS TcpServer} `{FR : !Field WS (Redis Ctx)}.
Context `{SEP : !Separate FS FH} `{SRH : !Separate FR FH} `{SRS : !Separate FR FS}.
Context (split : string → list string).

Definition net_run (acts : list net_action) (n : network WS WC) : option (network WS WC) :=
  foldl (λ o a, n ← o; net_exec (Ctx := Ctx) split n a) (Some n) acts.

Lemma net_run_reach acts n0 n :
  Forall action_ok acts → net_run acts n0 = Some n → reach (net_step (Ctx := Ctx) split) n0 n.
Proof.
  unfold net_run. revert n. induction acts as [|a acts IH] using rev_ind; intros n Hok Hr.
  - injection Hr as <-. constructor.
  - rewrite foldl_snoc in Hr. apply Forall_app in Hok as [Hok [Ha _]%Forall_cons].
    apply bind_Some in Hr as (n' & Hr & He). eapply reach_step; [by apply IH|by split].
Qed.
End Runs.

(** Two processes with a client each and the server they connect to. *)
Definition net_client : client_world :=
  after ((register_commands ;; add_client (Some "127.0.0.1"%string) 20000 100 uninit0) client0) client0.
Definition net0 : network chat_world client_world :=
  mkNetwork chat1 {[0%nat := net_client; 1%nat := net_client]} ∅ [] ∅.
Definition net_acts : list net_action :=
  [A_accept Success (Some chat_ep) uninit0 0 0%nat; A_connect 0 0%nat Success;
   A_connect 1 0%nat Success; A_accept Success (Some chat_ep) uninit0 1 0%nat;
   A_line 0 "send hi" any_msg; A_client_write 0 0%nat Success 264;
   A_up 0%nat Success 8; A_up 0%nat Success 256; A_server_write 1%nat Success 264;
   A_down 1%nat Success 8; A_down 1%nat Success 256].
Definition net1 : network chat_world client_world :=
  default net0 (net_run (Ctx := nat) demo_split net_acts net0).
Definition net_session : TcpSession := default (demo_session socket_new []) (hp net_client !! 0%nat).

Lemma net_client_starts : client_starts net_client.
Proof.
  assert (Hh : hp net_client = {[0%nat := net_session]}) by (vm_compute; reflexivity).
  assert (Hv : vec net_client = [mkClient 0 100 false]) by (vm_compute; reflexivity).
  split; [split; rewrite Hv|split].
  - repeat constructor. by intros ?%not_elem_of_nil.
  - intros c ->%list_elem_of_singleton. rewrite Hh. by exists net_session.
  - vm_compute. reflexivity.
  - intros r s Hs. rewrite Hh in Hs. apply lookup_singleton_Some in Hs as [<- <-]. rewrite Hv.
    split_and!; [by left|..|vm_compute; reflexivity|vm_compute; reflexivity|vm_compute; reflexivity].
    + vm_compute. split; congruence.
    + apply (bool_decide_unpack _). vm_compute. exact I.
Qed.

Lemma net_clients_start i wc : n_clients net0 !! i = Some wc → client_starts wc.
Proof.
  unfold net0. cbn [n_clients]. intros Hi.
  apply lookup_insert_Some in Hi as [[_ <-]|[_ [_ <-]%lookup_singleton_Some]]; exact net_client_starts.
Qed.

Lemma chat1_empty : hp chat1 = ∅.
Proof. vm_compute. reflexivity. Qed.

Lemma chat1_chat_running : chat_running (Ctx := nat) chat1.
Proof.
  split; [exact chat1_running|]. split; [vm_compute; reflexivity|]. intros p s. rewrite chat1_empty.
  by intros ?%lookup_empty_Some.
Qed.

Lemma net0_starts : net_start (WC := client_world) (Ctx := nat) net0.
Proof.
  split; [exact chat1_chat_running|]. split; [vm_compute; reflexivity|].
  split; [exact net_clients_start|]. split; [reflexivity|]. split; reflexivity.
Qed.

Lemma net_acts_ok : Forall action_ok net_acts.
Proof. repeat constructor; try exact any_msg_ok; apply (bool_decide_unpack _); vm_compute; exact I. Qed.

Lemma net1_reached : reach (net_step (Ctx := nat) demo_split) net0 net1.
Proof.
  apply (net_run_reach demo_split net_acts); [exact net_acts_ok|vm_compute; reflexivity].
Qed.

Lemma net1_up_whole : up_whole net1.
Proof. apply (bool_decide_unpack _). vm_compute. exact I. Qed.

Lemma network_is_room_witness :
  ∃ l, n_links net1 !! 1%nat = Some l ∧ length (lk_got l) = 1%nat ∧
    room_run (mkRoom ∅ ∅) (n_room net1) = Some (room_of (n_server net1)) ∧
    ∃ past rest, heard 1%nat (mkRoom ∅ ∅) (n_room net1) = past ++ rest ∧ Forall2 arrived (lk_got l) past.
Proof.
  eexists. split; [vm_compute; reflexivity|]. split; [vm_compute; reflexivity|].
  refine (match network_is_room (Ctx := nat) demo_split net0 net1 1%nat _ net0_starts net1_reached _ with
    conj H1 (conj _ (conj _ H4)) => conj H1 (H4 net1_up_whole _) end); vm_compute; reflexivity.
Defined.

Lemma network_authentic_witness :
  ∃ l m, n_links net1 !! 1%nat = Some l ∧ m ∈ lk_got l ∧
    ∃ q l' str text, q ≠ 1%nat ∧ n_links net1 !! q = Some l' ∧ str ∈ lines_of net1 (lk_client l') ∧
      sends demo_split str text ∧ carries text m.
Proof.
  eexists _, _. split; [vm_compute; reflexivity|]. split; [by left|].
  eapply (network_authentic (Ctx := nat) demo_split net0 net1 1%nat _ _ net0_starts net1_reached).
  - vm_compute. reflexivity.
  - exact net1_up_whole.
  - reflexivity.
  - by left.
Defined.

Lemma network_server_safe_witness :
  ∃ s, hp (n_server net1) !! 1%nat = Some s ∧
    (∃ ws', server_run demo_chat (Ev_read 1%nat (Error_other 104) []) (n_server net1) = Ok tt ws') ∧
    ∀ ec k, write_allowed (ts_socket s) ec k = true →
      ∃ ws', server_run demo_chat (Ev_write 1%nat ec k) (n_server net1) = Ok tt ws'.
Proof.
  eexists. split; [vm_compute; reflexivity|].
  refine (match network_server_safe (Ctx := nat) demo_split net0 net1 1%nat _ _ net0_starts net1_reached _ _ with
    conj H1 H2 => conj (H1 (Error_other 104) 0%nat _ [] _ _ (or_introl _)) (λ ec k, H2 ec k net1_up_whole) end);
    vm_compute; reflexivity.
Defined.

(** *** A short read *)

(** The client reads four of the eight bytes of a header. *)
Definition short_acts : list net_action :=
  take 9 net_acts ++ [A_down 1%nat Success 4; A_down 1%nat Success 256].
Definition net_short : network chat_world client_world :=
  default net0 (net_run (Ctx := nat) demo_split short_acts net0).

Definition short_link : link := default (link_new 1 0%nat) (n_links net_short !! 1%nat).
(** The message the client's callback is given. *)
Definition made_up : Msg := default (demo_msg 0 []) (head (lk_got short_link)).

Lemma made_up_text : chat_text made_up = Some 1%nat.
Proof. vm_compute. reflexivity. Qed.
Lemma short_lines i str : str ∈ lines_of net_short i → str = "send hi"%string.
Proof.
  assert (Hlines : n_lines net_short = {[0%nat := ["send hi"%string]]}) by (vm_compute; reflexivity).
  unfold lines_of. rewrite Hlines. clear Hlines. destruct (decide (i = 0%nat)) as [->|Hi].
  - rewrite lookup_singleton_eq. by intros ->%list_elem_of_singleton.
  - rewrite lookup_singleton_ne by done. by intros ?%not_elem_of_nil.
Qed.

(** C24: one short read makes up a message.  The network can reach a state in which
    every read of the server's was whole, one read of a client's took four of
    the eight bytes of a header, and that client's callback has been given a
    notification with the text of no line typed anywhere. *)
Theorem network_short_read :
  ∃ n l m, reach (net_step (Ctx := nat) demo_split) net0 n ∧ up_whole n ∧
    n_links n !! 1%nat = Some l ∧ lk_got l = [m] ∧ is_nf m ∧ is_Some (chat_text m) ∧
    ∀ i str text, str ∈ lines_of n i → sends demo_split str text → ¬ carries text m.
Proof.
  exists net_short, short_link, made_up. split_and!.
  - apply (net_run_reach demo_split short_acts); [|vm_compute; reflexivity].
    apply Forall_app. split; [apply Forall_take, net_acts_ok|by repeat constructor].
  - apply (bool_decide_unpack _). vm_compute. exact I.
  - vm_compute. reflexivity.
  - vm_compute. reflexivity.
  - vm_compute. reflexivity.
  - exists 1%nat. exact made_up_text.
  - intros i str text ->%short_lines (_ & _ & _ & _ & _ & Ht & _) (_ & _ & Hc & _).
    change (Some "hi"%string = Some text) in Ht. injection Ht as <-. rewrite made_up_text in Hc.
    change (Some 1%nat = Some 2%nat) in Hc. discriminate.
Qed.
