(* ===== verification/NetworkLive.v ===== *)
(** * The chat network delivers

    From every reachable state in which no read has been short, completions of
    one connection alone, none of them failing and none short, bring its client
    all that the others have said while its session was listed: the server's
    outstanding writes empty its queue, then the client's reads consume the
    stream; and the other way round for what has been typed. *)
From S2P Require Import Prelude Config Msg Session TcpSession TcpSend TcpRecv ByteStream IoServicePool TcpServer ServerInv ServerProps Redis ChatServer ChatProps ChatRelay ChatRoom ChatFaults ChatClient ChatMain ChatSystem ChatNetwork NetworkInv NetworkProps.

(** ** The bytes of the next read *)

Lemma arriving_exact stream k s t size rest bs :
  sk_reads (ts_socket s) = (t, size) :: rest → take (Z.to_nat size) (drop k stream) = bs →
  Z.of_nat (length bs) = size → arriving stream k s = Some bs.
Proof. intros Hr E Hl. unfold arriving. by rewrite Hr, E, Hl, Z.eqb_refl. Qed.

Lemma arriving_header past m rest s :
  sendable m → waiting_header s →
  arriving (wire (past ++ m :: rest)) (length (wire past)) s = Some (bytes_of_hdr (msg_hdr m)).
Proof.
  intros [_ Hb] Hwh. eapply arriving_exact; [exact Hwh| |by rewrite length_bytes_of_hdr].
  rewrite wire_app, drop_app_length. change (wire (m :: rest)) with (frame m ++ wire rest).
  rewrite frame_split, <- app_assoc by lia. apply take_app_length'. by rewrite length_bytes_of_hdr.
Qed.

Lemma arriving_body past m rest s :
  sendable m → sk_reads (ts_socket s) = [(RdBody, bodyLength m)] →
  arriving (wire (past ++ m :: rest)) (length (wire past) + 8) s =
    Some (take (Z.to_nat (bodyLength m)) (msg_body m)).
Proof.
  intros Hm Hr. pose proof Hm as [_ Hb]. eapply arriving_exact; [exact Hr| |rewrite length_take_body by done; lia].
  rewrite wire_app, <- drop_drop, drop_app_length. change (wire (m :: rest)) with (frame m ++ wire rest).
  rewrite frame_split, <- app_assoc by lia. rewrite drop_app_length' by by rewrite length_bytes_of_hdr.
  apply take_app_length'. by rewrite length_take_body.
Qed.

(** A read that takes all it asked for. *)
Lemma arriving_read stream k s bs :
  arriving stream k s = Some bs →
  read_bytes stream k s Success (length bs) = Some bs ∧ whole_read s Success bs = true.
Proof.
  unfold arriving, read_bytes, whole_read, may_take. destruct (sk_reads (ts_socket s)) as [|[t size] rest]; [done|].
  destruct (Z.eqb_spec (Z.of_nat (length (take (Z.to_nat size) (drop k stream)))) size) as [E|]; [|done].
  intros [= <-]. cbn [is_error orb]. rewrite E, Z.eqb_refl. split; [|done].
  rewrite length_take in E. rewrite length_take.
  replace (Z.to_nat size `min` length (drop k stream))%nat with (Z.to_nat size) by lia.
  rewrite (proj2 (Nat.leb_le _ _)), (proj2 (Z.leb_le _ _)) by lia. cbn [andb].
  destruct (Nat.ltb_spec 0 (Z.to_nat size)); [done|]. by rewrite (proj2 (Z.eqb_eq size 0)) by lia.
Qed.

(** A link whose server side is as before keeps the reads of the servers whole. *)
Lemma up_whole_link {WS WC} (n : network WS WC) p l l' :
  up_whole n → n_links n !! p = Some l → lk_up_whole l' = lk_up_whole l → up_whole (with_link p l' n).
Proof.
  intros Hu Hl E q lq Hq. cbn in Hq. apply lookup_insert_Some in Hq as [[<- <-]|[_ Hq]]; [rewrite E|]; by eapply Hu.
Qed.

(** The write that is outstanding may complete. *)
Lemma front_write_allowed s m q :
  tx_ok s → ts_sendQue s = m :: q → sendable m →
  write_allowed (ts_socket s) Success (msg_length m) = true ∧ sk_writes (ts_socket s) = [size_t (msg_length m)].
Proof.
  unfold tx_ok. intros Hw Hq Hm. rewrite Hq in Hw. pose proof Hm as [_ Hb]. split; [|done].
  unfold write_allowed. rewrite Hw, size_t_length, Z.leb_refl, Z.eqb_refl by done.
  by rewrite (proj2 (Z.leb_le 0 (msg_length m))) by (unfold msg_length, hdrLength, bodyLength in *; lia).
Qed.

(** An empty queue: everything has been handed to the network. *)
Lemma out_sync_all all s : out_sync all s → ts_sendQue s = [] → sk_out (ts_socket s) = wire all.
Proof.
  intros (sent & -> & [[_ ->]|(_ & m & q & k & Hq' & _)]) Hq; [by rewrite Hq, app_nil_r|by rewrite Hq in Hq'].
Qed.
Lemma out_sync_front all s m q : out_sync all s → Forall sendable all → ts_sendQue s = m :: q → sendable m.
Proof.
  intros (sent & -> & _) Hall Hq. rewrite Hq in Hall. apply Forall_app in Hall as [_ Hall]. by inversion Hall.
Qed.

(** A body read by a client: the callback returns and the next header read is
    started. *)
Lemma client_body_ok {WC : Type} `{FHC : !Field WC heap} p s bs m size rest (wc : WC) :
  hp wc !! p = Some s → sk_reads (ts_socket s) = (RdBody, size) :: rest → store 8 bs (ts_msg s) = Val m →
  ts_messageHandler s = Some Client_message →
  complete_read (CB := client_callbacks) p Success bs wc =
    Ok tt (upd p (add_read (RdHeader, hdrLength) (set_rx (λ rx, u64 (rx + msg_length m)) (took_read m s))) wc).
Proof.
  intros Hs Hr Hst Hh. rewrite (complete_body_ok p s bs m size rest wc Hs Hr Hst), Hh. cbn [call].
  set (s1 := set_rx _ _).
  assert (E : run_message (Callbacks := client_callbacks) Client_message p (upd p s1 wc) = Ok tt (upd p s1 wc)).
  { cbn. unfold Client_messageHandler, TcpSession_getMsg, TcpSession_getID. sess_run. by repeat case_match. }
  rewrite (bind_ok _ _ _ _ _ E). unfold TcpSession_read, async_read_some.
  rewrite (assign_ok _ s1) by apply lookup_upd. by rewrite upd_upd.
Qed.

Section Delivery.
Context {WC : Type} `{FHC : !Field WC heap} `{FGC : !Field WC client_globals} `{SGC : !Separate FGC FHC}.
Context {WS : Type} {Ctx : Type} `{HR : !Hiredis Ctx}.
Context `{FH : !Field WS heap} `{FS : !Field WS TcpServer} `{FR : !Field WS (Redis Ctx)}.
Context `{SEP : !Separate FS FH} `{SRH : !Separate FR FH} `{SRS : !Separate FR FS}.
Context (split : string → list string).
Implicit Types (n : network WS WC) (wc : WC) (l : link) (s sc : TcpSession) (p : ptr).

Abbreviation inv := (net_inv (Ctx := Ctx) split).

(** The connection at [p]: its client's process and session, and the server's
    session; the client's waits for bytes, no write of the server's has failed,
    and no read of the server's, nor of this client's, has been short. *)
Record live n p l wc sc s : Prop := {
  live_link : n_links n !! p = Some l;
  live_client : n_clients n !! lk_client l = Some wc;
  live_session : hp wc !! lk_session l = Some sc;
  live_server : hp (n_server n) !! p = Some s;
  live_reads : sk_reads (ts_socket sc) ≠ [];
  live_handler : ts_messageHandler sc = Some Client_message;
  live_writes : tx_ok s;
  live_up_whole : up_whole n;
  live_down_whole : lk_down_whole l = true
}.

(** The actions of the connection: its completions, without an error. *)
Definition delivery p (a : net_action) : Prop :=
  match a with
  | A_server_write q ec _ => q = p ∧ ec = Success
  | A_down q ec _ => q = p ∧ ec = Success
  | _ => False
  end.
Definition delivers p n (a : net_action) n' : Prop := delivery p a ∧ net_step (Ctx := Ctx) split n a n'.

Lemma live_sync n p l wc sc s :
  inv n → live n p l wc sc s →
  out_sync (heard_by n p) s ∧ in_sync (heard_by n p) (lk_down l) (lk_got l) sc.
Proof.
  intros (_ & _ & Hlk & _) [Hl H1 H2 H3 _ _ _ Hu Hd].
  destruct (Hlk p l Hl) as (wc' & sc' & s' & ms & [H1' H2' H3' _ _ _ _ _ Ho Hi]).
  replace wc' with wc in * by congruence. replace sc' with sc in * by congruence.
  replace s' with s in * by congruence. split; [by apply Ho|by apply Hi].
Qed.

(** *** The server's writes *)

Lemma write_delivers n p l wc sc s m q :
  inv n → live n p l wc sc s → ts_sendQue s = m :: q →
  ∃ n', delivers p n (A_server_write p Success (msg_length m)) n' ∧
    live n' p l wc sc (pop_write s) ∧ heard_by n' p = heard_by n p.
Proof.
  intros Hinv Hlive Hq. destruct (live_sync n p l wc sc s Hinv Hlive) as [Ho _].
  destruct Hlive as [Hl H1 H2 H3 Hr Hh Htx Hu Hdw].
  pose proof (out_sync_front _ _ _ _ Ho (heard_sendable split n p Hinv Hu) Hq) as Hm.
  destruct (front_write_allowed s m q Htx Hq Hm) as [Hal Hw].
  set (e := Ev_write p Success (msg_length m)).
  set (n' := with_server (upd p (pop_write s) (n_server n)) e n).
  assert (Hx : net_exec (Ctx := Ctx) split n (A_server_write p Success (msg_length m)) = Some n').
  { cbn [net_exec]. rewrite H3. cbn. rewrite Hal. unfold server_does. cbn [server_run].
    by rewrite (complete_write_ok p s m q _ H3 Hm Hq Hw). }
  exists n'. split; [split; [done|by split]|split].
  - split; try done; [by apply lookup_upd|by apply pop_write_tx_ok].
  - unfold heard_by. pose proof Hinv as ([_ Hroom] & _). cbn [n_room n' with_server].
    rewrite (over_snoc _ _ _ _ _ Hroom), nothing_heard by apply write_label. by rewrite app_nil_r.
Qed.

Lemma writes_deliver n p l wc sc s :
  inv n → live n p l wc sc s →
  ∃ n' s', reach (delivers p) n n' ∧ inv n' ∧ live n' p l wc sc s' ∧ ts_sendQue s' = [] ∧
    heard_by n' p = heard_by n p.
Proof.
  remember (ts_sendQue s) as que eqn:Hq. symmetry in Hq. revert n s Hq.
  induction que as [|m que IH]; intros n s Hq Hinv Hlive.
  - exists n, s. split_and!; [constructor|done..].
  - destruct (write_delivers n p l wc sc s m que Hinv Hlive Hq) as (n1 & Hd & Hlive1 & Hh1).
    destruct (IH n1 (pop_write s)) as (n2 & s2 & Hr & Hinv2 & Hlive2 & Hq2 & Hh2).
    + unfold pop_write. rewrite Hq. by destruct s.
    + eapply net_step_inv; [done|apply Hd].
    + done.
    + exists n2, s2. split_and!; [by eapply reach_first|done..|by rewrite Hh2].
Qed.

(** *** The client's reads *)

(** What has been read, in half messages. *)
Definition progress l sc : nat :=
  2 * length (lk_got l) + match sk_reads (ts_socket sc) with (RdBody, _) :: _ => 1 | _ => 0 end.

Lemma down_delivers n p l wc sc s bs sc' :
  live n p l wc sc s → arriving (sk_out (ts_socket s)) (lk_down l) sc = Some bs →
  complete_read (CB := client_callbacks) (lk_session l) Success bs wc = Ok tt (upd (lk_session l) sc' wc) →
  sk_reads (ts_socket sc') ≠ [] → ts_messageHandler sc' = Some Client_message →
  let l' := down_read sc Success bs l in
  ∃ n', delivers p n (A_down p Success (length bs)) n' ∧ live n' p l' (upd (lk_session l) sc' wc) sc' s ∧
    heard_by n' p = heard_by n p.
Proof.
  intros [Hl H1 H2 H3 Hr Hh Htx Hu Hdw] Hbs Hrun Hr' Hh' l'. destruct (arriving_read _ _ _ _ Hbs) as [Hrb Hw].
  exists (with_link p l' (with_client (lk_client l) (upd (lk_session l) sc' wc) n)).
  split; [split; [done|split; [done|]]|split; [|done]].
  - cbn [net_exec]. rewrite Hl. cbn. rewrite H1. cbn. rewrite H2. cbn. unfold down_stream. rewrite H3. cbn.
    rewrite Hrb. cbn. by rewrite Hrun.
  - assert (Hd' : lk_down_whole l' = true) by (unfold l', down_read; cbn [lk_down_whole]; by rewrite Hdw, Hw).
    split; cbn; try done; [apply lookup_insert_eq..|apply lookup_upd|].
    by apply (up_whole_link (with_client (lk_client l) _ n) p l).
Qed.

Lemma read_delivers n p l wc sc s :
  inv n → live n p l wc sc s → ts_sendQue s = [] →
  Forall2 arrived (lk_got l) (heard_by n p) ∨
  ∃ n' l' wc' sc' k, delivers p n (A_down p Success k) n' ∧ live n' p l' wc' sc' s ∧
    heard_by n' p = heard_by n p ∧ (progress l sc < progress l' sc')%nat.
Proof.
  intros Hinv Hlive Hq. destruct (live_sync n p l wc sc s Hinv Hlive) as [Ho Hi].
  pose proof (out_sync_all _ _ Ho Hq) as Hout.
  pose proof (heard_acceptable split n p Hinv (live_up_whole _ _ _ _ _ _ Hlive)) as Hacc.
  pose proof Hlive as [_ _ H2 _ Hr Hh _ _ _].
  destruct Hi as (Hok & _ & past & rest & Hall & Hg & Hcase). rewrite Hall in *.
  destruct Hcase as [[Hwh Hk]|[(m & rest' & -> & Hrb & Hhdr & Hk)|Hnil]]; [| |done].
  - destruct rest as [|m rest]; [left; by rewrite app_nil_r|right].
    apply Forall_app in Hacc as [_ [[Hm Hch] _]%Forall_cons]. pose proof Hm as [[Hhd _] Hb].
    destruct (down_delivers n p l wc sc s (bytes_of_hdr (msg_hdr m))
      (add_read (next_read (mkMsg (msg_hdr m) (msg_body (ts_msg sc)))) (took_read (mkMsg (msg_hdr m) (msg_body (ts_msg sc))) sc)))
      as (n' & Hd & Hlive' & Hhe).
    + done.
    + rewrite Hout, Hk. by apply arriving_header.
    + eapply complete_header_ok; [done|exact Hwh|].
      rewrite store_header by (apply Hok || apply length_bytes_of_hdr). by rewrite hdr_of_bytes_of_hdr.
    + unfold add_read, took_read. destruct sc as [[] ? ? ? ? ? ? ? ? ? ? ? ?]; cbn. by destruct (tail _).
    + by destruct sc.
    + eexists n', _, _, _, _. split; [exact Hd|]. split; [exact Hlive'|]. split; [by rewrite Hhe|].
      unfold progress. cbn [lk_got down_read]. unfold message_of. rewrite Hwh, app_nil_r.
      unfold waiting_header in Hwh. unfold add_read, took_read, next_read.
      change (checkHeader (mkMsg _ _)) with (checkHeader m). rewrite Hch.
      destruct sc as [[] ? ? ? ? ? ? ? ? ? ? ? ?]; cbn in *. subst. cbn. lia.
  - right. apply Forall_app in Hacc as [_ [[Hm Hch] _]%Forall_cons].
    assert (Hst : store 8 (take (Z.to_nat (bodyLength m)) (msg_body m)) (ts_msg sc) = Val (received m (ts_msg sc))).
    { rewrite store_body by (apply Hok || (pose proof Hm as [_ Hb]; rewrite length_take_body; [lia|done])).
      unfold received. by rewrite Hhdr. }
    destruct (down_delivers n p l wc sc s (take (Z.to_nat (bodyLength m)) (msg_body m))
      (add_read (RdHeader, hdrLength) (set_rx (λ rx, u64 (rx + msg_length (received m (ts_msg sc)))) (took_read (received m (ts_msg sc)) sc))))
      as (n' & Hd & Hlive' & Hhe).
    + done.
    + rewrite Hout, Hk. by apply arriving_body.
    + by eapply client_body_ok.
    + unfold add_read, took_read. destruct sc as [[] ? ? ? ? ? ? ? ? ? ? ? ?]; cbn. by destruct (tail _).
    + by destruct sc.
    + eexists n', _, _, _, _. split; [exact Hd|]. split; [exact Hlive'|]. split; [by rewrite Hhe|].
      unfold progress. cbn [lk_got down_read]. unfold message_of. rewrite Hrb. change hdrLength with 8. rewrite Hst. cbn [is_error].
      rewrite length_app. cbn [length]. unfold add_read, took_read.
      destruct sc as [[] ? ? ? ? ? ? ? ? ? ? ? ?]; cbn in *. subst. cbn. lia.
Qed.

Lemma progress_bound n p l wc sc s :
  inv n → live n p l wc sc s → (progress l sc ≤ 2 * length (heard_by n p) + 1)%nat.
Proof.
  intros Hinv Hlive. destruct (live_sync n p l wc sc s Hinv Hlive) as [_ (_ & _ & past & rest & -> & Hg & _)].
  apply Forall2_length in Hg. unfold progress. rewrite length_app. repeat case_match; lia.
Qed.

Lemma reads_deliver n p l wc sc s :
  inv n → live n p l wc sc s → ts_sendQue s = [] →
  ∃ n' l', reach (delivers p) n n' ∧ n_links n' !! p = Some l' ∧ lk_down_whole l' = true ∧
    heard_by n' p = heard_by n p ∧ Forall2 arrived (lk_got l') (heard_by n p).
Proof.
  remember (2 * length (heard_by n p) + 1 - progress l sc)%nat as k eqn:Hk. revert n l wc sc Hk.
  induction k as [k IH] using lt_wf_ind; intros n l wc sc Hk Hinv Hlive Hq.
  destruct (read_delivers n p l wc sc s Hinv Hlive Hq) as [Hdone|(n1 & l1 & wc1 & sc1 & ? & Hd & Hlive1 & Hhe & Hp)].
  - exists n, l. split_and!; [constructor|apply Hlive|apply Hlive|done|done].
  - assert (Hinv1 : inv n1) by (eapply net_step_inv; [done|apply Hd]).
    pose proof (progress_bound n1 p l1 wc1 sc1 s Hinv1 Hlive1) as Hb. rewrite Hhe in Hb.
    destruct (IH (2 * length (heard_by n1 p) + 1 - progress l1 sc1)%nat ltac:(rewrite Hhe; lia) n1 l1 wc1 sc1)
      as (n' & l' & Hr & Hl' & Hdw & Hhe' & Hg); [done..|].
    exists n', l'. split_and!; [by eapply reach_first|done|done|by rewrite Hhe'|by rewrite <- Hhe].
Qed.

End Delivery.

(** ** The other direction *)

Section Upload.
Context {WC : Type} `{FHC : !Field WC heap} `{FGC : !Field WC client_globals} `{SGC : !Separate FGC FHC}.
Context {WS : Type} {Ctx : Type} `{HR : !Hiredis Ctx}.
Context `{FH : !Field WS heap} `{FS : !Field WS TcpServer} `{FR : !Field WS (Redis Ctx)}.
Context `{SEP : !Separate FS FH} `{SRH : !Separate FR FH} `{SRS : !Separate FR FS}.
Context (split : string → list string).
Implicit Types (n : network WS WC) (wc : WC) (l : link) (s sc : TcpSession) (p : ptr).

Abbreviation inv := (net_inv (Ctx := Ctx) split).
Abbreviation chat := (chat_callbacks (W := WS) (Ctx := Ctx)).

(** The connection at [p] as [live], for the bytes to the server: the server
    waits for them, no write of the client's has failed and no read of the
    server's has been short; [ms] has been typed. *)
Record up_live n p l wc sc s (ms : list Msg) : Prop := {
  up_link : n_links n !! p = Some l;
  up_client : n_clients n !! lk_client l = Some wc;
  up_session : hp wc !! lk_session l = Some sc;
  up_server : hp (n_server n) !! p = Some s;
  up_reads : sk_reads (ts_socket s) ≠ [];
  up_writes : tx_ok sc;
  up_out : out_sync ms sc;
  up_in : in_sync ms (lk_up l) (lk_said l) s;
  up_is_whole : lk_up_whole l = true
}.

Definition upload p n (a : net_action) : Prop :=
  match a with
  | A_client_write i r ec _ =>
      ec = Success ∧ ∃ l, n_links n !! p = Some l ∧ lk_client l = i ∧ lk_session l = r
  | A_up q ec _ => q = p ∧ ec = Success
  | _ => False
  end.
Definition uploads p n (a : net_action) n' : Prop := upload p n a ∧ net_step (Ctx := Ctx) split n a n'.

(** What an uploaded message has: it is acceptable and its text is terminated. *)
Definition typed_ok (m : Msg) : Prop := acceptable m ∧ is_Some (chat_text m).

Lemma client_write_uploads n p l wc sc s ms m q :
  Forall typed_ok ms → up_live n p l wc sc s ms → ts_sendQue sc = m :: q →
  ∃ n' wc', uploads p n (A_client_write (lk_client l) (lk_session l) Success (msg_length m)) n' ∧
    up_live n' p l wc' (pop_write sc) s ms ∧ n_lines n' = n_lines n.
Proof.
  intros Hms [Hl H1 H2 H3 Hr Htx Ho Hi Hu] Hq.
  assert (Hm : sendable m).
  { eapply out_sync_front; [exact Ho| |exact Hq]. eapply Forall_impl; [exact Hms|]. by intros ? [[? _] _]. }
  destruct (front_write_allowed sc m q Htx Hq Hm) as [Hal Hw].
  set (wc' := upd (lk_session l) (pop_write sc) wc).
  exists (with_client (lk_client l) wc' n), wc'. split; [split; [|split; [done|]]|split; [|done]].
  - split; [done|]. by exists l.
  - cbn [net_exec]. rewrite H1. cbn. rewrite H2. cbn. rewrite Hal.
    by rewrite (complete_write_ok (CB := client_callbacks) _ _ m q _ H2 Hm Hq Hw).
  - split; try done; [apply lookup_insert_eq|apply lookup_upd|by apply pop_write_tx_ok|].
    apply out_sync_written; [done|by rewrite Hw].
Qed.

Lemma client_writes_upload n p l wc sc s ms :
  Forall typed_ok ms → up_live n p l wc sc s ms →
  ∃ n' wc' sc', reach (uploads p) n n' ∧ up_live n' p l wc' sc' s ms ∧ ts_sendQue sc' = [] ∧ n_lines n' = n_lines n.
Proof.
  intros Hms. remember (ts_sendQue sc) as que eqn:Hq. symmetry in Hq. revert n wc sc Hq.
  induction que as [|m que IH]; intros n wc sc Hq Hlive.
  - exists n, wc, sc. split_and!; [constructor|done..].
  - destruct (client_write_uploads n p l wc sc s ms m que Hms Hlive Hq) as (n1 & wc1 & Hd & Hlive1 & E1).
    destruct (IH n1 wc1 (pop_write sc)) as (n2 & wc2 & sc2 & Hr & Hlive2 & Hq2 & E2); [|done|].
    + unfold pop_write. rewrite Hq. by destruct sc.
    + exists n2, wc2, sc2. split_and!; [by eapply reach_first|done..|congruence].
Qed.

(** A read of the server's whose handler returns. *)
Lemma up_uploads n p l wc sc s ms bs rd :
  Forall typed_ok ms → up_live n p l wc sc s ms → ts_sendQue sc = [] →
  arriving (wire ms) (lk_up l) s = Some bs →
  (∃ ws', server_run chat (Ev_read p Success bs) (n_server n) = Ok tt ws' ∧
     ∀ s', hp ws' !! p = Some s' → sk_reads (ts_socket s') = [rd]) →
  let l' := up_read s Success bs l in
  ∃ n' s', uploads p n (A_up p Success (length bs)) n' ∧ up_live n' p l' wc sc s' ms ∧ n_lines n' = n_lines n ∧
    sk_reads (ts_socket s') = [rd].
Proof.
  intros Hms [Hl H1 H2 H3 Hr Htx Ho Hi Hu] Hq Hbs (ws' & Hrun & Hrd) l'.
  pose proof (out_sync_all _ _ Ho Hq) as Hout. destruct (arriving_read _ _ _ _ Hbs) as [Hrb Hw].
  assert (Hacc : Forall acceptable ms) by (eapply Forall_impl; [exact Hms|]; by intros ? [? _]).
  destruct (endpoint_read (CB := server_callbacks chat) (λ _, True) (wire ms) ms (lk_up l) (lk_said l) p s
    Success bs (n_server n) ws' H3 Hi Hacc (reflexivity _) Hr Hbs Hrun) as (_ & _ & s' & Hs' & Hi').
  specialize (Hrd s' Hs').
  exists (with_link p l' (with_server ws' (Ev_read p Success bs) n)), s'.
  split; [split; [done|split; [done|]]|split; [|done]].
  - cbn [net_exec]. rewrite Hl. cbn. rewrite H3. cbn. unfold up_stream. rewrite H1. cbn. rewrite H2. cbn.
    rewrite Hout, Hrb. cbn. unfold server_does. by rewrite Hrun.
  - assert (Hu' : lk_up_whole l' = true) by (unfold l', up_read; cbn [lk_up_whole]; by rewrite Hu, Hw).
    split; cbn; try done; [apply lookup_insert_eq|by rewrite Hrd].
Qed.

Definition up_progress l s : nat :=
  2 * length (lk_said l) + match sk_reads (ts_socket s) with (RdBody, _) :: _ => 1 | _ => 0 end.

(** The state after a body that the server's handler has seen. *)
Lemma server_body_returns n p s bs size rest m0 :
  inv n → hp (n_server n) !! p = Some s → sk_reads (ts_socket s) = (RdBody, size) :: rest → rest = [] →
  typed_ok m0 → msg_ok (ts_msg s) → store 8 bs (ts_msg s) = Val (received m0 (ts_msg s)) →
  ∃ ws', server_run chat (Ev_read p Success bs) (n_server n) = Ok tt ws' ∧
    ∀ s', hp ws' !! p = Some s' → sk_reads (ts_socket s') = [(RdHeader, hdrLength)].
Proof.
  intros ([Hrun _] & _) Hs Hr -> [[Hm _] [k Hk]] Hok Hst.
  destruct (message_returns p s (received m0 (ts_msg s)) (n_server n)) as [ws' E]; [done..|by apply received_ok| |].
  { exists k. by apply chat_text_received. }
  exists ws'. cbn [server_run]. rewrite (complete_body_ok p s bs _ size [] _ Hs Hr Hst). split; [exact E|].
  rewrite (proj2 (proj2 Hrun) p s Hs) in E. cbn [call] in E.
  edestruct (endpoint_message (CB := server_callbacks chat) (λ _, True) ChatServer_message p s) as (_ & s1 & Hs1 & Hrx);
    [exact Hs| | |exact E|].
  1,2: by destruct s as [[] ? ? ? ? ? ? ? ? ? ? ? ?]; cbn in *; subst.
  intros s' Hs'. replace s' with s1 by congruence. by injection Hrx.
Qed.

Lemma server_read_uploads n p l wc sc s ms :
  inv n → Forall typed_ok ms → up_live n p l wc sc s ms → ts_sendQue sc = [] →
  Forall2 arrived (lk_said l) ms ∨
  ∃ n' l' s' k, uploads p n (A_up p Success k) n' ∧ up_live n' p l' wc sc s' ms ∧ n_lines n' = n_lines n ∧
    lk_client l' = lk_client l ∧ (up_progress l s < up_progress l' s')%nat.
Proof.
  intros Hinv Hms Hlive Hq. pose proof Hlive as [_ _ _ H3 Hr _ _ Hi _].
  destruct Hi as (Hok & _ & past & rest & Hall & Hg & Hcase).
  destruct Hcase as [[Hwh Hk]|[(m & rest' & -> & Hrb & Hhdr & Hk)|Hnil]]; [| |done].
  - destruct rest as [|m rest]; [left; by rewrite Hall, app_nil_r|right].
    assert (Hm : acceptable m) by (rewrite Hall in Hms; by apply Forall_app in Hms as [_ [[? _] _]%Forall_cons]).
    destruct Hm as [Hm Hch]. pose proof Hm as [[Hhd _] Hb].
    set (g := mkMsg (msg_hdr m) (msg_body (ts_msg s))).
    assert (Hrun : server_run chat (Ev_read p Success (bytes_of_hdr (msg_hdr m))) (n_server n) =
      Ok tt (upd p (add_read (next_read g) (took_read g s)) (n_server n))).
    { cbn [server_run]. eapply complete_header_ok; [done|exact Hwh|].
      rewrite store_header by (apply Hok || apply length_bytes_of_hdr). by rewrite hdr_of_bytes_of_hdr. }
    destruct (up_uploads n p l wc sc s ms (bytes_of_hdr (msg_hdr m)) (RdBody, size_t (bodyLength m)) Hms Hlive Hq)
      as (n' & s' & Hd & Hlive' & E & Hrd).
    + rewrite Hall, Hk. by apply arriving_header.
    + eexists. split; [exact Hrun|]. intros s'. rewrite lookup_upd. intros [= <-].
      unfold waiting_header in Hwh. unfold add_read, took_read, next_read. change (checkHeader g) with (checkHeader m).
      rewrite Hch. destruct s as [[] ? ? ? ? ? ? ? ? ? ? ? ?]; cbn in *. by subst.
    + eexists n', _, s', _. split_and!; [exact Hd|exact Hlive'|done|done|]. unfold up_progress. cbn [lk_said up_read].
      rewrite Hrd. unfold message_of. rewrite Hwh, app_nil_r. lia.
  - right. assert (Hm : typed_ok m) by (rewrite Hall in Hms; by apply Forall_app in Hms as [_ [? _]%Forall_cons]).
    pose proof Hm as [[Hms' _] _]. pose proof Hms' as [_ Hb].
    assert (Hst : store 8 (take (Z.to_nat (bodyLength m)) (msg_body m)) (ts_msg s) = Val (received m (ts_msg s))).
    { rewrite store_body by (apply Hok || (rewrite length_take_body; [lia|done])). unfold received. by rewrite Hhdr. }
    destruct (up_uploads n p l wc sc s ms (take (Z.to_nat (bodyLength m)) (msg_body m)) (RdHeader, hdrLength) Hms Hlive Hq)
      as (n' & s' & Hd & Hlive' & E & Hrd).
    + rewrite Hall, Hk. by apply arriving_body.
    + by eapply (server_body_returns n p s _ _ [] m).
    + eexists n', _, s', _. split_and!; [exact Hd|exact Hlive'|done|done|]. unfold up_progress. cbn [lk_said up_read].
      rewrite Hrd. unfold message_of. rewrite Hrb. change hdrLength with 8. rewrite Hst. cbn [is_error].
      rewrite length_app. cbn [length]. lia.
Qed.

Lemma server_reads_upload n p l wc sc s ms :
  inv n → Forall typed_ok ms → up_live n p l wc sc s ms → ts_sendQue sc = [] →
  ∃ n' l', reach (uploads p) n n' ∧ n_links n' !! p = Some l' ∧ lk_up_whole l' = true ∧
    Forall2 arrived (lk_said l') ms ∧ lk_client l' = lk_client l ∧ n_lines n' = n_lines n.
Proof.
  intros Hinv Hms. remember (2 * length ms + 1 - up_progress l s)%nat as k eqn:Hk. revert n l s Hk Hinv.
  induction k as [k IH] using lt_wf_ind; intros n l s Hk Hinv Hlive Hq.
  destruct (server_read_uploads n p l wc sc s ms Hinv Hms Hlive Hq)
    as [Hdone|(n1 & l1 & s1 & ? & Hd & Hlive1 & E & Ec & Hp)].
  - exists n, l. split_and!; [constructor|apply Hlive|apply Hlive|done..].
  - assert (Hinv1 : inv n1) by (eapply net_step_inv; [done|apply Hd]).
    assert (Hb : (up_progress l1 s1 ≤ 2 * length ms + 1)%nat).
    { destruct Hlive1 as [_ _ _ _ _ _ _ (_ & _ & past & rest & -> & Hg & _) _]. apply Forall2_length in Hg.
      unfold up_progress. rewrite length_app. repeat case_match; lia. }
    destruct (IH (2 * length ms + 1 - up_progress l1 s1)%nat ltac:(lia) n1 l1 s1) as (n' & l' & Hr & Hl' & Hu' & Hg & Ec' & E');
      [done..|].
    exists n', l'. split_and!; [by eapply reach_first|done..|congruence|congruence].
Qed.

End Upload.

(** ** Instances at concrete inputs *)

(** The run of NetworkProps after its first [k] actions. *)
Definition net_at (k : nat) : network chat_world client_world :=
  default net0 (net_run (Ctx := nat) demo_split (take k net_acts) net0).

Lemma net_5_reached : reach (net_step (Ctx := nat) demo_split) net0 (net_at 5).
Proof. apply (net_run_reach demo_split (take 5 net_acts)); [apply Forall_take, net_acts_ok|vm_compute; reflexivity]. Qed.
Lemma net_8_reached : reach (net_step (Ctx := nat) demo_split) net0 (net_at 8).
Proof. apply (net_run_reach demo_split (take 8 net_acts)); [apply Forall_take, net_acts_ok|vm_compute; reflexivity]. Qed.

Lemma net_5_lines : lines_of (net_at 5) 0 = ["send hi"%string].
Proof. vm_compute. reflexivity. Qed.


