(* ===== verification/PartyServer.v ===== *)
(** * The party server (server/HandleMsg.cpp, Character.h, Character.cpp, Room.cpp)

    The handlers of the older server: users log in as characters, create
    parties, join others to them and send them messages.  They are written
    against declarations the repository does not have: the message ids and
    body structures ([PartyProtocol]), the methods of the older session
    ([PartySessions]; of these TcpSession.cpp has an [asyncSend(Msg&)] with an
    empty body behind [#if 0], TcpSession.h none) and the room ([RoomOps]).  These are parameters; the
    handlers, the global tables and what the handlers do of the older
    [TcpServer] (the part of TcpServer.h and TcpServer.cpp behind [#if 0]) are
    modelled statement by statement.  The locks are taken and released within
    one handler, which is one step here. *)
From S2P Require Import Prelude Msg Session.

(** ** What the repository does not declare *)

(** A [char] array inside a body structure. *)
Record field := mkField { fd_off : nat; fd_len : nat }.
Definition fd_end (f : field) : nat := fd_off f + fd_len f.

(** The enumerators and the layouts of the body structures.  The laws are
    those of C++: the cases of a [switch] are distinct values of [uint32_t],
    the members of a structure lie within it and do not overlap, and the
    structures are meant for the 1024-byte body. *)
Class PartyProtocol := {
  rq_CrteUser : Z; rs_CrteUser : Z; rq_Login : Z; rs_Login : Z;
  rq_CrteParty : Z; rs_CrteParty : Z; rq_JoinUser : Z; rs_JoinUser : Z;
  rq_ReqJoin : Z; nf_Message : Z; ID_nf_Eco : Z;
  rq_Login_id : field;
  rq_CrteParty_id : field;
  rq_JoinUser_fromId : field; rq_JoinUser_toId : field; rq_JoinUser_partyId : nat;
  rs_CrteParty_size : nat; rs_CrteParty_partyId : nat;
  rq_ReqJoin_size : nat; rq_ReqJoin_partyId : nat;
  rq_ReqJoin_fromId : field; rq_ReqJoin_toId : field;
  nf_Message_size : nat; nf_Message_partyId : nat; nf_Message_msg : field;
  NfEco_size : nat; NfEco_msg : field;
  pp_cases : NoDup [rq_CrteUser; rq_Login; rq_CrteParty; rq_JoinUser; nf_Message; ID_nf_Eco];
  pp_sizes : (rs_CrteParty_size ≤ 1024 ∧ rq_ReqJoin_size ≤ 1024 ∧ nf_Message_size ≤ 1024)%nat;
  pp_sizes_pos : (0 < rs_CrteParty_size ∧ 0 < rq_ReqJoin_size ∧ 0 < nf_Message_size)%nat;
  pp_rs_CrteParty : (rs_CrteParty_partyId + 4 ≤ rs_CrteParty_size)%nat;
  pp_rq_ReqJoin : (rq_ReqJoin_partyId + 4 ≤ rq_ReqJoin_size ∧
    fd_end rq_ReqJoin_fromId ≤ rq_ReqJoin_size ∧ fd_end rq_ReqJoin_toId ≤ rq_ReqJoin_size)%nat;
  pp_nf_Message : (nf_Message_partyId + 4 ≤ nf_Message_size ∧
    fd_end nf_Message_msg ≤ nf_Message_size ∧
    (nf_Message_partyId + 4 ≤ fd_off nf_Message_msg ∨
     fd_end nf_Message_msg ≤ nf_Message_partyId))%nat;
  pp_NfEco : (fd_end NfEco_msg ≤ NfEco_size ≤ 1024)%nat
}.

(** The methods the handlers call on a [TcpSessionPtr]. *)
Class PartySessions (W : Type) := {
  sess_msg : ptr → M W Msg;
  asyncSend : ptr → Msg → M W unit;
  sess_id : ptr → M W (list Z);
  setId : ptr → list Z → M W unit;
  sess_close : ptr → M W unit
}.

Record party_view := mkPartyView {
  pv_msg : Msg;
  pv_id : list Z;
  pv_sent : list Msg;
  pv_open : bool
}.
Definition pv_sends (ms : list Msg) (v : party_view) : party_view :=
  mkPartyView (pv_msg v) (pv_id v) (pv_sent v ++ ms) (pv_open v).
Definition pv_send (m : Msg) (v : party_view) : party_view := pv_sends [m] v.
Definition pv_setId (x : list Z) (v : party_view) : party_view :=
  mkPartyView (pv_msg v) x (pv_sent v) (pv_open v).
Definition pv_close (v : party_view) : party_view :=
  mkPartyView (pv_msg v) (pv_id v) (pv_sent v) false.

(** What the method names promise: reading changes nothing; the other methods
    change the one session they are called on, and nothing else.  [sent_by] is
    what [asyncSend(Msg&)] makes the session send for a message: nothing, with
    the empty body TcpSession.cpp has ([silent_sessions_laws] of PartyProps). *)
Class PartySessionsLaws (W H : Type) `{!PartySessions W, !Field W H} := {
  pview : W → ptr → option party_view;
  pview_frame {U} (g : Field W U) x w p :
    Separate g (_ : Field W H) → pview (fset (Field := g) x w) p = pview w p;
  sess_msg_law p v w : pview w p = Some v → sess_msg p w = Ok (pv_msg v) w;
  sess_id_law p v w : pview w p = Some v → sess_id p w = Ok (pv_id v) w;
  sent_by : Msg → list Msg;
  asyncSend_law p v m w : pview w p = Some v →
    ∃ h, asyncSend p m w = Ok tt (fset h w) ∧ pview (fset h w) p = Some (pv_sends (sent_by m) v) ∧
      ∀ q, q ≠ p → pview (fset h w) q = pview w q;
  setId_law p v x w : pview w p = Some v →
    ∃ h, setId p x w = Ok tt (fset h w) ∧ pview (fset h w) p = Some (pv_setId x v) ∧
      ∀ q, q ≠ p → pview (fset h w) q = pview w q;
  sess_close_law p v w : pview w p = Some v →
    ∃ h, sess_close p w = Ok tt (fset h w) ∧ pview (fset h w) p = Some (pv_close v) ∧
      ∀ q, q ≠ p → pview (fset h w) q = pview w q
}.

(** What the callers of [asyncSend(Msg&)] mean by it: it sends the message.  It is
    assumed only where it is named; the body in TcpSession.cpp is empty. *)
Class AsyncSends (W H : Type) `{!PartySessions W, !Field W H, !PartySessionsLaws W H} : Prop :=
  sends_it m : sent_by m = [m].

(** The class [Room] as the handlers use it: [setCharacter] may refuse, and
    [getCharacter] answers [None] for [false], otherwise a pointer that may be
    null. *)
Class RoomOps (R : Type) := {
  Room_new : ptr → R;
  Room_setId : Z → R → R;
  Room_id : R → Z;
  Room_cnt : R → Z;
  Room_setCharacter : ptr → R → bool * R;
  Room_getCharacter : Z → R → option (option ptr);
  Room_leave : ptr → R → R
}.

(** ** Characters *)

Record Character := mkCharacter {
  ch_id : list Z;
  ch_name : list Z;
  ch_sess : option ptr;
  ch_room : option ptr           (* WeakPtr<Room> *)
}.
Definition ch_set_room (r : option ptr) (c : Character) : Character :=
  mkCharacter (ch_id c) (ch_name c) (ch_sess c) r.

(** [Character(id, name, sess)] *)
Definition Character_new (id name : list Z) (sess : ptr) : Character :=
  mkCharacter id name (Some sess) None.

(** [bool setRoom(Ptr<Room>&)]: [live] tells whether [m_room.lock()] is not
    null. *)
Class SetRoom := Character_setRoom : bool → ptr → Character → bool * Character.

(** Character.cpp as it is: the body is commented out. *)
Definition setRoom_stub : SetRoom := λ live room c, (true, c).
(** The commented-out body. *)
Definition setRoom_comment : SetRoom := λ live room c,
  if live then (false, c) else (true, ch_set_room (Some room) c).

(** [void leaveRoom()] and [void update()]: empty. *)
Definition leaveRoom (c : Character) : Character := c.
Definition Character_update (c : Character) : Character := c.

(** ** Rooms as they are declared (Room.h), with the two methods Room.cpp has *)

Record DeclaredRoom := mkDeclaredRoom {
  dr_characters : gset ptr;
  dr_master : ptr;
  dr_cnt : Z;                      (* int *)
  dr_id : Z                        (* int32_t *)
}.
(** [Room(Ptr<Character> master, int id)] *)
Definition DeclaredRoom_new (master : ptr) (id : Z) : DeclaredRoom := mkDeclaredRoom ∅ master 1 id.
(** [bool attach(Ptr<Character>&)], [bool dettach(Ptr<Character>&)] *)
Definition attach (ch : ptr) (r : DeclaredRoom) : bool * DeclaredRoom := (true, r).
Definition dettach (ch : ptr) (r : DeclaredRoom) : bool * DeclaredRoom := (true, r).
(** [int32_t getId()], [int32_t getCount()] *)
Definition getId (r : DeclaredRoom) : Z := dr_id r.
Definition getCount (r : DeclaredRoom) : Z := dr_cnt r.

(** ** Rooms: the commented-out methods of Room.cpp *)

Definition MAX_CHARACTER : Z := 8.

Record Room := mkRoom { m_characters : list (option ptr); m_cnt : Z; m_id : Z }.

Definition setCharacter (ch : ptr) (r : Room) : bool * Room :=
  if MAX_CHARACTER <=? m_cnt r then (false, r)
  else (true, mkRoom (<[Z.to_nat (m_cnt r) := Some ch]> (m_characters r)) (m_cnt r + 1) (m_id r)).

Definition getCharacter (idx : Z) (r : Room) : option (option ptr) :=
  if (m_cnt r <=? idx) || (MAX_CHARACTER <=? idx) then None
  else Some (mjoin (m_characters r !! Z.to_nat idx)).

(** The loop of [leave] from index [i], [fuel] iterations of it: a slot that
    holds the character is copied, the copy reset, and the count decreased. *)
Fixpoint leave_from (fuel : nat) (ch : ptr) (i : Z) (r : Room) : Room :=
  match fuel with
  | O => r
  | S fuel =>
      if i <? m_cnt r then
        let tmp_ch := mjoin (m_characters r !! Z.to_nat i) in
        leave_from fuel ch (i + 1)
          (if decide (tmp_ch = Some ch) then mkRoom (m_characters r) (m_cnt r - 1) (m_id r) else r)
      else r
  end.
Definition leave (ch : ptr) (r : Room) : Room := leave_from (Z.to_nat (m_cnt r)) ch 0 r.

(** [cnt0]: what the constructor, which the repository does not have in this
    form, sets the count to. *)
Definition Room_comment (cnt0 : Z) : RoomOps Room := {|
  Room_new _ := mkRoom (replicate (Z.to_nat MAX_CHARACTER) None) cnt0 0;
  Room_setId i r := mkRoom (m_characters r) (m_cnt r) i;
  Room_id := m_id;
  Room_cnt := m_cnt;
  Room_setCharacter := setCharacter;
  Room_getCharacter := getCharacter;
  Room_leave := leave
|}.

(** ** Bytes of the body structures *)

(** [std::string(p)] for [p] at offset [off] of the body: it reads up to the
    first zero byte, which must lie within the message object. *)
Definition string_at (off : nat) (body : list Z) : cres (list Z) :=
  match strlen (drop off body) with
  | Some n => Val (take n (drop off body))
  | None => Bad UB_unterminated
  end.

(** A [uint32_t] member at an offset. *)
Definition u32_at (off : nat) (body : list Z) : Z := le_combine (take 4 (drop off body)).
Definition put_u32 (off : nat) (z : Z) (s : list Z) : list Z := splice off (le_split 4 z) s.

(** [strcpy] into a [char] array of a structure. *)
Definition put_string (f : field) (text s : list Z) : cres (list Z) :=
  if (length text <? fd_len f)%nat then Val (splice (fd_off f) (text ++ [0]) s)
  else Bad UB_buffer_overflow.

(** [Msg::encodeMsg] with an enumerator given by its value. *)
Definition encode (id : Z) (r : ResponseCode_t) (data : option (list Z)) (n : Z) (m : Msg) : cres Msg :=
  m' ← encodeMsg_result NONE_MSG_ID r data n m;
  let h := msg_hdr m' in
  Val (mkMsg (mkHdr (hdr_version h) (hdr_result h) (hdr_bodyLength h) (u32 id)) (msg_body m')).

(** ** The globals

    The character and room objects, and the tables, which own them: a room
    lives as long as it is in [g_rooms].  With them what the handlers use of
    the older [TcpServer]: its sessions and its counters. *)
Record Party (R : Type) := mkParty {
  characters : gmap ptr Character;
  g_characters : gmap (list Z) ptr;
  rooms : gmap ptr R;
  g_rooms : gmap Z ptr;
  g_roomId : Z;                    (* int32_t *)
  sv_sessions : gset ptr;
  sv_rx : Z;                       (* uint64_t *)
  sv_tx : Z
}.
Arguments mkParty {R}.
Arguments characters {R}.
Arguments g_characters {R}.
Arguments rooms {R}.
Arguments g_rooms {R}.
Arguments g_roomId {R}.
Arguments sv_sessions {R}.
Arguments sv_rx {R}.
Arguments sv_tx {R}.

Section Setters.
Context {R : Type}.
Implicit Types g : Party R.
Definition set_characters f g := mkParty (f (characters g)) (g_characters g) (rooms g) (g_rooms g)
  (g_roomId g) (sv_sessions g) (sv_rx g) (sv_tx g).
Definition set_g_characters f g := mkParty (characters g) (f (g_characters g)) (rooms g) (g_rooms g)
  (g_roomId g) (sv_sessions g) (sv_rx g) (sv_tx g).
Definition set_rooms (f : gmap ptr R → gmap ptr R) g := mkParty (characters g) (g_characters g) (f (rooms g)) (g_rooms g)
  (g_roomId g) (sv_sessions g) (sv_rx g) (sv_tx g).
Definition set_g_rooms f g := mkParty (characters g) (g_characters g) (rooms g) (f (g_rooms g))
  (g_roomId g) (sv_sessions g) (sv_rx g) (sv_tx g).
Definition set_g_roomId x g := mkParty (characters g) (g_characters g) (rooms g) (g_rooms g)
  x (sv_sessions g) (sv_rx g) (sv_tx g).
Definition set_sessions f g := mkParty (characters g) (g_characters g) (rooms g) (g_rooms g)
  (g_roomId g) (f (sv_sessions g)) (sv_rx g) (sv_tx g).
Definition set_rx x g := mkParty (characters g) (g_characters g) (rooms g) (g_rooms g)
  (g_roomId g) (sv_sessions g) x (sv_tx g).
Definition set_tx x g := mkParty (characters g) (g_characters g) (rooms g) (g_rooms g)
  (g_roomId g) (sv_sessions g) (sv_rx g) x.
End Setters.

(** ** The handlers *)

Section Handlers.
Context {W R : Type} `{PP : !PartyProtocol} `{PS : !PartySessions W} `{RO : !RoomOps R} `{SR : !SetRoom}.
Context `{FP : !Field W (Party R)}.
(** What an automatic [Msg] and automatic body structures hold before they are
    assigned. *)
Context (uninit : Msg) (uninit_body : list Z).

Definition party : M W (Party R) := fread.
Definition set_party (f : Party R → Party R) : M W unit := fmodify f.

(** [sendMsg.encodeMsg(...); sess->asyncSend(sendMsg);] *)
Definition reply (sess : ptr) (id : Z) (r : ResponseCode_t) (data : option (list Z)) (n : Z) :
    M W unit :=
  m ← lift (encode id r data n uninit);
  asyncSend sess m.

(** [bool createUser(TcpSessionPtr&)] *)
Definition createUser (sess : ptr) : M W bool :=
  reply sess rs_CrteUser CREATE_USER_SUCCESS None 0 ;;
  mret true.

(** [bool login(TcpSessionPtr&)]; [insert] does nothing when the key exists,
    and the new character then goes away with [ch]. *)
Definition login (sess : ptr) : M W bool :=
  msg ← sess_msg sess;
  id ← lift (string_at (fd_off rq_Login_id) (msg_body msg));
  g ← party;
  match g_characters g !! id with
  | Some _ => mret tt
  | None =>
      let p := fresh (dom (characters g)) in
      set_party (set_characters <[p := Character_new id id sess]>) ;;
      set_party (set_g_characters <[id := p]>)
  end ;;
  setId sess id ;;
  reply sess rs_Login LOGIN_SUCCESS None 0 ;;
  mret true.

(** [ch->setRoom(room)] *)
Definition call_setRoom (ch room : ptr) : M W bool :=
  g ← party;
  match characters g !! ch with
  | None => undef UB_dangling
  | Some c =>
      let live := match ch_room c with Some r => bool_decide (is_Some (rooms g !! r)) | None => false end in
      let '(ok, c) := Character_setRoom live room c in
      set_party (set_characters <[ch := c]>) ;;
      mret ok
  end.

(** [bool createParty(TcpSessionPtr&)] *)
Definition createParty (sess : ptr) : M W bool :=
  msg ← sess_msg sess;
  id ← lift (string_at (fd_off rq_CrteParty_id) (msg_body msg));
  g ← party;
  match g_characters g !! id with
  | None =>
      reply sess rs_CrteParty CREATE_PARTY_FAIL None 0 ;;
      mret false
  | Some ch =>
      let room := Room_new ch in
      match g_rooms g !! u32 (g_roomId g) with
      | Some _ =>
          reply sess rs_CrteParty CREATE_PARTY_FAIL None 0 ;;
          mret false
      | None =>
          let p := fresh (dom (rooms g)) in
          let room := (Room_setCharacter ch (Room_setId (g_roomId g) room)).2 in
          set_party (set_rooms <[p := room]>) ;;
          _ ← call_setRoom ch p;
          set_party (set_g_rooms <[u32 (g_roomId g) := p]>) ;;
          if g_roomId g + 1 <? 2 ^ 31 then
            set_party (set_g_roomId (g_roomId g + 1)) ;;
            let rsCrteParty :=
              put_u32 rs_CrteParty_partyId (g_roomId g) (take rs_CrteParty_size uninit_body) in
            reply sess rs_CrteParty CREATE_PARTY_SUCCESS (Some rsCrteParty) (Z.of_nat rs_CrteParty_size) ;;
            mret true
          else undef UB_signed_overflow
      end
  end.

(** [bool joinUser(TcpSessionPtr&)] *)
Definition joinUser (sess : ptr) : M W bool :=
  msg ← sess_msg sess;
  toId ← lift (string_at (fd_off rq_JoinUser_toId) (msg_body msg));
  g ← party;
  match g_characters g !! toId ≫= λ ch, c ← characters g !! ch; s ← ch_sess c; Some (ch, s) with
  | None =>
      reply sess rs_JoinUser JOIN_USER_FAIL None 0 ;;
      mret false
  | Some (ch, ch_session) =>
      let partyId := u32_at rq_JoinUser_partyId (msg_body msg) in
      rtn ← match g_rooms g !! partyId with
            | None => mret false
            | Some p =>
                match rooms g !! p with
                | None => undef UB_dangling
                | Some room =>
                    let '(ok, room) := Room_setCharacter ch room in
                    set_party (set_rooms <[p := room]>) ;;
                    if ok then _ ← call_setRoom ch p; mret true else mret false
                end
            end;
      if negb rtn then
        reply sess rs_JoinUser JOIN_USER_FAIL None 0 ;;
        mret false
      else
        reply sess rs_JoinUser JOIN_USER_SUCCESS None 0 ;;
        fromId ← lift (string_at (fd_off rq_JoinUser_fromId) (msg_body msg));
        let req := put_u32 rq_ReqJoin_partyId partyId (take rq_ReqJoin_size uninit_body) in
        req ← lift (put_string rq_ReqJoin_fromId fromId req);
        req ← lift (put_string rq_ReqJoin_toId toId req);
        reply ch_session rq_ReqJoin NONE_CODE (Some req) (Z.of_nat rq_ReqJoin_size) ;;
        mret true
  end.

(** The body of the loop of [nfMessage] for index [i]. *)
Definition nfMessage_body (msg : Msg) (room : R) (i : Z) : M W unit :=
  match Room_getCharacter i room with
  | None => mret tt
  | Some None => undef UB_null
  | Some (Some ch) =>
      text ← lift (string_at (fd_off nf_Message_msg) (msg_body msg));
      nfMessage ← lift (put_string nf_Message_msg text (take nf_Message_size uninit_body));
      g ← party;
      match c ← characters g !! ch; ch_sess c with
      | None => undef UB_null
      | Some s => reply s nf_Message NONE_CODE (Some nfMessage) (Z.of_nat nf_Message_size)
      end
  end.

(** [bool nfMessage(TcpSessionPtr&, int16_t&)] *)
Definition party_nfMessage (sess : ptr) : M W bool :=
  msg ← sess_msg sess;
  g ← party;
  match g_rooms g !! u32_at nf_Message_partyId (msg_body msg) with
  | None => mret false
  | Some p =>
      match rooms g !! p with
      | None => undef UB_dangling
      | Some room =>
          forM_ (seqZ 0 (Room_cnt room)) (nfMessage_body msg room) ;;
          mret true
      end
  end.

(** [void addRx(uint64_t)], [void addTx(uint64_t)] *)
Definition addRx (n : Z) : M W unit := set_party (λ g, set_rx (u64 (sv_rx g + u64 n)) g).
Definition addTx (n : Z) : M W unit := set_party (λ g, set_tx (u64 (sv_tx g + u64 n)) g).

(** [bool nfEco(TcpSessionPtr&, int16_t& len, TcpServerPtr&)] *)
Definition nfEco (sess : ptr) (len : Z) : M W bool :=
  msg ← sess_msg sess;
  let nfEco := take NfEco_size uninit_body in
  text ← lift (memcpy (take (fd_len NfEco_msg) (drop (fd_off NfEco_msg) nfEco))
                 (drop (fd_off NfEco_msg) (msg_body msg)) (size_t len));
  let nfEco := splice (fd_off NfEco_msg) text nfEco in
  m ← lift (encode ID_nf_Eco NONE_CODE (Some nfEco) len uninit);
  asyncSend sess m ;;
  addTx (msg_length m) ;;
  mret true.

(** [bool ServerHandler::read(uint32_t&, int16_t&, VoidPtr, VoidWeakPtr)];
    [owner]: the server has not expired. *)
Definition ServerHandler_read (msgId length : Z) (sess : ptr) (owner : bool) : M W bool :=
  if negb owner then mret false
  else
    msg ← sess_msg sess;
    addRx (msg_length msg) ;;
    if msgId =? rq_CrteUser then createUser sess
    else if msgId =? rq_Login then login sess
    else if msgId =? rq_CrteParty then createParty sess
    else if msgId =? rq_JoinUser then joinUser sess
    else if msgId =? nf_Message then party_nfMessage sess
    else if msgId =? ID_nf_Eco then nfEco sess length
    else mret false.

(** [void deleteSession(const TcpSessionPtr&)] *)
Definition deleteSession (sess : ptr) : M W unit :=
  sess_close sess ;;
  set_party (set_sessions (λ l, l ∖ {[sess]})).

(** The part of [error] that takes the character out of its room. *)
Definition leave_room (ch : ptr) (c : Character) : M W unit :=
  g ← party;
  match p ← ch_room c; r ← rooms g !! p; Some (p, r) with
  | None => mret tt
  | Some (p, room) =>
      let room := Room_leave ch room in
      set_party (set_rooms <[p := room]>) ;;
      if Room_cnt room =? 0 then
        set_party (set_g_rooms (delete (u32 (Room_id room)))) ;;
        set_party (set_rooms (delete p))
      else mret tt
  end.

(** [bool ServerHandler::error(const error_code&, VoidPtr, VoidWeakPtr)] *)
Definition ServerHandler_error (error : error_code) (sess : ptr) (owner : bool) : M W bool :=
  if negb (is_error error) then mret true
  else if negb owner then mret false
  else
    id ← sess_id sess;
    (if decide (id = []) then mret tt
     else
       g ← party;
       match ch ← g_characters g !! id; c ← characters g !! ch; Some (ch, c) with
       | None => mret tt
       | Some (ch, c) =>
           leave_room ch c ;;
           set_party (set_g_characters (delete (ch_id c)))
       end) ;;
    deleteSession sess ;;
    mret true.

(** [bool ServerHandler::connect(VoidPtr, VoidWeakPtr)] *)
Definition ServerHandler_connect (sess : ptr) (owner : bool) : M W bool := mret true.

(** [void handleStop()] *)
Definition handleStop : M W unit := set_party (set_sessions (λ _, ∅)).
End Handlers.
