(* ===== verification/PartyInv.v ===== *)
(** * The tables of the party server

    The contracts of a room and of [setRoom], the invariant of the tables, and
    that every handler keeps it: for any message and any disconnection the
    handlers are safe. *)
From S2P Require Import Prelude Msg Session PartyServer.

(** ** The contract of a room *)

(** A room ([Room_ok]) holds a list of characters; [leave] only ever removes
    some. *)
Class RoomLaws (R : Type) `{!RoomOps R} := {
  Room_ok : R → Prop;
  Room_members : R → list ptr;
  Room_new_ok ch : Room_ok (Room_new ch);
  Room_new_members ch : Room_members (Room_new ch) = [];
  Room_setId_ok i r : Room_ok r → Room_ok (Room_setId i r);
  Room_setId_members i r : Room_members (Room_setId i r) = Room_members r;
  Room_setId_id i r : Room_id (Room_setId i r) = i;
  Room_set_ok ch r : Room_ok r → Room_ok (Room_setCharacter ch r).2;
  Room_set_members ch r : Room_ok r →
    Room_members (Room_setCharacter ch r).2 =
      if (Room_setCharacter ch r).1 then Room_members r ++ [ch] else Room_members r;
  Room_set_id ch r : Room_id (Room_setCharacter ch r).2 = Room_id r;
  Room_cnt_members r : Room_ok r → Room_cnt r = Z.of_nat (length (Room_members r));
  Room_get_members (i : nat) r : Room_ok r →
    Room_getCharacter (Z.of_nat i) r = Some <$> Room_members r !! i;
  Room_leave_ok ch r : Room_ok r → Room_ok (Room_leave ch r);
  Room_leave_members ch r : Room_ok r → Room_members (Room_leave ch r) ⊆ Room_members r;
  Room_leave_id ch r : Room_id (Room_leave ch r) = Room_id r
}.

(** [setRoom] changes neither the name of a character nor its session, and what
    else it says of characters ([Char_ok]) holds of new ones and persists. *)
Class SetRoomLaws (SR : SetRoom) := {
  Char_ok : Character → Prop;
  Character_new_ok id name s : Char_ok (Character_new id name s);
  setRoom_ok live r c : Char_ok c → Char_ok (Character_setRoom live r c).2;
  setRoom_id live r c : ch_id (Character_setRoom live r c).2 = ch_id c;
  setRoom_sess live r c : ch_sess (Character_setRoom live r c).2 = ch_sess c
}.

(** With Character.cpp as it is, no character ever refers to a room. *)
#[export, refine] Instance setRoom_stub_laws : SetRoomLaws setRoom_stub :=
  {| Char_ok c := ch_room c = None |}.
Proof. all: done. Defined.
#[export, refine] Instance setRoom_comment_laws : SetRoomLaws setRoom_comment :=
  {| Char_ok _ := True |}.
Proof. all: by try intros []. Defined.

(** ** Lemmas: encodings *)

(** A reply without a body. *)
Definition status (uninit : Msg) (id : Z) (r : ResponseCode_t) : Msg :=
  mkMsg (mkHdr version (i8 (ResponseCode_val r)) 0 (u32 id)) (msg_body uninit).

(** A message with the structure [s] for a body. *)
Definition structure (uninit : Msg) (id : Z) (r : ResponseCode_t) (s : list Z) : Msg :=
  mkMsg (mkHdr version (i8 (ResponseCode_val r)) (Z.of_nat (length s)) (u32 id))
    (s ++ drop (length s) (msg_body uninit)).

Lemma encode_status uninit id r : encode id r None 0 uninit = Val (status uninit id r).
Proof. done. Qed.

(** The first [n] bytes of a structure as the body. *)
Lemma encode_prefix uninit id r s n :
  body_ok (msg_body uninit) → 0 < n <= Z.of_nat (length s) → n <= 1024 →
  encode id r (Some s) n uninit = Val (structure uninit id r (take (Z.to_nat n) s)).
Proof.
  intros [Hl _] Hs Hn. unfold encode, encodeMsg_result, MAX_CP_MSG_DATA in *.
  assert (Hi : i16 n = n) by (apply wrapS_id; [done|]; unfold in_s; cbn; lia).
  cbn [hdr_bodyLength]. rewrite Hi. destruct (Z.ltb_spec 0 n); [|lia].
  rewrite (wrapU_id 64) by (unfold in_u; lia). rewrite memcpy_Val by lia.
  unfold structure. rewrite length_take, Nat.min_l, Z2Nat.id by lia. done.
Qed.

Lemma encode_structure uninit id r s :
  body_ok (msg_body uninit) → (0 < length s ≤ 1024)%nat →
  encode id r (Some s) (Z.of_nat (length s)) uninit = Val (structure uninit id r s).
Proof. intros Hb Hs. rewrite encode_prefix by (done || lia). by rewrite Nat2Z.id, take_ge. Qed.

Lemma u32_at_put off z s :
  (off + 4 ≤ length s)%nat → u32_at off (put_u32 off z s) = u32 z.
Proof.
  intros Hl. unfold u32_at, put_u32, splice.
  rewrite drop_app_length' by (rewrite length_take; lia).
  rewrite take_app_length' by (by rewrite length_le_split). apply (le_combine_split 4).
Qed.

Lemma length_put_u32 off z s : (off + 4 ≤ length s)%nat → length (put_u32 off z s) = length s.
Proof. intros. apply length_splice. by rewrite length_le_split. Qed.

Lemma put_string_ok f text s :
  (length text < fd_len f)%nat → (fd_end f ≤ length s)%nat →
  ∃ s', put_string f text s = Val s' ∧ length s' = length s ∧
    s' = splice (fd_off f) (text ++ [0]) s.
Proof.
  unfold fd_end. intros Ht Hf. unfold put_string. destruct (Nat.ltb_spec (length text) (fd_len f)); [|lia].
  eexists. split_and!; [done| |done]. apply length_splice. rewrite length_app. cbn. lia.
Qed.

Lemma string_at_Val off body text :
  string_at off body = Val text → no_nul text ∧ ∃ rest, drop off body = text ++ 0 :: rest.
Proof.
  unfold string_at. destruct (strlen (drop off body)) as [n|] eqn:E; [|done]. intros [= <-].
  apply strlen_Some in E as [Hn Hno]. split; [done|].
  exists (drop (S n) (drop off body)). by rewrite (take_drop_middle _ n 0).
Qed.

Lemma string_at_splice off text s rest :
  no_nul text → (off + length text + 1 ≤ length s)%nat →
  string_at off (splice off (text ++ [0]) s ++ rest) = Val text.
Proof.
  intros Ht Hl. unfold string_at, splice. rewrite <- !app_assoc.
  rewrite drop_app_length' by (rewrite length_take; lia).
  cbn. rewrite strlen_terminated by done. by rewrite take_app_length.
Qed.

Lemma take_drop_ext {A} (n o : nat) (l1 l2 : list A) :
  (∀ i, (i < n)%nat → l1 !! (o + i)%nat = l2 !! (o + i)%nat) → take n (drop o l1) = take n (drop o l2).
Proof.
  intros Hl. apply list_eq. intros i. destruct (decide (i < n)%nat).
  - rewrite !lookup_take_lt, !lookup_drop by done. by apply Hl.
  - by rewrite !lookup_take_ge by lia.
Qed.

(** A store leaves what is outside of it. *)
Lemma lookup_splice_outside off bs mem (j : nat) :
  (off + length bs ≤ length mem)%nat → (j < off ∨ off + length bs ≤ j)%nat →
  splice off bs mem !! j = mem !! j.
Proof.
  intros Hl Hj. unfold splice. destruct Hj.
  - rewrite lookup_app_l by (rewrite length_take; lia). by rewrite lookup_take_lt.
  - rewrite lookup_app_r by (rewrite length_take; lia). rewrite length_take.
    rewrite lookup_app_r by lia. rewrite lookup_drop. f_equal. lia.
Qed.

(** ** Lemmas: running the handlers *)

Section Handlers.
Context {W R H : Type} `{PP : !PartyProtocol} `{PS : !PartySessions W} `{RO : !RoomOps R} `{SR : !SetRoom}.
Context `{FP : !Field W (Party R)} `{FH : !Field W H} `{LAWS : !PartySessionsLaws W H}.
Context `{SEP : !Separate FP FH}.
Context (uninit : Msg) (uninit_body : list Z).
Context (uninit_ok : body_ok (msg_body uninit)) (uninit_body_ok : length uninit_body = 1024%nat).
Implicit Types (w : W) (p q : ptr) (v : party_view) (g : Party R).

Definition pa w : Party R := fget w.

Lemma pa_fset (g : Party R) w : pa (fset g w) = g.
Proof. apply fget_fset. Qed.
Lemma pa_sessions (h : H) w : pa (fset h w) = pa w.
Proof. apply (fget_fset_sep (Separate := SEP)). Qed.
Lemma pview_party (g : Party R) w p : pview (fset g w) p = pview w p.
Proof. apply (pview_frame FP g w p SEP). Qed.

Lemma bind_party {B} (k : Party R → M W B) w : (party ≫= k) w = k (pa w) w.
Proof. done. Qed.
Lemma bind_set_party {B} f (k : unit → M W B) w :
  (set_party f ≫= k) w = k tt (fset (f (pa w)) w).
Proof. done. Qed.
Lemma bind_msg {B} p v (k : Msg → M W B) w :
  pview w p = Some v → (sess_msg p ≫= k) w = k (pv_msg v) w.
Proof. intros. by eapply bind_ok, sess_msg_law. Qed.

(** One session has been sent a message, where [asyncSend] sends. *)
Definition sent_to p m w w' : Prop :=
  pa w' = pa w ∧ ∀ q v, pview w q = Some v →
    pview w' q = Some (if decide (q = p) then pv_send m v else v).

Lemma asyncSend_sent `{AS : !AsyncSends W H} p v m w :
  pview w p = Some v → ∃ w', asyncSend p m w = Ok tt w' ∧ sent_to p m w w'.
Proof.
  intros Hv. destruct (asyncSend_law p v m w Hv) as (h & Hr & Hp & Hq).
  rewrite sends_it in Hp. exists (fset h w). split; [done|]. split; [apply pa_sessions|].
  intros q v' Hq'. case_decide; simplify_eq; [done|]. by rewrite Hq.
Qed.

Lemma reply_status `{AS : !AsyncSends W H} p v id r w :
  pview w p = Some v →
  ∃ w', reply uninit p id r None 0 w = Ok tt w' ∧ sent_to p (status uninit id r) w w'.
Proof. intros Hv. unfold reply. rewrite (bind_lift _ _ _ _ (encode_status _ _ _)). by eapply asyncSend_sent. Qed.

Lemma reply_structure `{AS : !AsyncSends W H} p v id r s w :
  pview w p = Some v → (0 < length s ≤ 1024)%nat →
  ∃ w', reply uninit p id r (Some s) (Z.of_nat (length s)) w = Ok tt w' ∧
    sent_to p (structure uninit id r s) w w'.
Proof.
  intros Hv Hs. unfold reply.
  rewrite (bind_lift _ _ _ _ (encode_structure uninit id r s uninit_ok Hs)). by eapply asyncSend_sent.
Qed.

(** ** The tables are consistent *)

Context `{RL : !RoomLaws R} `{SL : !SetRoomLaws SR}.

(** Every name in the table of characters leads to a character of that name,
    every character has a session; every room is in the table of rooms, once,
    under its id, an id that has been given out, and holds characters only. *)
Record party_ok (g : Party R) : Prop := {
  po_names id ch : g_characters g !! id = Some ch → ∃ c, characters g !! ch = Some c ∧ ch_id c = id;
  po_sess ch c : characters g !! ch = Some c → is_Some (ch_sess c);
  po_char ch c : characters g !! ch = Some c → Char_ok c;
  po_rooms k p : g_rooms g !! k = Some p → ∃ r, rooms g !! p = Some r ∧ u32 (Room_id r) = k;
  po_listed p r : rooms g !! p = Some r → g_rooms g !! u32 (Room_id r) = Some p;
  po_ok p r : rooms g !! p = Some r → Room_ok r;
  po_given p r : rooms g !! p = Some r → 0 <= Room_id r < g_roomId g;
  po_members p r ch : rooms g !! p = Some r → ch ∈ Room_members r → is_Some (characters g !! ch);
  po_roomId : 0 <= g_roomId g < 2 ^ 31
}.

(** And the characters' sessions exist. *)
Definition party_inv w : Prop :=
  party_ok (pa w) ∧
  ∀ ch c s, characters (pa w) !! ch = Some c → ch_sess c = Some s → is_Some (pview w s).

(** What a message of a client can make undefined: a text that is not
    terminated or does not fit, a length, and the 2^31st party. *)
Definition input_ub (u : ub) : Prop :=
  u = UB_unterminated ∨ u = UB_buffer_overflow ∨ u = UB_buffer_overread ∨ u = UB_signed_overflow.

(** [m] does not throw, has no other undefined behaviour, and ends in [Q]. *)
Definition runs {A} (m : M W A) (Q : A → W → Prop) w : Prop :=
  match m w with Ok a w' => Q a w' | Throws _ _ => False | Undef u => input_ub u end.

Lemma runs_ret {A} (a : A) Q w : Q a w → runs (mret a) Q w.
Proof. done. Qed.
Lemma runs_bind {A B} (m : M W A) (f : A → M W B) Q w :
  runs m (λ a, runs (f a) Q) w → runs (m ≫= f) Q w.
Proof. unfold runs, mbind, M_bind. by destruct (m w). Qed.
Lemma runs_mono {A} (m : M W A) (P Q : A → W → Prop) w :
  runs m P w → (∀ a w', P a w' → Q a w') → runs m Q w.
Proof. unfold runs. destruct (m w); naive_solver. Qed.
Lemma runs_undef {A} u (Q : A → W → Prop) w : input_ub u → runs (undef u) Q w.
Proof. done. Qed.
Lemma runs_lift {A} (r : cres A) (Q : A → W → Prop) w :
  (∀ a, r = Val a → Q a w) → (∀ u, r = Bad u → input_ub u) → runs (lift r) Q w.
Proof. destruct r; cbn; [intros HQ _; by apply HQ|intros _ Hu; by apply Hu]. Qed.
Lemma runs_party (Q : Party R → W → Prop) w : Q (pa w) w → runs party Q w.
Proof. done. Qed.
Lemma runs_set_party f (Q : unit → W → Prop) w : Q tt (fset (f (pa w)) w) → runs (set_party f) Q w.
Proof. done. Qed.

(** The sessions keep existing and the globals are the same. *)
Definition grows w w' : Prop := pa w' = pa w ∧ ∀ q, is_Some (pview w q) → is_Some (pview w' q).

Lemma party_inv_grows w w' : grows w w' → party_inv w → party_inv w'.
Proof. intros [Hg Hq] [Hok Hs]. split; [by rewrite Hg|]. rewrite Hg. eauto. Qed.

Lemma runs_law {A} (m : M W A) a (h : H) (Q : A → W → Prop) w p v v' :
  m w = Ok a (fset h w) → pview w p = Some v → pview (fset h w) p = Some v' →
  (∀ q, q ≠ p → pview (fset h w) q = pview w q) →
  (∀ w', grows w w' → Q a w') → runs m Q w.
Proof.
  intros Hm Hv Hv' Hq HQ. unfold runs. rewrite Hm. apply HQ. split; [apply pa_sessions|].
  intros q Hs. destruct (decide (q = p)) as [->|]; [by rewrite Hv'|by rewrite Hq].
Qed.

Lemma runs_asyncSend p m (Q : unit → W → Prop) w :
  is_Some (pview w p) → (∀ w', grows w w' → Q tt w') → runs (asyncSend p m) Q w.
Proof.
  intros [v Hv]. destruct (asyncSend_law p v m w Hv) as (h & Hr & Hp & Hq). by eapply runs_law.
Qed.
Lemma runs_setId p x (Q : unit → W → Prop) w :
  is_Some (pview w p) → (∀ w', grows w w' → Q tt w') → runs (setId p x) Q w.
Proof.
  intros [v Hv]. destruct (setId_law p v x w Hv) as (h & Hr & Hp & Hq). by eapply runs_law.
Qed.
Lemma runs_close p (Q : unit → W → Prop) w :
  is_Some (pview w p) → (∀ w', grows w w' → Q tt w') → runs (sess_close p) Q w.
Proof.
  intros [v Hv]. destruct (sess_close_law p v w Hv) as (h & Hr & Hp & Hq). by eapply runs_law.
Qed.
Lemma runs_msg p (Q : Msg → W → Prop) w :
  is_Some (pview w p) → (∀ m, Q m w) → runs (sess_msg p) Q w.
Proof. intros [v Hv] HQ. unfold runs. by rewrite (sess_msg_law p v w Hv). Qed.
Lemma runs_id p (Q : list Z → W → Prop) w :
  is_Some (pview w p) → (∀ x, Q x w) → runs (sess_id p) Q w.
Proof. intros [v Hv] HQ. unfold runs. by rewrite (sess_id_law p v w Hv). Qed.

Lemma string_at_ub off body u : string_at off body = Bad u → input_ub u.
Proof. unfold string_at, input_ub. case_match; naive_solver. Qed.
Lemma put_string_ub f text s u : put_string f text s = Bad u → input_ub u.
Proof. unfold put_string, input_ub. case_match; naive_solver. Qed.
Lemma memcpy_ub dst src n u : memcpy dst src n = Bad u → input_ub u.
Proof. unfold memcpy, input_ub. repeat case_match; naive_solver. Qed.
Lemma encode_ub id r data n m u : encode id r data n m = Bad u → input_ub u.
Proof.
  unfold encode, encodeMsg_result. repeat case_match; cbn; try done.
  destruct (memcpy _ _ _) eqn:E; cbn; [done|]. intros [= <-]. by eapply memcpy_ub.
Qed.

Lemma runs_reply p id r data n (Q : unit → W → Prop) w :
  is_Some (pview w p) → (∀ w', grows w w' → Q tt w') → runs (reply uninit p id r data n) Q w.
Proof.
  intros Hp HQ. apply runs_bind, runs_lift; [|by apply encode_ub].
  intros m _. by apply runs_asyncSend.
Qed.

(** ** What the assignments keep *)

Lemma ok_set_character g ch c c' :
  party_ok g → characters g !! ch = Some c → Char_ok c' → ch_id c' = ch_id c → ch_sess c' = ch_sess c →
  party_ok (set_characters <[ch := c']> g).
Proof.
  intros [Hn Hs Hco Hr Hl Ho Hg Hm Hi] Hc Hcok Hid Hse.
  assert (Hlk : ∀ q x, <[ch := c']> (characters g) !! q = Some x →
    ∃ y, characters g !! q = Some y ∧ ch_id x = ch_id y ∧ ch_sess x = ch_sess y).
  { intros q x [[<- <-]|[? ?]]%lookup_insert_Some; eauto. }
  split; cbn; try done.
  - intros id q Hq. destruct (Hn id q Hq) as (x & Hx & Hxi). destruct (decide (q = ch)) as [->|].
    + rewrite lookup_insert_eq. simplify_eq. eauto.
    + rewrite lookup_insert_ne by done. eauto.
  - intros q x Hx. destruct (Hlk q x Hx) as (y & Hy & _ & ->). eauto.
  - intros q x [[<- <-]|[? Hq]]%lookup_insert_Some; eauto.
  - intros p r q Hp Hq. rewrite lookup_insert_is_Some. destruct (decide (ch = q)); [by left|right; eauto].
Qed.

Lemma ok_login g id s :
  party_ok g →
  party_ok (set_g_characters <[id := fresh (dom (characters g))]>
    (set_characters <[fresh (dom (characters g)) := Character_new id id s]> g)).
Proof.
  intros [Hn Hs Hco Hr Hl Ho Hg Hm Hi]. set (p := fresh _).
  assert (Hp : characters g !! p = None) by (apply not_elem_of_dom, is_fresh).
  split; cbn; try done.
  - intros id' q [[<- <-]|[? Hq]]%lookup_insert_Some.
    + rewrite lookup_insert_eq. by eexists.
    + destruct (Hn id' q Hq) as (x & Hx & Hxi). rewrite lookup_insert_ne by congruence. eauto.
  - intros q x [[<- <-]|[? Hq]]%lookup_insert_Some; [by eexists|eauto].
  - intros q x [[<- <-]|[? Hq]]%lookup_insert_Some; [apply Character_new_ok|eauto].
  - intros p' r q Hp' Hq. rewrite lookup_insert_is_Some. destruct (decide (p = q)); [by left|right; eauto].
Qed.

Lemma ok_set_room g p r r' :
  party_ok g → rooms g !! p = Some r → Room_ok r' → Room_id r' = Room_id r →
  (∀ ch, ch ∈ Room_members r' → is_Some (characters g !! ch)) →
  party_ok (set_rooms <[p := r']> g).
Proof.
  intros [Hn Hs Hco Hr Hl Ho Hg Hm Hi] Hp Hok' Hid Hmem. split; cbn; try done.
  - intros k q Hq. destruct (Hr k q Hq) as (x & Hx & Hxk). destruct (decide (q = p)) as [->|].
    + rewrite lookup_insert_eq. simplify_eq. eexists. split; [done|]. by rewrite Hid.
    + rewrite lookup_insert_ne by done. eauto.
  - intros q x [[<- <-]|[? Hq]]%lookup_insert_Some; [rewrite Hid|]; eauto.
  - intros q x [[<- <-]|[? Hq]]%lookup_insert_Some; eauto.
  - intros q x [[<- <-]|[? Hq]]%lookup_insert_Some; [rewrite Hid|]; eauto.
  - intros q x ch [[<- <-]|[? Hq]]%lookup_insert_Some; eauto.
Qed.

Lemma ok_new_room g r :
  party_ok g → g_rooms g !! u32 (g_roomId g) = None → Room_ok r → Room_id r = g_roomId g →
  (∀ ch, ch ∈ Room_members r → is_Some (characters g !! ch)) → g_roomId g + 1 < 2 ^ 31 →
  party_ok (set_g_roomId (g_roomId g + 1) (set_g_rooms <[u32 (g_roomId g) := fresh (dom (rooms g))]>
    (set_rooms <[fresh (dom (rooms g)) := r]> g))).
Proof.
  intros [Hn Hs Hco Hr Hl Ho Hg Hm Hi] Hnone Hok' Hid Hmem Hlt. set (p := fresh _).
  assert (Hp : rooms g !! p = None) by (apply not_elem_of_dom, is_fresh).
  split; cbn; try done.
  - intros k q [[<- <-]|[? Hq]]%lookup_insert_Some.
    + rewrite lookup_insert_eq. eexists. split; [done|]. by rewrite Hid.
    + destruct (Hr k q Hq) as (x & Hx & Hxk). rewrite lookup_insert_ne by congruence. eauto.
  - intros q x [[<- <-]|[Hne Hq]]%lookup_insert_Some; [by rewrite Hid, lookup_insert_eq|].
    rewrite lookup_insert_ne; [eauto|]. intros Heq. apply Hl in Hq. by rewrite <- Heq, Hnone in Hq.
  - intros q x [[<- <-]|[? Hq]]%lookup_insert_Some; eauto.
  - intros q x [[<- <-]|[? Hq]]%lookup_insert_Some; [lia|]. apply Hg in Hq. lia.
  - intros q x ch [[<- <-]|[? Hq]]%lookup_insert_Some; eauto.
  - lia.
Qed.

Lemma ok_erase_room g p r :
  party_ok g → rooms g !! p = Some r →
  party_ok (set_rooms (delete p) (set_g_rooms (delete (u32 (Room_id r))) g)).
Proof.
  intros [Hn Hs Hco Hr Hl Ho Hg Hm Hi] Hp. split; cbn; try done.
  - intros k q [Hne Hq]%lookup_delete_Some. destruct (Hr k q Hq) as (x & Hx & Hxk).
    rewrite lookup_delete_ne; [eauto|]. intros ->. by simplify_eq.
  - intros q x [Hne Hq]%lookup_delete_Some. rewrite lookup_delete_ne; [eauto|].
    intros Heq. apply Hl in Hq, Hp. rewrite Heq in Hp. by simplify_eq.
  - intros q x [_ Hq]%lookup_delete_Some. eauto.
  - intros q x [_ Hq]%lookup_delete_Some. eauto.
  - intros q x ch [_ Hq]%lookup_delete_Some. eauto.
Qed.

Lemma ok_delete_name g id : party_ok g → party_ok (set_g_characters (delete id) g).
Proof.
  intros [Hn Hs Hco Hr Hl Ho Hg Hm Hi]. split; cbn; try done. intros id' q [_ Hq]%lookup_delete_Some. eauto.
Qed.

Lemma ok_server g f x y :
  party_ok g → party_ok (set_sessions f g) ∧ party_ok (set_rx x g) ∧ party_ok (set_tx y g).
Proof. intros [Hn Hs Hco Hr Hl Ho Hg Hm Hi]. split_and!; by split. Qed.

(** ** The handlers keep the invariant *)

(** The invariant, and a session that exists. *)
Definition inv p w : Prop := party_inv w ∧ is_Some (pview w p).

Lemma inv_grows p w w' : inv p w → grows w w' → inv p w'.
Proof. intros [Hi Hp] Hg. split; [by eapply party_inv_grows|by apply Hg]. Qed.

Lemma inv_set p g' w :
  inv p w → party_ok g' →
  (∀ ch c s, characters g' !! ch = Some c → ch_sess c = Some s → is_Some (pview w s)) →
  inv p (fset g' w).
Proof.
  intros [_ Hp] Hg' Hs. split; [split|]; rewrite ?pa_fset, ?pview_party; try done.
  intros ch c s Hc Hse. rewrite pview_party. eauto.
Qed.
Lemma inv_set_same p g' w :
  inv p w → party_ok g' → characters g' = characters (pa w) → inv p (fset g' w).
Proof. intros Hi Hg' Hc. apply inv_set; [done..|]. rewrite Hc. apply Hi. Qed.

Lemma inv_sess p w ch c s :
  inv p w → characters (pa w) !! ch = Some c → ch_sess c = Some s → is_Some (pview w s).
Proof. intros [[_ Hs] _]. eauto. Qed.

(** [setRoom] on an existing character. *)
Lemma runs_call_setRoom ch room c (Q : bool → W → Prop) w :
  characters (pa w) !! ch = Some c → Char_ok c →
  (∀ b c', Char_ok c' → ch_id c' = ch_id c → ch_sess c' = ch_sess c →
     Q b (fset (set_characters <[ch := c']> (pa w)) w)) →
  runs (call_setRoom ch room) Q w.
Proof.
  intros Hc Hcok HQ. apply runs_bind, runs_party. rewrite Hc.
  set (live := match ch_room c with Some _ => _ | None => _ end). clearbody live.
  pose proof (setRoom_ok live room c Hcok) as Hok. pose proof (setRoom_id live room c) as Hid. pose proof (setRoom_sess live room c) as Hse.
  unfold Character_setRoom in *. destruct (SR live room c) as [b c']. cbn [snd] in *.
  apply runs_bind, runs_set_party, runs_ret. by apply HQ.
Qed.

Lemma runs_createUser p w : inv p w → runs (createUser uninit p) (λ _ w', inv p w') w.
Proof.
  intros Hi. apply runs_bind, runs_reply; [apply Hi|]. intros w' Hg. apply runs_ret. by eapply inv_grows.
Qed.

Lemma runs_login p w : inv p w → runs (login uninit p) (λ _ w', inv p w') w.
Proof.
  intros Hi. apply runs_bind, runs_msg; [apply Hi|]. intros m.
  apply runs_bind, runs_lift; [|apply string_at_ub]. intros id _.
  apply runs_bind, runs_party.
  assert (Hrest : ∀ w', inv p w' →
    runs (setId p id ;; reply uninit p rs_Login LOGIN_SUCCESS None 0 ;; mret true) (λ _ w', inv p w') w').
  { intros w1 Hi1. apply runs_bind, runs_setId; [apply Hi1|]. intros w2 Hg2.
    pose proof (inv_grows _ _ _ Hi1 Hg2) as Hi2.
    apply runs_bind, runs_reply; [apply Hi2|]. intros w3 Hg3. apply runs_ret. by eapply inv_grows. }
  destruct (g_characters (pa w) !! id) as [ch|]; [by apply Hrest|].
  apply runs_bind, runs_bind, runs_set_party. apply runs_set_party.
  rewrite pa_fset, fset_fset. apply Hrest. apply inv_set; [done|by apply ok_login, Hi|].
  cbn. intros q x s [[<- <-]|[_ Hq]]%lookup_insert_Some; [|by eapply inv_sess].
  cbn. intros [= <-]. apply Hi.
Qed.

Lemma runs_status p id r data n (b : bool) w :
  inv p w → runs (reply uninit p id r data n ;; mret b) (λ _ w', inv p w') w.
Proof.
  intros Hi. apply runs_bind, runs_reply; [apply Hi|]. intros w' Hg. apply runs_ret. by eapply inv_grows.
Qed.

(** The room [createParty] makes. *)
Lemma new_room_members ch id :
  ∀ x, x ∈ Room_members (Room_setCharacter ch (Room_setId id (Room_new ch))).2 → x = ch.
Proof.
  intros x. rewrite Room_set_members, Room_setId_members, Room_new_members
    by apply Room_setId_ok, Room_new_ok. case_match.
  - by intros ->%list_elem_of_singleton.
  - by intros []%not_elem_of_nil.
Qed.

Lemma runs_createParty p w :
  inv p w → runs (createParty uninit uninit_body p) (λ _ w', inv p w') w.
Proof.
  intros Hi. apply runs_bind, runs_msg; [apply Hi|]. intros m.
  apply runs_bind, runs_lift; [|apply string_at_ub]. intros id _.
  apply runs_bind, runs_party.
  destruct (g_characters (pa w) !! id) as [ch|] eqn:Hch; [|by apply runs_status].
  destruct (g_rooms (pa w) !! u32 (g_roomId (pa w))) as [x|] eqn:Hroom; [by apply runs_status|].
  destruct (po_names _ (proj1 (proj1 Hi)) id ch Hch) as (c & Hc & _).
  apply runs_bind, runs_set_party. apply runs_bind.
  eapply (runs_call_setRoom ch _ c); [by rewrite pa_fset|by eapply (po_char _ (proj1 (proj1 Hi)))|].
  intros b c' Hcok Hid Hse. rewrite pa_fset, fset_fset.
  apply runs_bind, runs_set_party. rewrite pa_fset, fset_fset.
  destruct (Z.ltb_spec (g_roomId (pa w) + 1) (2 ^ 31)); [|by apply runs_undef; do 3 right].
  apply runs_bind, runs_set_party. rewrite pa_fset, fset_fset.
  assert (Hg' : party_ok (set_characters <[ch := c']> (pa w))) by (eapply ok_set_character; [apply Hi|done..]).
  apply runs_status. apply inv_set; [done| |].
  - apply (ok_new_room (set_characters <[ch := c']> (pa w))); try done.
    + apply Room_set_ok, Room_setId_ok, Room_new_ok.
    + by rewrite Room_set_id, Room_setId_id.
    + intros x ->%new_room_members. cbn. rewrite lookup_insert_eq. by eexists.
  - cbn. intros q x s [[<- <-]|[_ Hq]]%lookup_insert_Some; [|by eapply inv_sess].
    rewrite Hse. by eapply inv_sess.
Qed.

Lemma runs_joinUser p w :
  inv p w → runs (joinUser uninit uninit_body p) (λ _ w', inv p w') w.
Proof.
  intros Hi. apply runs_bind, runs_msg; [apply Hi|]. intros m.
  apply runs_bind, runs_lift; [|apply string_at_ub]. intros toId _.
  apply runs_bind, runs_party. set (found := g_characters (pa w) !! toId ≫= _).
  destruct found as [[ch s]|] eqn:Hf; [|by apply runs_status].
  apply bind_Some in Hf as (ch' & Hch & (c & Hc & (s' & Hs & [= <- <-])%bind_Some)%bind_Some).
  apply runs_bind. apply (runs_mono _ (λ _ w', inv p w' ∧ is_Some (pview w' s'))).
  - assert (Hsv : is_Some (pview w s')) by (by eapply inv_sess).
    destruct (g_rooms (pa w) !! _) as [q|] eqn:Hq; [|by apply runs_ret].
    destruct (po_rooms _ (proj1 (proj1 Hi)) _ q Hq) as (room & Hroom & _). rewrite Hroom.
    pose proof (po_ok _ (proj1 (proj1 Hi)) _ _ Hroom) as Hro.
    pose proof (Room_set_members ch' room Hro) as Hmem. pose proof (Room_set_ok ch' room Hro) as Hro'. pose proof (Room_set_id ch' room) as Hid.
    destruct (Room_setCharacter ch' room) as [b room']. cbn [fst snd] in Hmem, Hid, Hro'.
    assert (Hok : party_ok (set_rooms <[q := room']> (pa w))).
    { eapply ok_set_room; [apply Hi|done..|]. intros x Hx. rewrite Hmem in Hx.
      destruct b; [apply elem_of_app in Hx as [Hx| ->%list_elem_of_singleton]|];
        [|by eexists|]; by eapply (po_members _ (proj1 (proj1 Hi))). }
    apply runs_bind, runs_set_party. destruct b.
    + apply runs_bind. eapply (runs_call_setRoom ch' q c); [by rewrite pa_fset|by eapply (po_char _ (proj1 (proj1 Hi)))|].
      intros b c' Hcok Hcid Hse. apply runs_ret. rewrite pa_fset, fset_fset, pview_party. split; [|done].
      apply inv_set; [done|by eapply (ok_set_character _ ch' c)|].
      cbn. intros y x s [[<- <-]|[_ Hy]]%lookup_insert_Some; [rewrite Hse|]; by eapply inv_sess.
    + apply runs_ret. rewrite pview_party. split; [by apply inv_set_same|done].
  - intros rtn w' [Hi' Hs']. destruct rtn; cbn [negb]; [|by apply runs_status].
    apply runs_bind, runs_reply; [apply Hi'|]. intros w2 Hg2.
    apply runs_bind, runs_lift; [|apply string_at_ub]. intros fromId _.
    apply runs_bind, runs_lift; [|apply put_string_ub]. intros req1 _.
    apply runs_bind, runs_lift; [|apply put_string_ub]. intros req2 _.
    apply runs_bind, runs_reply; [by apply Hg2|]. intros w3 Hg3. apply runs_ret.
    by eapply inv_grows, Hg3; eapply inv_grows.
Qed.

Lemma runs_forM {A} (l : list A) (f : A → M W unit) (I : W → Prop) w :
  I w → (∀ x w, x ∈ l → I w → runs (f x) (λ _, I) w) → runs (forM_ l f) (λ _, I) w.
Proof.
  revert w. induction l as [|x l IH]; intros w Hw Hf; cbn [forM_]; [by apply runs_ret|].
  apply runs_bind. eapply runs_mono; [apply Hf; [by left|done]|].
  intros ? w' Hw'. apply IH; [done|]. intros y w'' Hy. apply Hf. by right.
Qed.

Lemma runs_nfMessage p w :
  inv p w → runs (party_nfMessage uninit uninit_body p) (λ _ w', inv p w') w.
Proof.
  intros Hi. apply runs_bind, runs_msg; [apply Hi|]. intros m. apply runs_bind, runs_party.
  destruct (g_rooms (pa w) !! _) as [q|] eqn:Hq; [|by apply runs_ret].
  destruct (po_rooms _ (proj1 (proj1 Hi)) _ q Hq) as (room & Hroom & _). rewrite Hroom.
  apply runs_bind.
  apply (runs_mono _ (λ _ w', pa w' = pa w ∧ inv p w')); [|intros ? w' [_ ?]; by apply runs_ret].
  apply runs_forM; [done|]. intros i w1 [Hi0 Hi1]%elem_of_seqZ [Hpa Hinv]. unfold nfMessage_body.
  rewrite <- (Z2Nat.id i) by done. rewrite Room_get_members by by eapply (po_ok _ (proj1 (proj1 Hi))).
  destruct (Room_members room !! Z.to_nat i) as [ch|] eqn:Hch;
    cbn [fmap option_fmap option_map]; [|by apply runs_ret].
  apply runs_bind, runs_lift; [|apply string_at_ub]. intros text _.
  apply runs_bind, runs_lift; [|apply put_string_ub]. intros body _.
  apply runs_bind, runs_party.
  destruct (po_members _ (proj1 (proj1 Hi)) q room ch Hroom) as [c Hc]; [by eapply list_elem_of_lookup_2|].
  destruct (po_sess _ (proj1 (proj1 Hi)) ch c Hc) as [s Hs].
  rewrite Hpa, Hc. cbn [mbind option_bind]. rewrite Hs.
  apply runs_reply; [eapply (inv_sess p w1); [done| |done]; by rewrite Hpa|].
  intros w2 Hg. split; [by rewrite (proj1 Hg)|by eapply inv_grows].
Qed.

Lemma runs_add f (Q : unit → W → Prop) p w :
  inv p w → (∀ g, party_ok g → party_ok (f g) ∧ characters (f g) = characters g) →
  (∀ w', inv p w' → Q tt w') → runs (set_party f) Q w.
Proof.
  intros Hi Hf HQ. apply runs_set_party, HQ. destruct (Hf (pa w)) as [H1 H2]; [apply Hi|].
  by apply inv_set_same.
Qed.

Lemma runs_nfEco p len w :
  inv p w → runs (nfEco uninit uninit_body p len) (λ _ w', inv p w') w.
Proof.
  intros Hi. apply runs_bind, runs_msg; [apply Hi|]. intros m.
  apply runs_bind, runs_lift; [|apply memcpy_ub]. intros text _.
  apply runs_bind, runs_lift; [|apply encode_ub]. intros m' _.
  apply runs_bind, runs_asyncSend; [apply Hi|]. intros w1 Hg.
  apply runs_bind. eapply (runs_add _ _ p); [by eapply inv_grows| |].
  - intros g Hg1. split; [|done]. by apply (ok_server g id 0).
  - intros w2 Hi2. by apply runs_ret.
Qed.

Lemma runs_leave_room p ch c w :
  inv p w → characters (pa w) !! ch = Some c → runs (leave_room ch c) (λ _ w', inv p w') w.
Proof.
  intros Hi Hc. apply runs_bind, runs_party. set (found := ch_room c ≫= _).
  destruct found as [[q room]|] eqn:Hf; [|by apply runs_ret].
  apply bind_Some in Hf as (q' & _ & (r & Hroom & [= <- <-])%bind_Some).
  assert (Hok : party_ok (set_rooms <[q' := Room_leave ch r]> (pa w))).
  { eapply ok_set_room; [apply Hi|done|by eapply Room_leave_ok, (po_ok _ (proj1 (proj1 Hi)))|apply Room_leave_id|].
    intros x Hx%Room_leave_members; [|by eapply (po_ok _ (proj1 (proj1 Hi)))]. by eapply (po_members _ (proj1 (proj1 Hi))). }
  assert (Hi1 : inv p (fset (set_rooms <[q' := Room_leave ch r]> (pa w)) w)) by by apply inv_set_same.
  apply runs_bind, runs_set_party. destruct (Room_cnt (Room_leave ch r) =? 0); [|by apply runs_ret].
  apply runs_bind, runs_set_party, runs_set_party. rewrite !pa_fset, !fset_fset.
  apply inv_set_same; [done| |done].
  apply (ok_erase_room _ q' (Room_leave ch r) Hok). cbn. by rewrite lookup_insert_eq.
Qed.

Lemma runs_error e p owner w :
  inv p w → runs (ServerHandler_error e p owner) (λ _ w', inv p w') w.
Proof.
  intros Hi. unfold ServerHandler_error. destruct (is_error e); cbn [negb]; [|by apply runs_ret].
  destruct owner; cbn [negb]; [|by apply runs_ret].
  apply runs_bind, runs_id; [apply Hi|]. intros id.
  apply runs_bind. apply (runs_mono _ (λ _ w', inv p w')).
  - case_decide; [by apply runs_ret|]. apply runs_bind, runs_party.
    set (found := g_characters (pa w) !! id ≫= _).
    destruct found as [[ch c]|] eqn:Hf; [|by apply runs_ret].
    apply bind_Some in Hf as (ch' & _ & (c' & Hc & [= <- <-])%bind_Some).
    apply runs_bind. eapply runs_mono; [by eapply (runs_leave_room p)|]. intros ? w1 Hi1.
    eapply (runs_add _ _ p); [done| |done]. intros g Hg. split; [by apply ok_delete_name|done].
  - intros ? w1 Hi1. apply runs_bind, runs_bind, runs_close; [apply Hi1|]. intros w2 Hg2.
    eapply (runs_add _ _ p); [by eapply inv_grows| |intros w3 Hi3; by apply runs_ret].
    intros g Hg. split; [|done]. by apply (ok_server g _ 0 0).
Qed.

Lemma runs_read msgId len p owner w :
  inv p w → runs (ServerHandler_read uninit uninit_body msgId len p owner) (λ _ w', inv p w') w.
Proof.
  intros Hi. unfold ServerHandler_read. destruct owner; cbn [negb]; [|by apply runs_ret].
  apply runs_bind, runs_msg; [apply Hi|]. intros m. apply runs_bind.
  eapply (runs_add _ _ p); [done| |].
  { intros g Hg. split; [|done]. by apply (ok_server g id _ 0). }
  intros w1 Hi1. repeat case_match; auto using runs_createUser, runs_login, runs_createParty,
    runs_joinUser, runs_nfMessage, runs_nfEco, runs_ret.
Qed.

(** ** Properties *)

(** C14: the handlers are safe and keep the tables consistent.  In every
    state in which names lead to characters of that name with an existing
    session, and every room is listed once under an id that was given out and
    holds existing characters, [read] - of any message id, length and content -
    and [error] throw nothing and dereference no null or dangling pointer, and
    every state they return in is such a state again.  What a client can make
    undefined is a text that is not terminated or does not fit, a length, and
    the party after the last id. *)
Theorem party_handlers_safe p w :
  party_inv w → is_Some (pview w p) →
  (∀ msgId len owner,
     match ServerHandler_read uninit uninit_body msgId len p owner w with
     | Ok _ w' => party_inv w' ∧ is_Some (pview w' p)
     | Throws _ _ => False
     | Undef u => input_ub u
     end) ∧
  (∀ e owner,
     match ServerHandler_error e p owner w with
     | Ok _ w' => party_inv w' ∧ is_Some (pview w' p)
     | Throws _ _ => False
     | Undef u => input_ub u
     end).
Proof.
  intros Hi Hp. split.
  - intros msgId len owner. exact (runs_read msgId len p owner w (conj Hi Hp)).
  - intros e owner. exact (runs_error e p owner w (conj Hi Hp)).
Qed.
End Handlers.
