(* ===== verification/PartyProps.v ===== *)
(** * Properties of the party server

    What the handlers do: messages to a party, logging in, creating a party,
    the echo, disconnection; and the room of the commented-out methods of
    Room.cpp, whose [leave] drops the wrong character.  What is said of messages
    to a party and of disconnection holds whatever [asyncSend(Msg&)] does; what
    is said of the replies of the other handlers is for an [asyncSend] that
    sends ([AsyncSends]). *)
From S2P Require Import Prelude Msg Session IfSession PartyServer PartyInv.

Section Handlers.
Context {W R H : Type} `{PP : !PartyProtocol} `{PS : !PartySessions W} `{RO : !RoomOps R} `{SR : !SetRoom}.
Context `{FP : !Field W (Party R)} `{FH : !Field W H} `{LAWS : !PartySessionsLaws W H}.
Context `{SEP : !Separate FP FH}.
Context (uninit : Msg) (uninit_body : list Z).
Context (uninit_ok : body_ok (msg_body uninit)) (uninit_body_ok : length uninit_body = 1024%nat).
Context `{RL : !RoomLaws R} `{SL : !SetRoomLaws SR}.
Implicit Types (w : W) (p q : ptr) (v : party_view) (g : Party R).

(** ** Lemmas: the loop of [nfMessage] *)

(** The session of a character. *)
Definition session_of g (ch : ptr) : option ptr := characters g !! ch ≫= ch_sess.

(** The structure [nfMessage] sends for a text. *)
Definition nf_struct (text : list Z) : list Z :=
  splice (fd_off nf_Message_msg) (text ++ [0]) (take nf_Message_size uninit_body).
Definition nf_msg (text : list Z) : Msg := structure uninit nf_Message NONE_CODE (nf_struct text).

Lemma length_take_uninit n : (n ≤ 1024)%nat → length (take n uninit_body) = n.
Proof. intros. rewrite length_take. lia. Qed.

Lemma nf_struct_ok text :
  (length text < fd_len nf_Message_msg)%nat →
  put_string nf_Message_msg text (take nf_Message_size uninit_body) = Val (nf_struct text) ∧
  length (nf_struct text) = nf_Message_size.
Proof.
  intros Ht. destruct pp_sizes as (_ & _ & Hsz), pp_nf_Message as (_ & Hend & _).
  destruct (put_string_ok nf_Message_msg text (take nf_Message_size uninit_body)) as (s & Hs & Hl & ->);
    [done|by rewrite length_take_uninit|]. split; [done|].
  unfold nf_struct. by rewrite Hl, length_take_uninit.
Qed.

Lemma relay_member msg text room (i : nat) ch s w :
  string_at (fd_off nf_Message_msg) (msg_body msg) = Val text →
  (length text < fd_len nf_Message_msg)%nat → Room_ok room →
  Room_members room !! i = Some ch → session_of (pa w) ch = Some s →
  nfMessage_body uninit uninit_body msg room (Z.of_nat i) w = asyncSend s (nf_msg text) w.
Proof.
  intros Htext Hlen Hroom Hch Hs. destruct (nf_struct_ok text Hlen) as [Hput Hl].
  destruct pp_sizes as (_ & _ & Hsz), pp_sizes_pos as (_ & _ & Hpos).
  unfold nfMessage_body. rewrite Room_get_members, Hch by done. cbn [fmap option_fmap option_map].
  rewrite (bind_lift _ _ _ _ Htext), (bind_lift _ _ _ _ Hput), bind_party.
  change (c ← characters (pa w) !! ch; ch_sess c) with (session_of (pa w) ch). rewrite Hs.
  unfold reply. rewrite <- Hl. erewrite bind_lift; [done|]. apply encode_structure; [done|lia].
Qed.

(** The loop, from its [k]-th round on. *)
Lemma relay_members msg text room g l ss k w :
  (∀ s m w w', asyncSend s m w = Ok tt w' → pa w' = pa w) →
  string_at (fd_off nf_Message_msg) (msg_body msg) = Val text →
  (length text < fd_len nf_Message_msg)%nat → Room_ok room →
  drop k (Room_members room) = l → Forall2 (λ ch s, session_of g ch = Some s) l ss → pa w = g →
  forM_ (seqZ (Z.of_nat k) (Z.of_nat (length l))) (nfMessage_body uninit uninit_body msg room) w =
    forM_ ss (λ s, asyncSend s (nf_msg text)) w.
Proof.
  intros Hsend Htext Hlen Hroom Hl Hss. revert k w Hl. induction Hss as [|ch s l ss Hs _ IH]; intros k w Hl Hg; [done|].
  assert (Hch : Room_members room !! k = Some ch) by (rewrite <- (Nat.add_0_r k), <- lookup_drop; by rewrite Hl).
  rewrite seqZ_cons by (cbn; lia). cbn [forM_]. unfold mbind, M_bind.
  rewrite (relay_member msg text room k ch s w) by (done || by rewrite Hg).
  destruct (asyncSend s (nf_msg text) w) as [[] w1| |] eqn:E; [|done..]. rewrite <- (IH (S k) w1).
  - f_equal. cbn [length]. f_equal; lia.
  - rewrite <- Nat.add_1_r, <- drop_drop, Hl. done.
  - by rewrite (Hsend _ _ _ _ E).
Qed.

Lemma nf_msg_text text :
  no_nul text → (length text < fd_len nf_Message_msg)%nat →
  string_at (fd_off nf_Message_msg) (msg_body (nf_msg text)) = Val text ∧
  u32_at nf_Message_partyId (msg_body (nf_msg text)) = u32_at nf_Message_partyId uninit_body ∧
  bodyLength (nf_msg text) = Z.of_nat nf_Message_size.
Proof.
  intros Hno Hlen. destruct (nf_struct_ok text Hlen) as [_ Hl].
  destruct pp_sizes as (_ & _ & Hsz), pp_nf_Message as (Hpid & Hend & Hsep). unfold fd_end in *.
  assert (Htk := length_take_uninit nf_Message_size Hsz).
  split_and!.
  - apply string_at_splice; [done|]. rewrite Htk. lia.
  - unfold u32_at. f_equal. apply take_drop_ext. intros i Hi. cbn [nf_msg structure msg_body].
    rewrite lookup_app_l by (rewrite Hl; lia). unfold nf_struct.
    rewrite lookup_splice_outside; rewrite ?length_app; cbn [length]; [|rewrite ?Htk; lia..].
    apply lookup_take_lt. lia.
  - unfold bodyLength. cbn. by rewrite Hl.
Qed.

(** C21: a message to a party goes to the sessions of its members, whatever
    [asyncSend(Msg&)] does with it.  In a consistent state, a notification whose
    text is terminated and fits, for an existing party, makes the handler do
    exactly this: call [asyncSend] with one message on the session of every
    member of the room, once per member and in their order (so nobody outside
    the party is meant, and a character that joined twice is meant twice), and
    answer true.  The message carries the text, and in place of the party's id
    what the automatic structure happened to hold.  Of [asyncSend] it is only
    assumed that it leaves the server's tables alone; with the empty body
    TcpSession.cpp has, nothing is sent ([party_server_silent]). *)
Theorem party_message_broadcast p msg q room text w :
  (∀ s m w w', asyncSend s m w = Ok tt w' → pa w' = pa w) →
  party_ok (pa w) → sess_msg p w = Ok msg w →
  g_rooms (pa w) !! u32_at nf_Message_partyId (msg_body msg) = Some q → rooms (pa w) !! q = Some room →
  string_at (fd_off nf_Message_msg) (msg_body msg) = Val text → (length text < fd_len nf_Message_msg)%nat →
  ∃ m ss, Forall2 (λ ch s, session_of (pa w) ch = Some s) (Room_members room) ss ∧
    party_nfMessage uninit uninit_body p w = (forM_ ss (λ s, asyncSend s m) ;; mret true) w ∧
    string_at (fd_off nf_Message_msg) (msg_body m) = Val text ∧
    u32_at nf_Message_partyId (msg_body m) = u32_at nf_Message_partyId uninit_body ∧
    bodyLength m = Z.of_nat nf_Message_size.
Proof.
  intros Hsend Hok Hmsg Hq Hroom Htext Hlen.
  assert (Hss : ∃ ss, Forall2 (λ ch s, session_of (pa w) ch = Some s) (Room_members room) ss).
  { apply Forall_exists_Forall2_l, Forall_forall. intros ch Hch.
    destruct (po_members _ Hok q room ch Hroom Hch) as [c Hc]. destruct (po_sess _ Hok ch c Hc) as [s Hs].
    exists s. unfold session_of. by rewrite Hc. }
  destruct Hss as [ss Hss]. destruct (string_at_Val _ _ _ Htext) as [Hno _].
  destruct (nf_msg_text text Hno Hlen) as (H1 & H2 & H3). exists (nf_msg text), ss. split_and!; try done.
  assert (Hrok : Room_ok room) by by eapply po_ok.
  unfold party_nfMessage. rewrite (bind_ok _ _ _ _ _ Hmsg), bind_party, Hq, Hroom. unfold mbind, M_bind.
  rewrite Room_cnt_members by done.
  pose proof (relay_members msg text room (pa w) (Room_members room) ss 0 w Hsend Htext Hlen Hrok eq_refl Hss eq_refl) as Hr.
  change (Z.of_nat 0) with 0 in Hr. by rewrite Hr.
Qed.

(** From here on [asyncSend] sends, where a reply is spoken of. *)
Context `{AS : !AsyncSends W H}.

(** the first login of a name wins.  A login with a terminated name always
    answers success and gives the session that name.  If the name is new, the
    table gains a character of that name with this session; if it is taken, the
    tables do not change: the character keeps the session it had, and a request
    for that name still goes there. *)
Theorem login_first_wins p v id w :
  pview w p = Some v → string_at (fd_off rq_Login_id) (msg_body (pv_msg v)) = Val id →
  ∃ w', login uninit p w = Ok true w' ∧
    pview w' p = Some (pv_send (status uninit rs_Login LOGIN_SUCCESS) (pv_setId id v)) ∧
    (∀ q, q ≠ p → pview w' q = pview w q) ∧
    match g_characters (pa w) !! id with
    | Some _ => pa w' = pa w
    | None =>
        ∃ ch, characters (pa w) !! ch = None ∧
          g_characters (pa w') = <[id := ch]> (g_characters (pa w)) ∧
          characters (pa w') = <[ch := Character_new id id p]> (characters (pa w)) ∧
          rooms (pa w') = rooms (pa w) ∧ g_rooms (pa w') = g_rooms (pa w)
    end.
Proof.
  intros Hv Hid. unfold login. erewrite bind_msg by exact Hv. rewrite (bind_lift _ _ _ _ Hid), bind_party.
  assert (Hrest : ∀ w1, (∀ q, pview w1 q = pview w q) →
    ∃ w', (setId p id ;; reply uninit p rs_Login LOGIN_SUCCESS None 0 ;; mret true) w1 = Ok true w' ∧
      pview w' p = Some (pv_send (status uninit rs_Login LOGIN_SUCCESS) (pv_setId id v)) ∧
      (∀ q, q ≠ p → pview w' q = pview w q) ∧ pa w' = pa w1).
  { intros w1 H1. assert (Hv1 : pview w1 p = Some v) by by rewrite H1.
    destruct (setId_law p v id w1 Hv1) as (h & Hr & Hp & Hq).
    destruct (asyncSend_law p _ (status uninit rs_Login LOGIN_SUCCESS) _ Hp) as (h' & Hr' & Hp' & Hq').
    rewrite sends_it in Hp'.
    exists (fset h' (fset h w1)). split_and!.
    - rewrite (bind_ok _ _ _ _ _ Hr). unfold reply. rewrite bind_assoc.
      rewrite (bind_lift _ _ _ _ (encode_status _ _ _)). by rewrite (bind_ok _ _ _ _ _ Hr').
    - done.
    - intros q Hne. by rewrite Hq', Hq, H1.
    - by rewrite !pa_sessions. }
  destruct (g_characters (pa w) !! id) as [ch|] eqn:Hch.
  - destruct (Hrest w ltac:(done)) as (w' & Hr & Hp & Hq & Hpa). exists w'. by split_and!.
  - set (ch := fresh (dom (characters (pa w)))). rewrite bind_assoc, !bind_set_party.
    set (w1 := fset _ (fset _ w)).
    assert (Hpa1 : pa w1 = set_g_characters <[id := ch]> (set_characters <[ch := Character_new id id p]> (pa w)))
      by (unfold w1; by rewrite !pa_fset).
    destruct (Hrest w1) as (w' & Hr & Hp & Hq & Hpa); [intros q; unfold w1; by rewrite !pview_party|].
    exists w'. split_and!; [done..|]. exists ch. rewrite Hpa, Hpa1. split_and!; try done.
    apply not_elem_of_dom, is_fresh.
Qed.

(** The next party id is not in the table. *)
Lemma roomId_free g : party_ok g → g_rooms g !! u32 (g_roomId g) = None ∧ u32 (g_roomId g) = g_roomId g.
Proof.
  intros Hok. pose proof (po_roomId _ Hok) as Hid.
  assert (Hu : ∀ z, 0 <= z < 2 ^ 31 → u32 z = z) by (intros; apply wrapU_id; unfold in_u; lia).
  split; [|by apply Hu]. destruct (g_rooms g !! u32 (g_roomId g)) as [q|] eqn:Hq; [|done].
  destruct (po_rooms _ Hok _ _ Hq) as (r & Hr & Hk). pose proof (po_given _ Hok _ _ Hr) as Hg.
  rewrite !Hu in Hk by lia. lia.
Qed.

(** The structure of a created party's reply. *)
Definition rs_struct (id : Z) : list Z :=
  put_u32 rs_CrteParty_partyId id (take rs_CrteParty_size uninit_body).

Lemma rs_struct_ok id :
  length (rs_struct id) = rs_CrteParty_size ∧
  u32_at rs_CrteParty_partyId (msg_body (structure uninit rs_CrteParty CREATE_PARTY_SUCCESS (rs_struct id))) = u32 id.
Proof.
  destruct pp_sizes as (Hsz & _ & _). pose proof pp_rs_CrteParty as Hoff.
  assert (Hl : length (rs_struct id) = rs_CrteParty_size).
  { unfold rs_struct. by rewrite length_put_u32; rewrite length_take_uninit. }
  split; [done|]. rewrite <- (u32_at_put rs_CrteParty_partyId id (take rs_CrteParty_size uninit_body)) by
    (by rewrite length_take_uninit).
  unfold u32_at. f_equal. apply take_drop_ext. intros i Hi. cbn [structure msg_body].
  rewrite lookup_app_l by (rewrite Hl; lia). done.
Qed.

(** creating a party.  In a consistent state, a logged-in character that
    asks for a party gets one while ids last: the reply carries the id that was
    next, the table of rooms gains one room under that id with the character as
    its only member, the next id is one higher, and no other session is sent
    anything. *)
Theorem createParty_spec p v id ch w :
  party_inv w → pview w p = Some v →
  string_at (fd_off rq_CrteParty_id) (msg_body (pv_msg v)) = Val id →
  g_characters (pa w) !! id = Some ch → g_roomId (pa w) + 1 < 2 ^ 31 →
  (∀ r, Room_ok r → Room_members r = [] → (Room_setCharacter ch r).1 = true) →
  ∃ w' q room m, createParty uninit uninit_body p w = Ok true w' ∧
    pview w' p = Some (pv_send m v) ∧ (∀ s, s ≠ p → ∀ vs, pview w s = Some vs → pview w' s = Some vs) ∧
    hdr_msgId (msg_hdr m) = u32 rs_CrteParty ∧
    u32_at rs_CrteParty_partyId (msg_body m) = g_roomId (pa w) ∧
    g_rooms (pa w) !! g_roomId (pa w) = None ∧ rooms (pa w) !! q = None ∧
    g_rooms (pa w') = <[g_roomId (pa w) := q]> (g_rooms (pa w)) ∧
    rooms (pa w') = <[q := room]> (rooms (pa w)) ∧
    Room_members room = [ch] ∧ Room_id room = g_roomId (pa w) ∧
    g_roomId (pa w') = g_roomId (pa w) + 1.
Proof.
  intros [Hok Hsess] Hv Hid Hch Hlt Hroom.
  destruct (roomId_free _ Hok) as [Hfree Hu]. destruct (po_names _ Hok id ch Hch) as (c & Hc & _).
  destruct (rs_struct_ok (g_roomId (pa w))) as [Hl Hpid].
  set (q := fresh (dom (rooms (pa w)))).
  set (room := (Room_setCharacter ch (Room_setId (g_roomId (pa w)) (Room_new ch))).2).
  set (w1 := fset (set_rooms <[q := room]> (pa w)) w).
  assert (Hset : ∃ b c', call_setRoom ch q w1 = Ok b (fset (set_characters <[ch := c']> (pa w1)) w1)).
  { unfold call_setRoom. rewrite bind_party. replace (characters (pa w1) !! ch) with (Some c)
      by (unfold w1; by rewrite pa_fset).
    unfold Character_setRoom. destruct (SR _ q c) as [b c']. by exists b, c'. }
  destruct Hset as (b & c' & Hset).
  set (g4 := set_g_roomId (g_roomId (pa w) + 1) (set_g_rooms <[g_roomId (pa w) := q]>
    (set_characters <[ch := c']> (set_rooms <[q := room]> (pa w))))).
  assert (Hv4 : pview (fset g4 w) p = Some v) by by rewrite pview_party.
  destruct pp_sizes as (Hsz & _ & _), pp_sizes_pos as (Hpos & _ & _).
  destruct (reply_structure uninit uninit_ok p v rs_CrteParty CREATE_PARTY_SUCCESS (rs_struct (g_roomId (pa w))) (fset g4 w) Hv4)
    as (w' & Hr & Hpa & Hsent); [lia|].
  rewrite pa_fset in Hpa. rewrite Hl in Hr.
  exists w', q, room, (structure uninit rs_CrteParty CREATE_PARTY_SUCCESS (rs_struct (g_roomId (pa w)))).
  rewrite Hpa, Hpid. cbn [g4 g_rooms rooms g_roomId set_g_roomId set_g_rooms set_characters set_rooms].
  rewrite Hu in Hfree. split_and!; try done.
  - unfold createParty. erewrite bind_msg by exact Hv. rewrite (bind_lift _ _ _ _ Hid), bind_party, Hch, Hu, Hfree.
    fold q room. rewrite bind_set_party. fold w1. rewrite (bind_ok _ _ _ _ _ Hset), bind_set_party.
    destruct (Z.ltb_spec (g_roomId (pa w) + 1) (2 ^ 31)); [|lia]. rewrite bind_set_party.
    unfold w1. rewrite !pa_fset, !fset_fset. by rewrite (bind_ok _ _ tt _ w').
  - rewrite (Hsent p v Hv4). by rewrite decide_True.
  - intros s Hne vs Hs. rewrite (Hsent s vs) by by rewrite pview_party. by rewrite decide_False.
  - apply not_elem_of_dom, is_fresh.
  - assert (Hro : Room_ok (Room_setId (g_roomId (pa w)) (Room_new ch))) by apply Room_setId_ok, Room_new_ok.
    assert (Hnil : Room_members (Room_setId (g_roomId (pa w)) (Room_new ch)) = [])
      by by rewrite Room_setId_members, Room_new_members.
    unfold room. by rewrite Room_set_members, Hroom, Hnil by done.
  - unfold room. by rewrite Room_set_id, Room_setId_id.
Qed.

(** the echo.  For a length from 1 to the size of the array the sender gets
    back one message with exactly the bytes it sent, and the frame is added to
    the server's counter; a negative length is undefined (it is copied as a
    [size_t]), and so is one that the array cannot hold. *)
Theorem nfEco_spec p v len w :
  pview w p = Some v → msg_ok (pv_msg v) → in_s 16 len → fd_off NfEco_msg = 0%nat →
  (0 < len <= Z.of_nat (fd_len NfEco_msg) →
     ∃ w' m, nfEco uninit uninit_body p len w = Ok true w' ∧ pview w' p = Some (pv_send m v) ∧
       hdr_msgId (msg_hdr m) = u32 ID_nf_Eco ∧ bodyLength m = len ∧
       take (Z.to_nat len) (msg_body m) = take (Z.to_nat len) (msg_body (pv_msg v)) ∧
       sv_tx (pa w') = u64 (sv_tx (pa w) + (8 + len))) ∧
  (len < 0 → nfEco uninit uninit_body p len w = Undef UB_buffer_overread) ∧
  (Z.of_nat (fd_len NfEco_msg) < len <= 1024 →
     nfEco uninit uninit_body p len w = Undef UB_buffer_overflow).
Proof.
  intros Hv [_ [Hbl Hbb]] Hlen Hoff. unfold MAX_CP_MSG_DATA in Hbl.
  destruct pp_NfEco as [Hend Hsz]. unfold fd_end in Hend. rewrite Hoff in Hend.
  assert (Hdst : length (take (fd_len NfEco_msg) (drop (fd_off NfEco_msg) (take NfEco_size uninit_body))) =
    fd_len NfEco_msg).
  { rewrite Hoff, drop_0, length_take, length_take_uninit; lia. }
  unfold nfEco. erewrite !bind_msg by exact Hv. unfold in_s in Hlen. cbn in Hlen.
  split_and!.
  - intros Hl. assert (Hn : size_t len = len) by (apply wrapU_id; unfold in_u; lia).
    rewrite Hn. set (text := take (Z.to_nat len) (msg_body (pv_msg v))).
    set (rest := drop (Z.to_nat len) (take (fd_len NfEco_msg) (take NfEco_size uninit_body))).
    set (eco := splice 0 (text ++ rest) (take NfEco_size uninit_body)).
    set (m := structure uninit ID_nf_Eco NONE_CODE (take (Z.to_nat len) eco)).
    assert (Htext : length text = Z.to_nat len) by (unfold text; rewrite length_take; lia).
    assert (Heco : length eco = NfEco_size).
    { unfold eco. rewrite length_splice; rewrite length_take_uninit by lia; [done|].
      unfold rest. rewrite Nat.add_0_l, length_app, length_drop, Htext, length_take, length_take_uninit; lia. }
    assert (Hpre : take (Z.to_nat len) eco = text).
    { unfold eco, splice. rewrite take_0, app_nil_l, <- app_assoc. by apply take_app_length'. }
    assert (Hbody : bodyLength m = len).
    { unfold bodyLength, m. cbn. rewrite Hpre, Htext. lia. }
    destruct (asyncSend_sent p v m w Hv) as (w1 & Hr & Hpa & Hsent).
    exists (fset (set_tx (u64 (sv_tx (pa w1) + u64 (msg_length m))) (pa w1)) w1), m.
    rewrite memcpy_Val by (rewrite ?Hdst, ?length_drop; lia). rewrite Hoff, !drop_0.
    rewrite (bind_lift _ _ _ _ eq_refl). fold text rest. fold eco.
    rewrite (bind_lift _ m) by (apply encode_prefix; rewrite ?Heco; done || lia).
    rewrite (bind_ok _ _ _ _ _ Hr). split_and!; try done.
    + rewrite pview_party, (Hsent p v Hv). by rewrite decide_True.
    + unfold m. cbn [structure msg_body]. by rewrite Hpre, take_app_length' by done.
    + rewrite pa_fset, Hpa. cbn [sv_tx set_tx]. change (msg_length m) with (8 + bodyLength m).
      rewrite Hbody, (wrapU_id 64 (8 + len)); [done|]. unfold in_u. lia.
  - intros Hl. rewrite (bind_lift_bad _ UB_buffer_overread); [done|].
    rewrite wrapU_neg by lia. unfold memcpy. rewrite length_drop. case_cmp; [done|lia..].
  - intros Hl. rewrite (bind_lift_bad _ UB_buffer_overflow); [done|].
    rewrite wrapU_id by (unfold in_u; lia). unfold memcpy. rewrite length_drop, Hdst.
    case_cmp; [lia|done|lia].
Qed.

(** C37: a disconnection.  When the session of a logged-in character fails, the
    handler removes the name from the table, closes the session and takes it out
    of the server; a character that refers to no room leaves every room as it
    is.  ([setRoom] of Character.cpp never makes a character refer to one, so
    with it this holds in every consistent state, and the rooms go on
    listing characters whose sessions are closed.) *)
Theorem disconnect_spec e p v ch c w :
  is_error e = true → pview w p = Some v → pv_id v ≠ [] →
  g_characters (pa w) !! pv_id v = Some ch → characters (pa w) !! ch = Some c → ch_id c = pv_id v →
  ch_room c = None →
  ∃ w', ServerHandler_error e p true w = Ok true w' ∧
    pview w' p = Some (pv_close v) ∧ (∀ q, q ≠ p → pview w' q = pview w q) ∧
    g_characters (pa w') = delete (pv_id v) (g_characters (pa w)) ∧
    sv_sessions (pa w') = sv_sessions (pa w) ∖ {[p]} ∧
    rooms (pa w') = rooms (pa w) ∧ g_rooms (pa w') = g_rooms (pa w) ∧
    characters (pa w') = characters (pa w).
Proof.
  intros He Hv Hid Hch Hc Hcid Hroom. set (w1 := fset (set_g_characters (delete (pv_id v)) (pa w)) w).
  assert (Hv1 : pview w1 p = Some v) by (unfold w1; by rewrite pview_party).
  destruct (sess_close_law p v w1 Hv1) as (h & Hr & Hp & Hq).
  set (w2 := fset h w1).
  assert (Hpa2 : pa w2 = set_g_characters (delete (pv_id v)) (pa w)).
  { unfold w2. rewrite pa_sessions. apply pa_fset. }
  exists (fset (set_sessions (λ l, l ∖ {[p]}) (pa w2)) w2). rewrite pa_fset, Hpa2. split_and!; try done.
  - unfold ServerHandler_error. rewrite He. cbn [negb].
    rewrite (bind_ok _ _ _ _ _ (sess_id_law p v w Hv)). rewrite decide_False by done.
    rewrite bind_assoc, bind_party.
    assert (Hf : (ch ← g_characters (pa w) !! pv_id v; c ← characters (pa w) !! ch; Some (ch, c)) = Some (ch, c))
      by (rewrite Hch; cbn; by rewrite Hc).
    assert (Hl : leave_room ch c w = Ok tt w) by (unfold leave_room; by rewrite bind_party, Hroom).
    rewrite Hf, bind_assoc, (bind_ok _ _ _ _ _ Hl), bind_set_party, Hcid. fold w1.
    unfold deleteSession. rewrite bind_assoc, (bind_ok _ _ _ _ _ Hr). fold w2.
    by rewrite bind_set_party, Hpa2.
  - by rewrite pview_party.
  - intros q Hne. rewrite pview_party. unfold w2. rewrite Hq by done. unfold w1. by rewrite pview_party.
Qed.
End Handlers.

(** ** The room of Room.cpp's commented-out methods *)

Definition room_members (r : Room) : list ptr := omap id (take (Z.to_nat (m_cnt r)) (m_characters r)).

(** The first [m_cnt] of the eight slots hold the members. *)
Definition room_ok (r : Room) : Prop :=
  ∃ members rest, m_characters r = (Some <$> members) ++ rest ∧
    m_cnt r = Z.of_nat (length members) ∧ length (m_characters r) = 8%nat.

Lemma omap_id_Some {A} (l : list A) : omap id (Some <$> l) = l.
Proof. induction l as [|x l IH]; cbn; [done|by rewrite IH]. Qed.

Lemma room_members_eq members rest id :
  room_members (mkRoom ((Some <$> members) ++ rest) (Z.of_nat (length members)) id) = members.
Proof.
  unfold room_members. cbn. rewrite Nat2Z.id, take_app_length' by (by rewrite length_fmap).
  apply omap_id_Some.
Qed.

(** Every room in order is of this form. *)
Lemma room_ok_inv r :
  room_ok r → ∃ rest, r = mkRoom ((Some <$> room_members r) ++ rest) (Z.of_nat (length (room_members r))) (m_id r) ∧
    (length (room_members r) + length rest = 8)%nat.
Proof.
  destruct r as [slots cnt id]. intros (ms & rest & Hs & Hc & Hl). cbn in *. subst.
  exists rest. rewrite room_members_eq. split; [done|]. by rewrite length_app, length_fmap in Hl.
Qed.

Lemma room_ok_intro members rest id :
  (length members + length rest = 8)%nat →
  room_ok (mkRoom ((Some <$> members) ++ rest) (Z.of_nat (length members)) id).
Proof. intros Hl. exists members, rest. cbn. by rewrite length_app, length_fmap. Qed.

(** Forgetting the last members. *)
Lemma room_shrink r (k : nat) id :
  room_ok r → (k ≤ length (room_members r))%nat →
  room_ok (mkRoom (m_characters r) (Z.of_nat k) id) ∧
  room_members (mkRoom (m_characters r) (Z.of_nat k) id) = take k (room_members r).
Proof.
  intros Hr Hk. destruct (room_ok_inv r Hr) as (rest & Er & Hl). set (ms := room_members r) in *.
  assert (Hslots : m_characters r = (Some <$> take k ms) ++ ((Some <$> drop k ms) ++ rest)).
  { rewrite Er. cbn. by rewrite app_assoc, <- fmap_app, take_drop. }
  assert (Hlk : k = length (take k ms)) by (rewrite length_take; lia).
  assert (Hk' : Z.of_nat k = Z.of_nat (length (take k ms))) by (by rewrite <- Hlk).
  rewrite Hslots, Hk'. split; [|apply room_members_eq].
  apply room_ok_intro. rewrite length_app, length_fmap, length_drop, length_take. lia.
Qed.

Lemma slot_lookup r (i : nat) :
  room_ok r → (i < length (room_members r))%nat →
  mjoin (m_characters r !! i) = room_members r !! i.
Proof.
  intros Hr Hi. destruct (room_ok_inv r Hr) as (rest & Er & _). rewrite Er at 1. cbn.
  rewrite lookup_app_l by (by rewrite length_fmap). rewrite list_lookup_fmap.
  by destruct (room_members r !! i).
Qed.

(** [leave] changes the count only, and lowers it. *)
Lemma leave_from_count fuel ch i r :
  0 <= i → 0 <= m_cnt r →
  ∃ cnt, leave_from fuel ch i r = mkRoom (m_characters r) cnt (m_id r) ∧ 0 <= cnt <= m_cnt r.
Proof.
  revert i r. induction fuel as [|fuel IH]; intros i r Hi Hc; cbn [leave_from].
  { exists (m_cnt r). destruct r. by split. }
  destruct (Z.ltb_spec i (m_cnt r)); [|exists (m_cnt r); destruct r; by split].
  destruct (decide (mjoin (m_characters r !! Z.to_nat i) = Some ch)).
  - destruct (IH (i + 1) (mkRoom (m_characters r) (m_cnt r - 1) (m_id r))) as (cnt & -> & Hcnt); cbn; [lia..|].
    exists cnt. cbn in *. split; [done|lia].
  - destruct (IH (i + 1) r) as (cnt & -> & Hcnt); [lia..|]. by exists cnt.
Qed.

Lemma leave_from_id fuel ch i r : m_id (leave_from fuel ch i r) = m_id r.
Proof.
  revert i r. induction fuel as [|fuel IH]; intros i r; cbn [leave_from]; [done|].
  destruct (i <? m_cnt r); [|done]. rewrite IH. by case_decide.
Qed.

(** A loop that meets the character nowhere. *)
Lemma leave_from_absent fuel ch (i : nat) r :
  (∀ j : nat, (i ≤ j)%nat → Z.of_nat j < m_cnt r → mjoin (m_characters r !! j) ≠ Some ch) →
  leave_from fuel ch (Z.of_nat i) r = r.
Proof.
  revert i. induction fuel as [|fuel IH]; intros i Hj; cbn [leave_from]; [done|].
  destruct (Z.ltb_spec (Z.of_nat i) (m_cnt r)); [|done].
  rewrite Nat2Z.id, decide_False by (apply Hj; lia).
  replace (Z.of_nat i + 1) with (Z.of_nat (S i)) by lia. apply IH. intros. apply Hj; lia.
Qed.

Lemma leave_from_once fuel ch (i k : nat) r :
  (i ≤ k)%nat → Z.of_nat k < m_cnt r → (Z.to_nat (m_cnt r) ≤ fuel + i)%nat →
  (∀ j : nat, Z.of_nat j < m_cnt r → mjoin (m_characters r !! j) = Some ch ↔ j = k) →
  leave_from fuel ch (Z.of_nat i) r = mkRoom (m_characters r) (m_cnt r - 1) (m_id r).
Proof.
  intros Hik Hk Hf Honce. revert i Hik Hf. induction fuel as [|fuel IH]; intros i Hik Hf; [lia|].
  cbn [leave_from]. destruct (Z.ltb_spec (Z.of_nat i) (m_cnt r)); [|lia]. rewrite Nat2Z.id.
  replace (Z.of_nat i + 1) with (Z.of_nat (S i)) by lia.
  destruct (decide (mjoin (m_characters r !! i) = Some ch)) as [Hi|Hi].
  - apply Honce in Hi as ->; [|done]. apply leave_from_absent. cbn. intros j Hj Hjc Hjm.
    apply Honce in Hjm; lia.
  - apply IH; [|lia]. destruct (decide (i = k)) as [->|]; [|lia]. exfalso. apply Hi. by apply Honce.
Qed.

Lemma set_ok ch r : room_ok r →
  room_ok (setCharacter ch r).2 ∧
  room_members (setCharacter ch r).2 =
    if (setCharacter ch r).1 then room_members r ++ [ch] else room_members r.
Proof.
  intros Hr. unfold setCharacter. case_cmp; [done|]. cbn [fst snd].
  destruct (room_ok_inv r Hr) as (rest & Er & Hl). set (ms := room_members r) in *.
  rewrite Er in *. cbn [m_cnt m_characters m_id] in *. unfold MAX_CHARACTER in *.
  destruct rest as [|x rest]; [cbn in Hl; lia|].
  assert (Hins : <[length ms := Some ch]> ((Some <$> ms) ++ x :: rest) = (Some <$> (ms ++ [ch])) ++ rest).
  { replace (length ms) with (length (Some <$> ms) + 0)%nat by (rewrite length_fmap; lia).
    rewrite insert_app_r. cbn. by rewrite fmap_app, <- app_assoc. }
  rewrite Nat2Z.id, Hins.
  replace (Z.of_nat (length ms) + 1) with (Z.of_nat (length (ms ++ [ch]))) by (rewrite length_app; cbn; lia).
  split; [|apply room_members_eq]. apply room_ok_intro. rewrite length_app. cbn in *. lia.
Qed.

Lemma leave_ok ch r : room_ok r →
  ∃ k, (k ≤ length (room_members r))%nat ∧
    leave ch r = mkRoom (m_characters r) (Z.of_nat k) (m_id r).
Proof.
  intros Hr. destruct (room_ok_inv r Hr) as (rest & Er & _).
  assert (Hc : m_cnt r = Z.of_nat (length (room_members r))) by (by rewrite Er at 1).
  destruct (leave_from_count (Z.to_nat (m_cnt r)) ch 0 r) as (cnt & Hl & Hcnt); [lia..|].
  exists (Z.to_nat cnt). split; [lia|]. unfold leave. rewrite Hl. f_equal. lia.
Qed.

#[export, refine] Instance Room_comment_laws : @RoomLaws Room (Room_comment 0) :=
  {| Room_ok := room_ok; Room_members := room_members |}.
Proof.
  all: cbn [Room_new Room_setId Room_id Room_cnt Room_setCharacter Room_getCharacter Room_leave Room_comment].
  - intros ch. exists [], (replicate 8 None). done.
  - done.
  - intros i r (ms & rest & H1 & H2 & H3). by exists ms, rest.
  - done.
  - done.
  - intros ch r Hr. by apply set_ok.
  - intros ch r Hr. by apply set_ok.
  - intros ch r. unfold setCharacter. by case_match.
  - intros r Hr. destruct (room_ok_inv r Hr) as (rest & Er & _). by rewrite Er at 1.
  - intros i r Hr. destruct (room_ok_inv r Hr) as (rest & Er & Hl).
    assert (Hc : m_cnt r = Z.of_nat (length (room_members r))) by (by rewrite Er at 1).
    unfold getCharacter, MAX_CHARACTER. rewrite Hc, Nat2Z.id.
    destruct (room_members r !! i) as [ch|] eqn:Hi.
    + pose proof (lookup_lt_Some _ _ _ Hi).
      destruct (Z.leb_spec (Z.of_nat (length (room_members r))) (Z.of_nat i)); [lia|].
      destruct (Z.leb_spec 8 (Z.of_nat i)); [lia|]. cbn. by rewrite slot_lookup, Hi.
    + apply lookup_ge_None in Hi.
      destruct (Z.leb_spec (Z.of_nat (length (room_members r))) (Z.of_nat i)); [done|lia].
  - intros ch r Hr. destruct (leave_ok ch r Hr) as (k & Hk & ->). by apply room_shrink.
  - intros ch r Hr x. destruct (leave_ok ch r Hr) as (k & Hk & ->).
    rewrite (proj2 (room_shrink r k _ Hr Hk)).
    intros [j [Hj _]%lookup_take_Some]%list_elem_of_lookup. by eapply list_elem_of_lookup_2.
  - intros ch r. apply leave_from_id.
Defined.

(** leaving drops the wrong character.  In a room whose members are distinct,
    [leave] of any member makes the last one disappear and keeps all others:
    the slot of the leaver is copied and the copy is reset, and only the count
    is lowered.  So unless it was the last one, the leaver stays, and the last
    member, who did not leave, is gone. *)
Theorem leave_drops_last ch r :
  room_ok r → NoDup (room_members r) → ch ∈ room_members r →
  room_ok (leave ch r) ∧
  room_members (leave ch r) = take (length (room_members r) - 1) (room_members r) ∧
  ∀ x, last (room_members r) = Some x →
    (x ∉ room_members (leave ch r)) ∧ (ch ≠ x → ch ∈ room_members (leave ch r)).
Proof.
  intros Hr Hnd Hin. destruct (room_ok_inv r Hr) as (rest & Er & _).
  assert (Hc : m_cnt r = Z.of_nat (length (room_members r))) by (by rewrite Er at 1).
  apply list_elem_of_lookup in Hin as [k Hk]. pose proof (lookup_lt_Some _ _ _ Hk) as Hkl.
  assert (Hleave : leave ch r = mkRoom (m_characters r) (Z.of_nat (length (room_members r) - 1)) (m_id r)).
  { unfold leave. rewrite (leave_from_once _ ch 0 k r); [f_equal; lia|lia..|].
    intros j Hj. rewrite slot_lookup by (done || lia). split; [|by intros ->].
    intros Hjk. by eapply NoDup_lookup. }
  destruct (room_shrink r (length (room_members r) - 1) (m_id r) Hr ltac:(lia)) as [Hok Hmem].
  rewrite Hleave, Hmem. split_and!; [done..|]. intros x Hx.
  assert (Hsplit : room_members r = take (length (room_members r) - 1) (room_members r) ++ [x]).
  { apply last_Some in Hx as [l Hl]. rewrite Hl, length_app, Nat.add_sub. by rewrite take_app_length. }
  split.
  - intros Hxin. rewrite Hsplit in Hnd. apply NoDup_app in Hnd as (_ & Hno & _).
    apply (Hno x Hxin). by left.
  - intros Hne. assert (Hin : ch ∈ room_members r) by by eapply list_elem_of_lookup_2.
    rewrite Hsplit in Hin. apply elem_of_app in Hin as [?|Hin]; [done|].
    by apply list_elem_of_singleton in Hin.
Qed.

(** ** Instances at concrete inputs

    Sessions that record what is sent, and one layout. *)

#[program] Definition demo_protocol : PartyProtocol := {|
  rq_CrteUser := 1; rs_CrteUser := 2; rq_Login := 3; rs_Login := 4; rq_CrteParty := 5;
  rs_CrteParty := 6; rq_JoinUser := 7; rs_JoinUser := 8; rq_ReqJoin := 9; nf_Message := 10;
  ID_nf_Eco := 11;
  rq_Login_id := mkField 0 36;
  rq_CrteParty_id := mkField 0 36;
  rq_JoinUser_fromId := mkField 0 36; rq_JoinUser_toId := mkField 36 36; rq_JoinUser_partyId := 72;
  rs_CrteParty_size := 4; rs_CrteParty_partyId := 0;
  rq_ReqJoin_size := 76; rq_ReqJoin_partyId := 0;
  rq_ReqJoin_fromId := mkField 4 36; rq_ReqJoin_toId := mkField 40 36;
  nf_Message_size := 132; nf_Message_partyId := 0; nf_Message_msg := mkField 4 128;
  NfEco_size := 256; NfEco_msg := mkField 0 256
|}.
Next Obligation. apply (bool_decide_unpack _). vm_compute. exact I. Qed.
Next Obligation. lia. Qed.
Next Obligation. lia. Qed.
Next Obligation. lia. Qed.
Next Obligation. unfold fd_end; cbn; lia. Qed.
Next Obligation. unfold fd_end; cbn; lia. Qed.
Next Obligation. unfold fd_end; cbn; lia. Qed.

Record party_world := mkPartyWorld { pw_sessions : gmap ptr party_view; pw_party : Party Room }.
#[export, refine] Instance pw_field_sessions : Field party_world (gmap ptr party_view) :=
  {| fget w := pw_sessions w; fset x w := mkPartyWorld x (pw_party w) |}.
Proof. all: by try intros []. Defined.
#[export, refine] Instance pw_field_party : Field party_world (Party Room) :=
  {| fget w := pw_party w; fset x w := mkPartyWorld (pw_sessions w) x |}.
Proof. all: by try intros []. Defined.
#[export] Instance pw_separate : Separate pw_field_party pw_field_sessions.
Proof. by split. Qed.

#[export] Instance recording_sessions {W} `{FV : !Field W (gmap ptr party_view)} : PartySessions W := {|
  sess_msg p := v ← obj_get p; mret (pv_msg v);
  asyncSend p m := obj_set p (pv_send m);
  sess_id p := v ← obj_get p; mret (pv_id v);
  setId p x := obj_set p (pv_setId x);
  sess_close p := obj_set p pv_close
|}.
#[export, refine] Instance recording_sessions_laws {W} `{FV : !Field W (gmap ptr party_view)} :
    PartySessionsLaws W (gmap ptr party_view) := {| pview w p := objs w !! p; sent_by m := [m] |}.
Proof.
  - intros U g x w p Hsep. unfold objs. by rewrite (fget_fset_sep' (Separate := Hsep)).
  - intros p v w Hv. cbn. by obj_run.
  - intros p v w Hv. cbn. by obj_run.
  - intros p v m w Hv. eexists. split; [cbn; by obj_run|].
    split; [by apply lookup_obj_upd|]. intros q Hq. by apply lookup_obj_upd_ne.
  - intros p v x w Hv. eexists. split; [cbn; by obj_run|].
    split; [by apply lookup_obj_upd|]. intros q Hq. by apply lookup_obj_upd_ne.
  - intros p v w Hv. eexists. split; [cbn; by obj_run|].
    split; [by apply lookup_obj_upd|]. intros q Hq. by apply lookup_obj_upd_ne.
Defined.

#[export] Instance recording_sessions_send {W} `{FV : !Field W (gmap ptr party_view)} :
  AsyncSends W (gmap ptr party_view).
Proof. done. Qed.

(** The same with the [asyncSend(Msg&)] of TcpSession.cpp: its body is empty. *)
Definition silent_sessions {W} `{FV : !Field W (gmap ptr party_view)} : PartySessions W := {|
  sess_msg p := v ← obj_get p; mret (pv_msg v);
  asyncSend p m := mret tt;
  sess_id p := v ← obj_get p; mret (pv_id v);
  setId p x := obj_set p (pv_setId x);
  sess_close p := obj_set p pv_close
|}.
#[refine] Definition silent_sessions_laws {W} `{FV : !Field W (gmap ptr party_view)} :
    PartySessionsLaws (PartySessions0 := silent_sessions) W (gmap ptr party_view) :=
  {| pview w p := objs w !! p; sent_by m := [] |}.
Proof.
  - intros U g x w p Hsep. unfold objs. by rewrite (fget_fset_sep' (Separate := Hsep)).
  - intros p v w Hv. cbn. by obj_run.
  - intros p v w Hv. cbn. by obj_run.
  - intros p v m w Hv. exists (objs w). cbn. unfold objs in *. rewrite fset_fget.
    split; [done|]. split; [|done]. rewrite Hv. unfold pv_sends. rewrite app_nil_r. by destruct v.
  - intros p v x w Hv. eexists. split; [cbn; by obj_run|].
    split; [by apply lookup_obj_upd|]. intros q Hq. by apply lookup_obj_upd_ne.
  - intros p v w Hv. eexists. split; [cbn; by obj_run|].
    split; [by apply lookup_obj_upd|]. intros q Hq. by apply lookup_obj_upd_ne.
Defined.

#[local] Existing Instance demo_protocol.
#[local] Instance demo_room_ops : RoomOps Room := Room_comment 0.
#[local] Instance demo_setRoom : SetRoom := setRoom_stub.
#[local] Instance demo_room_laws : RoomLaws Room := Room_comment_laws.
#[local] Instance demo_setRoom_laws : SetRoomLaws demo_setRoom := setRoom_stub_laws.

(** Two characters, [A] of session 1 and [B] of session 2, in party 0; the
    message of session 1 is a parameter. *)
Definition demo_party : Party Room :=
  mkParty {[0%nat := mkCharacter [65] [65] (Some 1%nat) None; 1%nat := mkCharacter [66] [66] (Some 2%nat) None]}
    {[[65] := 0%nat; [66] := 1%nat]}
    {[0%nat := mkRoom ((Some <$> [0%nat; 1%nat]) ++ replicate 6 None) 2 0]} {[0 := 0%nat]} 1 {[1%nat; 2%nat]} 0 0.
Definition demo_body (l : list Z) : Msg :=
  mkMsg (mkHdr 1 0 (Z.of_nat (length l)) 0) (l ++ replicate (1024 - length l) 0).
Definition demo_pw (m : Msg) : party_world :=
  mkPartyWorld {[1%nat := mkPartyView m [65] [] true; 2%nat := mkPartyView m [66] [] true]} demo_party.
Definition stack_msg : Msg := demo_body [].
Definition stack_body : list Z := replicate 1024 170.
Definition demo_room : Room := mkRoom ((Some <$> [0%nat; 1%nat]) ++ replicate 6 None) 2 0.

Ltac map_cases H :=
  repeat (apply lookup_insert_Some in H as [[<- <-]|[_ H]]);
  try (apply lookup_singleton_Some in H as [<- <-]); try (by rewrite lookup_empty in H).

Lemma demo_party_ok : party_ok demo_party.
Proof.
  split; cbn [demo_party characters g_characters rooms g_rooms g_roomId].
  - intros id ch H. map_cases H; (eexists; split; [vm_compute; reflexivity|reflexivity]).
  - intros ch c H. map_cases H; by eexists.
  - intros ch c H. map_cases H; exact eq_refl.
  - intros k p H. map_cases H. eexists. split; [vm_compute; reflexivity|reflexivity].
  - intros p r H. map_cases H. reflexivity.
  - intros p r H. map_cases H. by apply (room_ok_intro [0%nat; 1%nat] (replicate 6 None) 0).
  - intros p r H. map_cases H. cbn. lia.
  - intros p r ch H Hin. map_cases H. cbn in Hin.
    apply elem_of_cons in Hin as [->|Hin]; [by eexists; vm_compute|].
    apply list_elem_of_singleton in Hin as ->. by eexists; vm_compute.
  - lia.
Qed.

Lemma demo_pw_inv m : party_inv (demo_pw m).
Proof.
  split; [apply demo_party_ok|]. intros ch c s H Hs. unfold pa in H. cbn in H.
  map_cases H; injection Hs as <-; by eexists; vm_compute.
Qed.

Lemma stack_msg_ok : body_ok (msg_body stack_msg).
Proof. apply (bool_decide_unpack _). vm_compute. exact I. Qed.

Lemma party_handlers_safe_witness :
  match ServerHandler_read stack_msg stack_body 3 2 1%nat true (demo_pw (demo_body [67; 0])) with
  | Ok _ w' => party_inv w' ∧ is_Some (pview w' 1%nat)
  | Throws _ _ => False
  | Undef u => input_ub u
  end.
Proof.
  refine (proj1 (party_handlers_safe stack_msg stack_body eq_refl 1%nat (demo_pw (demo_body [67; 0]))
    (demo_pw_inv _) _) 3 2 true).
  by eexists; vm_compute.
Defined.

(** The text "hi" for party 0. *)
Definition hi_msg : Msg := demo_body [0; 0; 0; 0; 104; 105; 0].

Lemma party_message_broadcast_witness :
  ∃ m, party_nfMessage stack_msg stack_body 1%nat (demo_pw hi_msg) =
      (forM_ [1%nat; 2%nat] (λ s, asyncSend s m) ;; mret true) (demo_pw hi_msg) ∧
    string_at 4 (msg_body m) = Val [104; 105] ∧ u32_at 0 (msg_body m) = 2863311530.
Proof.
  destruct (party_message_broadcast stack_msg stack_body stack_msg_ok eq_refl 1%nat hi_msg 0%nat demo_room
    [104; 105] (demo_pw hi_msg)) as (m & ss & Hss & Hr & Ht & Hp & _).
  - intros s m w w'. cbn. unfold obj_set, fmodify, modify. by intros [= <-].
  - apply demo_party_ok.
  - vm_compute. reflexivity.
  - vm_compute. reflexivity.
  - vm_compute. reflexivity.
  - vm_compute. reflexivity.
  - apply Nat.ltb_lt. vm_compute. reflexivity.
  - assert (ss = [1%nat; 2%nat]) as ->.
    { change (Room_members demo_room) with [0%nat; 1%nat] in Hss. inversion Hss as [|? ? ? ? H1 Hss']; subst.
      inversion Hss' as [|? ? ? ? H2 Hn]; subst. inversion Hn; subst. vm_compute in H1, H2. congruence. }
    exists m. split; [exact Hr|]. split; [exact Ht|]. etransitivity; [exact Hp|]. vm_compute. reflexivity.
Defined.

Lemma login_first_wins_witness :
  ∃ w', login stack_msg 1%nat (demo_pw (demo_body [66; 0])) = Ok true w' ∧
    pa w' = pa (demo_pw (demo_body [66; 0])) ∧
    pv_id <$> pview w' 1%nat = Some [66].
Proof.
  destruct (login_first_wins stack_msg 1%nat (mkPartyView (demo_body [66; 0]) [65] [] true) [66]
    (demo_pw (demo_body [66; 0]))) as (w' & Hr & Hp & _ & Hg).
  - vm_compute. reflexivity.
  - vm_compute. reflexivity.
  - exists w'. split; [exact Hr|]. split; [exact Hg|]. rewrite Hp. reflexivity.
Defined.

Lemma createParty_spec_witness :
  ∃ w' q room m, createParty stack_msg stack_body 1%nat (demo_pw (demo_body [65; 0])) = Ok true w' ∧
    u32_at 0 (msg_body m) = 1 ∧ rooms (pa w') !! q = Some room ∧ Room_members room = [0%nat].
Proof.
  destruct (createParty_spec stack_msg stack_body stack_msg_ok eq_refl 1%nat
    (mkPartyView (demo_body [65; 0]) [65] [] true) [65] 0%nat (demo_pw (demo_body [65; 0])))
    as (w' & q & room & m & Hr & _ & _ & _ & Hid & _ & _ & _ & Hrooms & Hmem & _).
  - apply demo_pw_inv.
  - vm_compute. reflexivity.
  - vm_compute. reflexivity.
  - vm_compute. reflexivity.
  - vm_compute. reflexivity.
  - intros r Hok Hnil. cbn. unfold setCharacter.
    destruct (room_ok_inv r Hok) as (rest & Er & _). change (Room_members r) with (room_members r) in Hnil.
    rewrite Hnil in Er. by rewrite Er.
  - exists w', q, room, m. split; [exact Hr|]. split; [exact Hid|].
    split; [by rewrite Hrooms, lookup_insert_eq|exact Hmem].
Defined.

Lemma nfEco_spec_witness :
  ∃ w' m, nfEco stack_msg stack_body 1%nat 3 (demo_pw (demo_body [7; 8; 9])) = Ok true w' ∧
    take 3 (msg_body m) = [7; 8; 9] ∧ sv_tx (pa w') = 11.
Proof.
  destruct (nfEco_spec stack_msg stack_body stack_msg_ok eq_refl 1%nat
    (mkPartyView (demo_body [7; 8; 9]) [65] [] true) 3 (demo_pw (demo_body [7; 8; 9]))) as [Heco _].
  - vm_compute. reflexivity.
  - apply (bool_decide_unpack _). vm_compute. exact I.
  - apply (bool_decide_unpack _). vm_compute. exact I.
  - reflexivity.
  - destruct Heco as (w' & m & Hr & _ & _ & _ & Ht & Htx); [vm_compute; split; congruence|].
    exists w', m. split; [exact Hr|]. split; [exact Ht|exact Htx].
Defined.

Lemma disconnect_spec_witness :
  ∃ w', ServerHandler_error Error_eof 1%nat true (demo_pw stack_msg) = Ok true w' ∧
    g_characters (pa w') !! [65] = None ∧ rooms (pa w') !! 0%nat = Some demo_room ∧
    pv_open <$> pview w' 1%nat = Some false.
Proof.
  destruct (disconnect_spec Error_eof 1%nat (mkPartyView stack_msg [65] [] true) 0%nat
    (mkCharacter [65] [65] (Some 1%nat) None) (demo_pw stack_msg))
    as (w' & Hr & Hp & _ & Hg & _ & Hrooms & _).
  - reflexivity.
  - vm_compute. reflexivity.
  - discriminate.
  - vm_compute. reflexivity.
  - vm_compute. reflexivity.
  - reflexivity.
  - reflexivity.
  - exists w'. split; [exact Hr|]. rewrite Hg, Hrooms, Hp.
    split; [by rewrite lookup_delete_eq|]. split; [vm_compute; reflexivity|reflexivity].
Defined.

Lemma leave_drops_last_witness :
  room_members (leave 0%nat demo_room) = [0%nat] ∧ (1%nat ∉ room_members (leave 0%nat demo_room)).
Proof.
  destruct (leave_drops_last 0%nat demo_room) as (_ & Hm & Hl).
  - by apply (room_ok_intro [0%nat; 1%nat] (replicate 6 None) 0).
  - apply (bool_decide_unpack _). vm_compute. exact I.
  - left.
  - split; [exact Hm|]. exact (proj1 (Hl 1%nat eq_refl)).
Defined.
