(* ===== verification/LegacyClient.v ===== *)
(** * The client of the party server (client/Client.h, Client.cpp, Cli.cpp)

    The older client: its objects with their timers, the handler of what it
    receives and the nine commands.  It is written against the
    older session and the body structures of PartyServer.v, which are
    parameters here as there; [ClientProtocol] adds the layouts only the client
    uses and [ClientSessions] the methods only it calls.  [cbMonitor]'s
    floating-point statistics are logged only and left out, and so is the
    floating-point product in [CmdStart], whose result is a parameter. *)
From S2P Require Import Prelude Msg Session Programs PartyServer.

(** ** What the repository does not declare *)

Definition apart (f g : field) : Prop := (fd_end f ≤ fd_off g ∨ fd_end g ≤ fd_off f)%nat.

Class ClientProtocol `{!PartyProtocol} := {
  rq_CrteUser_size : nat; rq_CrteUser_id : field; rq_CrteUser_passwd : field;
  rq_Login_size : nat; rq_Login_passwd : field;
  rq_CrteParty_size : nat;
  rq_JoinUser_size : nat;
  cp_CrteUser : (0 < rq_CrteUser_size ≤ 1024)%nat ∧
    (fd_end rq_CrteUser_id ≤ rq_CrteUser_size)%nat ∧ (fd_end rq_CrteUser_passwd ≤ rq_CrteUser_size)%nat ∧
    apart rq_CrteUser_id rq_CrteUser_passwd;
  cp_Login : (0 < rq_Login_size ≤ 1024)%nat ∧
    (fd_end rq_Login_id ≤ rq_Login_size)%nat ∧ (fd_end rq_Login_passwd ≤ rq_Login_size)%nat ∧
    apart rq_Login_id rq_Login_passwd;
  cp_CrteParty : (0 < rq_CrteParty_size ≤ 1024)%nat ∧ (fd_end rq_CrteParty_id ≤ rq_CrteParty_size)%nat;
  cp_JoinUser : (0 < rq_JoinUser_size ≤ 1024)%nat ∧
    (fd_end rq_JoinUser_fromId ≤ rq_JoinUser_size)%nat ∧ (fd_end rq_JoinUser_toId ≤ rq_JoinUser_size)%nat ∧
    (rq_JoinUser_partyId + 4 ≤ rq_JoinUser_size)%nat ∧
    apart rq_JoinUser_fromId rq_JoinUser_toId ∧
    apart rq_JoinUser_fromId (mkField rq_JoinUser_partyId 4) ∧
    apart rq_JoinUser_toId (mkField rq_JoinUser_partyId 4)
}.

(** [new TcpSession(m_ios, ep, handler)], the other methods, and the session's
    timer: [msgTmr_start] stands for cancelling it, setting it one second
    ahead and waiting for it with [cbDeadline]. *)
Class ClientSessions (W : Type) := {
  TcpSession_new : string → M W ptr;
  asyncSend_next : ptr → M W unit;               (* asyncSend() *)
  asyncConnect : ptr → M W unit;
  asyncRead : ptr → M W unit;
  sess_setOwner : ptr → ptr → M W unit;          (* setOwner(const VoidPtr&) *)
  sess_tx : ptr → M W Z;
  sess_rx : ptr → M W Z;
  msgTmr_expired : ptr → M W bool;
  msgTmr_start : ptr → M W unit
}.

(** What the client relies on: [asyncSend()] sends one message on the session. *)
Class ClientSessionsLaws (W H : Type) `{!PartySessions W, !ClientSessions W, !Field W H,
    !PartySessionsLaws W H} := {
  asyncSend_next_law p v w : pview w p = Some v →
    ∃ m h, asyncSend_next p w = Ok tt (fset h w) ∧ pview (fset h w) p = Some (pv_send m v) ∧
      ∀ q, q ≠ p → pview (fset h w) q = pview w q
}.

(** ** State *)

(** A wait on a [deadline_timer], with the argument its handler was bound to and
    whether it has been cancelled. *)
Record wait := mkWait { wt_count : Z; wt_cancelled : bool }.

Record Client := mkClient {
  m_session : ptr;
  m_id : list Z;
  m_partyId : Z;                 (* uint32_t *)
  m_tx : Z;                      (* long *)
  m_rx : Z;
  m_seq : Z;                     (* int *)
  m_bTx : bool;
  m_txTmr : list wait;
  m_monitorTmr : nat;            (* waits outstanding *)
  m_ios_stopped : bool
}.

Section Setters.
Implicit Types c : Client.
Definition set_partyId x c := mkClient (m_session c) (m_id c) x (m_tx c) (m_rx c) (m_seq c)
  (m_bTx c) (m_txTmr c) (m_monitorTmr c) (m_ios_stopped c).
Definition set_stats x y c := mkClient (m_session c) (m_id c) (m_partyId c) x y (m_seq c)
  (m_bTx c) (m_txTmr c) (m_monitorTmr c) (m_ios_stopped c).
Definition set_bTx x c := mkClient (m_session c) (m_id c) (m_partyId c) (m_tx c) (m_rx c) (m_seq c)
  x (m_txTmr c) (m_monitorTmr c) (m_ios_stopped c).
Definition set_txTmr f c := mkClient (m_session c) (m_id c) (m_partyId c) (m_tx c) (m_rx c) (m_seq c)
  (m_bTx c) (f (m_txTmr c)) (m_monitorTmr c) (m_ios_stopped c).
Definition set_monitorTmr x c := mkClient (m_session c) (m_id c) (m_partyId c) (m_tx c) (m_rx c) (m_seq c)
  (m_bTx c) (m_txTmr c) x (m_ios_stopped c).
Definition set_ios_stopped x c := mkClient (m_session c) (m_id c) (m_partyId c) (m_tx c) (m_rx c) (m_seq c)
  (m_bTx c) (m_txTmr c) (m_monitorTmr c) x.
End Setters.

(** The globals, with the objects. *)
Record client_globals := mkGlobals {
  g_clients : gmap ptr Client;
  g_clientVec : list ptr;
  g_txSize : Z;                  (* int *)
  g_bTerm : bool
}.
Definition set_clients f g := mkGlobals (f (g_clients g)) (g_clientVec g) (g_txSize g) (g_bTerm g).
Definition set_clientVec f g := mkGlobals (g_clients g) (f (g_clientVec g)) (g_txSize g) (g_bTerm g).
Definition set_txSize x g := mkGlobals (g_clients g) (g_clientVec g) x (g_bTerm g).
Definition set_bTerm x g := mkGlobals (g_clients g) (g_clientVec g) (g_txSize g) x.

(** ** Texts *)

(** [sprintf(dst, format)] with no argument: [%%] writes one percent sign, any
    other conversion lacks its argument. *)
Fixpoint expand (format : list Z) : cres (list Z) :=
  match format with
  | [] => Val []
  | b :: format =>
      if b =? 37 then
        match format with
        | b' :: format => if b' =? 37 then l ← expand format; Val (37 :: l) else Bad UB_format
        | [] => Bad UB_format
        end
      else l ← expand format; Val (b :: l)
  end.

(** [memset(s.f, c, n)] with [n] converted to [size_t]. *)
Definition memset (f : field) (c n : Z) (s : list Z) : cres (list Z) :=
  if size_t n <=? Z.of_nat (fd_len f)
  then Val (splice (fd_off f) (replicate (Z.to_nat (size_t n)) c) s)
  else Bad UB_buffer_overflow.

(** The literal ["test"]. *)
Definition test_passwd : list Z := [116; 101; 115; 116].

(** ** Operations *)

Section Operations.
Context {W : Type} `{PP : !PartyProtocol} `{CP : !ClientProtocol} `{PS : !PartySessions W} `{CS : !ClientSessions W}.
Context `{FG : !Field W client_globals}.
Context (uninit : Msg) (uninit_body : list Z).

Definition globals : M W client_globals := fread.
Definition set_globals (f : client_globals → client_globals) : M W unit := fmodify f.

(** Dereference of a [ClientPtr], and an assignment to a client's members. *)
Definition get_client (p : ptr) : M W Client :=
  g ← globals;
  match g_clients g !! p with Some c => mret c | None => undef UB_dangling end.
Definition set_client (p : ptr) (f : Client → Client) : M W unit :=
  set_globals (set_clients (alter f p)).

(** [Client(const string& host, const string& id)]; the object. *)
Definition Client_new (host : string) (id : list Z) : M W ptr :=
  s ← TcpSession_new host;
  g ← globals;
  let p := fresh (dom (g_clients g)) in
  set_globals (set_clients <[p := mkClient s id 0 0 0 0 false [] 0 false]>) ;;
  mret p.

(** [void stop()] *)
Definition Client_stop (p : ptr) : M W unit := set_client p (set_ios_stopped true).

(** [void write(Msg&)] *)
Definition write (p : ptr) (msg : Msg) : M W unit :=
  c ← get_client p;
  asyncSend (m_session c) msg.

(** An encoded structure, written. *)
Definition write_struct (p : ptr) (id : Z) (s : list Z) (n : Z) : M W unit :=
  m ← lift (encode id NONE_CODE (Some s) n uninit);
  write p m.

(** [void cbDeadline()] *)
Definition cbDeadline (p : ptr) : M W unit :=
  c ← get_client p;
  expired ← msgTmr_expired (m_session c);
  if (expired : bool) then
    let cpMsg := put_u32 nf_Message_partyId 1 (take nf_Message_size uninit_body) in
    cpMsg ← lift (memset nf_Message_msg 171 64 cpMsg);
    write_struct p nf_Message cpMsg (Z.of_nat nf_Message_size) ;;
    msgTmr_start (m_session c)
  else mret tt.

(** [void startTmr()] *)
Definition startTmr (p : ptr) : M W unit :=
  c ← get_client p;
  msgTmr_start (m_session c).

(** [void startMonitor()]: setting the timer cancels the waits there are, whose
    handlers then return at once. *)
Definition startMonitor (p : ptr) : M W unit := set_client p (set_monitorTmr 1).

(** [void cbMonitor(const error_code&)] *)
Definition cbMonitor (p : ptr) (e : error_code) : M W unit :=
  if is_error e then mret tt
  else
    c ← get_client p;
    tx ← sess_tx (m_session c);
    rx ← sess_rx (m_session c);
    set_client p (set_stats tx rx) ;;
    set_client p (set_monitorTmr 1).

(** [m_txTmr.expires_from_now(...)] or [cancel()]; then [async_wait]. *)
Definition cancel_waits : list wait → list wait := fmap (λ t, mkWait (wt_count t) true).
Definition arm_txTmr (p : ptr) (count : Z) : M W unit :=
  set_client p (set_txTmr (λ l, cancel_waits l ++ [mkWait count false])).

(** [n] times [m_session->asyncSend()] *)
Fixpoint send_times (n : nat) (session : ptr) : M W unit :=
  match n with O => mret tt | S n => asyncSend_next session ;; send_times n session end.

(** [void cbTx(const error_code&, int count)] *)
Definition cbTx (p : ptr) (e : error_code) (count : Z) : M W unit :=
  if is_error e then mret tt
  else
    c ← get_client p;
    if m_bTx c then
      send_times (Z.to_nat count) (m_session c) ;;
      arm_txTmr p count
    else mret tt.

(** The oldest wait of the timer completes. *)
Definition complete_txTmr (p : ptr) : M W unit :=
  c ← get_client p;
  match m_txTmr c with
  | [] => mret tt
  | t :: rest =>
      set_client p (set_txTmr (λ _, rest)) ;;
      cbTx p (if wt_cancelled t then Error_operation_aborted else Success) (wt_count t)
  end.

(** [void startTx(int&)], [void stopTx()] *)
Definition startTx (p : ptr) (count : Z) : M W unit :=
  set_client p (set_bTx true) ;;
  arm_txTmr p count.
Definition stopTx (p : ptr) : M W unit :=
  set_client p (set_bTx false) ;;
  set_client p (set_txTmr cancel_waits).

(** [void startRx()], up to [m_ios.run()]. *)
Definition startRx (p : ptr) : M W unit :=
  startMonitor p ;;
  c ← get_client p;
  asyncConnect (m_session c).

(** What is left of it when [m_ios.run()] has returned. *)
Definition startRx_rest (p : ptr) : M W unit :=
  c ← get_client p;
  asyncRead (m_session c).

(** ** ClientHandler

    [owner]: the client, [None] when it has expired. *)

(** [bool ClientHandler::read(uint32_t&, int16_t&, VoidPtr, VoidWeakPtr)] *)
Definition ClientHandler_read (msgId : Z) (sess : ptr) (owner : option ptr) : M W bool :=
  match owner with
  | None => mret false
  | Some client =>
      (if msgId =? rs_CrteParty then
         m ← sess_msg sess;
         set_client client (set_partyId (u32_at rs_CrteParty_partyId (msg_body m)))
       else if msgId =? rq_ReqJoin then
         m ← sess_msg sess;
         set_client client (set_partyId (u32_at rq_ReqJoin_partyId (msg_body m)))
       else mret tt) ;;
      mret true
  end.

(** [bool ClientHandler::connect(VoidPtr, VoidWeakPtr)] *)
Definition ClientHandler_connect (sess : ptr) (owner : option ptr) : M W bool :=
  match owner with
  | None => mret false
  | Some _ => asyncRead sess ;; mret true
  end.

(** [bool ClientHandler::error(const error_code&, VoidPtr, VoidWeakPtr)] *)
Definition ClientHandler_error (owner : option ptr) : M W bool :=
  match owner with
  | None => mret false
  | Some _ => set_globals (set_bTerm true) ;; mret true
  end.
End Operations.

(** ** The commands *)

Inductive command :=
  | CmdCreateUser | CmdCreateParty | CmdRequestJoin | CmdLogin | CmdStartTmr
  | CmdSendPkt | CmdSendEco | CmdStart | CmdStop.

(** The table [main] registers. *)
Definition commands : gmap string command :=
  {["create_user" := CmdCreateUser; "create_party" := CmdCreateParty;
    "request_join" := CmdRequestJoin; "login" := CmdLogin; "start_tmr" := CmdStartTmr;
    "send_pkt" := CmdSendPkt; "send_eco" := CmdSendEco; "start" := CmdStart; "stop" := CmdStop]}%string.

Section Commands.
Context {W : Type} `{PP : !PartyProtocol} `{CP : !ClientProtocol} `{PS : !PartySessions W} `{CS : !ClientSessions W}.
Context `{FG : !Field W client_globals}.
Context (uninit : Msg) (uninit_body : list Z).

(** [g_clientVec[MASTER_CLIENT]], which is not checked to exist. *)
Definition master : M W ptr :=
  g ← globals;
  match g_clientVec g with p :: _ => mret p | [] => undef UB_out_of_range end.

(** The body of the loop of [CmdCreateUser::handle]: the id is used as a format
    string. *)
Definition CmdCreateUser_body (p : ptr) : M W unit :=
  c ← get_client p;
  text ← lift (expand (m_id c));
  cpMsg ← lift (put_string rq_CrteUser_id text (take rq_CrteUser_size uninit_body));
  cpMsg ← lift (put_string rq_CrteUser_passwd test_passwd cpMsg);
  write_struct uninit p rq_CrteUser cpMsg (Z.of_nat rq_CrteUser_size).

(** [bool CmdCreateUser::handle(string&, SplitVector&)] *)
Definition CmdCreateUser_handle : M W bool :=
  g ← globals;
  forM_ (g_clientVec g) CmdCreateUser_body ;;
  mret true.

(** [bool CmdCreateParty::handle(string&, SplitVector&)] *)
Definition CmdCreateParty_handle : M W bool :=
  p ← master;
  c ← get_client p;
  cpMsg ← lift (put_string rq_CrteParty_id (m_id c) (take rq_CrteParty_size uninit_body));
  write_struct uninit p rq_CrteParty cpMsg (Z.of_nat rq_CrteParty_size) ;;
  mret true.

(** The body of the loop of [CmdRequestJoin::handle], for the master [mp]. *)
Definition CmdRequestJoin_body (mp : ptr) (p : ptr) : M W unit :=
  m ← get_client mp;
  c ← get_client p;
  cpMsg ← lift (put_string rq_JoinUser_fromId (m_id m) (take rq_JoinUser_size uninit_body));
  cpMsg ← lift (put_string rq_JoinUser_toId (m_id c) cpMsg);
  let cpMsg := put_u32 rq_JoinUser_partyId (m_partyId m) cpMsg in
  write_struct uninit p rq_JoinUser cpMsg (Z.of_nat rq_JoinUser_size).

(** [bool CmdRequestJoin::handle(string&, SplitVector&)] *)
Definition CmdRequestJoin_handle : M W bool :=
  mp ← master;
  g ← globals;
  forM_ (drop 1 (g_clientVec g)) (CmdRequestJoin_body mp) ;;
  mret true.

(** The body of the loop of [CmdLogin::handle]. *)
Definition CmdLogin_body (p : ptr) : M W unit :=
  c ← get_client p;
  cpMsg ← lift (put_string rq_Login_id (m_id c) (take rq_Login_size uninit_body));
  cpMsg ← lift (put_string rq_Login_passwd test_passwd cpMsg);
  write_struct uninit p rq_Login cpMsg (Z.of_nat rq_Login_size).

(** [bool CmdLogin::handle(string&, SplitVector&)] *)
Definition CmdLogin_handle : M W bool :=
  g ← globals;
  forM_ (g_clientVec g) CmdLogin_body ;;
  mret true.

(** [bool CmdStartTmr::handle(string&, SplitVector&)] *)
Definition CmdStartTmr_handle : M W bool :=
  p ← master;
  startTmr p ;;
  mret true.

(** [bool CmdSendPkt::handle(string&, SplitVector&)] for the line [cli]. *)
Definition CmdSendPkt_handle (cli : list Z) : M W bool :=
  p ← master;
  c ← get_client p;
  let cpMsg := put_u32 nf_Message_partyId (m_partyId c) (take nf_Message_size uninit_body) in
  cpMsg ← lift (put_string nf_Message_msg cli cpMsg);
  write_struct uninit p nf_Message cpMsg (Z.of_nat nf_Message_size) ;;
  mret true.

(** The body of the loop of [CmdSendEco::handle]. *)
Definition CmdSendEco_body (p : ptr) : M W unit :=
  g ← globals;
  cpMsg ← lift (memset NfEco_msg 171 (g_txSize g) (take NfEco_size uninit_body));
  write_struct uninit p ID_nf_Eco cpMsg (g_txSize g).

(** [bool CmdSendEco::handle(string&, SplitVector&)] *)
Definition CmdSendEco_handle (split : list (list Z)) : M W bool :=
  text ← lift (match split !! 1%nat with Some t => Val t | None => Bad UB_out_of_range end);
  n ← lift (atoi text);
  set_globals (set_txSize n) ;;
  g ← globals;
  forM_ (g_clientVec g) CmdSendEco_body ;;
  mret true.

(** [bool CmdStart::handle(string&, SplitVector&)]; [count]: the packets per
    ten milliseconds that the bandwidth of the line comes to. *)
Definition CmdStart_handle (split : list (list Z)) (count : Z) : M W bool :=
  _ ← lift (match split !! 1%nat with Some t => Val t | None => Bad UB_out_of_range end);
  g ← globals;
  forM_ (g_clientVec g) (λ p, startTx p count) ;;
  mret true.

(** [bool CmdStop::handle(string&, SplitVector&)] *)
Definition CmdStop_handle : M W bool :=
  g ← globals;
  forM_ (g_clientVec g) stopTx ;;
  mret true.

Definition handle (c : command) (cli : list Z) (split : list (list Z)) (count : Z) : M W bool :=
  match c with
  | CmdCreateUser => CmdCreateUser_handle
  | CmdCreateParty => CmdCreateParty_handle
  | CmdRequestJoin => CmdRequestJoin_handle
  | CmdLogin => CmdLogin_handle
  | CmdStartTmr => CmdStartTmr_handle
  | CmdSendPkt => CmdSendPkt_handle cli
  | CmdSendEco => CmdSendEco_handle split
  | CmdStart => CmdStart_handle split count
  | CmdStop => CmdStop_handle
  end.

End Commands.
