(* ===== verification/LegacyProps.v ===== *)
(** * Properties of the party client

    What its commands send is what the party server reads: the names and the
    party id survive the trip through the structures of both programs.  The
    echo command and the periodic transmission. *)
From S2P Require Import Prelude Msg Session IfSession Programs PartyServer PartyInv PartyProps LegacyClient.

(** ** Lemmas: bytes of a structure *)

(** [bs] stands at offset [off] of [s]. *)
Definition bytes_at (off : nat) (bs s : list Z) : Prop := take (length bs) (drop off s) = bs.

Lemma bytes_at_splice off bs s : (off + length bs ≤ length s)%nat → bytes_at off bs (splice off bs s).
Proof.
  intros Hl. unfold bytes_at, splice. rewrite drop_app_length' by (rewrite length_take; lia).
  by rewrite take_app_length.
Qed.

Lemma bytes_at_other off bs off2 bs2 s :
  bytes_at off bs s → (off2 + length bs2 ≤ length s)%nat →
  (off + length bs ≤ off2 ∨ off2 + length bs2 ≤ off)%nat → bytes_at off bs (splice off2 bs2 s).
Proof.
  unfold bytes_at. intros Hb Hl Ho. rewrite <- Hb at 2. apply take_drop_ext. intros i Hi.
  apply lookup_splice_outside; [done|lia].
Qed.

Lemma bytes_at_app off bs s rest :
  (off + length bs ≤ length s)%nat → bytes_at off bs s → bytes_at off bs (s ++ rest).
Proof.
  unfold bytes_at. intros Hl Hb. rewrite <- Hb at 2. apply take_drop_ext. intros i Hi.
  apply lookup_app_l. lia.
Qed.

Lemma string_at_bytes off t s : no_nul t → bytes_at off (t ++ [0]) s → string_at off s = Val t.
Proof.
  unfold bytes_at. intros Ht Hb. unfold string_at.
  rewrite <- (take_drop (length (t ++ [0])) (drop off s)), Hb, <- app_assoc. cbn [app].
  rewrite strlen_terminated by done. by rewrite take_app_length.
Qed.

Lemma u32_at_bytes off z s : bytes_at off (le_split 4 z) s → u32_at off s = u32 z.
Proof.
  unfold bytes_at, u32_at. rewrite length_le_split. intros ->. apply (le_combine_split 4).
Qed.

(** [put_string] in these terms. *)
Lemma put_string_at f text s :
  (length text < fd_len f)%nat → (fd_end f ≤ length s)%nat →
  ∃ s', put_string f text s = Val s' ∧ length s' = length s ∧
    bytes_at (fd_off f) (text ++ [0]) s' ∧
    ∀ off bs, bytes_at off bs s → (off + length bs ≤ fd_off f ∨ fd_end f ≤ off)%nat → bytes_at off bs s'.
Proof.
  intros Ht Hf. destruct (put_string_ok f text s Ht Hf) as (s' & Hs & Hl & ->).
  assert (Htl : length (text ++ [0]) = S (length text)) by (rewrite length_app; cbn; lia).
  unfold fd_end in *. eexists. split_and!; [done|done|apply bytes_at_splice; lia|].
  intros off bs Hb Ho. apply bytes_at_other; [done|lia|lia].
Qed.

(** ** Lemmas: running the client *)

Section Client.
Context {W H : Type} `{PP : !PartyProtocol} `{CP : !ClientProtocol} `{PS : !PartySessions W} `{CS : !ClientSessions W}.
Context `{FG : !Field W client_globals} `{FH : !Field W H} `{LAWS : !PartySessionsLaws W H}.
Context `{SEP : !Separate FG FH}.
Context (uninit : Msg) (uninit_body : list Z).
Context (uninit_ok : body_ok (msg_body uninit)) (uninit_body_ok : length uninit_body = 1024%nat).
Implicit Types (w : W) (p q : ptr) (v : party_view) (c : Client).

Definition gl w : client_globals := fget w.

Lemma gl_fset (g : client_globals) w : gl (fset g w) = g.
Proof. apply fget_fset. Qed.
Lemma gl_sessions (h : H) w : gl (fset h w) = gl w.
Proof. apply (fget_fset_sep (Separate := SEP)). Qed.
Lemma pview_globals (g : client_globals) w p : pview (fset g w) p = pview w p.
Proof. apply (pview_frame FG g w p SEP). Qed.

Lemma bind_lglobals {B} (k : client_globals → M W B) w : (globals ≫= k) w = k (gl w) w.
Proof. done. Qed.
Lemma bind_set_lglobals {B} f (k : unit → M W B) w :
  (set_globals f ≫= k) w = k tt (fset (f (gl w)) w).
Proof. done. Qed.
Lemma get_client_ok p c w : g_clients (gl w) !! p = Some c → get_client p w = Ok c w.
Proof. intros Hc. unfold get_client. rewrite bind_lglobals. by rewrite Hc. Qed.
Lemma bind_get_client {B} p c (k : Client → M W B) w :
  g_clients (gl w) !! p = Some c → (get_client p ≫= k) w = k c w.
Proof. intros. by eapply bind_ok, get_client_ok. Qed.

(** From here on [asyncSend] sends, where a message of a command is spoken of.
    (The transmission test uses the other [asyncSend()].) *)
Context `{AS : !AsyncSends W H}.

(** One session has been sent a message, and the client's state is the same. *)
Definition sent s m w w' : Prop :=
  gl w' = gl w ∧ ∀ q v, pview w q = Some v →
    pview w' q = Some (if decide (q = s) then pv_send m v else v).

Lemma write_ok p c v m w :
  g_clients (gl w) !! p = Some c → pview w (m_session c) = Some v →
  ∃ w', write p m w = Ok tt w' ∧ sent (m_session c) m w w'.
Proof.
  intros Hc Hv. unfold write. erewrite bind_get_client by exact Hc.
  destruct (asyncSend_law _ v m w Hv) as (h & Hr & Hp & Hq). rewrite sends_it in Hp.
  exists (fset h w). split; [done|]. split; [apply gl_sessions|].
  intros q v' Hq'. case_decide; simplify_eq; [done|]. by rewrite Hq.
Qed.

Lemma write_struct_ok p c v id st w :
  g_clients (gl w) !! p = Some c → pview w (m_session c) = Some v → (0 < length st ≤ 1024)%nat →
  ∃ w', write_struct uninit p id st (Z.of_nat (length st)) w = Ok tt w' ∧
    sent (m_session c) (structure uninit id NONE_CODE st) w w'.
Proof.
  intros Hc Hv Hl. unfold write_struct.
  rewrite (bind_lift _ _ _ _ (encode_structure uninit id NONE_CODE st uninit_ok Hl)). by apply (write_ok p c v).
Qed.

(** The clients [ps], with a session each. *)
Definition clients_ok (ps : list ptr) w : Prop :=
  NoDup ((λ p, m_session <$> g_clients (gl w) !! p) <$> ps) ∧
  ∀ p, p ∈ ps → ∃ c, g_clients (gl w) !! p = Some c ∧ is_Some (pview w (m_session c)).

(** A loop that sends one message per client. *)
Lemma send_loop (f : ptr → M W unit) (mk : Client → Msg) ps w :
  clients_ok ps w →
  (∀ p c v w', p ∈ ps → gl w' = gl w → g_clients (gl w) !! p = Some c → pview w' (m_session c) = Some v →
     ∃ w'', f p w' = Ok tt w'' ∧ sent (m_session c) (mk c) w' w'') →
  ∃ w', forM_ ps f w = Ok tt w' ∧ gl w' = gl w ∧
    ∀ p c v, p ∈ ps → g_clients (gl w) !! p = Some c → pview w (m_session c) = Some v →
      pview w' (m_session c) = Some (pv_send (mk c) v).
Proof.
  intros Hok Hf.
  cut (∀ ps1 w1, clients_ok ps1 w1 → gl w1 = gl w → (∀ p, p ∈ ps1 → p ∈ ps) →
    ∃ w', forM_ ps1 f w1 = Ok tt w' ∧ gl w' = gl w ∧
      (∀ p c v, p ∈ ps1 → g_clients (gl w) !! p = Some c → pview w1 (m_session c) = Some v →
        pview w' (m_session c) = Some (pv_send (mk c) v)) ∧
      (∀ q v, pview w1 q = Some v → (∀ p c, p ∈ ps1 → g_clients (gl w) !! p = Some c → m_session c ≠ q) →
        pview w' q = Some v)).
  { intros Hcut. destruct (Hcut ps w Hok eq_refl ltac:(done)) as (w' & Hr & Hg & Hs & _). by exists w'. }
  intros ps1. induction ps1 as [|p ps1 IH]; intros w1 [Hnd Hex] Hg Hin; cbn [forM_].
  { exists w1. split_and!; try done. intros p c v Hp. by apply not_elem_of_nil in Hp. }
  rewrite fmap_cons in Hnd. apply NoDup_cons in Hnd as [Hnin Hnd].
  destruct (Hex p) as (c & Hc & v & Hv); [by left|].
  destruct (Hf p c v w1) as (w2 & Hr & Hg2 & Hs2); [by apply Hin; left|done|by rewrite <- Hg|done|].
  assert (Hne : ∀ p' c', p' ∈ ps1 → g_clients (gl w) !! p' = Some c' → m_session c' ≠ m_session c).
  { intros p' c' Hp' Hc' Heq. apply Hnin. apply list_elem_of_fmap. exists p'. split; [|done].
    rewrite Hg, Hc' in *. rewrite Hc. cbn. by rewrite Heq. }
  destruct (IH w2) as (w' & Hr' & Hg' & Hs' & Ho').
  { split; [by rewrite Hg2|]. intros p' Hp'. rewrite Hg2.
    destruct (Hex p') as (c' & Hc' & v' & Hv'); [by right|]. exists c'. split; [done|].
    rewrite (Hs2 _ _ Hv'). by eexists. }
  { by rewrite Hg2. }
  { intros p' Hp'. apply Hin. by right. }
  exists w'. rewrite (bind_ok _ _ _ _ _ Hr). split_and!; [done|done| |].
  - intros p' c' v' [->|Hp']%elem_of_cons Hc' Hv'.
    + rewrite Hg in Hc. simplify_eq. apply Ho'; [by rewrite (Hs2 _ _ Hv), decide_True|].
      intros p' c'' Hp' Hc''. by eapply Hne.
    + apply (Hs' p'); [done..|]. rewrite (Hs2 _ _ Hv'), decide_False; [done|]. by eapply Hne.
  - intros q vq Hq Hno. rewrite Hg in Hc. apply Ho'.
    + rewrite (Hs2 _ _ Hq), decide_False; [done|]. intros ->. by apply (Hno p c); [left|..].
    + intros p' c' Hp'. apply Hno. by right.
Qed.

(** ** The messages of the commands *)

(** A message whose body begins with a structure that has [bs] at [off]. *)
Lemma structure_at id r off bs st :
  (off + length bs ≤ length st)%nat → bytes_at off bs st →
  bytes_at off bs (msg_body (structure uninit id r st)).
Proof. intros. by apply bytes_at_app. Qed.

(** What the server reads of a request to join. *)
Definition joins (fromId toId : list Z) (partyId : Z) (m : Msg) : Prop :=
  hdr_msgId (msg_hdr m) = u32 rq_JoinUser ∧ bodyLength m = Z.of_nat rq_JoinUser_size ∧
  string_at (fd_off rq_JoinUser_fromId) (msg_body m) = Val fromId ∧
  string_at (fd_off rq_JoinUser_toId) (msg_body m) = Val toId ∧
  u32_at rq_JoinUser_partyId (msg_body m) = u32 partyId.

Lemma join_struct fromId toId partyId :
  no_nul fromId → no_nul toId →
  (length fromId < fd_len rq_JoinUser_fromId)%nat → (length toId < fd_len rq_JoinUser_toId)%nat →
  ∃ s1 s2, put_string rq_JoinUser_fromId fromId (take rq_JoinUser_size uninit_body) = Val s1 ∧
    put_string rq_JoinUser_toId toId s1 = Val s2 ∧
    let st := put_u32 rq_JoinUser_partyId partyId s2 in
    length st = rq_JoinUser_size ∧
    joins fromId toId partyId (structure uninit rq_JoinUser NONE_CODE st).
Proof.
  intros Hf Ht Hfl Htl. destruct cp_JoinUser as (Hsz & Hfe & Hte & Hpe & Hft & Hfp & Htp).
  unfold apart, fd_end in *. cbn [fd_off fd_len] in *.
  assert (Hu : length (take rq_JoinUser_size uninit_body) = rq_JoinUser_size) by (rewrite length_take; lia).
  destruct (put_string_at rq_JoinUser_fromId fromId (take rq_JoinUser_size uninit_body))
    as (s1 & H1 & Hl1 & Hb1 & _); [done|unfold fd_end; lia|].
  destruct (put_string_at rq_JoinUser_toId toId s1) as (s2 & H2 & Hl2 & Hb2 & Hk2);
    [done|unfold fd_end; lia|].
  exists s1, s2. split; [done|]. split; [done|]. set (st := put_u32 _ _ _).
  assert (Hlst : length st = rq_JoinUser_size).
  { unfold st. rewrite length_put_u32; lia. }
  assert (Hn : ∀ t : list Z, length (t ++ [0]) = S (length t)) by (intros; rewrite length_app; cbn; lia).
  split; [done|]. split_and!; [done|unfold bodyLength; cbn; by rewrite Hlst| | |].
  - apply string_at_bytes; [done|]. apply structure_at; [rewrite Hn; lia|].
    apply bytes_at_other; [|rewrite length_le_split; lia|rewrite Hn, length_le_split; lia].
    apply Hk2; [done|]. unfold fd_end. rewrite Hn. lia.
  - apply string_at_bytes; [done|]. apply structure_at; [rewrite Hn; lia|].
    apply bytes_at_other; [done|rewrite length_le_split; lia|rewrite Hn, length_le_split; lia].
  - apply u32_at_bytes, structure_at; [rewrite length_le_split; lia|].
    apply bytes_at_splice. rewrite length_le_split. lia.
Qed.

(** The names of the clients fit a structure's array. *)
Definition names_fit (f : field) (ps : list ptr) w : Prop :=
  ∀ p c, p ∈ ps → g_clients (gl w) !! p = Some c → no_nul (m_id c) ∧ (length (m_id c) < fd_len f)%nat.

(** C25: a request to join reads on the server as it was meant on the client.
    For the first client and any number of others, with sessions of their own
    and names that fit, the command sends one message on each other client's
    session, and the three members the server's handler takes from it are the
    first client's name, the other client's name and the first client's party
    id; nothing of the client changes.  (For an [asyncSend(Msg&)] that sends what
    it is given, as the command means it: [AsyncSends].) *)
Theorem request_join_decodes mp ps mc w :
  g_clientVec (gl w) = mp :: ps → g_clients (gl w) !! mp = Some mc → clients_ok ps w →
  names_fit rq_JoinUser_fromId [mp] w → names_fit rq_JoinUser_toId ps w →
  ∃ w', CmdRequestJoin_handle uninit uninit_body w = Ok true w' ∧ gl w' = gl w ∧
    ∀ p c v, p ∈ ps → g_clients (gl w) !! p = Some c → pview w (m_session c) = Some v →
      ∃ m, pview w' (m_session c) = Some (pv_send m v) ∧ joins (m_id mc) (m_id c) (m_partyId mc) m.
Proof.
  intros Hvec Hmc Hok Hfrom Hto. destruct (Hfrom mp mc ltac:(by left) Hmc) as [Hmn Hml].
  destruct cp_JoinUser as (Hsz & _).
  set (st := λ c, match put_string rq_JoinUser_fromId (m_id mc) (take rq_JoinUser_size uninit_body) with
    | Val s1 => match put_string rq_JoinUser_toId (m_id c) s1 with
                | Val s2 => put_u32 rq_JoinUser_partyId (m_partyId mc) s2 | Bad _ => [] end
    | Bad _ => [] end).
  destruct (send_loop (CmdRequestJoin_body uninit uninit_body mp)
    (λ c, structure uninit rq_JoinUser NONE_CODE (st c)) ps w Hok) as (w' & Hr & Hg & Hs).
  - intros p c v w1 Hp Hg Hc Hv. destruct (Hto p c Hp Hc) as [Hn Hl].
    destruct (join_struct (m_id mc) (m_id c) (m_partyId mc)) as (s1 & s2 & H1 & H2 & Hlen & _); try done.
    assert (Hst : st c = put_u32 rq_JoinUser_partyId (m_partyId mc) s2) by (unfold st; by rewrite H1, H2).
    unfold CmdRequestJoin_body. rewrite (bind_get_client mp mc) by by rewrite Hg.
    rewrite (bind_get_client p c) by by rewrite Hg.
    rewrite (bind_lift _ _ _ _ H1), (bind_lift _ _ _ _ H2), Hst, <- Hlen.
    apply (write_struct_ok p c v); [by rewrite Hg|done|lia].
  - exists w'. split_and!; [|done|].
    + unfold CmdRequestJoin_handle, master. rewrite bind_assoc, bind_lglobals, Hvec, bind_ret, bind_lglobals, Hvec.
      cbn [drop]. by rewrite (bind_ok _ _ _ _ _ Hr).
    + intros p c v Hp Hc Hv. destruct (Hto p c Hp Hc) as [Hn Hl]. eexists. split; [by apply (Hs p)|].
      destruct (join_struct (m_id mc) (m_id c) (m_partyId mc)) as (s1 & s2 & H1 & H2 & Hlen & Hj); try done.
      unfold st. by rewrite H1, H2.
Qed.

(** the party's id comes back.  The reply [createParty] makes for any id,
    received by the client's session up to the length of its structure, gives
    the client exactly that id as its party; so does the request to join that
    [joinUser] sends on, and every other message leaves the client as it is. *)
Theorem party_id_received p c sess v id st w :
  g_clients (gl w) !! p = Some c → pview w sess = Some v → in_u 32 id → rs_CrteParty ≠ rq_ReqJoin →
  let reads msgId := ClientHandler_read msgId sess (Some p) w in
  (take rs_CrteParty_size (msg_body (pv_msg v)) = rs_struct uninit_body id →
     reads rs_CrteParty = Ok true (fset (set_clients (alter (set_partyId id) p) (gl w)) w)) ∧
  (length st = rq_ReqJoin_size → take rq_ReqJoin_size (msg_body (pv_msg v)) = put_u32 rq_ReqJoin_partyId id st →
     reads rq_ReqJoin = Ok true (fset (set_clients (alter (set_partyId id) p) (gl w)) w)) ∧
  (∀ msgId, msgId ≠ rs_CrteParty → msgId ≠ rq_ReqJoin → reads msgId = Ok true w).
Proof.
  intros Hc Hv Hid Hne reads.
  assert (Hm : ∀ {B} (k : Msg → M W B), (sess_msg sess ≫= k) w = k (pv_msg v) w)
    by (intros; by eapply bind_ok, sess_msg_law).
  assert (Hu : ∀ n off s, (off + 4 ≤ n)%nat → length s = n → bytes_at off (le_split 4 id) s →
    take n (msg_body (pv_msg v)) = s → u32_at off (msg_body (pv_msg v)) = id).
  { intros n off s Hn Hl Hb Ht. rewrite <- (wrapU_id 32 id) by done. apply u32_at_bytes.
    rewrite <- (take_drop n (msg_body (pv_msg v))), Ht. apply bytes_at_app; [|done].
    rewrite length_le_split. lia. }
  destruct pp_sizes as (Hs1 & Hs2 & _). pose proof pp_rs_CrteParty as Ho1. destruct pp_rq_ReqJoin as (Ho2 & _).
  split_and!.
  - intros Ht. unfold reads, ClientHandler_read. rewrite Z.eqb_refl, bind_assoc, Hm.
    rewrite (Hu rs_CrteParty_size rs_CrteParty_partyId (rs_struct uninit_body id)); try done.
    + unfold rs_struct. rewrite length_put_u32; rewrite length_take; lia.
    + apply bytes_at_splice. rewrite length_le_split, length_take. lia.
  - intros Hst Ht. unfold reads, ClientHandler_read.
    destruct (Z.eqb_spec rq_ReqJoin rs_CrteParty); [congruence|]. rewrite Z.eqb_refl, bind_assoc, Hm.
    rewrite (Hu rq_ReqJoin_size rq_ReqJoin_partyId (put_u32 rq_ReqJoin_partyId id st)); try done.
    + by rewrite length_put_u32 by lia.
    + apply bytes_at_splice. rewrite length_le_split. lia.
  - intros msgId H1 H2. unfold reads, ClientHandler_read.
    destruct (Z.eqb_spec msgId rs_CrteParty); [done|]. by destruct (Z.eqb_spec msgId rq_ReqJoin).
Qed.

(** [memset] from the start of the echo structure. *)
Lemma memset_eco n s :
  in_s 32 n → fd_off NfEco_msg = 0%nat →
  memset NfEco_msg 171 n s =
    if bool_decide (0 <= n <= Z.of_nat (fd_len NfEco_msg))
    then Val (splice 0 (replicate (Z.to_nat n) 171) s) else Bad UB_buffer_overflow.
Proof.
  intros Hin Hoff. destruct pp_NfEco as [Hend Hsz]. unfold fd_end in Hend. rewrite Hoff in Hend.
  unfold in_s in Hin. cbn in Hin. unfold memset. rewrite Hoff. destruct (Z.ltb_spec n 0).
  - rewrite wrapU_neg by lia. rewrite bool_decide_eq_false_2 by lia. case_cmp; [lia|done].
  - rewrite wrapU_id by (unfold in_u; lia). case_bool_decide; case_cmp; lia || done.
Qed.

(** The structure and the message of the echo command. *)
Definition eco_struct (n : Z) : list Z := splice 0 (replicate (Z.to_nat n) 171) (take NfEco_size uninit_body).
Definition eco_msg (n : Z) : Msg := structure uninit ID_nf_Eco NONE_CODE (take (Z.to_nat n) (eco_struct n)).

Lemma eco_msg_ok n :
  fd_off NfEco_msg = 0%nat → 0 < n <= Z.of_nat (fd_len NfEco_msg) →
  encode ID_nf_Eco NONE_CODE (Some (eco_struct n)) n uninit = Val (eco_msg n) ∧
  hdr_msgId (msg_hdr (eco_msg n)) = u32 ID_nf_Eco ∧ bodyLength (eco_msg n) = n ∧
  take (Z.to_nat n) (msg_body (eco_msg n)) = replicate (Z.to_nat n) 171.
Proof.
  intros Hoff Hl. destruct pp_NfEco as [Hend Hsz]. unfold fd_end in Hend. rewrite Hoff in Hend.
  assert (Hlst : length (eco_struct n) = NfEco_size).
  { unfold eco_struct. rewrite length_splice; rewrite ?length_replicate, length_take; lia. }
  assert (Hpre : take (Z.to_nat n) (eco_struct n) = replicate (Z.to_nat n) 171).
  { unfold eco_struct, splice. rewrite take_0, app_nil_l. apply take_app_length'. by rewrite length_replicate. }
  split_and!; [apply encode_prefix; [done|rewrite Hlst; lia|lia]|done|..].
  - unfold bodyLength, eco_msg. cbn. rewrite Hpre, length_replicate. lia.
  - unfold eco_msg. cbn [structure msg_body]. rewrite Hpre. apply take_app_length'. by rewrite length_replicate.
Qed.

(** One client of the echo command. *)
Lemma eco_body_sends p c v n w :
  fd_off NfEco_msg = 0%nat → 0 < n <= Z.of_nat (fd_len NfEco_msg) → g_txSize (gl w) = n →
  g_clients (gl w) !! p = Some c → pview w (m_session c) = Some v →
  ∃ w', CmdSendEco_body uninit uninit_body p w = Ok tt w' ∧ sent (m_session c) (eco_msg n) w w'.
Proof.
  intros Hoff Hl Hn Hc Hv. destruct (eco_msg_ok n Hoff Hl) as [He _].
  destruct pp_NfEco as [Hend Hsz]. unfold fd_end in Hend. rewrite Hoff in Hend.
  unfold CmdSendEco_body. rewrite bind_lglobals, Hn. rewrite (bind_lift _ (eco_struct n)).
  2:{ rewrite memset_eco by (done || unfold in_s; cbn; lia). by rewrite bool_decide_eq_true_2 by lia. }
  unfold write_struct. rewrite (bind_lift _ _ _ _ He). by apply (write_ok p c v).
Qed.

(** the echo command.  A line without a second word is undefined.  A size
    from 1 to the size of the array sends every client's session one message of
    that length filled with it; a larger or a negative size overflows the
    array, as soon as there is a client. *)
Theorem send_eco_spec split text n w :
  fd_off NfEco_msg = 0%nat → clients_ok (g_clientVec (gl w)) w →
  split !! 1%nat = Some text → atoi text = Val n →
  (0 < n <= Z.of_nat (fd_len NfEco_msg) →
     ∃ w', CmdSendEco_handle uninit uninit_body split w = Ok true w' ∧
       gl w' = set_txSize n (gl w) ∧
       ∀ p c v, p ∈ g_clientVec (gl w) → g_clients (gl w) !! p = Some c → pview w (m_session c) = Some v →
         ∃ m, pview w' (m_session c) = Some (pv_send m v) ∧ hdr_msgId (msg_hdr m) = u32 ID_nf_Eco ∧
           bodyLength m = n ∧ take (Z.to_nat n) (msg_body m) = replicate (Z.to_nat n) 171) ∧
  (n < 0 ∨ Z.of_nat (fd_len NfEco_msg) < n → g_clientVec (gl w) ≠ [] →
     CmdSendEco_handle uninit uninit_body split w = Undef UB_buffer_overflow) ∧
  (∀ short, length short ≤ 1 → CmdSendEco_handle uninit uninit_body short w = Undef UB_out_of_range)%nat.
Proof.
  intros Hoff Hok Hsplit Hn.
  assert (Hin : in_s 32 n) by (unfold atoi in Hn; case_decide; by simplify_eq).
  set (w1 := fset (set_txSize n (gl w)) w).
  assert (Hg1 : gl w1 = set_txSize n (gl w)) by apply gl_fset.
  assert (Hrun : CmdSendEco_handle uninit uninit_body split w =
    (forM_ (g_clientVec (gl w)) (CmdSendEco_body uninit uninit_body) ;; mret true) w1).
  { unfold CmdSendEco_handle. rewrite Hsplit, (bind_lift _ text) by done.
    rewrite (bind_lift _ _ _ _ Hn), bind_set_lglobals, bind_lglobals. fold w1. by rewrite Hg1. }
  split_and!.
  - intros Hl. destruct (eco_msg_ok n Hoff Hl) as (_ & Hid & Hb & Ht).
    destruct (send_loop (CmdSendEco_body uninit uninit_body) (λ _, eco_msg n) (g_clientVec (gl w)) w1)
      as (w' & Hr & Hg & Hsent).
    + destruct Hok as [Hnd Hex]. unfold clients_ok. rewrite Hg1. split; [done|].
      intros p Hp. destruct (Hex p Hp) as (c & Hc & Hv). exists c. split; [done|]. unfold w1. by rewrite pview_globals.
    + intros p c v w2 _ Hg2 Hc Hv. apply (eco_body_sends p c v); by rewrite ?Hg2, ?Hg1 in *.
    + exists w'. split_and!; [|by rewrite Hg, Hg1|].
      * rewrite Hrun. by rewrite (bind_ok _ _ _ _ _ Hr).
      * intros p c v Hp Hc Hv. exists (eco_msg n). split_and!; [|done..].
        apply (Hsent p); [done|by rewrite Hg1|unfold w1; by rewrite pview_globals].
  - intros Hbad Hne. rewrite Hrun. destruct (g_clientVec (gl w)) as [|p ps]; [done|].
    cbn [forM_]. unfold mbind at 1, M_bind at 1.
    assert (E : CmdSendEco_body uninit uninit_body p w1 = Undef UB_buffer_overflow); [|unfold mbind, M_bind; by rewrite E].
    unfold CmdSendEco_body. rewrite bind_lglobals, Hg1. cbn [g_txSize set_txSize].
    rewrite (bind_lift_bad _ UB_buffer_overflow); [done|]. rewrite memset_eco by done.
    by rewrite bool_decide_eq_false_2 by lia.
  - intros short Hl. unfold CmdSendEco_handle. by rewrite lookup_ge_None_2 by done.
Qed.

(** a user name is a format string.  The command that creates users copies each
    client's name through [sprintf] as the format: a name whose first percent
    sign is not doubled asks for an argument that is not there, and a name
    without a percent sign that fits is sent as it is. *)
Theorem create_user_format p ps c v pre post w :
  g_clientVec (gl w) = p :: ps → g_clients (gl w) !! p = Some c → pview w (m_session c) = Some v →
  no_nul (m_id c) → (length (m_id c) < fd_len rq_CrteUser_id)%nat →
  (4 < fd_len rq_CrteUser_passwd)%nat →
  (m_id c = pre ++ 37 :: post → 37 ∉ pre → head post ≠ Some 37 →
     CmdCreateUser_handle uninit uninit_body w = Undef UB_format) ∧
  (37 ∉ m_id c →
     ∃ w' m, CmdCreateUser_body uninit uninit_body p w = Ok tt w' ∧
       pview w' (m_session c) = Some (pv_send m v) ∧
       string_at (fd_off rq_CrteUser_id) (msg_body m) = Val (m_id c) ∧
       string_at (fd_off rq_CrteUser_passwd) (msg_body m) = Val test_passwd).
Proof.
  intros Hvec Hc Hv Hno Hlen Hpw.
  assert (Hexp : ∀ a b, 37 ∉ a → expand (a ++ b) = (l ← expand b; Val (a ++ l))).
  { induction a as [|x a IH]; intros b Hx; cbn; [by destruct (expand b)|].
    apply not_elem_of_cons in Hx as [Hne Hx]. destruct (Z.eqb_spec x 37); [done|].
    rewrite IH by done. by destruct (expand b). }
  split.
  - intros Hid Hpre Hpost. unfold CmdCreateUser_handle. rewrite bind_lglobals, Hvec. cbn [forM_].
    assert (E : CmdCreateUser_body uninit uninit_body p w = Undef UB_format); [|unfold mbind, M_bind; by rewrite E].
    unfold CmdCreateUser_body. rewrite (bind_get_client p c) by done.
    apply bind_lift_bad. rewrite Hid, Hexp by done.
    assert (expand (37 :: post) = Bad UB_format) as ->; [|done].
    cbn. destruct post as [|x post]; [done|]. destruct (Z.eqb_spec x 37); [by subst|done].
  - intros Hnp. destruct cp_CrteUser as (Hsz & He1 & He2 & Hap). unfold apart, fd_end in *.
    assert (Hu : length (take rq_CrteUser_size uninit_body) = rq_CrteUser_size) by (rewrite length_take; lia).
    destruct (put_string_at rq_CrteUser_id (m_id c) (take rq_CrteUser_size uninit_body))
      as (s1 & H1 & Hl1 & Hb1 & _); [done|unfold fd_end; lia|].
    destruct (put_string_at rq_CrteUser_passwd test_passwd s1) as (s2 & H2 & Hl2 & Hb2 & Hk2);
      [cbn; lia|unfold fd_end; lia|].
    assert (Hn : length (m_id c ++ [0]) = S (length (m_id c))) by (rewrite length_app; cbn; lia).
    destruct (write_struct_ok p c v rq_CrteUser s2 w Hc Hv ltac:(lia)) as (w' & Hr & _ & Hs).
    exists w', (structure uninit rq_CrteUser NONE_CODE s2). split_and!.
    + unfold CmdCreateUser_body. rewrite (bind_get_client p c) by done.
      rewrite (bind_lift _ (m_id c)).
      2:{ rewrite <- (app_nil_r (m_id c)) at 1. rewrite Hexp by done. cbn. by rewrite app_nil_r. }
      rewrite (bind_lift _ _ _ _ H1), (bind_lift _ _ _ _ H2).
      replace rq_CrteUser_size with (length s2) at 1 by lia. exact Hr.
    + rewrite (Hs _ _ Hv). by rewrite decide_True.
    + apply string_at_bytes; [done|]. apply structure_at; [rewrite Hn; lia|].
      apply Hk2; [done|]. unfold fd_end. rewrite Hn. lia.
    + apply string_at_bytes; [by repeat constructor|]. apply structure_at; [cbn; lia|done].
Qed.

(** ** Periodic transmission *)

Context `{CL : !ClientSessionsLaws W H}.

(** [n] completions of the timer. *)
Fixpoint ticks (n : nat) (p : ptr) : M W unit :=
  match n with O => mret tt | S n => complete_txTmr p ;; ticks n p end.

Lemma set_client_ok p c (f : Client → Client) w :
  g_clients (gl w) !! p = Some c →
  ∃ w', set_client p f w = Ok tt w' ∧ g_clients (gl w') !! p = Some (f c) ∧
    ∀ q, pview w' q = pview w q.
Proof.
  intros Hc. eexists. split; [reflexivity|]. change (fget ?x) with (gl x).
  split; [rewrite gl_fset; cbn; by rewrite lookup_alter_eq; change (fget w) with (gl w); rewrite Hc|].
  intros q. apply pview_globals.
Qed.

Lemma send_times_ok n q v w :
  pview w q = Some v →
  ∃ w' ms, send_times n q w = Ok tt w' ∧ gl w' = gl w ∧ length ms = n ∧
    pview w' q = Some (mkPartyView (pv_msg v) (pv_id v) (pv_sent v ++ ms) (pv_open v)).
Proof.
  revert v w. induction n as [|n IH]; intros v w Hv; cbn [send_times].
  { exists w, []. rewrite app_nil_r. by destruct v. }
  destruct (asyncSend_next_law q v w Hv) as (m & h & Hr & Hv' & _).
  destruct (IH _ _ Hv') as (w' & ms & Hr' & Hg & Hl & Hs). exists w', (m :: ms).
  rewrite (bind_ok _ _ _ _ _ Hr). split_and!; [done|by rewrite Hg, gl_sessions|cbn; by rewrite Hl|].
  rewrite Hs. cbn. by rewrite <- app_assoc.
Qed.

(** A tick of a client that is transmitting. *)
Lemma tick_sends p c v t w :
  g_clients (gl w) !! p = Some c → pview w (m_session c) = Some v →
  m_bTx c = true → m_txTmr c = [mkWait t false] →
  ∃ w' c' v', complete_txTmr p w = Ok tt w' ∧ g_clients (gl w') !! p = Some c' ∧
    m_session c' = m_session c ∧ m_bTx c' = true ∧ m_txTmr c' = [mkWait t false] ∧
    pview w' (m_session c) = Some v' ∧
    length (pv_sent v') = (length (pv_sent v) + Z.to_nat t)%nat.
Proof.
  intros Hc Hv Hb Ht. unfold complete_txTmr. rewrite (bind_get_client p c) by done. rewrite Ht.
  destruct (set_client_ok p c (set_txTmr (λ _, [])) w Hc) as (w1 & Hr1 & Hc1 & Hv1).
  rewrite (bind_ok _ _ _ _ _ Hr1). unfold cbTx. cbn [wt_cancelled wt_count is_error].
  rewrite (bind_get_client p _ _ _ Hc1). cbn [m_bTx set_txTmr m_session]. rewrite Hb.
  destruct (send_times_ok (Z.to_nat t) (m_session c) v w1) as (w2 & ms & Hr2 & Hg2 & Hl & Hs2);
    [by rewrite Hv1|].
  rewrite (bind_ok _ _ _ _ _ Hr2). unfold arm_txTmr.
  destruct (set_client_ok p (set_txTmr (λ _, []) c) (set_txTmr (λ l, cancel_waits l ++ [mkWait t false])) w2)
    as (w3 & Hr3 & Hc3 & Hv3); [by rewrite Hg2|].
  eexists w3, _, _. rewrite Hv3, Hs2. split_and!; try done. cbn. rewrite length_app. lia.
Qed.

(** A tick of a client that is not transmitting. *)
Lemma tick_idle p c w :
  g_clients (gl w) !! p = Some c → m_bTx c = false →
  ∃ w' c', complete_txTmr p w = Ok tt w' ∧ g_clients (gl w') !! p = Some c' ∧ m_bTx c' = false ∧
    ∀ q, pview w' q = pview w q.
Proof.
  intros Hc Hb. unfold complete_txTmr. rewrite (bind_get_client p c) by done.
  destruct (m_txTmr c) as [|t rest]; [by exists w, c|].
  destruct (set_client_ok p c (set_txTmr (λ _, rest)) w Hc) as (w1 & Hr1 & Hc1 & Hv1).
  rewrite (bind_ok _ _ _ _ _ Hr1). exists w1, (set_txTmr (λ _, rest) c). unfold cbTx.
  destruct (wt_cancelled t); cbn [is_error]; [done|].
  rewrite (bind_get_client p _ _ _ Hc1). cbn [m_bTx set_txTmr]. by rewrite Hb.
Qed.

Lemma ticks_send k p c v t w :
  g_clients (gl w) !! p = Some c → pview w (m_session c) = Some v →
  m_bTx c = true → m_txTmr c = [mkWait t false] →
  ∃ w' c' v', ticks k p w = Ok tt w' ∧ g_clients (gl w') !! p = Some c' ∧
    m_session c' = m_session c ∧ pview w' (m_session c) = Some v' ∧
    length (pv_sent v') = (length (pv_sent v) + k * Z.to_nat t)%nat.
Proof.
  revert c v w. induction k as [|k IH]; intros c v w Hc Hv Hb Ht; cbn [ticks].
  { exists w, c, v. by rewrite Nat.mul_0_l, Nat.add_0_r. }
  destruct (tick_sends p c v t w Hc Hv Hb Ht) as (w1 & c1 & v1 & Hr & Hc1 & Hs1 & Hb1 & Ht1 & Hv1 & Hl1).
  destruct (IH c1 v1 w1 Hc1 ltac:(by rewrite Hs1) Hb1 Ht1) as (w' & c' & v' & Hr' & Hc' & Hs' & Hv' & Hl').
  exists w', c', v'. rewrite (bind_ok _ _ _ _ _ Hr). split_and!; [done|done|by rewrite Hs', Hs1|by rewrite <- Hs1|].
  rewrite Hl', Hl1. lia.
Qed.

Lemma ticks_idle k p c w :
  g_clients (gl w) !! p = Some c → m_bTx c = false →
  ∃ w', ticks k p w = Ok tt w' ∧ ∀ q, pview w' q = pview w q.
Proof.
  revert c w. induction k as [|k IH]; intros c w Hc Hb; cbn [ticks]; [by exists w|].
  destruct (tick_idle p c w Hc Hb) as (w1 & c1 & Hr & Hc1 & Hb1 & Hv1).
  destruct (IH c1 w1 Hc1 Hb1) as (w' & Hr' & Hv'). exists w'. rewrite (bind_ok _ _ _ _ _ Hr).
  split; [done|]. intros q. by rewrite Hv'.
Qed.

(** C36: the transmission runs at its rate until it is stopped.  Started with a
    count on a client whose timer is idle, [k] ticks of the timer send [k]
    times the count of messages (none for a negative count) on the client's
    session; after [stopTx] no further tick sends anything. *)
Theorem transmission_rate p c v t k j w :
  g_clients (gl w) !! p = Some c → pview w (m_session c) = Some v → m_txTmr c = [] →
  ∃ w1 v1 w2, (startTx p t ;; ticks k p) w = Ok tt w1 ∧
    pview w1 (m_session c) = Some v1 ∧
    length (pv_sent v1) = (length (pv_sent v) + k * Z.to_nat t)%nat ∧
    (stopTx p ;; ticks j p) w1 = Ok tt w2 ∧ pview w2 (m_session c) = Some v1.
Proof.
  intros Hc Hv Ht. unfold startTx.
  destruct (set_client_ok p c (set_bTx true) w Hc) as (wa & Hra & Hca & Hva).
  destruct (set_client_ok p _ (set_txTmr (λ l, cancel_waits l ++ [mkWait t false])) wa Hca) as (wb & Hrb & Hcb & Hvb).
  destruct (ticks_send k p _ v t wb Hcb) as (w1 & c1 & v1 & Hr1 & Hc1 & Hs1 & Hv1 & Hl1);
    [by rewrite Hvb, Hva|done|by cbn; rewrite Ht|].
  destruct (set_client_ok p c1 (set_bTx false) w1 Hc1) as (wd & Hrd & Hcd & Hvd).
  destruct (set_client_ok p _ (set_txTmr cancel_waits) wd Hcd) as (we & Hre & Hce & Hve).
  destruct (ticks_idle j p _ we Hce eq_refl) as (w2 & Hr2 & Hv2).
  exists w1, v1, w2. split_and!; [|done|done| |].
  - rewrite bind_assoc, (bind_ok _ _ _ _ _ Hra). unfold arm_txTmr. by rewrite (bind_ok _ _ _ _ _ Hrb).
  - unfold stopTx. rewrite bind_assoc, (bind_ok _ _ _ _ _ Hrd). by rewrite (bind_ok _ _ _ _ _ Hre).
  - by rewrite Hv2, Hve, Hvd.
Qed.
End Client.

(** ** Instances at concrete inputs *)

#[program] Definition demo_client_protocol : @ClientProtocol demo_protocol := {|
  rq_CrteUser_size := 72; rq_CrteUser_id := mkField 0 36; rq_CrteUser_passwd := mkField 36 36;
  rq_Login_size := 72; rq_Login_passwd := mkField 36 36;
  rq_CrteParty_size := 36;
  rq_JoinUser_size := 76
|}.
Next Obligation. unfold apart, fd_end; cbn; lia. Qed.
Next Obligation. unfold apart, fd_end; cbn; lia. Qed.
Next Obligation. unfold fd_end; cbn; lia. Qed.
Next Obligation. unfold apart, fd_end; cbn; lia. Qed.

Record legacy_world := mkLegacyWorld { lw_sessions : gmap ptr party_view; lw_globals : client_globals }.
#[export, refine] Instance lw_field_sessions : Field legacy_world (gmap ptr party_view) :=
  {| fget w := lw_sessions w; fset x w := mkLegacyWorld x (lw_globals w) |}.
Proof. all: by try intros []. Defined.
#[export, refine] Instance lw_field_globals : Field legacy_world client_globals :=
  {| fget w := lw_globals w; fset x w := mkLegacyWorld (lw_sessions w) x |}.
Proof. all: by try intros []. Defined.
#[export] Instance lw_separate : Separate lw_field_globals lw_field_sessions.
Proof. by split. Qed.

#[export] Instance recording_client_sessions : ClientSessions legacy_world := {|
  TcpSession_new _ :=
    h ← fread (T := gmap ptr party_view);
    let p := fresh (dom h) in
    fmodify (T := gmap ptr party_view) <[p := mkPartyView stack_msg [] [] true]> ;;
    mret p;
  asyncSend_next p := obj_set p (pv_send stack_msg);
  asyncConnect _ := mret tt;
  asyncRead _ := mret tt;
  sess_setOwner _ _ := mret tt;
  sess_tx _ := mret 0;
  sess_rx _ := mret 0;
  msgTmr_expired _ := mret true;
  msgTmr_start _ := mret tt
|}.
#[export] Instance recording_client_sessions_laws : ClientSessionsLaws legacy_world (gmap ptr party_view).
Proof.
  split. intros p v w Hv. exists stack_msg. eexists. split; [cbn; by obj_run|].
  split; [by apply lookup_obj_upd|]. intros q Hq. by apply lookup_obj_upd_ne.
Qed.

#[local] Existing Instance demo_protocol.
#[local] Existing Instance demo_client_protocol.

(** Two clients, [x_0] of session 1 and [x_1] of session 2; the first one's
    session has received [m]. *)
Definition demo_client0 : Client := mkClient 1 [120; 95; 48] 5 0 0 0 false [] 0 false.
Definition demo_client1 : Client := mkClient 2 [120; 95; 49] 0 0 0 0 false [] 0 false.
Definition demo_lw (m : Msg) : legacy_world :=
  mkLegacyWorld {[1%nat := mkPartyView m [] [] true; 2%nat := mkPartyView m [] [] true]}
    (mkGlobals {[0%nat := demo_client0; 1%nat := demo_client1]} [0%nat; 1%nat] 0 false).

Lemma demo_clients_ok ps m : ps ∈ [[1%nat]; [0%nat; 1%nat]] → clients_ok ps (demo_lw m).
Proof.
  intros Hps. assert (Hs : ∀ p, p ∈ [0%nat; 1%nat] → ∃ c, g_clients (gl (demo_lw m)) !! p = Some c ∧
    is_Some (pview (demo_lw m) (m_session c))).
  { intros p [->|[->|[]%not_elem_of_nil]%elem_of_cons]%elem_of_cons.
    - exists demo_client0. split; [reflexivity|]. by eexists.
    - exists demo_client1. split; [reflexivity|]. by eexists. }
  apply elem_of_cons in Hps as [->|[->|[]%not_elem_of_nil]%elem_of_cons]; split.
  1,3: apply (bool_decide_unpack _); vm_compute; exact I.
  - intros p Hp. apply Hs. by right.
  - exact Hs.
Qed.

Lemma demo_names f m ps : fd_len f = 36%nat → names_fit f ps (demo_lw m).
Proof.
  intros Hf p c _ Hc. cbn in Hc. rewrite Hf.
  apply lookup_insert_Some in Hc as [[<- <-]|[_ Hc]];
    [|apply lookup_singleton_Some in Hc as [<- <-]];
    (split; [by repeat constructor|cbn; lia]).
Qed.

Lemma request_join_decodes_witness :
  ∃ w' m, CmdRequestJoin_handle stack_msg stack_body (demo_lw stack_msg) = Ok true w' ∧
    pview w' 2%nat = Some (mkPartyView stack_msg [] [m] true) ∧
    joins [120; 95; 48] [120; 95; 49] 5 m.
Proof.
  destruct (request_join_decodes stack_msg stack_body stack_msg_ok eq_refl 0%nat [1%nat] demo_client0
    (demo_lw stack_msg)) as (w' & Hr & _ & Hs).
  - reflexivity.
  - vm_compute. reflexivity.
  - apply demo_clients_ok. by left.
  - by apply demo_names.
  - by apply demo_names.
  - destruct (Hs 1%nat demo_client1 (mkPartyView stack_msg [] [] true)) as (m & Hm & Hj);
      [by left|vm_compute; reflexivity|vm_compute; reflexivity|].
    exists w', m. split; [exact Hr|]. split; [exact Hm|exact Hj].
Defined.

(** The reply for party 7. *)
Definition party7 : Msg := structure stack_msg rs_CrteParty CREATE_PARTY_SUCCESS (rs_struct stack_body 7).

Lemma party_id_received_witness :
  ∃ w', ClientHandler_read rs_CrteParty 1%nat (Some 0%nat) (demo_lw party7) = Ok true w' ∧
    m_partyId <$> g_clients (gl w') !! 0%nat = Some 7.
Proof.
  destruct (party_id_received stack_body eq_refl 0%nat demo_client0 1%nat
    (mkPartyView party7 [] [] true) 7 [] (demo_lw party7)) as [Hr _].
  - vm_compute. reflexivity.
  - vm_compute. reflexivity.
  - apply (bool_decide_unpack _). vm_compute. exact I.
  - discriminate.
  - eexists. split; [apply Hr; vm_compute; reflexivity|]. vm_compute. reflexivity.
Defined.

Lemma send_eco_spec_witness :
  (∃ w' m, CmdSendEco_handle stack_msg stack_body [[115]; [51]] (demo_lw stack_msg) = Ok true w' ∧
     pview w' 2%nat = Some (mkPartyView stack_msg [] [m] true) ∧ take 3 (msg_body m) = [171; 171; 171]) ∧
  CmdSendEco_handle stack_msg stack_body [[115]; [45; 49]] (demo_lw stack_msg) = Undef UB_buffer_overflow.
Proof.
  split.
  - destruct (send_eco_spec stack_msg stack_body stack_msg_ok eq_refl [[115]; [51]] [51] 3 (demo_lw stack_msg))
      as [Hs _]; [reflexivity|apply demo_clients_ok; right; left|reflexivity|vm_compute; reflexivity|].
    destruct Hs as (w' & Hr & _ & Hs); [vm_compute; split; congruence|].
    destruct (Hs 1%nat demo_client1 (mkPartyView stack_msg [] [] true)) as (m & Hm & _ & _ & Ht);
      [by right; left|vm_compute; reflexivity|vm_compute; reflexivity|].
    exists w', m. split; [exact Hr|]. split; [exact Hm|exact Ht].
  - refine (proj1 (proj2 (send_eco_spec stack_msg stack_body stack_msg_ok eq_refl [[115]; [45; 49]] [45; 49] (-1)
      (demo_lw stack_msg) _ _ _ _)) _ _); [reflexivity|apply demo_clients_ok; right; left|reflexivity|
      vm_compute; reflexivity|left; reflexivity|discriminate].
Defined.

(** A client called "%s". *)
Definition percent_lw : legacy_world :=
  mkLegacyWorld {[1%nat := mkPartyView stack_msg [] [] true]}
    (mkGlobals {[0%nat := mkClient 1 [37; 115] 0 0 0 0 false [] 0 false]} [0%nat] 0 false).

Lemma create_user_format_witness :
  CmdCreateUser_handle stack_msg stack_body percent_lw = Undef UB_format.
Proof.
  refine (proj1 (create_user_format stack_msg stack_body stack_msg_ok eq_refl 0%nat []
    (mkClient 1 [37; 115] 0 0 0 0 false [] 0 false) (mkPartyView stack_msg [] [] true) [] [115]
    percent_lw _ _ _ _ _ _) _ _ _).
  - reflexivity.
  - vm_compute. reflexivity.
  - vm_compute. reflexivity.
  - by repeat constructor.
  - apply Nat.ltb_lt. vm_compute. reflexivity.
  - apply Nat.ltb_lt. vm_compute. reflexivity.
  - reflexivity.
  - apply not_elem_of_nil.
  - discriminate.
Defined.

Lemma transmission_rate_witness :
  ∃ w1 v1 w2, (startTx 0%nat 4 ;; ticks 3 0%nat) (demo_lw stack_msg) = Ok tt w1 ∧
    pview w1 1%nat = Some v1 ∧ length (pv_sent v1) = 12%nat ∧
    (stopTx 0%nat ;; ticks 5 0%nat) w1 = Ok tt w2 ∧ pview w2 1%nat = Some v1.
Proof.
  destruct (transmission_rate stack_body eq_refl 0%nat demo_client0 (mkPartyView stack_msg [] [] true) 4 3 5 (demo_lw stack_msg))
    as (w1 & v1 & w2 & H1 & H2 & H3 & H4 & H5).
  - vm_compute. reflexivity.
  - vm_compute. reflexivity.
  - reflexivity.
  - exists w1, v1, w2. split; [exact H1|]. split; [exact H2|]. split; [exact H3|]. split; [exact H4|exact H5].
Defined.
