(* ===== verification/LegacyMain.v ===== *)
(** * The client of the party server as a program (client/main.cpp, client/Cli.h)

    [main] from the parsed options on, the shell, the signal handler, and the
    client on top of the older session: [client_handler] is its
    [ClientHandler] as the [SessionHandler] that LegacySession calls, and
    [legacy_sessions] says which of the session's methods are those of
    LegacySession.  The others, which no file declares, stay parameters
    ([SessionRest]). *)
From S2P Require Import Prelude Msg Session IfSession LegacySession Programs PartyServer PartyProps LegacyClient LegacyProps.

(** ** main *)

Abbreviation command_table := (gmap string command).

Section Main.
Context {W : Type} `{PP : !PartyProtocol} `{CP : !ClientProtocol} `{PS : !PartySessions W} `{CS : !ClientSessions W}.
Context `{FG : !Field W client_globals} `{FT : !Field W command_table}.
Context (uninit : Msg) (uninit_body : list Z).

(** [bool registerCommand<T>(const std::string& cmd)] *)
Definition registerCommand (c : command) (cmd : string) : M W bool :=
  t ← fread (T := command_table);
  match t !! cmd with
  | Some _ => mret false
  | None => fmodify (T := command_table) <[cmd := c]> ;; mret true
  end.

Definition register_commands : M W unit :=
  registerCommand CmdCreateUser "create_user" ;;
  registerCommand CmdCreateParty "create_party" ;;
  registerCommand CmdRequestJoin "request_join" ;;
  registerCommand CmdLogin "login" ;;
  registerCommand CmdStartTmr "start_tmr" ;;
  registerCommand CmdSendPkt "send_pkt" ;;
  registerCommand CmdSendEco "send_eco" ;;
  registerCommand CmdStart "start" ;;
  registerCommand CmdStop "stop" ;;
  mret tt.

(** [static void sigHandler(int sig)]: the code it exits with, [None] if it
    returns. *)
Definition sigHandler (sig : Z) : M W (option Z) :=
  set_globals (set_bTerm true) ;;
  g ← globals;
  forM_ (g_clientVec g) Client_stop ;;
  set_globals (set_clientVec (λ _, [])) ;;
  if sig =? SIGSEGV then mret None else mret (Some 0).

(** One iteration of [readLine] on the line [str]; [split] is boost's, [count]
    the number [CmdStart] computes from the line; [Some tt] for [return]. *)
Definition readLine_step (split : string → list string) (count : string → Z) (str : string) :
    M W (option unit) :=
  if decide (str = EmptyString) then mret None
  else if decide (str = "quit"%string) then set_globals (set_bTerm true) ;; mret (Some tt)
  else if decide (str = "?"%string ∨ str = "help"%string) then mret None
  else
    let splitVec := split str in
    cmd ← lift (match splitVec !! 0%nat with Some c => Val c | None => Bad UB_out_of_range end);
    t ← fread (T := command_table);
    match t !! cmd with
    | Some c => handle uninit uninit_body c (c_str str) (c_str <$> splitVec) (count str) ;; mret None
    | None => mret None
    end.

(** [void readLine()] from its [getline] on, where it waits for most of the
    time, on the lines typed since: whether the loop has ended. *)
Fixpoint readLine_getline (split : string → list string) (count : string → Z) (lines : list string) : M W bool :=
  match lines with
  | [] => mret false
  | str :: lines =>
      r ← readLine_step split count str;
      match r with
      | Some _ => mret true
      | None =>
          g ← globals;
          if g_bTerm g then mret true else readLine_getline split count lines
      end
  end.

(** [void readLine()], which begins with the test of the flag. *)
Definition readLine (split : string → list string) (count : string → Z) (lines : list string) : M W bool :=
  g ← globals;
  if g_bTerm g then mret true else readLine_getline split count lines.

(** One iteration of the loop [for( int16_t i=0; i<numThread ; i++ )]; the
    thread of the client runs [startRx]. *)
Definition start_client (host : string) (argv : list string) (i : Z) : M W unit :=
  s ← lift (argv_2 argv);
  tmp ← lift (sprintf_id (replicate 32 0) s i);
  id ← lift (string_at 0 tmp);
  client ← Client_new host id;
  c ← get_client client;
  sess_setOwner (m_session c) client ;;
  startRx client ;;
  set_globals (set_clientVec (λ l, l ++ [client])).

Definition start_clients (fuel : nat) (host : string) (argv : list string) (numThread : Z) : M W bool :=
  for_int16 fuel numThread 0 (start_client host argv).

(** [int main(int argc, char* argv[])] on the lines typed so far. *)
Definition legacy_main (fuel : nat) (argv : list string) (options : option client_options)
    (split : string → list string) (count : string → Z) (lines : list string) : M W main_status :=
  match options with
  | None => mret (Main_ended (Main_returned 0))
  | Some o =>
      if co_help o then mret (Main_ended (Main_returned 0))
      else if co_version o then mret (Main_ended (Main_returned 0))
      else
        let numThread := client_threads o in
        let host := match co_remote o with Some h => h | None => "127.0.0.1"%string end in
        try_or (Main_ended (Main_returned 0)) (
          fmodify (T := command_table) (λ _, ∅) ;;
          register_commands ;;
          ended ← start_clients fuel host argv numThread;
          if negb ended then mret Main_starting
          else
            set_globals (set_bTerm false) ;;
            quit ← readLine split count lines;
            if negb quit then mret Main_reading
            else if numThread <=? 0 then mret (Main_ended (Main_returned 0))
            else mret Main_joining)
  end.
End Main.

(** ** The client on the older session *)

(** What no file declares of the session's methods. *)
Class SessionRest (W : Type) := {
  rest_new : string → M W ptr;
  rest_id : ptr → M W (list Z);
  rest_setId : ptr → list Z → M W unit;
  rest_close : ptr → M W unit;
  rest_setOwner : ptr → ptr → M W unit;
  rest_tx : ptr → M W Z;
  rest_rx : ptr → M W Z;
  rest_expired : ptr → M W bool;
  rest_tmr_start : ptr → M W unit
}.

(** What their names promise, of the two that [main] relies on: the constructor
    makes a new, unconnected session with a handler, [setOwner] keeps the
    owner. *)
Class SessionRestLaws (W : Type) `{!SessionRest W, !Field W lg_heap} := {
  valid_host : string → bool;
  rest_new_law host (w : W) : valid_host host = true →
    ∃ s h, let p := fresh (dom (objs (T := LegacySession) w)) in
      rest_new host w = Ok p (obj_upd p s w) ∧ lg_connects s = O ∧ lg_reads s = [] ∧ msg_ok (lg_msg s) ∧
      lg_handler s = Some h;
  rest_setOwner_law p c s (w : W) : objs (T := LegacySession) w !! p = Some s →
    rest_setOwner p c w = Ok tt (obj_upd p (lg_set_owner (Some c) s) w)
}.

Section OnSession.
Context {W : Type} `{PP : !PartyProtocol} `{CP : !ClientProtocol} `{SR : !SessionRest W}.
Context `{FL : !Field W lg_heap} `{FG : !Field W client_globals}.

#[export] Instance legacy_sessions : PartySessions W := {|
  sess_msg p := s ← obj_get (T := LegacySession) p; mret (lg_msg s);
  asyncSend := LegacySession_asyncSend;
  sess_id := rest_id;
  setId := rest_setId;
  sess_close := rest_close
|}.
#[export] Instance legacy_client_sessions : ClientSessions W := {|
  TcpSession_new := rest_new;
  asyncSend_next := LegacySession_asyncSend_next;
  asyncConnect := LegacySession_asyncConnect;
  asyncRead := LegacySession_asyncRead;
  sess_setOwner := rest_setOwner;
  sess_tx := rest_tx;
  sess_rx := rest_rx;
  msgTmr_expired := rest_expired;
  msgTmr_start := rest_tmr_start
|}.

(** [owner.lock()]: the client, if it is still there. *)
Definition lock_client (owner : option ptr) : M W (option ptr) :=
  g ← globals;
  mret (c ← owner; _ ← g_clients g !! c; Some c).

(** [class ClientHandler: public SessionHandler] *)
#[export] Instance client_handler : SessionHandler W := {|
  sh_read _ msgId length sess owner := c ← lock_client owner; ClientHandler_read msgId sess c;
  sh_error _ error sess owner := c ← lock_client owner; ClientHandler_error c;
  sh_connect _ sess owner := c ← lock_client owner; ClientHandler_connect sess c
|}.
End OnSession.

(** ** Lemmas *)

Section Client.
Context {W : Type} `{PP : !PartyProtocol} `{CP : !ClientProtocol} `{SR : !SessionRest W}.
Context `{FL : !Field W lg_heap} `{FG : !Field W client_globals} `{SGL : !Separate FG FL}.
Implicit Types (w : W) (p c h : ptr) (s : LegacySession) (cl : Client).

Lemma objs_globals (g : client_globals) w : objs (fset g w) = objs w.
Proof. unfold objs. apply (fget_fset_sep' (Separate := SGL)). Qed.
Lemma gl_obj_upd p s w : gl (obj_upd p s w) = gl w.
Proof. unfold obj_upd, gl. apply (fget_fset_sep (Separate := SGL)). Qed.

Lemma obj_upd_globals p s (g : client_globals) w : obj_upd p s (fset g w) = fset g (obj_upd p s w).
Proof. unfold obj_upd. rewrite objs_globals. symmetry. apply (fset_fset_sep (Separate := SGL)). Qed.

Lemma lock_client_ok c w : is_Some (g_clients (gl w) !! c) → lock_client (Some c) w = Ok (Some c) w.
Proof. intros [cl Hc]. unfold lock_client. rewrite bind_lglobals. cbn. by rewrite Hc. Qed.

(** The party a message tells the client, and what it does to the client. *)
Definition party_of (m : Msg) (a : Z) : Z :=
  if hdr_msgId (msg_hdr m) =? rs_CrteParty then u32_at rs_CrteParty_partyId (msg_body m)
  else if hdr_msgId (msg_hdr m) =? rq_ReqJoin then u32_at rq_ReqJoin_partyId (msg_body m)
  else a.
Definition client_sees (m : Msg) : option Client → option Client :=
  fmap (λ cl, set_partyId (party_of m (m_partyId cl)) cl).

Lemma set_partyId_id cl : set_partyId (m_partyId cl) cl = cl.
Proof. by destruct cl. Qed.

Lemma client_handler_sees p c h : lg_sees (λ w, g_clients (gl w) !! c) client_sees p h (Some c).
Proof.
  intros s w Hs.
  assert (Hrd : ∀ id len, sh_read h id len p (Some c) w =
    ClientHandler_read id p (_ ← g_clients (gl w) !! c; Some c) w) by done.
  rewrite Hrd. clear Hrd.
  destruct (g_clients (gl w) !! c) as [cl|] eqn:Hc; cbn [mbind option_bind].
  2:{ exists false, w, s. split_and!; try done. }
  assert (Hm : sess_msg p w = Ok (lg_msg s) w) by (cbn; by obj_run).
  set (g x := set_clients (alter (set_partyId x) c) (gl w)).
  assert (Hset : ∀ x, objs (fset (g x) w) !! p = Some s ∧ lg_sends s s ∧
    g_clients (gl (fset (g x) w)) !! c = Some (set_partyId x cl)).
  { intros x. rewrite objs_globals, gl_fset. split_and!; try done. cbn. by rewrite lookup_alter_eq, Hc. }
  unfold ClientHandler_read, party_of. cbn [client_sees fmap option_fmap option_map]. unfold client_sees, party_of.
  destruct (_ =? rs_CrteParty); [|destruct (_ =? rq_ReqJoin)].
  - exists true, (fset (g (u32_at rs_CrteParty_partyId (msg_body (lg_msg s)))) w), s.
    split; [by rewrite bind_assoc, (bind_ok _ _ _ _ _ Hm)|apply Hset].
  - exists true, (fset (g (u32_at rq_ReqJoin_partyId (msg_body (lg_msg s)))) w), s.
    split; [by rewrite bind_assoc, (bind_ok _ _ _ _ _ Hm)|apply Hset].
  - exists true, w, s. rewrite set_partyId_id. by split_and!.
Qed.

(** The messages that name a party carry the member that names it. *)
Definition names_party (m : Msg) : Prop :=
  (hdr_msgId (msg_hdr m) = rs_CrteParty → Z.of_nat rs_CrteParty_partyId + 4 <= bodyLength m) ∧
  (hdr_msgId (msg_hdr m) = rq_ReqJoin → Z.of_nat rq_ReqJoin_partyId + 4 <= bodyLength m).

Lemma u32_at_received off m old :
  sendable m → Z.of_nat off + 4 <= bodyLength m →
  u32_at off (msg_body (received m old)) = u32_at off (msg_body m).
Proof.
  intros Hm Hoff. unfold u32_at, received. cbn [msg_body]. f_equal.
  assert (Hl := length_take_body m Hm). unfold splice. rewrite take_0, app_nil_l.
  rewrite drop_app_le, take_app_le by (rewrite ?length_drop; lia).
  rewrite !take_drop_commute, take_take. do 2 f_equal. lia.
Qed.

Lemma client_sees_stream ms cl old :
  Forall item_ok ms → Forall names_party (accepted ms) →
  foldl (λ o m, client_sees m o) (Some cl) (lg_objects old ms) =
    Some (set_partyId (foldl (λ a m, party_of m a) (m_partyId cl) (accepted ms)) cl).
Proof.
  intros Hms. revert cl old. induction Hms as [|m ms Hm _ IH]; intros cl old Hn.
  { cbn. by rewrite set_partyId_id. }
  cbn [lg_objects]. unfold accepted, lg_object in *. destruct (checkHeader m) eqn:Hc.
  - rewrite filter_cons_True in Hn |- * by done. apply Forall_cons in Hn as [[H1 H2] Hn].
    cbn [foldl].
    change (client_sees (received m old) (Some cl)) with
      (Some (set_partyId (party_of (received m old) (m_partyId cl)) cl)).
    rewrite IH by done. pose proof (item_sendable m Hm Hc) as Hs.
    assert (party_of (received m old) (m_partyId cl) = party_of m (m_partyId cl)) as ->; [|by destruct cl].
    unfold party_of. change (msg_hdr (received m old)) with (msg_hdr m).
    destruct (Z.eqb_spec (hdr_msgId (msg_hdr m)) rs_CrteParty); [by apply u32_at_received; auto|].
    destruct (Z.eqb_spec (hdr_msgId (msg_hdr m)) rq_ReqJoin); [by apply u32_at_received; auto|done].
  - rewrite filter_cons_False in Hn |- * by by rewrite Hc. by apply IH.
Qed.
End Client.

(** ** Properties of the client *)

Section Theorems.
Context {W : Type} `{PP : !PartyProtocol} `{CP : !ClientProtocol} `{SR : !SessionRest W}.
Context `{FL : !Field W lg_heap} `{FG : !Field W client_globals} `{FT : !Field W command_table} `{SGL : !Separate FG FL}.
Context (uninit : Msg) (uninit_body : list Z).
Implicit Types (w : W) (p c h : ptr) (s : LegacySession) (cl : Client).

(** C26: a client that connects follows the parties it is told of.  When the
    connect of a client's session completes and then the bytes of any sequence
    of messages arrive - those with a refused header cut to the header -, all
    of them are consumed, the session waits for the next header, the number of
    bytes received is that of the accepted messages, and the client's party is
    the one that the last accepted reply to a party's creation or request to
    join names; nothing else of the client changes. *)
Theorem legacy_client_follows_party p s h c cl ms w :
  objs w !! p = Some s → lg_connects s = 1%nat → lg_reads s = [] → msg_ok (lg_msg s) →
  lg_handler s = Some h → lg_owner s = Some c → g_clients (gl w) !! c = Some cl →
  Forall item_ok ms → Forall names_party (accepted ms) →
  ∃ w' s', (lg_complete_connect p Success ;; lg_pump (items_reads ms) p (items ms)) w = Ok [] w' ∧
    g_clients (gl w') !! c = Some (set_partyId (foldl (λ a m, party_of m a) (m_partyId cl) (accepted ms)) cl) ∧
    objs w' !! p = Some s' ∧ lg_waiting_header s' ∧
    u64 (lg_rx s') = u64 (lg_rx s + lengths (accepted ms)).
Proof.
  intros Hs Hc Hr Hok Hh Ho Hcl Hms Hn.
  set (s1 := lg_add_read Lg_header hdrLength (lg_set_connects Nat.pred s)).
  assert (Hcon : lg_complete_connect p Success w = Ok tt (obj_upd p s1 w)).
  { unfold lg_complete_connect. obj_run. rewrite Hc. obj_run. unfold LegacySession_handleConnect. cbn [is_error negb].
    obj_run. cbn [lg_handler lg_owner lg_set_connects]. rewrite Hh, Ho. cbn [virtual_call sh_connect client_handler].
    rewrite bind_assoc, (bind_ok _ _ _ _ _ (lock_client_ok c _ ltac:(by rewrite gl_obj_upd, Hcl))).
    cbn [ClientHandler_connect]. rewrite bind_assoc.
    erewrite bind_ok by (apply lg_async_read_ok, lookup_obj_upd). by rewrite obj_upd_upd. }
  destruct (lg_stream (λ w, g_clients (gl w) !! c) client_sees p h (Some c) ms s1 (obj_upd p s1 w))
    as (w' & s' & Hp & Hob & Hs' & Hw' & _ & _ & Hx); try done.
  - apply client_handler_sees.
  - intros s0 w0. by rewrite gl_obj_upd.
  - apply lookup_obj_upd.
  - unfold lg_waiting_header, s1. cbn. by rewrite Hr.
  - exists w', s'. rewrite (bind_ok _ _ _ _ _ Hcon), Hob, gl_obj_upd, Hcl. split_and!; try done.
    by apply client_sees_stream.
Qed.

(** *** The termination flag *)

Definition ending w : Prop := g_bTerm (gl w) = true.

(** Of the methods no file declares, the commands call the one that starts the
    timer; it has no access to the client's flag. *)
Context (tmr_start_ending : ∀ q, preserves ending (rest_tmr_start q)).

Lemma ending_obj_get p : preserves ending (obj_get (T := LegacySession) p).
Proof.
  intros w s w' Hw Hr. unfold obj_get, fread, mbind, M_bind, get in Hr. cbn in Hr.
  destruct (_ !! p); [|done]. by injection Hr as _ <-.
Qed.
Lemma ending_obj_set p (f : LegacySession → LegacySession) : preserves ending (obj_set p f).
Proof. intros w [] w' Hw [= <-]. unfold ending, gl. by rewrite (fget_fset_sep (Separate := SGL)). Qed.
Lemma ending_globals : preserves ending (globals (W := W)).
Proof. by intros w g w' Hw [= _ <-]. Qed.
Lemma ending_set_globals f : (∀ g, g_bTerm g = true → g_bTerm (f g) = true) → preserves ending (set_globals (W := W) f).
Proof. intros Hf w [] w' Hw [= <-]. unfold ending. rewrite gl_fset. by apply Hf. Qed.

Ltac ending_step :=
  match goal with
  | |- preserves _ (_ ≫= _) => apply preserves_bind; [|intros]
  | |- preserves _ (mret _) => apply preserves_ret
  | |- preserves _ (undef _) => apply preserves_undef
  | |- preserves _ (lift _) => apply preserves_lift
  | |- preserves _ (obj_get _) => apply ending_obj_get
  | |- preserves _ (obj_set _ _) => apply ending_obj_set
  | |- preserves _ globals => apply ending_globals
  | |- preserves _ (set_globals _) => apply ending_set_globals; by intros
  | |- preserves _ (forM_ _ _) => apply preserves_forM; intros
  | |- preserves _ (rest_tmr_start _) => apply tmr_start_ending
  | |- preserves _ (match ?x with _ => _ end) => destruct x
  end.

Lemma ending_handle (cmd : command) cli splitVec n : preserves ending (handle uninit uninit_body cmd cli splitVec n).
Proof.
  destruct cmd; cbn [handle];
    unfold CmdCreateUser_handle, CmdCreateParty_handle, CmdRequestJoin_handle, CmdLogin_handle, CmdStartTmr_handle,
      CmdSendPkt_handle, CmdSendEco_handle, CmdStart_handle, CmdStop_handle, CmdCreateUser_body, CmdRequestJoin_body,
      CmdLogin_body, CmdSendEco_body, startTmr, startTx, stopTx, arm_txTmr, write_struct, write, set_client, get_client,
      master; cbn [msgTmr_start asyncSend legacy_client_sessions legacy_sessions]; unfold LegacySession_asyncSend;
    repeat ending_step.
Qed.

Lemma ending_readLine_step split count str : preserves ending (readLine_step uninit uninit_body split count str).
Proof.
  unfold readLine_step. repeat case_decide; repeat ending_step.
  - by intros w t w' Hw [= _ <-].
  - apply ending_handle.
Qed.

(** With the flag set, the line [getline] waits for is the last one. *)
Lemma getline_ending split count str lines w :
  ending w → readLine_getline uninit uninit_body split count (str :: lines) w =
    (readLine_step uninit uninit_body split count str ;; mret true) w.
Proof.
  intros Hw. cbn [readLine_getline]. unfold mbind, M_bind.
  destruct (readLine_step _ _ split count str w) as [r w1| |] eqn:E; [|done..].
  pose proof (ending_readLine_step split count str w r w1 Hw E) as Hw1. destruct r; [done|].
  change (globals w1) with (Ok (gl w1) w1). unfold ending in Hw1. cbn. by rewrite Hw1.
Qed.

End Theorems.

(** ** Starting the clients *)

Section Start.
Context {W : Type} `{PP : !PartyProtocol} `{CP : !ClientProtocol} `{SR : !SessionRest W}.
Context `{FL : !Field W lg_heap} `{FG : !Field W client_globals} `{FT : !Field W command_table}.
Context `{SGL : !Separate FG FL} `{STG : !Separate FT FG} `{STL : !Separate FT FL} `{RL : !SessionRestLaws W}.
Context (uninit : Msg) (uninit_body : list Z).
Implicit Types (w : W) (p c h : ptr) (s : LegacySession) (cl : Client).

Definition table w : command_table := fget w.

Lemma table_globals (g : client_globals) w : table (fset g w) = table w.
Proof. apply (fget_fset_sep (Separate := STG)). Qed.
Lemma table_obj_upd p s w : table (obj_upd p s w) = table w.
Proof. apply (fget_fset_sep (Separate := STL)). Qed.
Lemma gl_table (t : command_table) w : gl (fset t w) = gl w.
Proof. apply (fget_fset_sep' (Separate := STG)). Qed.

Definition client_name (s : string) (i : nat) : list Z := c_str s ++ 95 :: c_str (to_string (Z.of_nat i)).

(** The client [c], just started, is called [name]: its session, which knows it
    as its owner, is connecting. *)
Definition connecting (name : list Z) c w : Prop :=
  ∃ cl s, g_clients (gl w) !! c = Some cl ∧ m_id cl = name ∧ m_partyId cl = 0 ∧
    objs w !! m_session cl = Some s ∧ lg_connects s = 1%nat ∧ lg_reads s = [] ∧ msg_ok (lg_msg s) ∧
    is_Some (lg_handler s) ∧ lg_owner s = Some c.

Lemma connecting_frame name c w w' :
  connecting name c w → (∀ c cl, g_clients (gl w) !! c = Some cl → g_clients (gl w') !! c = Some cl) →
  (∀ p s, objs w !! p = Some s → objs w' !! p = Some s) → connecting name c w'.
Proof. intros (cl & s & H1 & H2 & H3 & H4 & H5) Hc Hs. exists cl, s. eauto 10. Qed.

Lemma string_at_sprintf a i tmp :
  sprintf_id (replicate 32 0) a i = Val tmp → string_at 0 tmp = Val (c_str a ++ 95 :: c_str (to_string i)).
Proof.
  unfold sprintf_id. destruct (_ <? _)%nat; [|done]. intros [= <-].
  unfold string_at, splice. rewrite take_0, app_nil_l, drop_0, <- app_assoc. cbn [app].
  assert (Hn : no_nul (c_str a ++ 95 :: c_str (to_string i))).
  { apply Forall_app. split; [apply c_str_ok|]. constructor; [done|apply c_str_ok]. }
  rewrite strlen_terminated by done. by rewrite take_app_length.
Qed.

(** One iteration of the loop makes one client and leaves the others alone. *)
Lemma legacy_start_client_ok host argv a i w :
  argv !! 2%nat = Some a → (length (c_str a) ≤ 24)%nat → Z.of_nat i < 2 ^ 15 → valid_host host = true →
  ∃ c w', start_client host argv (Z.of_nat i) w = Ok tt w' ∧
    g_clientVec (gl w') = g_clientVec (gl w) ++ [c] ∧ connecting (client_name a i) c w' ∧
    g_clients (gl w) !! c = None ∧ table w' = table w ∧
    (∀ c cl, g_clients (gl w) !! c = Some cl → g_clients (gl w') !! c = Some cl) ∧
    (∀ p s, objs w !! p = Some s → objs w' !! p = Some s).
Proof.
  intros Hargv Ha Hi Hhost. destruct (sprintf_id_ok a (Z.of_nat i) Ha) as [tmp Htmp];
    [unfold in_s; cbn in *; lia|].
  destruct (rest_new_law host w Hhost) as (ss & h & Hnew & Hcn & Hrd & Hok & Hh). cbv zeta in Hnew.
  set (p := fresh (dom (objs (T := LegacySession) w))) in *.
  assert (Hp : objs (T := LegacySession) w !! p = None) by (apply not_elem_of_dom, is_fresh).
  set (c := fresh (dom (g_clients (gl w)))).
  assert (Hc : g_clients (gl w) !! c = None) by (apply not_elem_of_dom, is_fresh).
  set (cl := mkClient p (client_name a i) 0 0 0 0 false [] 0 false).
  set (s3 := lg_set_connects S (lg_set_owner (Some c) ss)).
  set (g3 := mkGlobals (<[c := set_monitorTmr 1 cl]> (g_clients (gl w))) (g_clientVec (gl w) ++ [c])
    (g_txSize (gl w)) (g_bTerm (gl w))).
  set (w1 := fset (set_clients <[c := cl]> (gl w)) (obj_upd p ss w)).
  assert (H1 : Client_new host (client_name a i) w = Ok c w1).
  { unfold Client_new. cbn [TcpSession_new legacy_client_sessions]. rewrite (bind_ok _ _ _ _ _ Hnew).
    by rewrite bind_lglobals, bind_set_lglobals, gl_obj_upd. }
  assert (Hg1 : gl w1 = set_clients <[c := cl]> (gl w)) by apply gl_fset.
  assert (Ho1 : objs w1 !! p = Some ss) by (unfold w1; rewrite objs_globals; apply lookup_obj_upd).
  exists c, (fset g3 (obj_upd p s3 w)). rewrite gl_fset. split_and!; try done.
  - unfold start_client. rewrite (bind_lift _ a) by (unfold argv_2; by rewrite Hargv).
    rewrite (bind_lift _ tmp), (bind_lift _ (client_name a i)) by (done || by apply string_at_sprintf).
    rewrite (bind_ok _ _ _ _ _ H1).
    erewrite bind_get_client by (rewrite Hg1; cbn; apply lookup_insert_eq).
    cbn [sess_setOwner legacy_client_sessions m_session cl].
    rewrite (bind_ok _ _ _ _ _ (rest_setOwner_law p c ss w1 Ho1)).
    unfold startRx, startMonitor, set_client. rewrite !bind_assoc, bind_set_lglobals, gl_obj_upd, Hg1.
    cbn. rewrite bind_assoc. unfold w1. rewrite obj_upd_globals, obj_upd_upd, fset_fset.
    rewrite (bind_get_client c (set_monitorTmr 1 cl)) by (rewrite gl_fset; cbn; by rewrite lookup_alter_eq, lookup_insert_eq).
    cbn [asyncConnect legacy_client_sessions]. unfold LegacySession_asyncConnect.
    erewrite bind_obj_set by (cbn; rewrite objs_globals; apply lookup_obj_upd).
    rewrite obj_upd_globals, obj_upd_upd. unfold set_globals, fmodify, modify. rewrite fget_fset, fset_fset.
    do 2 f_equal. unfold g3, set_clientVec, set_clients. cbn. by rewrite alter_insert_eq.
  - exists (set_monitorTmr 1 cl), s3. rewrite gl_fset, objs_globals. cbn. rewrite lookup_insert_eq.
    rewrite lookup_obj_upd. split_and!; try done; by cbn; rewrite ?Hcn; eauto.
  - by rewrite table_globals, table_obj_upd.
  - intros c' cl' Hc'. cbn. rewrite lookup_insert_ne; [done|]. intros ->. by rewrite Hc in Hc'.
  - intros q s Hq. rewrite objs_globals, lookup_obj_upd_ne; [done|]. intros ->. by rewrite Hp in Hq.
Qed.

Lemma start_clients_ok fuel host argv a n w :
  argv !! 2%nat = Some a → (length (c_str a) ≤ 24)%nat → valid_host host = true →
  n < 2 ^ 15 → (Z.to_nat n ≤ fuel)%nat → g_clientVec (gl w) = [] →
  ∃ w', start_clients fuel host argv n w = Ok true w' ∧ table w' = table w ∧
    length (g_clientVec (gl w')) = Z.to_nat n ∧ NoDup (g_clientVec (gl w')) ∧
    ∀ i c, g_clientVec (gl w') !! i = Some c → connecting (client_name a i) c w'.
Proof.
  intros Hargv Ha Hhost Hn Hf Hnil. unfold start_clients.
  destruct (for_int16_all (λ j w', table w' = table w ∧ length (g_clientVec (gl w')) = j ∧
      NoDup (g_clientVec (gl w')) ∧
      ∀ i c, g_clientVec (gl w') !! i = Some c → connecting (client_name a i) c w')
    (start_client host argv) fuel n w) as (w' & Hw' & Hr); [done|done| | |by exists w'].
  - rewrite Hnil. split_and!; [done|done|constructor|done].
  - intros j w1 Hj (Ht & Hl & Hnd & Hall).
    destruct (legacy_start_client_ok host argv a j w1) as (c & w2 & Hr & Hv & Hc & Hnew & Ht2 & Hcs & Hss); [done..|lia|done|].
    exists w2. split; [done|]. rewrite Hv, length_app, Hl, Ht2. cbn. split_and!; [done|lia| |].
    + apply NoDup_app. split_and!; [done| |apply NoDup_singleton].
      intros c' Hc' ->%list_elem_of_singleton. apply list_elem_of_lookup in Hc' as [i Hi].
      destruct (Hall i c Hi) as (cl & s & Hcl & _). by rewrite Hnew in Hcl.
    + intros i c' [Hi|[Hi Hi']]%lookup_app_Some.
      * eapply connecting_frame; [by apply Hall|done|done].
      * apply list_lookup_singleton_Some in Hi' as [Hz <-].
        replace i with j by lia. done.
Qed.

Lemma legacy_registerCommand_ok (k : command) cmd t w :
  t !! cmd = None → registerCommand k cmd (fset t w) = Ok true (fset (<[cmd := k]> t) w).
Proof.
  intros Ht. unfold registerCommand. rewrite bind_fread, fget_fset, Ht.
  unfold fmodify, modify, mbind, M_bind. by rewrite fget_fset, fset_fset.
Qed.
Lemma legacy_register_commands_ok w : register_commands (fset (∅ : command_table) w) = Ok tt (fset commands w).
Proof.
  unfold register_commands. do 9 (erewrite bind_ok by (apply legacy_registerCommand_ok; vm_compute; reflexivity)).
  unfold mret, M_ret. do 2 f_equal.
Qed.

(** what the older client's [main] sets up.  With a second argument of at most
    24 characters, a host that parses and at most 32767 threads, it waits for a
    line: the nine commands are registered, the termination flag is cleared,
    and there is one client per thread, called by the argument and its number,
    each with a session of its own that is connecting and knows its client;
    [quit] makes it wait for their threads, or return 0 if there are none. *)
Theorem legacy_main_ready fuel argv a o split count w :
  co_help o = false → co_version o = false → argv !! 2%nat = Some a → (length (c_str a) ≤ 24)%nat →
  valid_host (default "127.0.0.1"%string (co_remote o)) = true → g_clientVec (gl w) = [] →
  let n := client_threads o in
  n < 2 ^ 15 → (Z.to_nat n ≤ fuel)%nat →
  ∃ w', legacy_main uninit uninit_body fuel argv (Some o) split count [] w = Ok Main_reading w' ∧
    table w' = commands ∧ g_bTerm (gl w') = false ∧
    Z.of_nat (length (g_clientVec (gl w'))) = Z.max 0 n ∧ NoDup (g_clientVec (gl w')) ∧
    (∀ i c, g_clientVec (gl w') !! i = Some c → connecting (client_name a i) c w') ∧
    ∃ w2, legacy_main uninit uninit_body fuel argv (Some o) split count ["quit"%string] w =
        Ok (if n <=? 0 then Main_ended (Main_returned 0) else Main_joining) w2 ∧
      g_bTerm (gl w2) = true.
Proof.
  intros Hh Hv Hargv Ha Hhost Hnil n Hn Hf.
  set (w0 := fset commands w).
  destruct (start_clients_ok fuel (default "127.0.0.1"%string (co_remote o)) argv a n w0)
    as (w1 & Hr & Ht & Hl & Hnd & Hall); [done..|by unfold w0; rewrite gl_table|].
  assert (Ht1 : table w1 = commands) by (rewrite Ht; apply fget_fset).
  set (w' := fset (set_bTerm false (gl w1)) w1).
  assert (Hm : ∀ lines, legacy_main uninit uninit_body fuel argv (Some o) split count lines w =
    try_or (Main_ended (Main_returned 0)) (
      quit ← readLine uninit uninit_body split count lines;
      if negb quit then mret Main_reading
      else if n <=? 0 then mret (Main_ended (Main_returned 0)) else mret Main_joining) w').
  { intros lines. unfold legacy_main. rewrite Hh, Hv. fold n.
    change (match co_remote o with Some h => h | None => "127.0.0.1"%string end)
      with (default "127.0.0.1"%string (co_remote o)). unfold try_or.
    rewrite bind_fmodify, (bind_ok _ _ _ _ _ (legacy_register_commands_ok w)), (bind_ok _ _ _ _ _ Hr).
    cbn [negb]. by rewrite bind_set_lglobals. }
  exists w'. rewrite !Hm. unfold try_or, readLine. cbn [readLine_getline]. rewrite !bind_assoc, !bind_lglobals.
  assert (Hg : gl w' = set_bTerm false (gl w1)) by apply gl_fset. rewrite Hg. cbn [g_bTerm set_bTerm].
  split_and!; try done.
  - unfold w'. by rewrite table_globals.
  - cbn. lia.
  - intros i c Hc. eapply connecting_frame; [by apply Hall| |].
    + intros c' cl Hc'. rewrite Hg. exact Hc'.
    + intros p s Hs. unfold w'. by rewrite objs_globals.
  - unfold readLine_step. rewrite decide_False, decide_True by done. eexists.
    rewrite !bind_assoc, bind_set_lglobals, !bind_ret. cbn [negb].
    split; [by destruct (n <=? 0)|]. by rewrite gl_fset.
Qed.
End Start.

(** ** Instances at concrete inputs *)

#[local] Existing Instance demo_protocol.
#[local] Existing Instance demo_client_protocol.

Record client_process := mkProcess {
  cp_sessions : lg_heap;
  cp_globals : client_globals;
  cp_table : command_table
}.
#[export, refine] Instance cp_field_sessions : Field client_process lg_heap :=
  {| fget w := cp_sessions w; fset x w := mkProcess x (cp_globals w) (cp_table w) |}.
Proof. all: by try intros []. Defined.
#[export, refine] Instance cp_field_globals : Field client_process client_globals :=
  {| fget w := cp_globals w; fset x w := mkProcess (cp_sessions w) x (cp_table w) |}.
Proof. all: by try intros []. Defined.
#[export, refine] Instance cp_field_table : Field client_process command_table :=
  {| fget w := cp_table w; fset x w := mkProcess (cp_sessions w) (cp_globals w) x |}.
Proof. all: by try intros []. Defined.
#[export] Instance cp_separate_gs : Separate cp_field_globals cp_field_sessions.
Proof. by split. Qed.
#[export] Instance cp_separate_tg : Separate cp_field_table cp_field_globals.
Proof. by split. Qed.
#[export] Instance cp_separate_ts : Separate cp_field_table cp_field_sessions.
Proof. by split. Qed.

(** A new session with handler 9. *)
Definition cp_session : LegacySession :=
  mkLegacySession SINGLE_ASIO 0 [] [] lg_zero lg_zero [] 0 (Some 9%nat) None.
#[export] Instance cp_rest : SessionRest client_process := {|
  rest_new _ :=
    h ← fread (T := lg_heap);
    let p := fresh (dom h) in
    fmodify (T := lg_heap) <[p := cp_session]> ;; mret p;
  rest_id _ := mret [];
  rest_setId _ _ := mret tt;
  rest_close _ := mret tt;
  rest_setOwner p c := obj_set p (lg_set_owner (Some c));
  rest_tx _ := mret 0;
  rest_rx _ := mret 0;
  rest_expired _ := mret true;
  rest_tmr_start _ := mret tt
|}.
#[export, refine] Instance cp_rest_laws : SessionRestLaws client_process :=
  {| valid_host host := bool_decide (host = "127.0.0.1"%string) |}.
Proof.
  - intros host w _. exists cp_session, 9%nat. split_and!; try done.
    apply (bool_decide_unpack _). vm_compute. exact I.
  - intros p c s w Hs. cbn. by obj_run.
Defined.

Definition process0 : client_process := mkProcess ∅ (mkGlobals ∅ [] 0 true) ∅.
Definition split_none (s : string) : list string := [s].

Lemma legacy_main_ready_witness :
  ∃ w', legacy_main stack_msg stack_body 2 ["client"; "-t"; "2"]%string
      (Some (mkClientOptions false false None (Some 2))) split_none (λ _, 0) [] process0 = Ok Main_reading w' ∧
    g_bTerm (gl w') = false ∧ length (g_clientVec (gl w')) = 2%nat ∧
    ∀ c, g_clientVec (gl w') !! 1%nat = Some c → connecting [50; 95; 49] c w'.
Proof.
  destruct (legacy_main_ready (W := client_process) stack_msg stack_body 2 ["client"; "-t"; "2"]%string "2"
    (mkClientOptions false false None (Some 2)) split_none (λ _, 0) process0)
    as (w' & Hr & _ & Hb & Hl & _ & Hc & _).
  - reflexivity.
  - reflexivity.
  - reflexivity.
  - apply Nat.leb_le. vm_compute. reflexivity.
  - vm_compute. reflexivity.
  - reflexivity.
  - reflexivity.
  - reflexivity.
  - exists w'. split; [exact Hr|]. split; [exact Hb|]. split; [|exact (λ c, Hc 1%nat c)].
    apply Nat2Z.inj. exact Hl.
Defined.

(** A connecting client of party 5 and its session. *)
Definition follow_session : LegacySession :=
  mkLegacySession SINGLE_ASIO 1 [] [] lg_zero lg_zero [] 0 (Some 9%nat) (Some 0%nat).
Definition follow_process : client_process :=
  mkProcess {[1%nat := follow_session]} (mkGlobals {[0%nat := demo_client0]} [0%nat] 0 false) commands.

(** The reply for party 7 and a message with a refused header. *)
Lemma legacy_client_follows_party_witness :
  ∃ w' s', (lg_complete_connect 1%nat Success ;;
      lg_pump (items_reads [party7; lg_wrapped]) 1%nat (items [party7; lg_wrapped])) follow_process = Ok [] w' ∧
    m_partyId <$> g_clients (gl w') !! 0%nat = Some 7 ∧ objs w' !! 1%nat = Some s' ∧ lg_waiting_header s'.
Proof.
  destruct (legacy_client_follows_party 1%nat follow_session 9%nat 0%nat demo_client0 [party7; lg_wrapped]
    follow_process) as (w' & s' & Hr & Hc & Hs & Hw & _).
  - reflexivity.
  - reflexivity.
  - reflexivity.
  - apply (bool_decide_unpack _). vm_compute. exact I.
  - reflexivity.
  - reflexivity.
  - vm_compute. reflexivity.
  - apply (bool_decide_unpack _). vm_compute. exact I.
  - vm_compute. constructor; [|constructor]. split; [|intros [=]]. intros _. intros [=].
  - exists w', s'. split; [exact Hr|]. split; [|split; [exact Hs|exact Hw]].
    rewrite Hc. vm_compute. reflexivity.
Defined.

Lemma cp_tmr_start q : preserves (ending (W := client_process)) (rest_tmr_start q).
Proof. apply preserves_ret. Qed.

