(* ===== verification/LegacyParty.v ===== *)
(** * The party server on the older session

    server/HandleMsg.cpp's handlers as the handler of LegacySession: what the
    party server does with the session code that is in the repository.  The
    methods no file declares stay parameters ([SessionRest] of LegacyMain); all
    that is asked of them is that they send nothing. *)
From S2P Require Import Prelude Msg Session IfSession LegacySession PartyServer PartyProps LegacyMain.

Section Party.
Context {W R : Type} `{PP : !PartyProtocol} `{SR : !SessionRest W} `{RO : !RoomOps R} `{SE : !SetRoom}.
Context `{FL : !Field W lg_heap} `{FP : !Field W (Party R)} `{SPL : !Separate FP FL}.
Context (uninit : Msg) (uninit_body : list Z).

(** [class ServerHandler: public SessionHandler]; the server has not expired
    if the session knows it. *)
Definition server_handler : SessionHandler W := {|
  sh_read _ msgId length sess owner :=
    ServerHandler_read (R := R) uninit uninit_body msgId length sess (bool_decide (is_Some owner));
  sh_error _ error sess owner := ServerHandler_error (R := R) error sess (bool_decide (is_Some owner));
  sh_connect _ sess owner := ServerHandler_connect sess (bool_decide (is_Some owner))
|}.

(** What is queued on and being written to every session. *)
Definition outgoing (w : W) : gmap ptr (list Msg * list (lg_op unit)) :=
  (λ s, (lg_sendQue s, lg_writes s)) <$> objs w.
Context (Q : gmap ptr (list Msg * list (lg_op unit))).
Definition quiet (w : W) : Prop := outgoing w = Q.

(** The undeclared methods send nothing. *)
Definition rest_quiet : Prop :=
  (∀ p, preserves quiet (rest_id p)) ∧ (∀ p x, preserves quiet (rest_setId p x)) ∧
  (∀ p, preserves quiet (rest_close p)).

Lemma quiet_read {T} `{FT : !Field W T} : preserves quiet (fread (T := T)).
Proof. by intros w a w' Hw [= _ <-]. Qed.
Lemma quiet_set_party f : preserves quiet (set_party (R := R) f).
Proof.
  intros w a w' Hw [= _ <-]. unfold quiet, outgoing, objs.
  by rewrite (fget_fset_sep' (Separate := SPL)).
Qed.
Lemma quiet_get p : preserves quiet (obj_get (T := LegacySession) p).
Proof.
  apply preserves_bind; [apply quiet_read|]. intros h. destruct (h !! p); [apply preserves_ret|apply preserves_undef].
Qed.
Lemma quiet_set p (f : LegacySession → LegacySession) :
  (∀ s, lg_sendQue (f s) = lg_sendQue s ∧ lg_writes (f s) = lg_writes s) → preserves quiet (obj_set p f).
Proof.
  intros Hf w a w' Hw [= _ <-]. unfold quiet in *. rewrite <- Hw. unfold outgoing, objs. rewrite fget_fset.
  apply map_eq. intros q. rewrite !lookup_fmap. destruct (decide (p = q)) as [->|Hq].
  - rewrite lookup_alter_eq. destruct (_ !! q) as [s|]; [|done]. cbn. by destruct (Hf s) as [-> ->].
  - by rewrite lookup_alter_ne.
Qed.

Context (Hrest : rest_quiet).

(** Walks through a command made of the ones above. *)
Ltac quiet_step :=
  match goal with
  | |- preserves _ (_ ≫= _) => apply preserves_bind; [|intros]
  | |- preserves _ (mret _) => apply preserves_ret
  | |- preserves _ (undef _) => apply preserves_undef
  | |- preserves _ (lift _) => apply preserves_lift
  | |- preserves _ (forM_ _ _) => apply preserves_forM; intros
  | |- preserves _ party => apply quiet_read
  | |- preserves _ (set_party _) => apply quiet_set_party
  | |- preserves _ (sess_msg _) => apply preserves_bind; [apply quiet_get|intros; apply preserves_ret]
  | |- preserves _ (asyncSend _ _) => apply preserves_ret
  | |- preserves _ (sess_id _) => apply Hrest
  | |- preserves _ (setId _ _) => apply Hrest
  | |- preserves _ (sess_close _) => apply Hrest
  | |- preserves _ (let _ := _ in _) => cbv zeta
  | |- preserves _ (match ?x with _ => _ end) => destruct x
  end.
Ltac quiet := repeat quiet_step.

Lemma quiet_reply sess id r data n : preserves quiet (reply uninit sess id r data n).
Proof. unfold reply. quiet. Qed.
Lemma quiet_call_setRoom ch room : preserves quiet (call_setRoom (R := R) ch room).
Proof. unfold call_setRoom. quiet. Qed.
Lemma quiet_leave_room ch c : preserves quiet (leave_room (R := R) ch c).
Proof. unfold leave_room. quiet. Qed.

Ltac quiet_handler := quiet; try (apply quiet_reply || apply quiet_call_setRoom || apply quiet_leave_room).

Lemma quiet_ServerHandler_read msgId n sess owner :
  preserves quiet (ServerHandler_read (R := R) uninit uninit_body msgId n sess owner).
Proof.
  unfold ServerHandler_read, createUser, login, createParty, joinUser, party_nfMessage, nfMessage_body, nfEco, addRx, addTx.
  quiet_handler.
Qed.
Lemma quiet_ServerHandler_error e sess owner : preserves quiet (ServerHandler_error (R := R) e sess owner).
Proof. unfold ServerHandler_error, deleteSession. quiet_handler. Qed.

#[local] Existing Instance server_handler.

Lemma quiet_async_read p t size : preserves quiet (lg_async_read p t size).
Proof.
  apply preserves_bind; [apply quiet_get|]. intros s. destruct (decide _); by apply quiet_set.
Qed.
Lemma quiet_report p ec : preserves quiet (lg_report p ec).
Proof.
  apply preserves_bind; [apply quiet_get|]. intros s. apply preserves_bind; [|intros; apply preserves_ret].
  destruct (lg_handler s); [apply quiet_ServerHandler_error|apply preserves_undef].
Qed.

Lemma quiet_connected p ec : preserves quiet (lg_complete_connect p ec).
Proof.
  apply preserves_bind; [apply quiet_get|]. intros s. destruct (lg_connects s); [apply preserves_ret|].
  apply preserves_bind; [by apply quiet_set|]. intros _. unfold LegacySession_handleConnect.
  destruct (is_error ec); [apply quiet_report|].
  apply preserves_bind; [apply quiet_get|]. intros s'. apply preserves_bind; [|intros; apply preserves_ret].
  destruct (lg_handler s'); [apply preserves_ret|apply preserves_undef].
Qed.
Lemma quiet_received p ec bs : preserves quiet (lg_complete_read p ec bs).
Proof.
  apply preserves_bind; [apply quiet_get|]. intros s. destruct (lg_reads s) as [|op ops]; [apply preserves_ret|].
  apply preserves_bind; [apply preserves_lift|]. intros m. apply preserves_bind; [by apply quiet_set|]. intros _.
  destruct (lo_target op); unfold LegacySession_handleReadHeader, LegacySession_handleReadBody;
    (destruct (is_error ec); [apply quiet_report|]); (apply preserves_bind; [apply quiet_get|]); intros s'.
  - destruct (checkHeader _); apply quiet_async_read.
  - apply preserves_bind; [by apply quiet_set|]. intros _. apply preserves_bind; [|intros; apply quiet_async_read].
    destruct (lg_handler s'); [apply quiet_ServerHandler_read|apply preserves_undef].
Qed.
End Party.

(** ** Property *)

(** What the network does to the sessions. *)
Definition from_network (e : lg_event) : bool := match e with Lg_send _ _ => false | _ => true end.

(** C40: the party server never answers.  Whatever connects and reads complete on
    its sessions - any clients, any bytes, any errors -, when its handlers have
    run no session has anything queued or being written that it had not
    before: every reply, and every message to a party, goes through
    [asyncSend(Msg&)], whose body is empty. *)
Theorem party_server_silent {W R : Type} `{PP : !PartyProtocol} `{SR : !SessionRest W} `{RO : !RoomOps R}
    `{SE : !SetRoom} `{FL : !Field W lg_heap} `{FP : !Field W (Party R)} `{SPL : !Separate FP FL}
    (uninit : Msg) (uninit_body : list Z) (es : list lg_event) (w w' : W) :
  (∀ Q, rest_quiet (W := W) Q) → forallb from_network es = true →
  forM_ es (lg_run (SH := server_handler (R := R) uninit uninit_body)) w = Ok tt w' →
  outgoing w' = outgoing w.
Proof.
  intros Hrest. revert w. induction es as [|e es IH]; intros w Hes Hr; [by injection Hr as <-|].
  apply andb_true_iff in Hes as [He Hes]. cbn in Hr. unfold mbind, M_bind in Hr.
  destruct (lg_run _ w) as [[] w1| |] eqn:E; [|done..]. rewrite (IH w1 Hes Hr).
  destruct e as [p ec|p ec bs|]; [| |done].
  - by eapply (quiet_connected uninit uninit_body (outgoing w) (Hrest _) p ec w).
  - by eapply (quiet_received uninit uninit_body (outgoing w) (Hrest _) p ec bs w).
Qed.

(** ** An instance at a concrete input *)

#[local] Existing Instance demo_protocol.
#[local] Existing Instance demo_room_ops.
#[local] Existing Instance demo_setRoom.

(** Sessions with names kept next to them. *)
Record party_process := mkPartyProcess {
  lp_sessions : lg_heap;
  lp_party : Party Room;
  lp_names : gmap ptr (list Z)
}.
#[export, refine] Instance lp_field_sessions : Field party_process lg_heap :=
  {| fget w := lp_sessions w; fset x w := mkPartyProcess x (lp_party w) (lp_names w) |}.
Proof. all: by try intros []. Defined.
#[export, refine] Instance lp_field_party : Field party_process (Party Room) :=
  {| fget w := lp_party w; fset x w := mkPartyProcess (lp_sessions w) x (lp_names w) |}.
Proof. all: by try intros []. Defined.
#[export] Instance lp_separate : Separate lp_field_party lp_field_sessions.
Proof. by split. Qed.

#[local] Instance lp_rest : SessionRest party_process := {|
  rest_new _ := mret 0%nat;
  rest_id p := λ w, Ok (default [] (lp_names w !! p)) w;
  rest_setId p x := λ w, Ok tt (mkPartyProcess (lp_sessions w) (lp_party w) (<[p := x]> (lp_names w)));
  rest_close _ := mret tt;
  rest_setOwner _ _ := mret tt;
  rest_tx _ := mret 0;
  rest_rx _ := mret 0;
  rest_expired _ := mret true;
  rest_tmr_start _ := mret tt
|}.

(** Session 1 waits for a header; the client logs in as "Z". *)
Definition party_process0 : party_process :=
  mkPartyProcess {[1%nat := lg_demo SINGLE_ASIO 0 [mkLgOp Lg_header 8 true]]} demo_party ∅.
Definition login_events : list lg_event :=
  [Lg_received 1%nat Success [1; 0; 2; 0; 3; 0; 0; 0]; Lg_received 1%nat Success [90; 0]].

(** The login is processed and not answered. *)
Lemma party_server_silent_witness :
  ∃ w', forM_ login_events (lg_run (SH := server_handler (R := Room) stack_msg stack_body)) party_process0 = Ok tt w' ∧
    is_Some (g_characters (lp_party w') !! [90]) ∧
    outgoing w' = {[1%nat := ([], [])]}.
Proof.
  assert (H : ∃ w', forM_ login_events (lg_run (SH := server_handler (R := Room) stack_msg stack_body)) party_process0 =
    Ok tt w' ∧ bool_decide (is_Some (g_characters (lp_party w') !! [90])) = true).
  { eexists. split; [vm_compute; reflexivity|]. vm_compute. reflexivity. }
  destruct H as (w' & Hr & Hn). exists w'. split; [exact Hr|]. split; [by apply bool_decide_eq_true in Hn|].
  rewrite (party_server_silent (R := Room) stack_msg stack_body login_events party_process0 w').
  - vm_compute. reflexivity.
  - intros Q. split_and!.
    + intros p w a w1 Hw [= _ <-]. exact Hw.
    + intros p x w a w1 Hw [= _ <-]. exact Hw.
    + intros p. apply preserves_ret.
  - reflexivity.
  - exact Hr.
Defined.
