(* ===== verification/LegacyServer.v ===== *)
(** * The older server (Src/TcpServer.h and Src/TcpServer.cpp behind [#if 0])

    What the party server does not call of the older [TcpServer]: its two
    constructors, the accept handler, and the timer that logs once a minute the
    rates at which bytes were received and sent, in double precision
    ([SpecFloat]).  Its sessions and its two counters are
    the members of [Party] that the party server's handlers use.  Its
    [startAccept], and the [start] and [setOwner] of its sessions, are gone
    from the source; they are the parameters [AcceptRest]. *)
From Stdlib Require Import Floats.SpecFloat.
From S2P Require Import Prelude Msg Session IfSession LegacySession IoServicePool PartyServer.

(** ** State *)

(** The timer: when it expires, in seconds, and how many handlers wait. *)
Record LegacyServer := mkLegacyServer {
  m_ios_index : option nat;          (* the service of the pool, [None] for a given one *)
  m_numThreads : Z;                  (* size_t *)
  m_ioMode : IoMode;
  m_tmr_at : Z;
  m_tmr_waits : nat;
  m_handler : option ptr;
  m_prevRx : Z;                      (* uint64_t *)
  m_prevTx : Z
}.

Section Setters.
Implicit Types v : LegacyServer.
Definition lv_set_tmr at_ f v := mkLegacyServer (m_ios_index v) (m_numThreads v) (m_ioMode v) at_
  (f (m_tmr_waits v)) (m_handler v) (m_prevRx v) (m_prevTx v).
Definition lv_set_waits f v := mkLegacyServer (m_ios_index v) (m_numThreads v) (m_ioMode v) (m_tmr_at v)
  (f (m_tmr_waits v)) (m_handler v) (m_prevRx v) (m_prevTx v).
Definition lv_set_prev rx tx v := mkLegacyServer (m_ios_index v) (m_numThreads v) (m_ioMode v) (m_tmr_at v)
  (m_tmr_waits v) (m_handler v) rx tx.
End Setters.

(** [TcpServer(io_service&, const tcp::endpoint&, size_t, SessionHandlerPtr)] *)
Definition LegacyServer_single (numThreads : Z) (handler : option ptr) : LegacyServer :=
  mkLegacyServer None numThreads SINGLE_ASIO 0 0 handler 0 0.

(** [TcpServer(const tcp::endpoint&, size_t, SessionHandlerPtr, IoServicePoolPtr)] *)
Definition LegacyServer_pool (numThreads : Z) (handler : option ptr) (pool : IoServicePool) :
    cres (LegacyServer * IoServicePool) :=
  '(k, pool) ← getIoService pool;
  Val (mkLegacyServer (Some k) numThreads MULTI_ASIO 0 0 handler 0 0, pool).

(** ** Rates

    [double(n)*8/60/1024/1024], each operation rounded to the nearest double. *)
Definition double (n : Z) : spec_float := binary_normalize 53 1024 n 0 false.
Definition d_mul : spec_float → spec_float → spec_float := SFmul 53 1024.
Definition d_div : spec_float → spec_float → spec_float := SFdiv 53 1024.
Definition rate (n : Z) : spec_float :=
  d_div (d_div (d_div (d_mul (double n) (double 8)) (double 60)) (double 1024)) (double 1024).

(** ** Operations *)

Class AcceptRest (W : Type) := {
  ar_startAccept : M W unit;
  ar_setOwner : ptr → M W unit;      (* session->setOwner( thisObj() ) *)
  ar_start : ptr → M W unit          (* session->start() *)
}.

Section Operations.
Context {W R : Type} `{FP : !Field W (Party R)} `{FV : !Field W LegacyServer} `{FL : !Field W lg_heap} `{AR : !AcceptRest W}.

(** [void handleAccept(TcpSessionPtr session, const error_code& error)] *)
Definition handleAccept (session : ptr) (error : error_code) : M W unit :=
  (if negb (is_error error) then
     set_party (R := R) (set_sessions (λ l, {[session]} ∪ l)) ;;
     ar_setOwner session ;;
     ar_start session ;;
     LegacySession_asyncRead session
   else mret tt) ;;
  ar_startAccept.

(** [uint64_t rx()], [tx()], [prevRx()], [prevTx()] *)
Definition rx : M W Z := g ← party (R := R); mret (sv_rx g).
Definition tx : M W Z := g ← party (R := R); mret (sv_tx g).
Definition prevRx : M W Z := v ← fread (T := LegacyServer); mret (m_prevRx v).
Definition prevTx : M W Z := v ← fread (T := LegacyServer); mret (m_prevTx v).

(** [m_tmr.expires_from_now(seconds(60)); m_tmr.async_wait(...);] at the time
    [now].  The handlers that waited are run, too: [cbTmr] is not told why. *)
Definition arm_tmr (now : Z) : M W unit := fmodify (lv_set_tmr (now + 60) S).

(** [void startTmr()] *)
Definition server_startTmr (now : Z) : M W unit := arm_tmr now.

(** The arguments of [LOG(L_FAT, "[%s] avg rx[%f]Gbps tx[%f]Gbps", ...)]; the log
    before it, of the number of sessions, changes nothing and is left out. *)
Definition cbTmr_log : M W (spec_float * spec_float) :=
  g ← party (R := R);
  v ← fread (T := LegacyServer);
  mret (rate (u64 (sv_rx g - m_prevRx v)), rate (u64 (sv_tx g - m_prevTx v))).

(** What follows the log; it reads the counters again. *)
Definition cbTmr_rest (now : Z) : M W unit :=
  g ← party (R := R);
  v ← fread (T := LegacyServer);
  fmodify (lv_set_prev (sv_rx g) (m_prevTx v)) ;;
  g ← party (R := R);
  v ← fread (T := LegacyServer);
  fmodify (lv_set_prev (m_prevRx v) (sv_tx g)) ;;
  v ← fread (T := LegacyServer);
  if m_tmr_at v <=? now then arm_tmr now else mret tt.

(** [void cbTmr()] at the time [now]: what it logs.  [others]: what the other
    threads of the process do between the log and the assignments. *)
Definition cbTmr (others : M W unit) (now : Z) : M W (spec_float * spec_float) :=
  logged ← cbTmr_log;
  others ;;
  cbTmr_rest now ;;
  mret logged.

(** A handler that waits for the timer runs: what it logs. *)
Definition complete_tmr (others : M W unit) (now : Z) : M W (option (spec_float * spec_float)) :=
  v ← fread (T := LegacyServer);
  match m_tmr_waits v with
  | O => mret None
  | S _ => fmodify (lv_set_waits Nat.pred) ;; logged ← cbTmr others now; mret (Some logged)
  end.

(** A minute: the handlers of the sessions count bytes received and sent, in any
    portions, and the timer fires at [mn_at]; [mn_rx_in] and [mn_tx_in] are
    counted while its handler runs, after the log. *)
Record minute_of := mkMinute {
  mn_rx : list Z; mn_tx : list Z; mn_rx_in : list Z; mn_tx_in : list Z; mn_at : Z
}.
Fixpoint count_all (count : Z → M W unit) (ns : list Z) : M W unit :=
  match ns with [] => mret tt | n :: ns => count n ;; count_all count ns end.
Definition count_both (rxs txs : list Z) : M W unit :=
  count_all (addRx (R := R)) rxs ;; count_all (addTx (R := R)) txs.
Definition minute (tr : minute_of) : M W (option (spec_float * spec_float)) :=
  count_both (mn_rx tr) (mn_tx tr) ;;
  complete_tmr (count_both (mn_rx_in tr) (mn_tx_in tr)) (mn_at tr).
Fixpoint minutes (trs : list minute_of) : M W (list (option (spec_float * spec_float))) :=
  match trs with
  | [] => mret []
  | tr :: trs => l ← minute tr; ls ← minutes trs; mret (l :: ls)
  end.
End Operations.

(** ** Properties *)

Section Theorems.
Context {W R : Type} `{FP : !Field W (Party R)} `{FV : !Field W LegacyServer} `{SVP : !Separate FV FP}.
Implicit Types (w : W) (v : LegacyServer) (g : Party R).

Definition pg w : Party R := fget w.
Definition lv w : LegacyServer := fget w.

Definition total (ns : list Z) : Z := foldr Z.add 0 ns.

(** The counters have been logged up to now, and one handler waits. *)
Definition counted w : Prop :=
  m_prevRx (lv w) = sv_rx (pg w) ∧ m_prevTx (lv w) = sv_tx (pg w) ∧ m_tmr_waits (lv w) = 1%nat.

(** A counter [fld] that [upd] adds to, and [other], which it leaves alone. *)
Lemma count_all_ok (upd : Z → Party R → Party R) (fld other : Party R → Z) ns w :
  (∀ n g, fld (upd n g) = u64 (fld g + u64 n)) → (∀ n g, other (upd n g) = other g) →
  ∃ g, count_all (λ n, set_party (upd n)) ns w = Ok tt (fset g w) ∧
    u64 (fld g) = u64 (fld (pg w) + total ns) ∧ other g = other (pg w).
Proof.
  intros Hf Ho. revert w. induction ns as [|n ns IH]; intros w.
  { exists (fget w). cbn. by rewrite fset_fget, Z.add_0_r. }
  destruct (IH (fset (upd n (pg w)) w)) as (g & Hr & Hx & Ht). unfold pg in Hx, Ht.
  rewrite fget_fset in Hx, Ht. exists g. cbn [count_all]. split_and!.
  - rewrite (bind_ok _ _ tt w (fset (upd n (pg w)) w)) by done. by rewrite Hr, fset_fset.
  - rewrite Hx, Hf. unfold wrapU. rewrite Zplus_mod_idemp_l, <- Z.add_assoc.
    by rewrite <- Zplus_mod_idemp_r, Zplus_mod_idemp_l, Zplus_mod_idemp_r.
  - by rewrite Ht, Ho.
Qed.

Lemma count_both_ok rxs txs w :
  ∃ g, count_both (R := R) rxs txs w = Ok tt (fset g w) ∧
    u64 (sv_rx g) = u64 (sv_rx (pg w) + total rxs) ∧ u64 (sv_tx g) = u64 (sv_tx (pg w) + total txs).
Proof.
  unfold count_both.
  destruct (count_all_ok (λ n g, set_rx (u64 (sv_rx g + u64 n)) g) sv_rx sv_tx rxs w) as (g1 & Hr1 & Hx1 & Ht1); [done..|].
  rewrite (bind_ok _ _ _ _ _ Hr1).
  destruct (count_all_ok (λ n g, set_tx (u64 (sv_tx g + u64 n)) g) sv_tx sv_rx txs (fset g1 w))
    as (g2 & Hr2 & Hx2 & Ht2); [done..|].
  unfold pg in Hx2, Ht2. rewrite fget_fset in Hx2, Ht2. exists g2.
  split; [etransitivity; [exact Hr2|by rewrite fset_fset]|]. by rewrite Hx2, Ht1, Ht2.
Qed.

(** Executes reads and assignments of members of the process. *)
Ltac member_run := repeat first [rewrite bind_ret | rewrite bind_fread | rewrite bind_fmodify | rewrite bind_assoc].

Lemma cbTmr_ok others g now w :
  others w = Ok tt (fset g w) →
  cbTmr (R := R) others now w =
    Ok (rate (u64 (sv_rx (pg w) - m_prevRx (lv w))), rate (u64 (sv_tx (pg w) - m_prevTx (lv w))))
      (fset (let v := lv_set_prev (sv_rx g) (sv_tx g) (lv w) in
             if m_tmr_at (lv w) <=? now then lv_set_tmr (now + 60) S v else v) (fset g w)).
Proof.
  intros Ho. unfold cbTmr, cbTmr_log, cbTmr_rest, party. member_run. fold (pg w) (lv w).
  rewrite (bind_ok _ _ _ _ _ Ho). assert (Hv : fget (fset g w) = lv w) by apply (fget_fset_sep (Separate := SVP)).
  assert (Hg : ∀ v : LegacyServer, fget (fset v (fset g w)) = g).
  { intros v. rewrite (fget_fset_sep' (Separate := SVP)). apply fget_fset. }
  member_run. repeat first [rewrite Hv | rewrite Hg | rewrite (fget_fset (Field := FP)) | rewrite (fget_fset (Field := FV))
    | rewrite (fset_fset (Field := FV))]. cbn [m_tmr_at m_prevRx m_prevTx lv_set_prev].
  destruct (m_tmr_at (lv w) <=? now); [|done]. unfold arm_tmr. member_run. by rewrite !fget_fset, fset_fset.
Qed.

Lemma u64_sub a b n : u64 a = u64 (b + n) → u64 (a - b) = u64 n.
Proof.
  unfold wrapU. intros H. rewrite Zminus_mod, H, <- Zminus_mod. f_equal. lia.
Qed.

(** One minute: what is logged is the rate of what was counted before the log. *)
Lemma minute_ok tr w :
  counted w → m_tmr_at (lv w) <= mn_at tr →
  ∃ w', minute (R := R) tr w = Ok (Some (rate (u64 (total (mn_rx tr))), rate (u64 (total (mn_tx tr))))) w' ∧
    counted w' ∧ m_tmr_at (lv w') = mn_at tr + 60.
Proof.
  intros (Hrx & Htx & Hn) Hnow. unfold minute.
  destruct (count_both_ok (mn_rx tr) (mn_tx tr) w) as (g1 & Hr1 & Hx1 & Ht1). rewrite (bind_ok _ _ _ _ _ Hr1).
  set (w1 := fset g1 w). assert (Hv1 : lv w1 = lv w) by apply (fget_fset_sep (Separate := SVP)).
  set (w2 := fset (lv_set_waits Nat.pred (lv w)) w1).
  assert (Hv2 : lv w2 = lv_set_waits Nat.pred (lv w)) by apply fget_fset.
  assert (Hp2 : pg w2 = g1).
  { unfold w2, pg. rewrite (fget_fset_sep' (Separate := SVP)). apply fget_fset. }
  destruct (count_both_ok (mn_rx_in tr) (mn_tx_in tr) w2) as (g2 & Hr2 & _).
  unfold complete_tmr. rewrite bind_fread. fold (lv w1). rewrite Hv1, Hn, bind_fmodify. fold (lv w1). rewrite Hv1.
  fold w2. rewrite (bind_ok _ _ _ _ _ (cbTmr_ok _ g2 (mn_at tr) w2 Hr2)), Hp2, Hv2.
  cbn [m_tmr_at m_prevRx m_prevTx lv_set_waits].
  destruct (Z.leb_spec (m_tmr_at (lv w)) (mn_at tr)); [|lia]. eexists. split; [|split].
  - unfold mret, M_ret. rewrite (u64_sub _ _ (total (mn_rx tr))), (u64_sub _ _ (total (mn_tx tr))); [done|..].
    + by rewrite Ht1, Htx.
    + by rewrite Hx1, Hrx.
  - unfold counted, lv, pg. rewrite fget_fset, (fget_fset_sep' (Separate := SVP)), fget_fset.
    unfold lv in Hn. cbn. by rewrite Hn.
  - unfold lv. by rewrite fget_fset.
Qed.

(** The times at which the timer fires: no wait ends before the minute is over. *)
Fixpoint on_time (at_ : Z) (trs : list minute_of) : Prop :=
  match trs with [] => True | tr :: trs => at_ <= mn_at tr ∧ on_time (mn_at tr + 60) trs end.

(** C28: the statistics of the older server.  Once the timer is started it fires for
    ever: however many minutes pass, each with any number of sessions' handlers
    adding to the counters, every firing gives its log the rates, in double
    precision ([rate]; the log prints them with [%f]), of exactly the bytes
    received and sent since the assignments of the firing before - also when
    the 64-bit counters wrap in between - and waits again.  Bytes that other
    threads count after the log and before the assignments, which read the
    counters a second time, are in no log. *)
Theorem statistics_logged trs w :
  counted w → on_time (m_tmr_at (lv w)) trs →
  ∃ w', minutes (R := R) trs w =
      Ok ((λ tr, Some (rate (u64 (total (mn_rx tr))), rate (u64 (total (mn_tx tr))))) <$> trs) w' ∧
    counted w'.
Proof.
  revert w. induction trs as [|tr trs IH]; intros w Hw Hon; [by exists w|].
  destruct Hon as [Hnow Hon]. destruct (minute_ok tr w Hw Hnow) as (w1 & Hr & Hw1 & Hat).
  destruct (IH w1 Hw1) as (w' & Hr' & Hw'); [by rewrite Hat|].
  exists w'. split; [|done]. cbn [minutes]. by rewrite (bind_ok _ _ _ _ _ Hr), (bind_ok _ _ _ _ _ Hr').
Qed.

(** starting the timer twice.  The handler that waited is run at once, because
    setting the timer cancels its wait and it is not told; it logs, and since
    the timer has not expired it does not wait again: the second wait is the
    only one left. *)
Theorem restart_keeps_one_wait now w :
  m_tmr_waits (lv w) = O →
  ∃ w' l, (server_startTmr now ;; server_startTmr now ;; complete_tmr (R := R) (mret tt) now) w = Ok (Some l) w' ∧
    m_tmr_waits (lv w') = 1%nat ∧ m_tmr_at (lv w') = now + 60.
Proof.
  intros Hn. unfold server_startTmr, arm_tmr, complete_tmr.
  set (w2 := fset (lv_set_tmr (now + 60) S (lv_set_tmr (now + 60) S (lv w))) w).
  assert (Hv2 : lv w2 = lv_set_tmr (now + 60) S (lv_set_tmr (now + 60) S (lv w))) by apply fget_fset.
  set (w3 := fset (lv_set_waits Nat.pred (lv w2)) w2).
  assert (Hv3 : lv w3 = lv_set_waits Nat.pred (lv w2)) by apply fget_fset.
  rewrite !bind_fmodify, fget_fset, fset_fset. fold (lv w). fold w2. rewrite bind_fread. fold (lv w2).
  assert (Hw2 : m_tmr_waits (lv w2) = 2%nat) by (rewrite Hv2; cbn [m_tmr_waits lv_set_tmr]; by rewrite Hn).
  rewrite Hw2, bind_fmodify. fold (lv w2). fold w3.
  assert (Ho : (mret tt : M W unit) w3 = Ok tt (fset (pg w3) w3)) by (unfold pg; by rewrite fset_fget).
  rewrite (bind_ok _ _ _ _ _ (cbTmr_ok _ _ now w3 Ho)), Hv3, Hv2. cbn [m_tmr_at lv_set_waits lv_set_tmr].
  destruct (Z.leb_spec (now + 60) now); [lia|]. eexists _, _. split; [reflexivity|].
  assert (Hl : ∀ (v : LegacyServer) u, lv (fset v u) = v) by (intros; apply fget_fset).
  rewrite Hl. cbn [m_tmr_waits m_tmr_at lv_set_prev lv_set_waits lv_set_tmr]. by rewrite Hn.
Qed.
End Theorems.

(** ** Instances at concrete inputs *)

(** A process of an older server, with its tables. *)
Record server_process := mkServerProcess { sp_party : Party unit; sp_server : LegacyServer }.
#[export, refine] Instance sp_field_party : Field server_process (Party unit) :=
  {| fget w := sp_party w; fset x w := mkServerProcess x (sp_server w) |}.
Proof. all: by try intros []. Defined.
#[export, refine] Instance sp_field_server : Field server_process LegacyServer :=
  {| fget w := sp_server w; fset x w := mkServerProcess (sp_party w) x |}.
Proof. all: by try intros []. Defined.
#[export] Instance sp_separate : Separate sp_field_server sp_field_party.
Proof. by split. Qed.

(** Two bytes before the counter of received bytes wraps. *)
Definition server_process0 : server_process :=
  mkServerProcess (mkParty ∅ ∅ ∅ ∅ 0 ∅ (2 ^ 64 - 2) 7)
    (mkLegacyServer None 2 SINGLE_ASIO 60 1 None (2 ^ 64 - 2) 7).

(** Two minutes: 2^27 bytes in two portions, then 11; 5 more are lost. *)
Definition two_minutes : list minute_of :=
  [mkMinute [2 ^ 26; 2 ^ 26] [] [5] [] 60; mkMinute [] [11] [] [] 125].

Lemma statistics_logged_witness :
  ∃ w', minutes (R := unit) two_minutes server_process0 =
    Ok [Some (rate (2 ^ 27), rate 0); Some (rate 0, rate 11)] w' ∧ sv_rx (sp_party w') = 2 ^ 27 + 3 ∧
    (* 17.0666... *)
    rate (2 ^ 27) = S754_finite false 4803839602528529 (-48).
Proof.
  destruct (statistics_logged (R := unit) two_minutes server_process0) as (w' & Hr & Hx & _).
  - vm_compute. repeat split.
  - vm_compute. split; [|split]; intros [=] || exact I.
  - exists w'. split; [exact Hr|]. split; [|vm_compute; reflexivity]. vm_compute in Hr. injection Hr as <-. reflexivity.
Defined.

Lemma restart_keeps_one_wait_witness :
  ∃ w' l, (server_startTmr 5 ;; server_startTmr 5 ;; complete_tmr (R := unit) (mret tt) 5)
      (mkServerProcess (sp_party server_process0) (LegacyServer_single 2 None)) = Ok (Some l) w' ∧
    m_tmr_waits (sp_server w') = 1%nat ∧ m_tmr_at (sp_server w') = 65.
Proof.
  destruct (restart_keeps_one_wait (R := unit) 5 (mkServerProcess (sp_party server_process0) (LegacyServer_single 2 None)))
    as (w' & l & Hr & Hn & Ha); [reflexivity|].
  exists w', l. split; [exact Hr|]. split; [exact Hn|exact Ha].
Defined.
