(* ===== verification/WorldServer.v ===== *)
(** * The world server (server/WorldServer.h, WorldServer.cpp, main.cpp)

    What is left of the older server program: a [TcpServer] that is constructed
    and never started.  [start] and the three callbacks are empty or commented
    out, and so is everything [main] did with it. *)
From S2P Require Import Prelude Config Msg Session TcpSession IoServicePool TcpServer ServerProps Programs.

(** [m_ios] is a service of the server's pool; the two maps are never touched. *)
Record WorldServer := mkWorldServer { m_server : TcpServer; m_ios_ : nat }.

(** [WorldServer(const string name, const ServerConfig& config)] *)
Definition WorldServer_new (name : string) (config : ServerConfig) : cres WorldServer :=
  v ← TcpServer_new name config;
  '(k, pool) ← getIoService (sv_ioServicePool v);
  Val (mkWorldServer (sv_set_pool (λ _, pool) v) k).

(** [void start()] *)
Definition WorldServer_start (ws : WorldServer) : WorldServer := ws.

(** [void stop(const error_code& error, int sigNum)] *)
Definition WorldServer_stop (ws : WorldServer) : WorldServer :=
  mkWorldServer
    (sv_set_pool (λ pl, mkPool (alter ios_stop (m_ios_ ws) (m_ios pl)) (m_next pl)) (m_server ws)) (m_ios_ ws).

(** [openedHandler], [closedHandler], [messageHandler] and [onMessage] *)
Definition world_callback (ws : WorldServer) : WorldServer := ws.

(** [Character getCharacter(const int id)]: it has no [return]. *)
Definition world_getCharacter {A} (ws : WorldServer) (id : Z) : cres A := Bad UB_no_return.

(** [int main(int argc, char* argv[])] with the characters typed so far: it
    waits for one. *)
Definition world_main (options : option server_options) (typed : list Z) : main_status :=
  match options with
  | None => Main_ended (Main_returned 0)
  | Some o =>
      if so_help o then Main_ended (Main_returned 0)
      else if so_version o then Main_ended (Main_returned 0)
      else match typed with [] => Main_reading | _ :: _ => Main_ended (Main_returned 0) end
  end.

(** What can be called on it. *)
Inductive world_call := W_start | W_callback | W_stop.
#[export] Instance world_call_eq_dec : EqDecision world_call.
Proof. solve_decision. Defined.
Definition world_run (ws : WorldServer) (c : world_call) : WorldServer :=
  match c with
  | W_start => WorldServer_start ws
  | W_callback => world_callback ws
  | W_stop => WorldServer_stop ws
  end.

(** Only the first service is ever touched. *)
Lemma world_runs cs ws s0 ios :
  m_ios_ ws = O → m_ios (sv_ioServicePool (m_server ws)) = s0 :: ios →
  let ws' := foldl world_run ws cs in
  sv_state (m_server ws') = sv_state (m_server ws) ∧ sv_acceptor (m_server ws') = sv_acceptor (m_server ws) ∧
  sv_sessions (m_server ws') = sv_sessions (m_server ws) ∧
  ios_stopped <$> m_ios (sv_ioServicePool (m_server ws')) =
    (ios_stopped s0 || bool_decide (W_stop ∈ cs)) :: (ios_stopped <$> ios).
Proof.
  revert ws s0. induction cs as [|c cs IH]; intros ws s0 Hk Hios; cbn.
  { rewrite Hios. by rewrite orb_false_r. }
  assert (Hc : bool_decide (W_stop ∈ c :: cs) = bool_decide (c = W_stop) || bool_decide (W_stop ∈ cs)).
  { rewrite <- bool_decide_or. apply bool_decide_ext. rewrite elem_of_cons. naive_solver. }
  rewrite Hc. destruct c; cbn [world_run]; [by apply IH..|].
  destruct (IH (WorldServer_stop ws) (ios_stop s0)) as (H1 & H2 & H3 & H4); [done|cbn; by rewrite Hk, Hios|].
  rewrite H1, H2, H3, H4. cbn. by rewrite orb_true_r.
Qed.

(** ** Properties *)

(** a world server does not serve.  It is constructed for every session limit
    an [int] counts and every positive thread count; however often it is
    started, called back and stopped, in any order, its server has never
    listened: it is in its first state, without acceptor or session, and of
    the services of its pool a [stop] stops the first and never the others. *)
Theorem world_server_idle name config (cs : list world_call) :
  0 <= sc_maxSession config < 2 ^ 31 → 0 < sc_threadCount config →
  ∃ ws, WorldServer_new name config = Val ws ∧
    let v := m_server (foldl world_run ws cs) in
    sv_state v = Server_Ready ∧ sv_acceptor v = None ∧ sv_sessions v = ∅ ∧
    ios_stopped <$> m_ios (sv_ioServicePool v) =
      bool_decide (W_stop ∈ cs) :: replicate (Z.to_nat (sc_threadCount config) - 1) false.
Proof.
  intros Hm Ht.
  destruct (getIoService_ok 0 (IoServicePool_new (sc_threadCount config))) as (pool & Hg & Hios & _).
  { unfold next_is. rewrite m_next_new, m_ios_new, length_replicate. split; [lia|by left]. }
  eexists. unfold WorldServer_new. rewrite TcpServer_new_ok by done. cbn [mbind cres_bind sv_ioServicePool].
  rewrite Hg. split; [reflexivity|]. cbn zeta. rewrite m_ios_new in Hios.
  destruct (Z.to_nat (sc_threadCount config)) as [|n] eqn:En; [lia|].
  match goal with |- context [foldl world_run ?ws cs] =>
    destruct (world_runs cs ws _ _ eq_refl Hios) as (H1 & H2 & H3 & H4) end.
  rewrite H1, H2, H3, H4. cbn. by rewrite fmap_replicate, Nat.sub_0_r.
Qed.

Lemma world_server_idle_witness :
  ∃ ws, WorldServer_new "world" (mkServerConfig 2 4 false 8 1024) = Val ws ∧
    sv_acceptor (m_server (foldl world_run ws [W_start; W_stop])) = None ∧
    ios_stopped <$> m_ios (sv_ioServicePool (m_server (foldl world_run ws [W_start; W_stop]))) = [true; false].
Proof.
  destruct (world_server_idle "world" (mkServerConfig 2 4 false 8 1024) [W_start; W_stop]) as (ws & Hn & _ & Ha & _ & Hi).
  - vm_compute. split; congruence.
  - vm_compute. reflexivity.
  - exists ws. split; [exact Hn|]. split; [exact Ha|exact Hi].
Defined.
